(* ===== verification/_CoqProject ===== *)
-Q . S2P
Prelude.v
Simulation.v
Keyed.v
RustStd.v
Models.v
Jwt.v
ClaimPolicy.v
Passwords.v
Totp.v
Database.v
DatabaseFacts.v
DbOps.v
SqlServers.v
PgDatabase.v
MyDatabase.v
MySim.v
MyDatabaseFacts.v
Toy.v
DatabaseSpec.v
PgSim.v
PgDatabaseSpec.v
MyDatabaseSpec.v
AdminApi.v
AdminApiFacts.v
AdminApiSpec.v
CredentialSpec.v
AppAuth.v
AppAuthSpec.v
K8sSpec.v
TokenSpec.v
Sessions.v
SessionSpec.v
Jwks.v
SessionToken.v
Middleware.v
Login.v
ToyLogin.v
JwksSpec.v
LoginSpec.v
CertifySpec.v
TotpService.v
Saml.v
ToySaml.v
SamlStore.v
SamlSso.v
ToySso.v
SamlSpec.v
SamlStoreSpec.v
SamlSsoSpec.v
Redis.v
RedisSpec.v
Postgres.v
MySqlStores.v
PostgresSpec.v
MySqlStoresSpec.v
Transactions.v
TransactionsFacts.v
TransactionsSpec.v
Routes.v
App.v
ToyApp.v
AppSpec.v
Parameters.v
Bootstrap.v
ToyStart.v
BootstrapSpec.v
StartSpec.v
MySqlStartSpec.v
Process.v
StoresSpec.v
Client.v
ClientSpec.v
ClientServerSpec.v
ToyClient.v
