(* ===== verification/Prelude.v ===== *)
(** * The Cosmian authentication server: a verification development

    The program (a Rust workspace) is an authentication server: it keeps realms, credentials
    and administrators in an SQL store, logs clients in (password, bearer token of an identity
    provider, TOTP second factor), keeps their sessions behind a signed cookie, certifies
    session claims, issues renewable tokens to applications (AppRole, Kubernetes service
    accounts), and signs users in through SAML identity providers; an HTTP client speaks to it.
    This library translates that logic from the sources under [src/] and proves what makes it
    correct.

    ** Parts, and where they are

    Common ground
    - [Prelude.v] (this file): results, the state-and-error monad [M], its weakest precondition
      [wp], the predicates [reads] (changes no state) and [ensures] (relates the states around a
      run) with their rules and automation, and generic lemmas.
    - [Simulation.v]: simulation of one computation of [M] by another over a relation of their
      states, and its rules.  [Keyed.v]: a table keyed by what a server compares of its primary
      key against the plain table, lookup, insertion, update, deletion and filtering.
    - [RustStd.v]: what the sources use of Rust's standard library: [i64] arithmetic with wrap
      around, string functions, [IpAddr] parsing, UTF-8 validation, ordered listings, serde as
      an interface with its round-trip law.
    - [Models.v], [ClaimPolicy.v] ([client/src/models], [params], [error]): shared records and
      errors; the flat claim objects and the policy on extra claim names.
    - [Jwt.v]: the [jsonwebtoken] crate as the callers see it (parameters).
    - [Passwords.v], [Totp.v] ([server/src/database/passwords.rs], [server/src/totp.rs]).

    Credential store and administration
    - [Database.v] ([server/src/database]): the tables of the SQLite backend and every operation
      of the [Database] trait.  [DatabaseFacts.v] has its integrity invariant [db_wf],
      [DatabaseSpec.v] its properties.  [DbOps.v] has the operations of the trait as data, to
      speak of runs, and what the comparisons of two servers share.
    - [SqlServers.v]: what PostgreSQL and MySQL do that SQLite does not: texts they refuse, sums
      of BIGINT that fail, column lengths, collations.
    - [PgDatabase.v] ([database/impls/postgres.rs]): the tables of the PostgreSQL backend, with
      their own column types, and every operation; [PgSim.v] relates its operations to those of
      SQLite one by one, [PgDatabaseSpec.v] over runs.
    - [MyDatabase.v] ([database/impls/mysql.rs]): the tables of the MySQL backend, keyed by what
      the collation compares, and every operation; [MySim.v] has the relation to the tables of
      SQLite, [MyDatabaseFacts.v] takes the operations one by one, [MyDatabaseSpec.v] runs.
    - [AdminApi.v] ([server/src/server/endpoints/{mod,super_admins,admin,realms,totp}*.rs]): the
      authorisation rules and every administration handler.  [AdminApiFacts.v] says what each
      can reach; [AdminApiSpec.v], [CredentialSpec.v] have the properties.
    - [AppAuth.v] ([endpoints/{approle,kubernetes,auth_token}.rs], [middleware/app_token_extract.rs]):
      application tokens and logins; [AppAuthSpec.v], [TokenSpec.v], [K8sSpec.v].
    - [TotpService.v] ([middleware/totp.rs]): the TOTP service object, and its agreement with the
      endpoints.

    Sessions and login
    - [Sessions.v] ([server/src/session], [endpoints/sessions_endpoints.rs]): the [SessionStore]
      interface as a class, its SQLite instance, the endpoints over any instance;
      [SessionSpec.v].
    - [SessionToken.v] ([session/{jwt,cookies}.rs]): session tokens and cookies, and the laws
      [TokenLaws] asked of the token and cookie crates.
    - [Jwks.v] ([middleware/jwt/jwks.rs]): the key set cache; [JwksSpec.v].
    - [Middleware.v] ([server/src/middleware]): the request pipeline.  A service maps the
      extensions of a request to a computation on the server state (store, key cache, sessions);
      a middleware maps services to services.
    - [Login.v] ([endpoints/client_endpoints.rs], the scopes of [server/auth_verifier.rs]):
      login, whoami, certify and the stacks they are mounted behind; [LoginSpec.v],
      [CertifySpec.v].

    SAML sign-on
    - [Saml.v] ([server/src/saml/{params_validation,identity_mapping}.rs]): a realm's SAML
      settings and the identity of an assertion; [SamlSpec.v].
    - [SamlStore.v] ([saml/request_store.rs], [saml/impls/sqlite.rs]): the [SamlRequestStore]
      interface as a class, its SQLite instance, and what sign-on relies on ([SamlStoreLaws]);
      [SamlStoreSpec.v] discharges the laws for SQLite and proves single use from them.
    - [SamlSso.v] ([saml/{endpoints,response_validation,authn_request,sp_metadata,
      sp_signing_key}.rs]): the sign-on endpoints over any request store and session store;
      [SamlSsoSpec.v].

    Other backends of the session and request stores, as instances of the same two interfaces
    - [Redis.v] ([session/impls/redis.rs], [saml/impls/redis.rs]): the Redis commands the server
      sends and the stores built on them; [RedisSpec.v].
    - [Postgres.v] ([session/impls/postgres.rs], [saml/impls/postgres.rs]); [PostgresSpec.v].
    - [MySqlStores.v] ([session/impls/mysql.rs], [saml/impls/mysql.rs]); [MySqlStoresSpec.v].
    - [StoresSpec.v]: what holds of all of them, through the interfaces.
    - [Transactions.v]: the operations that are transactions of several statements
      ([consume_secret_id] and, on MySQL, [take_pending_request]) as concurrent requests that
      interleave statement by statement, take the locks of the servers row by row, and can be
      given up while they wait; [TransactionsFacts.v], [TransactionsSpec.v].

    The assembled server and its client
    - [Routes.v] ([server/auth_verifier.rs]): the scopes, their middlewares and resources as
      data, and the search for the resource of a request.
    - [App.v]: the extractors, the handler of each route behind the middlewares of its scope,
      and the answer to a request; [AppSpec.v].
    - [Client.v] ([client/src/client]): every call of the HTTP client, over an interface for what
      sends requests; [ClientSpec.v] (against the routes), [ClientServerSpec.v] (client and
      server together).

    Start-up
    - [Parameters.v] ([server/parameters], [session/jwt.rs], [saml/sp_signing_key.rs],
      [tls/openssl_config.rs]): what a start reads of its configuration, the keys, the published
      key set, and the settings given to OpenSSL.
    - [Bootstrap.v] ([database/factory.rs], [session/factory.rs], [saml/factory.rs],
      [server/dev_seed.rs], [prepare_auth_verifier]): the steps of a start, over an interface for
      the credential store ([DatabaseStore]) that SQLite, PostgreSQL and MySQL implement;
      [BootstrapSpec.v] (the development seed), [StartSpec.v] (the start), [MySqlStartSpec.v] (a
      start on MySQL).
    - [Process.v] ([main.rs], [tls/rustls_config.rs], [tls/mod.rs]): the entry of the process, the
      [rustls] build, and the client certificate each TLS build keeps with a connection.

    [Toy.v], [ToyLogin.v], [ToySaml.v], [ToySso.v], [ToyApp.v], [ToyStart.v], [ToyClient.v]:
    concrete libraries that satisfy the laws, and concrete states, for the witnesses.

    ** How the code is rendered

    A handler is a function of its request, its clock readings and its random values to [M]: it
    answers a result and the state after it, also when it fails.  One SQL statement is one atomic
    step; the statements of an operation are a sequence and those before a failing one stay
    executed, as outside a transaction.  Foreign keys are enforced, which is the default of the
    [sqlx] SQLite driver; a query without ORDER BY answers in the order of the map that holds
    the table, and what is compared between two servers is the answer up to that order.
    Requests are modelled one at a time; that this is enough where an operation is a
    transaction of several statements is the subject of [Transactions.v].  [i64] sums computed in Rust wrap as in a
    release build; sums inside SQL text are not wrapped: SQLite stores a value that no longer
    decodes ([Database.column_i64]), the others refuse the statement
    ([SqlServers.bigint_add]).  Log output, CORS and the [Zeroizing] wrappers have
    no counterpart.  The SQL stores read the clock in seconds; the SAML part and Redis, whose
    keys expire in between, read it in nanoseconds ([SamlStore.timestamp] rounds down to the
    second).  A Redis operation takes place at one instant.  The guards of the key cache's lock
    appear only where one outlives its statement ([Jwks.remove_stale_entries]); there the
    lock is part of the state and [None] is a call that does not return: it panics or blocks.

    Third-party code is a parameter: Argon2 ([Argon2]), TOTP ([TotpRs]), JSON codecs ([Serde],
    [SerdeValue], [RequestJson], [ResponseJson]), SQL error texts ([Sqlx]), what a PostgreSQL
    JSONB column and collation do ([PgLibs]), strict mode and collation of a MySQL server
    ([MySql]), its JSON columns and the column types its driver decodes ([MyServer]), tokens, cookies and digests ([TokenLibs], [AppLibs], [JwtLibs], [Sha256],
    [Base64]), the [samael], [url], X.509 and OpenSSL crates ([SamlLibs], [SsoLibs]), Redis error
    texts ([RedisLib]), Actix's decoding of paths, forms and queries ([Actix]), the [reqwest],
    [cookie_store] and [url] crates of the client ([Reqwest], [CookieJar], [UrlTarget]), files,
    environment, PEM parsers, connecting and binding at start ([Surroundings]), the TLS acceptor
    ([OpenSsl], [RustlsLib]), the network ([Transport], [Render]), downloads (a function argument), the token bucket of the
    rate limiter (its verdict).  What the theorems need of them is in the classes named [...Laws]
    and in [HexCollation], which the toy libraries satisfy.  The validation of SAML
    parameters, which exists with and without its feature, is the interface [SamlCheck], with
    the instances [AdminApi.saml_disabled] and [Saml.saml_enabled].

    Fuel appears in string functions only ([trim_start_matches], [trim], and the reader of
    character references in [SamlSsoSpec.v]), where it is the length of the string: each round
    removes at least one byte.

    ** What the theorems show

    - Who may change what: [AppSpec.changes_confined] (which routes of the assembled server can
      change which part of its state), [AdminApiSpec.realm_isolation] (a realm with its own
      administrator is out of reach of everybody else),
      [AdminApiSpec.realm_manageable_given_claims_correct] (the batch rule of the listings is
      the rule of the handlers).
    - The credential store: [DatabaseSpec.reachable_db_integrity] after any sequence of writes,
      the realm table as a finite map, creation and listing on every branch; and
      [PgDatabaseSpec.postgres_store_simulates_sqlite],
      [MyDatabaseSpec.mysql_store_simulates_sqlite]: any run on PostgreSQL or MySQL answers as
      on SQLite, under conditions on texts and ids that the statements spell out, and on MySQL up
      to the columns its driver does not decode; a server that refuses the schema has no table of
      Kubernetes roles, and every operation on them fails.
    - Login and sessions: only authenticated clients get a cookie ([LoginSpec.login_sound]),
      the cookie stands for that client, the SQLite session store refines an abstract one with an
      idle and an absolute lifetime ([SessionSpec.sqlite_sessions_refine_spec]), a session that
      is over stays over, bulk logout, certificates say no more than the session
      ([CertifySpec.certify_sound]).
    - SAML: what a successful sign-on went through ([SamlSsoSpec.saml_acs_sound]), that a sign-on
      that was started completes, the settings a server can hold, no replay, single use of
      requests, no open redirect, the mapped identity, markup.
    - Application authentication: what a successful login implies, use counts of secret ids, life
      and death of tokens; end to end through the client in
      [ClientServerSpec.app_token_lifecycle].
    - Client and server agree on the routes ([ClientSpec.client_calls_reach_handlers]).
    - Start-up: the first start on an empty database leaves an administrator that can sign in
      and administer ([StartSpec.first_start_admin_signs_in]); the published keys are those in
      use ([StartSpec.start_publishes_its_keys]); what the development seed adds, that it settles,
      and how little its administrator may do ([BootstrapSpec.v]); a start on MySQL fails
      ([MySqlStartSpec.mysql_start_refused]).  The [rustls] build trusts what parses of its CA file
      and keeps the wrong certificate of a client ([Process.rustls_config_of_files],
      [Process.peer_certificate_of_builds]).
    - Concurrency: interleaved transactions are serialisable, deadlocks and lock waits that are
      given up included, so that a secret id is never spent twice ([TransactionsSpec.v]).
    - Claims: accepted names are exactly those that can never be emitted twice.
    - The other backends: the request stores keep the promises sign-on relies on
      ([StoresSpec.saml_stores_keep_promises]); the PostgreSQL session store agrees with SQLite
      ([PostgresSpec.postgres_sessions_agree]) until a sum leaves BIGINT
      ([PostgresSpec.postgres_purge_blocked]); on MySQL no session is found again
      ([MySqlStoresSpec.mysql_sessions_lost]); a bound on the life of every session in Redis, and
      places where its keys do not do what the interfaces promise ([RedisSpec.v]).
    - Behaviour worth knowing before relying on it: the key cache after a rotation or a
      reconfiguration ([JwksSpec.v]), the reach of a session over realms and of the second factor
      ([LoginSpec.v]), what reading a session through the API gives away
      ([AppSpec.any_session_takes_over_any_other]), what deleting an administrator or disabling
      its second factor reaches ([AdminApiSpec.v]).

    ** What is not modelled

    The administration console (a browser program in another language), the decoding of the
    configuration file, log and proxy set-up, CORS, the schema statements of the stores (the
    tables are those they leave; the one MySQL refuses is modelled), and the
    build features [no_jwt_validation] and (absence of) [saml] at start.  A start either connects
    or fails; once connected, connections to a database or to Redis that fail are not modelled,
    nor is an expiry so far away that Redis refuses it. *)
From stdpp Require Export prelude tactics numbers strings list sorting gmap.

Declare Scope auth_scope.
Delimit Scope auth_scope with auth.

(** * Results *)

(** Rust's [Result<A, E>]. *)
Inductive Result (A E : Type) : Type :=
  | Ok (a : A)
  | Err (e : E).
Arguments Ok {A E} a.
Arguments Err {A E} e.

Definition is_ok {A E} (r : Result A E) : bool :=
  match r with Ok _ => true | Err _ => false end.

Definition map_ok {A B E} (f : A → B) (r : Result A E) : Result B E :=
  match r with Ok a => Ok (f a) | Err e => Err e end.

Definition map_err {A E F} (f : E → F) (r : Result A E) : Result A F :=
  match r with Ok a => Ok a | Err e => Err (f e) end.

Definition ok_or {A E} (e : E) (o : option A) : Result A E :=
  match o with Some a => Ok a | None => Err e end.

(** Sequencing of pure fallible code (the [?] operator outside any state). *)
Definition and_then {A B E} (r : Result A E) (k : A → Result B E) : Result B E :=
  match r with Ok a => k a | Err e => Err e end.

(** [if !b { return Err(e) }] *)
Definition ensure_r {E} (b : bool) (e : E) : Result () E := if b then Ok () else Err e.

(** [Option<Result<A, E>>::transpose]. *)
Definition transpose {A E} (o : option (Result A E)) : Result (option A) E :=
  match o with
  | None => Ok None
  | Some (Ok a) => Ok (Some a)
  | Some (Err e) => Err e
  end.

(** [iter().map(f).collect::<Result<Vec<_>, _>>()]: the first error wins. *)
Fixpoint try_map {A B E} (f : A → Result B E) (l : list A) : Result (list B) E :=
  match l with
  | [] => Ok []
  | x :: l' => and_then (f x) (λ y, map_ok (cons y) (try_map f l'))
  end.

(** Inversion of successful runs. *)
Lemma and_then_ok {A B E} (r : Result A E) (k : A → Result B E) b :
  and_then r k = Ok b ↔ ∃ a, r = Ok a ∧ k a = Ok b.
Proof. destruct r; simpl; naive_solver. Qed.
Lemma map_ok_ok {A B E} (f : A → B) (r : Result A E) b :
  map_ok f r = Ok b ↔ ∃ a, r = Ok a ∧ f a = b.
Proof. destruct r; simpl; naive_solver. Qed.
Lemma map_err_ok {A E F} (f : E → F) (r : Result A E) a : map_err f r = Ok a ↔ r = Ok a.
Proof. destruct r; simpl; naive_solver. Qed.
Lemma ok_or_ok {A E} (e : E) (o : option A) a : ok_or e o = Ok a ↔ o = Some a.
Proof. destruct o; simpl; naive_solver. Qed.
Lemma ensure_r_ok {E} b (e : E) u : ensure_r b e = Ok u ↔ b = true.
Proof. destruct b, u; simpl; naive_solver. Qed.
Lemma Ok_eq {A E} (a b : A) : @Ok A E a = Ok b ↔ a = b.
Proof. naive_solver. Qed.
Create HintDb results.
#[export] Hint Rewrite @and_then_ok @map_ok_ok @map_err_ok @ok_or_ok @ensure_r_ok @Ok_eq : results.

(** * State and errors

    An asynchronous handler that talks to a store is a state transformer that
    returns a [Result].  The state it reached is kept when it fails: there is no
    implicit rollback. *)

Definition M (S E A : Type) : Type := S → Result A E * S.

Section monad.
Context {S E : Type}.

Definition ret {A} (a : A) : M S E A := λ s, (Ok a, s).
Definition throw {A} (e : E) : M S E A := λ s, (Err e, s).
Definition bind {A B} (m : M S E A) (k : A → M S E B) : M S E B := λ s,
  match m s with
  | (Ok a, s') => k a s'
  | (Err e, s') => (Err e, s')
  end.
Definition of_result {A} (r : Result A E) : M S E A := λ s, (r, s).
Definition gets {A} (f : S → A) : M S E A := λ s, (Ok (f s), s).
Definition modify (f : S → S) : M S E unit := λ s, (Ok (), f s).

(** [for x in l { f(x)?; }] *)
Fixpoint for_each {A} (f : A → M S E unit) (l : list A) : M S E unit :=
  match l with
  | [] => ret ()
  | x :: l' => bind (f x) (λ _, for_each f l')
  end.
End monad.

(** A loop that collects: [for x in l { out.push(f(x)?) }]. *)
Fixpoint map_m {S E A B} (f : A → M S E B) (l : list A) : M S E (list B) :=
  match l with
  | [] => ret []
  | x :: l' => bind (f x) (λ y, bind (map_m f l') (λ ys, ret (y :: ys)))
  end.

(** [m.map_err(f)]. *)
Definition with_err {S E F A} (f : E → F) (m : M S E A) : M S F A := λ s,
  let '(r, s') := m s in (map_err f r, s').

Notation "'let*' x := m 'in' k" := (bind m (λ x, k))
  (at level 10, x pattern, m at level 100, k at level 200) : auth_scope.
Notation "m ;;; k" := (bind m (λ _, k))
  (at level 199, k at level 200, right associativity) : auth_scope.
Notation "'let?' x := r 'in' k" := (and_then r (λ x, k))
  (at level 10, x pattern, r at level 100, k at level 200) : auth_scope.
Open Scope auth_scope.

(** ** Weakest preconditions *)

Definition wp {S E A} (m : M S E A) (Q : Result A E → S → Prop) (s : S) : Prop :=
  Q (m s).1 (m s).2.

Section wp.
Context {S E : Type}.
Implicit Types s : S.

Lemma wp_run {A} (m : M S E A) Q s r s' : m s = (r, s') → wp m Q s → Q r s'.
Proof. unfold wp. by intros ->. Qed.

Lemma wp_intro {A} (m : M S E A) (Q : Result A E → S → Prop) s :
  (∀ r s', m s = (r, s') → Q r s') → wp m Q s.
Proof. unfold wp. destruct (m s) as [r s']; simpl. auto. Qed.

(** What a successful run establishes. *)
Lemma wp_ok {A} (m : M S E A) s a s' (Q : A → S → Prop) :
  m s = (Ok a, s') →
  wp m (λ r s', match r with Ok a => Q a s' | Err _ => True end) s → Q a s'.
Proof. unfold wp. by intros ->. Qed.

Lemma wp_mono {A} (m : M S E A) (Q Q' : Result A E → S → Prop) s :
  wp m Q s → (∀ r s', Q r s' → Q' r s') → wp m Q' s.
Proof. unfold wp. auto. Qed.

Lemma wp_ret {A} (a : A) (Q : Result A E → S → Prop) s : wp (ret a) Q s ↔ Q (Ok a) s.
Proof. done. Qed.

Lemma wp_throw {A} e (Q : Result A E → S → Prop) s : wp (throw e) Q s ↔ Q (Err e) s.
Proof. done. Qed.

Lemma wp_of_result {A} r (Q : Result A E → S → Prop) s : wp (of_result r) Q s ↔ Q r s.
Proof. done. Qed.

Lemma wp_gets {A} (f : S → A) (Q : Result A E → S → Prop) s :
  wp (gets f) Q s ↔ Q (Ok (f s)) s.
Proof. done. Qed.

Lemma wp_modify (f : S → S) (Q : Result unit E → S → Prop) s :
  wp (modify f) Q s ↔ Q (Ok ()) (f s).
Proof. done. Qed.

Lemma wp_bind {A B} (m : M S E A) (k : A → M S E B) Q s :
  wp (bind m k) Q s ↔
  wp m (λ r s', match r with Ok a => wp (k a) Q s' | Err e => Q (Err e) s' end) s.
Proof. unfold wp, bind. by destruct (m s) as [[a|e] s']. Qed.

Lemma wp_with_err {F A} (f : E → F) (m : M S E A) Q s :
  wp (with_err f m) Q s ↔ wp m (λ r s', Q (map_err f r) s') s.
Proof. unfold wp, with_err. by destruct (m s) as [r s']. Qed.

(** Loop rule: an invariant indexed by the elements still to be processed. *)
Lemma wp_for_each {A} (f : A → M S E unit) (I : list A → S → Prop)
    (Q : Result unit E → S → Prop) l s :
  I l s →
  (∀ x l' s, I (x :: l') s →
    wp (f x) (λ r s', match r with Ok _ => I l' s' | Err e => Q (Err e) s' end) s) →
  (∀ s, I [] s → Q (Ok ()) s) →
  wp (for_each f l) Q s.
Proof.
  intros HI Hstep Hend. revert s HI.
  induction l as [|x l IH]; intros s HI; simpl; [by apply wp_ret, Hend|].
  apply wp_bind. eapply wp_mono; [by apply Hstep|].
  intros [[]|e] s' H; [by apply IH|done].
Qed.

(** A computation that never writes. *)
Definition reads {A} (m : M S E A) : Prop := ∀ s, (m s).2 = s.

Lemma reads_ret {A} (a : A) : reads (ret a).
Proof. done. Qed.
Lemma reads_throw {A} e : reads (@throw S E A e).
Proof. done. Qed.
Lemma reads_of_result {A} (r : Result A E) : reads (of_result r).
Proof. done. Qed.
Lemma reads_gets {A} (f : S → A) : reads (gets f).
Proof. done. Qed.
Lemma reads_bind {A B} (m : M S E A) (k : A → M S E B) :
  reads m → (∀ a, reads (k a)) → reads (bind m k).
Proof.
  intros Hm Hk s. unfold bind. specialize (Hm s). destruct (m s) as [[a|e] s'].
  - simpl in Hm. subst. apply Hk.
  - done.
Qed.
Lemma reads_wp {A} (m : M S E A) (Q : Result A E → S → Prop) s :
  reads m → (∀ r, m s = (r, s) → Q r s) → wp m Q s.
Proof.
  intros Hm HQ. specialize (Hm s). unfold wp. destruct (m s) as [r s'] eqn:Hr.
  simpl in *. subst. by apply HQ.
Qed.
End wp.

Lemma reads_with_err {S E F A} (f : E → F) (m : M S E A) : reads m → reads (with_err f m).
Proof. intros Hm s. unfold with_err. specialize (Hm s). by destruct (m s). Qed.

Lemma reads_map_m {S E A B} (f : A → M S E B) l : (∀ x, reads (f x)) → reads (map_m f l).
Proof.
  intros Hf. induction l as [|x l IH]; simpl; [apply reads_ret|].
  apply reads_bind; [done|]. intros y. apply reads_bind; [done|]. intros ys. apply reads_ret.
Qed.

Create HintDb reads.
#[export] Hint Resolve reads_ret reads_throw reads_of_result reads_gets reads_bind
  reads_with_err reads_map_m : reads.

(** * What a computation does to the state

    [ensures R m]: whatever [m] answers, it relates the state before to the state after by
    the preorder [R].  With [R := preserve P] it is preservation of an invariant; with [R]
    an equality of a part of the state it is a frame property. *)
Definition ensures {S E A} (R : S → S → Prop) (m : M S E A) : Prop := ∀ s, R s (m s).2.
Definition preserve {S} (P : S → Prop) (s s' : S) : Prop := P s → P s'.
#[export] Instance preserve_preorder {S} (P : S → Prop) : PreOrder (preserve P).
Proof. split; [by intros s ?|]. intros s1 s2 s3 H1 H2 H. by apply H2, H1. Qed.
(** Agreement on a projection of the state. *)
Definition agree {S T} (f : S → T) (s s' : S) : Prop := f s = f s'.
#[export] Instance agree_preorder {S T} (f : S → T) : PreOrder (agree f).
Proof. split; [done|]. intros s1 s2 s3. unfold agree. by intros -> ->. Qed.

Section ensures.
Context {S E : Type} (R : S → S → Prop) `{!PreOrder R}.

Lemma ensures_reads {A} (m : M S E A) : reads m → ensures R m.
Proof. intros Hm s. by rewrite Hm. Qed.
Lemma ensures_modify (f : S → S) : (∀ s, R s (f s)) → ensures R (modify (E:=E) f).
Proof. intros H s. apply H. Qed.
Lemma ensures_bind {A B} (m : M S E A) (k : A → M S E B) :
  ensures R m → (∀ a, ensures R (k a)) → ensures R (bind m k).
Proof.
  intros Hm Hk s. unfold bind. specialize (Hm s). destruct (m s) as [[a|e] s']; [|done].
  etrans; [exact Hm|apply Hk].
Qed.
Lemma ensures_with_result {A B} (r : Result A E) (k : A → M S E B) :
  (∀ a, r = Ok a → ensures R (k a)) → ensures R (bind (of_result r) k).
Proof. intros Hk s. unfold bind, of_result. destruct r as [a|e]; [by apply Hk|done]. Qed.
(** A read whose result the continuation may rely on in the same state. *)
Lemma ensures_gets_bind {A B} (f : S → A) (k : A → M S E B) :
  (∀ s, R s (k (f s) s).2) → ensures R (bind (gets f) k).
Proof. intros Hk s. apply Hk. Qed.
Lemma ensures_for_each {A} (f : A → M S E ()) l :
  (∀ x, ensures R (f x)) → ensures R (for_each f l).
Proof.
  intros Hf. induction l as [|x l IH]; simpl; [by apply ensures_reads, reads_ret|].
  by apply ensures_bind.
Qed.
Lemma ensures_map_m {A B} (f : A → M S E B) l :
  (∀ x, ensures R (f x)) → ensures R (map_m f l).
Proof.
  intros Hf. induction l as [|x l IH]; simpl; [by apply ensures_reads, reads_ret|].
  apply ensures_bind; [done|]. intros y. apply ensures_bind; [done|]. intros ys.
  apply ensures_reads, reads_ret.
Qed.
End ensures.
Lemma ensures_with_err {S E F A} (R : S → S → Prop) (f : E → F) (m : M S E A) :
  ensures R m → ensures R (with_err f m).
Proof. intros Hm s. unfold with_err. specialize (Hm s). by destruct (m s). Qed.

(** Split the branches of a read-only computation. *)
Ltac reads_step :=
  lazymatch goal with
  | |- reads (bind _ _) => apply reads_bind; [|intros ?]
  | |- reads (with_err _ _) => apply reads_with_err
  | |- reads (map_m _ _) => apply reads_map_m; intros ?
  | |- reads (match ?x with _ => _ end) => destruct x
  | |- reads _ => solve [eauto with reads]
  end.
Ltac solve_reads := repeat reads_step.

(** One symbolic execution step of a [wp] goal. *)
Ltac wp_step :=
  first
    [ rewrite wp_bind | rewrite wp_ret | rewrite wp_throw | rewrite wp_of_result
    | rewrite wp_gets | rewrite wp_modify | rewrite wp_with_err ]; cbn [map_err map_ok].
Ltac wp_steps := repeat wp_step.

(** A duplicate-free list with exactly one element. *)
Lemma NoDup_singleton_eq {A} (l : list A) a : NoDup l → (∀ x, x ∈ l ↔ x = a) → l = [a].
Proof.
  intros Hnd Hl. symmetry. apply Permutation_singleton_l.
  apply NoDup_Permutation; [apply NoDup_singleton|done|].
  intros x. by rewrite Hl, list_elem_of_singleton.
Qed.

(** * Collecting loops *)
Lemma try_map_Ok {A B E} (f : A → Result B E) l l' :
  try_map f l = Ok l' ↔ Forall2 (λ x y, f x = Ok y) l l'.
Proof.
  revert l'. induction l as [|x l IH]; intros l'; simpl.
  - split; [by intros [= <-]|]. by intros ->%Forall2_nil_inv_l.
  - destruct (f x) as [y|e] eqn:Hf; simpl.
    + destruct (try_map f l) as [ys|e] eqn:Hl; simpl; split.
      * intros [= <-]. constructor; [done|]. by apply IH.
      * intros (y' & l'' & ? & H & ->)%Forall2_cons_inv_l. apply IH in H. congruence.
      * done.
      * intros (y' & l'' & ? & H & ->)%Forall2_cons_inv_l. apply IH in H. congruence.
    + split; [done|]. intros (y' & l'' & Hy & H & ->)%Forall2_cons_inv_l. congruence.
Qed.
Lemma try_map_is_ok {A B E} (f : A → Result B E) l :
  (∀ x, x ∈ l → is_ok (f x) = true) → ∃ l', try_map f l = Ok l'.
Proof.
  induction l as [|x l IH]; intros Hl; simpl; [by eexists|].
  destruct (f x) as [y|e] eqn:Hf.
  - destruct IH as [l' ->]; [|by eexists]. intros z Hz. apply Hl. by right.
  - specialize (Hl x (list_elem_of_here _ _)). by rewrite Hf in Hl.
Qed.
Lemma try_map_elem_of {A B E} (f : A → Result B E) l l' y :
  try_map f l = Ok l' → y ∈ l' ↔ ∃ x, x ∈ l ∧ f x = Ok y.
Proof.
  rewrite try_map_Ok. induction 1 as [|x z l l' Hxz _ IH].
  - setoid_rewrite elem_of_nil. naive_solver.
  - setoid_rewrite elem_of_cons. rewrite IH. split; [naive_solver|].
    intros (x' & [->|Hx] & Hf); [left; congruence|eauto].
Qed.
Lemma try_map_fmap {A B C E} (f : A → Result B E) (g : A → C) (h : B → C) l l' :
  (∀ x y, f x = Ok y → h y = g x) → try_map f l = Ok l' → h <$> l' = g <$> l.
Proof.
  intros Hfg. rewrite try_map_Ok.
  induction 1 as [|x z l l' Hxz _ IH]; csimpl; [done|]. by rewrite (Hfg _ _ Hxz), IH.
Qed.
Lemma map_m_is_ok {S E A B} (f : A → M S E B) l s :
  (∀ x, reads (f x)) → (∀ x, x ∈ l → is_ok (f x s).1 = true) → is_ok (map_m f l s).1 = true.
Proof.
  intros Hr. induction l as [|x l IH]; intros Hl; [done|]. simpl. unfold bind.
  pose proof (Hl x (list_elem_of_here _ _)) as Hx. pose proof (Hr x s) as Hs.
  destruct (f x s) as [[y|e] s']; [|done]. simpl in *. subst s'.
  assert (is_ok (map_m f l s).1 = true) as Hok by (apply IH; intros z Hz; apply Hl; by right).
  by destruct (map_m f l s) as [[ys|e] s'].
Qed.
Lemma map_m_run {S E A B} (f : A → M S E B) l l' s :
  Forall2 (λ x y, f x s = (Ok y, s)) l l' → map_m f l s = (Ok l', s).
Proof.
  induction 1 as [|x y l l' Hf _ IH]; simpl; [done|]. unfold bind. by rewrite Hf, IH.
Qed.
Lemma is_ok_map_ok {A B E} (f : A → B) (r : Result A E) : is_ok (map_ok f r) = is_ok r.
Proof. by destruct r. Qed.

(** Follow the structure of a computation, leaving its writes. *)
Ltac ensures_step :=
  lazymatch goal with
  | |- ensures _ (with_err _ _) => apply ensures_with_err
  | |- ensures _ (bind (of_result _) _) => apply ensures_with_result; [apply _|intros ? ?]
  | |- ensures _ (bind _ _) => apply ensures_bind; [apply _| |intros ?]
  | |- ensures _ (for_each _ _) => apply ensures_for_each; [apply _|intros ?]
  | |- ensures _ (map_m _ _) => apply ensures_map_m; [apply _|intros ?]
  | |- ensures _ (modify _) => apply ensures_modify; intros ?
  | |- ensures _ (match ?x with _ => _ end) => destruct x
  | |- ensures _ _ => solve [apply ensures_reads; [apply _|solve_reads]]
  end.
Ltac ensures_steps := repeat ensures_step.
