(* ===== verification/Simulation.v ===== *)
(** Two stores side by side: operations that keep a relation between their states and give
    related results, the rules that compose them, and tables compared through views of their
    rows. *)
From S2P Require Import Prelude.
From stdpp Require Import sorting.

(** * Runs *)
Lemma bind_Ok {S E A B} (m : M S E A) (k : A → M S E B) s a s1 :
  m s = (Ok a, s1) → bind m k s = k a s1.
Proof. intros Hm. unfold bind. by rewrite Hm. Qed.
Lemma bind_Ok_inv {S E A B} (m : M S E A) (k : A → M S E B) s b s' :
  bind m k s = (Ok b, s') → ∃ a s1, m s = (Ok a, s1) ∧ k a s1 = (Ok b, s').
Proof. unfold bind. destruct (m s) as [[a|e] s1]; [|done]. eauto. Qed.
Lemma with_err_Ok_inv {S E E' A} (g : E → E') (m : M S E A) s a s' :
  with_err g m s = (Ok a, s') → m s = (Ok a, s').
Proof. unfold with_err. destruct (m s) as [[]]; [|done]. by intros [= <- <-]. Qed.
Lemma gets_bind {S E A B} (f : S → A) (k : A → M S E B) s : bind (gets f) k s = k (f s) s.
Proof. done. Qed.

(** * Operations *)
Definition result_rel {A B E} (Q : A → B → Prop) (r1 : Result A E) (r2 : Result B E) : Prop :=
  match r1, r2 with
  | Ok a, Ok b => Q a b
  | Err e1, Err e2 => e1 = e2
  | _, _ => False
  end.
Lemma result_rel_eq {A E} (r1 r2 : Result A E) : result_rel eq r1 r2 ↔ r1 = r2.
Proof. destruct r1, r2; naive_solver. Qed.
Lemma result_rel_refl {A E} (Q : A → A → Prop) (r : Result A E) : (∀ a, Q a a) → result_rel Q r r.
Proof. by destruct r; simpl. Qed.
Lemma result_rel_impl {A B E} (Q Q' : A → B → Prop) (r1 : Result A E) (r2 : Result B E) :
  result_rel Q r1 r2 → (∀ a b, Q a b → Q' a b) → result_rel Q' r1 r2.
Proof. destruct r1, r2; naive_solver. Qed.

Definition simulates {S1 S2 E A B} (R : S1 → S2 → Prop) (Q : A → B → Prop)
    (m1 : M S1 E A) (m2 : M S2 E B) : Prop :=
  ∀ s1 s2, R s1 s2 → result_rel Q (m1 s1).1 (m2 s2).1 ∧ R (m1 s1).2 (m2 s2).2.

Section rules.
Context {S1 S2 E : Type} (R : S1 → S2 → Prop).

Lemma sim_ret {A B} (Q : A → B → Prop) a b :
  Q a b → simulates R Q (ret (E := E) a) (ret (E := E) b).
Proof. by intros H s1 s2 Hs. Qed.
Lemma sim_throw {A B} (Q : A → B → Prop) (e : E) : simulates R Q (throw e) (throw e).
Proof. by intros s1 s2 Hs. Qed.
Lemma sim_of_result {A B} (Q : A → B → Prop) (r1 : Result A E) (r2 : Result B E) :
  result_rel Q r1 r2 → simulates R Q (of_result r1) (of_result r2).
Proof. by intros H s1 s2 Hs. Qed.
Lemma sim_bind {A1 B1 A2 B2} (Q : A1 → A2 → Prop) (Q' : B1 → B2 → Prop)
    (m1 : M S1 E A1) (m2 : M S2 E A2) k1 k2 :
  simulates R Q m1 m2 → (∀ a b, Q a b → simulates R Q' (k1 a) (k2 b)) →
  simulates R Q' (bind m1 k1) (bind m2 k2).
Proof.
  intros Hm Hk s1 s2 Hs. destruct (Hm s1 s2 Hs) as [Hr Hs']. unfold bind.
  destruct (m1 s1) as [[a|e1] s1'], (m2 s2) as [[b|e2] s2']; simpl in *; try done. by apply Hk.
Qed.
(** The same pure step first. *)
Lemma sim_pure {A B1 B2} (Q : B1 → B2 → Prop) (r : Result A E) k1 k2 :
  (∀ a, r = Ok a → simulates R Q (k1 a) (k2 a)) →
  simulates R Q (bind (of_result r) k1) (bind (of_result r) k2).
Proof. intros Hk s1 s2 Hs. unfold bind, of_result. destruct r; [by apply Hk|done]. Qed.
(** Reading both states, then going on. *)
Lemma sim_gets {A1 A2 B1 B2} (Q : B1 → B2 → Prop) (f1 : S1 → A1) (f2 : S2 → A2) k1 k2 :
  (∀ s1 s2, R s1 s2 → simulates R Q (k1 (f1 s1)) (k2 (f2 s2))) →
  simulates R Q (bind (gets f1) k1) (bind (gets (E := E) f2) k2).
Proof. intros Hk s1 s2 Hs. unfold bind, gets. by apply Hk. Qed.
Lemma sim_gets_ret {A1 A2} (Q : A1 → A2 → Prop) (f1 : S1 → A1) (f2 : S2 → A2) :
  (∀ s1 s2, R s1 s2 → Q (f1 s1) (f2 s2)) → simulates R Q (gets f1) (gets (E := E) f2).
Proof. intros H s1 s2 Hs. split; [by apply H|done]. Qed.
Lemma sim_modify (f1 : S1 → S1) (f2 : S2 → S2) :
  (∀ s1 s2, R s1 s2 → R (f1 s1) (f2 s2)) →
  simulates R eq (modify f1) (modify (E := E) f2).
Proof. intros H s1 s2 Hs. split; [done|by apply H]. Qed.
Lemma sim_for_each {A} (f1 : A → M S1 E ()) (f2 : A → M S2 E ()) l :
  (∀ x, x ∈ l → simulates R eq (f1 x) (f2 x)) → simulates R eq (for_each f1 l) (for_each f2 l).
Proof.
  induction l as [|x l IH]; intros H; [by apply sim_ret|]. simpl.
  eapply sim_bind; [apply H; by left|]. intros _ _ _. apply IH. intros y Hy. apply H. by right.
Qed.
Lemma sim_weaken {A B} (Q Q' : A → B → Prop) (m1 : M S1 E A) (m2 : M S2 E B) :
  simulates R Q m1 m2 → (∀ a b, Q a b → Q' a b) → simulates R Q' m1 m2.
Proof.
  intros Hm HQ s1 s2 Hs. destruct (Hm s1 s2 Hs) as [Hr Hs']. split; [|done].
  by eapply result_rel_impl.
Qed.
End rules.
Lemma sim_with_err {S1 S2 E F A B} (R : S1 → S2 → Prop) (Q : A → B → Prop) (f : E → F)
    (m1 : M S1 E A) (m2 : M S2 E B) :
  simulates R Q m1 m2 → simulates R Q (with_err f m1) (with_err f m2).
Proof.
  intros Hm s1 s2 Hs. destruct (Hm s1 s2 Hs) as [Hr Hs']. unfold with_err.
  destruct (m1 s1) as [[a|e1] s1'], (m2 s2) as [[b|e2] s2']; simpl in *; try done. by subst.
Qed.

(** ** Reads, state by state *)
Lemma sim_reads {S1 S2 E A B} (R : S1 → S2 → Prop) (Q : A → B → Prop) (m1 : M S1 E A) (m2 : M S2 E B) :
  reads m1 → reads m2 → (∀ s1 s2, R s1 s2 → result_rel Q (m1 s1).1 (m2 s2).1) → simulates R Q m1 m2.
Proof. intros H1 H2 H s1 s2 Hs. rewrite H1, H2. split; [by apply H|done]. Qed.
Lemma map_m_reads {S E A B} (f : A → M S E B) l s :
  (∀ x, reads (f x)) → (map_m f l s).1 = try_map (λ x, (f x s).1) l.
Proof.
  intros Hf. induction l as [|x l IH]; [done|]. simpl. unfold bind, ret.
  pose proof (Hf x s) as Hx. destruct (f x s) as [[y|e] s']; simpl in *; [|done]. subst s'.
  destruct (map_m f l s) as [[ys|e] s'] eqn:Hm; simpl in *; by rewrite <-IH.
Qed.

(** ** Lists of rows *)
Lemma try_map_Forall2 {A1 A2 B E} (f1 : A1 → Result B E) (f2 : A2 → Result B E) l1 l2 :
  Forall2 (λ a b, f1 a = f2 b) l1 l2 → try_map f1 l1 = try_map f2 l2.
Proof. induction 1 as [|a b l1 l2 Hab _ IH]; [done|]. simpl. by rewrite Hab, IH. Qed.
Lemma try_map_perm {A B E} (f : A → Result B E) l l' r :
  l ≡ₚ l' → try_map f l = Ok r → ∃ r', try_map f l' = Ok r' ∧ r ≡ₚ r'.
Proof.
  intros Hl. revert r. induction Hl as [|x l l' Hl IH|x y l|l l' l'' _ IH1 _ IH2]; intros r; simpl.
  - intros [= <-]. by exists [].
  - destruct (f x) as [b|]; [|done]. simpl. destruct (try_map f l) as [bs|] eqn:Hr; [|done].
    intros [= <-]. destruct (IH bs eq_refl) as (bs' & -> & Hbs). simpl. eexists. split; [done|].
    by rewrite Hbs.
  - destruct (f x) as [b|], (f y) as [c|]; simpl; try done.
    destruct (try_map f l) as [bs|]; [|done]. intros [= <-]. simpl. eexists. split; [done|].
    apply Permutation_swap.
  - intros Hr. destruct (IH1 r Hr) as (r' & Hr' & Hp). destruct (IH2 r' Hr') as (r'' & ? & ?).
    exists r''. split; [done|]. by etrans.
Qed.
(** Rows that decode, read in two orders. *)
Lemma try_map_two_orders {A1 A2 B E} (f1 : A1 → Result B E) (f2 : A2 → Result B E) l1 l2 l1' l2' :
  Forall2 (λ a b, f1 a = f2 b) l1 l2 → (∀ b, b ∈ l2 → is_ok (f2 b) = true) →
  l1' ≡ₚ l1 → l2' ≡ₚ l2 → result_rel (≡ₚ) (try_map f1 l1') (try_map f2 l2').
Proof.
  intros Hf Hok Hl1 Hl2. destruct (try_map_is_ok f2 l2 Hok) as [r Hr].
  destruct (try_map_perm f2 l2 l2' r) as (r2 & -> & Hr2); [done..|].
  destruct (try_map_perm f1 l1 l1' r) as (r1 & -> & Hr1); [done|by rewrite (try_map_Forall2 f1 f2 l1 l2)|].
  simpl. by rewrite <-Hr1.
Qed.

(** * Tables compared through views *)
Section views.
Context {K V1 V2 W : Type} `{Countable K} (g1 : V1 → W) (g2 : V2 → W).

Definition same_view (m1 : gmap K V1) (m2 : gmap K V2) : Prop := g1 <$> m1 = g2 <$> m2.

Lemma same_view_lookup m1 m2 k : same_view m1 m2 → g1 <$> m1 !! k = g2 <$> m2 !! k.
Proof. intros Hm. by rewrite <-!lookup_fmap, Hm. Qed.
Lemma same_view_none m1 m2 k : same_view m1 m2 → (m1 !! k = None ↔ m2 !! k = None).
Proof.
  intros Hm%(same_view_lookup _ _ k). destruct (m1 !! k), (m2 !! k); naive_solver.
Qed.
Lemma same_view_is_Some m1 m2 k : same_view m1 m2 → (is_Some (m1 !! k) ↔ is_Some (m2 !! k)).
Proof. intros Hm. rewrite <-!not_eq_None_Some. by rewrite (same_view_none _ _ k Hm). Qed.
Lemma same_view_dom m1 m2 : same_view m1 m2 → dom m1 = dom m2.
Proof. intros Hm. by rewrite <-(dom_fmap_L g1), Hm, dom_fmap_L. Qed.
Lemma same_view_size m1 m2 : same_view m1 m2 → size m1 = size m2.
Proof. intros Hm. by rewrite <-(map_size_fmap g1), Hm, map_size_fmap. Qed.
Lemma same_view_insert m1 m2 k v1 v2 :
  same_view m1 m2 → g1 v1 = g2 v2 → same_view (<[k := v1]> m1) (<[k := v2]> m2).
Proof. unfold same_view. intros Hm Hv. by rewrite !fmap_insert, Hm, Hv. Qed.
Lemma same_view_delete m1 m2 k : same_view m1 m2 → same_view (delete k m1) (delete k m2).
Proof. unfold same_view. intros Hm. by rewrite !fmap_delete, Hm. Qed.
Lemma same_view_alter m1 m2 k f1 f2 :
  same_view m1 m2 → (∀ v1 v2, g1 v1 = g2 v2 → g1 (f1 v1) = g2 (f2 v2)) →
  same_view (alter f1 k m1) (alter f2 k m2).
Proof.
  intros Hm Hf. apply map_eq. intros i. rewrite !lookup_fmap.
  pose proof (same_view_lookup _ _ i Hm) as Hi.
  destruct (decide (k = i)) as [->|Hne]; [|by rewrite !lookup_alter_ne by done].
  rewrite !lookup_alter_eq. destruct (m1 !! i), (m2 !! i); simplify_eq/=; f_equal; auto.
Qed.
Lemma same_view_rows m1 m2 :
  same_view m1 m2 →
  Forall2 (λ a b, a.1 = b.1 ∧ g1 a.2 = g2 b.2 ∧ b ∈ map_to_list m2) (map_to_list m1) (map_to_list m2).
Proof.
  intros Hm. assert (prod_map id g1 <$> map_to_list m1 = prod_map id g2 <$> map_to_list m2) as Hl
    by by rewrite <-!map_to_list_fmap, Hm.
  revert Hl. generalize (map_to_list m1) (map_to_list m2). intros l1.
  induction l1 as [|[k1 v1] l1 IH]; intros [|[k2 v2] l2]; try done.
  rewrite !fmap_cons. intros [= -> Hv Hl]. constructor; [by split_and!; [..|left]|].
  eapply Forall2_impl; [by apply IH|]. intros a b (? & ? & ?). split_and!; [done..|by right].
Qed.
(** Decoding the rows of two such tables, each in an order of its own. *)
Lemma same_view_decode {B E} (f1 : K * V1 → Result B E) (f2 : K * V2 → Result B E) m1 m2 l1 l2 :
  same_view m1 m2 →
  (∀ k v r, m2 !! k = Some r → g1 v = g2 r → f1 (k, v) = f2 (k, r) ∧ is_ok (f2 (k, r)) = true) →
  l1 ≡ₚ map_to_list m1 → l2 ≡ₚ map_to_list m2 →
  result_rel (≡ₚ) (try_map f1 l1) (try_map f2 l2).
Proof.
  intros Hm Hf. apply try_map_two_orders.
  - eapply Forall2_impl; [by apply same_view_rows|].
    intros [k v] [k' r] (Hk & Hg & Hin%elem_of_map_to_list). simpl in *. subst k'. by apply Hf.
  - intros [k r] Hin. pose proof (same_view_rows _ _ Hm) as Hrows.
    apply list_elem_of_lookup in Hin as [i Hi].
    destruct (Forall2_lookup_r _ _ _ _ _ Hrows Hi) as ([k' v] & _ & Hk & Hg & Hin%elem_of_map_to_list).
    simpl in *. subst k'. by eapply Hf.
Qed.
End views.
Arguments same_view {_ _ _ _ _ _} _ _ _ _.
