(* ===== verification/Keyed.v ===== *)
(** Tables whose server finds a row by a function of its primary key: a column with a collation
    holds the text that was stored, and compares the keys of texts.  [keyed m d] relates such a
    table [m] to the plain table [d] that has the same rows, as long as the names in use, [P], are
    told apart. *)
From S2P Require Import Prelude.

Lemma alter_found `{Countable K} {V} (f : V → V) (m : gmap K V) k v :
  m !! k = Some v → alter f k m = <[k := f v]> m.
Proof.
  intros Hk. apply map_eq. intros i. destruct (decide (k = i)) as [<-|].
  - by rewrite lookup_alter_eq, Hk, lookup_insert_eq.
  - by rewrite lookup_alter_ne, lookup_insert_ne.
Qed.
Lemma alter_absent `{Countable K} {V} (f : V → V) (m : gmap K V) k :
  m !! k = None → alter f k m = m.
Proof.
  intros Hk. apply map_eq. intros i. destruct (decide (k = i)) as [<-|].
  - by rewrite lookup_alter_eq, Hk.
  - by rewrite lookup_alter_ne.
Qed.
Lemma filter_rows `{Countable K} {V} (Q : K * V → Prop) `{!∀ x, Decision (Q x)} (m : gmap K V) :
  map_to_list (filter Q m) ≡ₚ filter Q (map_to_list m).
Proof.
  apply NoDup_Permutation; [apply NoDup_map_to_list|apply NoDup_filter, NoDup_map_to_list|].
  intros [k v]. rewrite list_elem_of_filter, !elem_of_map_to_list, map_lookup_filter_Some. tauto.
Qed.
Lemma filter_agree {A} (Q1 Q2 : A → Prop) `{!∀ x, Decision (Q1 x), !∀ x, Decision (Q2 x)} (l : list A) :
  (∀ x, x ∈ l → Q1 x ↔ Q2 x) → filter Q1 l = filter Q2 l.
Proof.
  induction l as [|a l IH]; intros Hl; [done|]. rewrite !filter_cons, IH by (intros x Hx; apply Hl; by right).
  pose proof (Hl a ltac:(by left)). destruct (decide (Q1 a)), (decide (Q2 a)); tauto || done.
Qed.

Section keyed.
Context {K1 K2 V : Type} `{Countable K1, Countable K2} (key : K1 → K2) (P : K1 → Prop).

Definition keyed (m : gmap K2 (K1 * V)) (d : gmap K1 V) : Prop :=
  (∀ k v, d !! k = Some v → P k) ∧
  (∀ i k v, m !! i = Some (k, v) ↔ d !! k = Some v ∧ i = key k).

(** The names in use are told apart. *)
Hypothesis key_inj : ∀ k k', P k → P k' → key k = key k' → k = k'.
Implicit Types (m : gmap K2 (K1 * V)) (d : gmap K1 V).

Lemma keyed_names m d k v : keyed m d → d !! k = Some v → P k.
Proof. intros [Hd _]. apply Hd. Qed.
Lemma keyed_empty : keyed ∅ ∅.
Proof. split; [intros k v|intros i k v]; rewrite !lookup_empty; naive_solver. Qed.
Lemma keyed_lookup m d k : keyed m d → P k → m !! key k = pair k <$> d !! k.
Proof.
  intros [Hd Hm] Hk. destruct (m !! key k) as [[k' v]|] eqn:Hrow.
  - apply Hm in Hrow as [Hrow Hkey]. assert (k = k') as <- by (apply key_inj; [done|by eapply Hd|done]).
    by rewrite Hrow.
  - destruct (d !! k) as [v|] eqn:Hv; [|done].
    assert (m !! key k = Some (k, v)) as Hm' by by apply Hm. congruence.
Qed.
Lemma keyed_none m d k : keyed m d → P k → (m !! key k = None ↔ d !! k = None).
Proof. intros Hm Hk. rewrite (keyed_lookup _ _ _ Hm Hk). by destruct (d !! k). Qed.
Lemma keyed_is_Some m d k : keyed m d → P k → (is_Some (m !! key k) ↔ is_Some (d !! k)).
Proof. intros Hm Hk. by rewrite (keyed_lookup _ _ _ Hm Hk), fmap_is_Some. Qed.
Lemma keyed_insert m d k v : keyed m d → P k → keyed (<[key k := (k, v)]> m) (<[k := v]> d).
Proof.
  intros [Hd Hm] Hk. split.
  - intros k' v' [[<- _]|[_ Hrow]]%lookup_insert_Some; [done|by eapply Hd].
  - intros i k' v'. rewrite !lookup_insert_Some, Hm. split.
    + intros [[<- [= <- <-]]|[Hne [Hrow ->]]]; [by split; [left|]|]. split; [|done]. right.
      split; [congruence|done].
    + intros [[[<- <-]|[Hne Hrow]] ->]; [by left|]. right. split; [|done].
      intros Heq. apply Hne. apply key_inj; [done|by eapply Hd|done].
Qed.
Lemma keyed_delete m d k : keyed m d → P k → keyed (delete (key k) m) (delete k d).
Proof.
  intros [Hd Hm] Hk. split.
  - intros k' v' [_ Hrow]%lookup_delete_Some. by eapply Hd.
  - intros i k' v'. rewrite !lookup_delete_Some, Hm. split.
    + intros [Hne [Hrow ->]]. split; [|done]. split; [congruence|done].
    + intros [[Hne Hrow] ->]. split; [|done]. intros Heq. apply Hne.
      apply key_inj; [done|by eapply Hd|done].
Qed.
Lemma keyed_alter (f : V → V) m d k :
  keyed m d → P k → keyed (alter (λ r, (r.1, f r.2)) (key k) m) (alter f k d).
Proof.
  intros Hm Hk. pose proof (keyed_lookup m d k Hm Hk) as Hrow.
  destruct (d !! k) as [v|] eqn:Hv; simpl in Hrow.
  - rewrite (alter_found _ m (key k) (k, v)), (alter_found _ d k v) by done. by apply keyed_insert.
  - by rewrite !alter_absent.
Qed.
(** Conditions that agree on every row. *)
Lemma keyed_filter (F1 : K2 * (K1 * V) → Prop) (F2 : K1 * V → Prop)
    `{!∀ x, Decision (F1 x), !∀ x, Decision (F2 x)} m d :
  keyed m d → (∀ k v, d !! k = Some v → P k → (F1 (key k, (k, v)) ↔ F2 (k, v))) →
  keyed (filter F1 m) (filter F2 d).
Proof.
  intros [Hd Hm] HF. split.
  - intros k v [Hrow _]%map_lookup_filter_Some. by eapply Hd.
  - intros i k v. rewrite !map_lookup_filter_Some, Hm. split.
    + intros [[Hrow ->] Hf]. split; [|done]. split; [done|]. apply HF; [done|by eapply Hd|done].
    + intros [[Hrow Hf] ->]. split; [done|]. apply HF; [done|by eapply Hd|done].
Qed.
Lemma keyed_rows m d : keyed m d → (map_to_list m).*2 ≡ₚ map_to_list d.
Proof.
  intros [Hd Hm]. apply NoDup_Permutation.
  - apply NoDup_fmap_2_strong; [|apply NoDup_map_to_list].
    intros [i [k v]] [i' [k' v']] H1%elem_of_map_to_list H2%elem_of_map_to_list Heq. simpl in *.
    injection Heq as -> ->. apply Hm in H1 as [_ ->]. by apply Hm in H2 as [_ ->].
  - apply NoDup_map_to_list.
  - intros [k v]. rewrite list_elem_of_fmap, elem_of_map_to_list. split.
    + intros ([i [k' v']] & [= -> ->] & Hrow%elem_of_map_to_list). by apply Hm in Hrow as [? _].
    + intros Hrow. exists (key k, (k, v)). split; [done|]. apply elem_of_map_to_list. by apply Hm.
Qed.
Lemma keyed_size m d : keyed m d → size m = size d.
Proof.
  intros Hm. rewrite <-!length_map_to_list, <-(length_fmap snd (map_to_list m)).
  by rewrite (keyed_rows _ _ Hm).
Qed.
End keyed.
