(* ===== verification/RustStd.v ===== *)
(** The parts of Rust's standard library the server relies on: [i64] arithmetic with the
    wrap-around of a release build, [&str] functions, UTF-8 validation, the byte order on
    strings that [ORDER BY] and [sort] use, and an encoder that witnesses the round-trip
    laws asked of [serde_json]. *)
From S2P Require Import Prelude.
From Stdlib Require Export Ascii.
From Stdlib Require Import String.
From stdpp Require Import strings countable.

(** * [i64] *)

Definition i64_min : Z := - 2 ^ 63.
Definition i64_max : Z := 2 ^ 63 - 1.
Definition in_i64 (z : Z) : Prop := (i64_min ≤ z ≤ i64_max)%Z.
#[export] Instance in_i64_dec z : Decision (in_i64 z).
Proof. unfold in_i64. apply _. Defined.

(** Two's complement wrap-around: [a + b] and [a - b] of a release build. *)
Definition wrap_i64 (z : Z) : Z := (z + 2 ^ 63) `mod` 2 ^ 64 - 2 ^ 63.
Definition i64_add (a b : Z) : Z := wrap_i64 (a + b).
Definition i64_sub (a b : Z) : Z := wrap_i64 (a - b).

Lemma wrap_i64_id z : in_i64 z → wrap_i64 z = z.
Proof.
  unfold in_i64, i64_min, i64_max, wrap_i64. intros H.
  rewrite Z.mod_small; lia.
Qed.
Lemma wrap_i64_range z : in_i64 (wrap_i64 z).
Proof.
  unfold in_i64, i64_min, i64_max, wrap_i64.
  pose proof (Z.mod_pos_bound (z + 2 ^ 63) (2 ^ 64) ltac:(lia)). lia.
Qed.
Lemma i64_add_id a b : in_i64 (a + b) → i64_add a b = (a + b)%Z.
Proof. apply wrap_i64_id. Qed.
Lemma i64_sub_id a b : in_i64 (a - b) → i64_sub a b = (a - b)%Z.
Proof. apply wrap_i64_id. Qed.

(** * [&str]

    A Rust string is its sequence of UTF-8 bytes; one [ascii] is one byte. *)

(** [s.starts_with(p)] *)
Definition starts_with (p s : string) : bool := String.prefix p s.

Lemma starts_with_app p s : starts_with p (p +:+ s) = true.
Proof.
  unfold starts_with. induction p as [|a p IH]; [by destruct s|].
  change (String a p +:+ s) with (String a (p +:+ s)). simpl. by destruct (ascii_dec a a).
Qed.

Fixpoint strip_prefix (p s : string) : option string :=
  match p, s with
  | EmptyString, _ => Some s
  | String a p', String b s' => if decide (a = b) then strip_prefix p' s' else None
  | String _ _, EmptyString => None
  end.

(** [s.contains(p)] *)
Fixpoint str_contains (p s : string) : bool :=
  starts_with p s ||
  match s with EmptyString => false | String _ s' => str_contains p s' end.

(** The first occurrence of a byte, and the two sides of it ([str::split_once]). *)
Fixpoint split_once (c : ascii) (s : string) : option (string * string) :=
  match s with
  | EmptyString => None
  | String a s' =>
      if decide (a = c) then Some (EmptyString, s')
      else match split_once c s' with
           | Some (l, r) => Some (String a l, r)
           | None => None
           end
  end.

(** [s.splitn(n, c)]: at most [n] pieces, the last one keeps the rest. *)
Fixpoint splitn (n : nat) (c : ascii) (s : string) : list string :=
  match n with
  | O => []
  | 1 => [s]
  | S n' => match split_once c s with
            | Some (l, r) => l :: splitn n' c r
            | None => [s]
            end
  end.

(** [s.split(c)]. *)
Definition str_split (c : ascii) (s : string) : list string :=
  splitn (S (String.length s)) c s.

(** [s.rsplit_once(c)]: the last occurrence of a byte. *)
Fixpoint rsplit_once (c : ascii) (s : string) : option (string * string) :=
  match s with
  | EmptyString => None
  | String a s' =>
      match rsplit_once c s' with
      | Some (l, r) => Some (String a l, r)
      | None => if decide (a = c) then Some (EmptyString, s') else None
      end
  end.

(** [s.trim_start_matches(p)]: every leading copy of [p] is removed. *)
Fixpoint trim_start_matches_fuel (fuel : nat) (p s : string) : string :=
  match fuel with
  | O => s
  | S f => match strip_prefix p s with Some s' => trim_start_matches_fuel f p s' | None => s end
  end.
Definition trim_start_matches (p s : string) : string :=
  trim_start_matches_fuel (String.length s) p s.

(** [s.trim_end_matches(c)] *)
Fixpoint trim_end_matches (c : ascii) (s : string) : string :=
  match s with
  | EmptyString => EmptyString
  | String a s' =>
      match trim_end_matches c s' with
      | EmptyString => if decide (a = c) then EmptyString else String a EmptyString
      | t => String a t
      end
  end.

Definition ascii_upper (a : ascii) : ascii :=
  let n := nat_of_ascii a in
  if (97 <=? n) && (n <=? 122) then ascii_of_nat (n - 32) else a.
Definition ascii_lower (a : ascii) : ascii :=
  let n := nat_of_ascii a in
  if (65 <=? n) && (n <=? 90) then ascii_of_nat (n + 32) else a.
Fixpoint str_map (f : ascii → ascii) (s : string) : string :=
  match s with EmptyString => EmptyString | String a s' => String (f a) (str_map f s') end.
(** [s.to_ascii_uppercase()] *)
Definition to_ascii_uppercase : string → string := str_map ascii_upper.

(** [&s[n..]] *)
Fixpoint str_drop (n : nat) (s : string) : string :=
  match n, s with
  | S n', String _ s' => str_drop n' s'
  | _, _ => s
  end.
(** [s.trim()] on ASCII text *)
Definition is_ascii_space (a : ascii) : bool :=
  let n := nat_of_ascii a in (n =? 32) || ((9 <=? n) && (n <=? 13)).
Fixpoint trim_ascii_start (s : string) : string :=
  match s with
  | String a s' => if is_ascii_space a then trim_ascii_start s' else s
  | EmptyString => s
  end.
Fixpoint trim_ascii_end (s : string) : string :=
  match s with
  | String a s' =>
      match trim_ascii_end s' with
      | EmptyString => if is_ascii_space a then EmptyString else String a EmptyString
      | t => String a t
      end
  | EmptyString => EmptyString
  end.
Definition trim_ascii (s : string) : string := trim_ascii_end (trim_ascii_start s).

Fixpoint has_byte (c : ascii) (s : string) : bool :=
  match s with EmptyString => false | String a s' => bool_decide (a = c) || has_byte c s' end.

Lemma split_once_spec c s l r :
  split_once c s = Some (l, r) ↔ s = l +:+ String c r ∧ has_byte c l = false.
Proof.
  revert l r. induction s as [|a s IH]; intros l r; simpl.
  { split; [done|]. intros [H _]. by destruct l. }
  destruct (decide (a = c)) as [->|Ha].
  - split; [by intros [= <- <-]|]. intros [H Hl].
    destruct l as [|b l]; simpl in *.
    + by injection H as ->.
    + injection H as H1 _. by rewrite bool_decide_eq_true_2 in Hl.
  - destruct (split_once c s) as [[l' r']|].
    + destruct (proj1 (IH l' r') eq_refl) as [-> Hl']. split.
      * intros [= <- <-]. simpl. by rewrite bool_decide_eq_false_2.
      * intros [H Hl]. destruct l as [|b l]; simpl in *; injection H as H1 H2; [by destruct Ha|].
        apply orb_false_iff in Hl as [_ Hl].
        pose proof (proj2 (IH l r) (conj H2 Hl)) as E. injection E as E1 E2.
        by rewrite E1, E2, H1.
    + split; [done|]. intros [H Hl]. destruct l as [|b l]; simpl in *; injection H as H1 H2; [by destruct Ha|].
      apply orb_false_iff in Hl as [_ Hl].
      by pose proof (proj2 (IH l r) (conj H2 Hl)).
Qed.

Lemma string_app_assoc (a b c : string) : a +:+ (b +:+ c) = (a +:+ b) +:+ c.
Proof.
  induction a as [|x a IH]; [done|].
  change (String x (a +:+ (b +:+ c)) = String x ((a +:+ b) +:+ c)). by rewrite IH.
Qed.
Lemma string_app_nil_r (a : string) : a +:+ "" = a.
Proof. induction a as [|x a IH]; [done|]. change (String x (a +:+ "") = String x a). by rewrite IH. Qed.
Lemma string_length_app (a b : string) :
  String.length (a +:+ b) = String.length a + String.length b.
Proof. induction a as [|x a IH]; [done|]. change (String x a +:+ b) with (String x (a +:+ b)). simpl. by rewrite IH. Qed.
Lemma has_byte_app c a b : has_byte c (a +:+ b) = has_byte c a || has_byte c b.
Proof. induction a as [|x a IH]; simpl; [done|]. by rewrite IH, orb_assoc. Qed.
Lemma split_once_None c s : has_byte c s = false → split_once c s = None.
Proof.
  destruct (split_once c s) as [[l r]|] eqn:H; [|done]. apply split_once_spec in H as [-> _].
  rewrite has_byte_app. simpl. by rewrite bool_decide_eq_true_2, orb_true_r.
Qed.
Lemma splitn_more c n s l r :
  split_once c s = Some (l, r) → splitn (S (S n)) c s = l :: splitn (S n) c r.
Proof. intros H. simpl. by rewrite H. Qed.
(** The first piece of a split. *)
Lemma str_split_head c a rest :
  has_byte c a = false → head (str_split c (a +:+ String c rest)) = Some a.
Proof.
  intros Ha. unfold str_split.
  assert (∃ n, String.length (a +:+ String c rest) = S n) as [n ->]
    by (destruct a; simpl; eauto).
  by rewrite (splitn_more _ _ _ a rest) by by apply split_once_spec.
Qed.
Lemma str_split_whole c a : has_byte c a = false → str_split c a = [a].
Proof.
  intros Ha. unfold str_split. destruct (String.length a); [done|]. simpl.
  by rewrite split_once_None.
Qed.
Lemma splitn_enough c n m s :
  String.length s < n → String.length s < m → splitn n c s = splitn m c s.
Proof.
  revert m s. induction n as [|[|n] IH]; intros [|[|m]] s Hn Hm; try lia.
  - done.
  - destruct s; [done|simpl in Hn; lia].
  - destruct s; [done|simpl in Hm; lia].
  - destruct (split_once c s) as [[l r]|] eqn:Hs; [|simpl; by rewrite Hs].
    rewrite !(splitn_more _ _ _ _ _ Hs). f_equal.
    apply split_once_spec in Hs as [-> _]. rewrite string_length_app in *.
    cbn [String.length] in *. apply IH; lia.
Qed.
Lemma str_split_cons c a rest :
  has_byte c a = false → str_split c (a +:+ String c rest) = a :: str_split c rest.
Proof.
  intros Ha. unfold str_split. rewrite string_length_app. simpl String.length.
  rewrite Nat.add_succ_r, (splitn_more _ _ _ a rest) by by apply split_once_spec. f_equal.
  apply splitn_enough; lia.
Qed.
(** A path of the given segments. *)
Definition join_path (l : list string) : string := foldr (λ x path, "/" +:+ x +:+ path) "" l.
Lemma split_join_path l :
  Forall (λ x, has_byte "/" x = false) l → str_split "/" (join_path l) = "" :: l.
Proof.
  assert (∀ a, Forall (λ x, has_byte "/" x = false) (a :: l) →
    str_split "/" (a +:+ join_path l) = a :: l) as H.
  { induction l as [|x l IH]; intros a Hal; inversion_clear Hal as [|? ? Ha Hl].
    - simpl. rewrite string_app_nil_r. by apply str_split_whole.
    - change (join_path (x :: l)) with (String "/" (x +:+ join_path l)).
      rewrite str_split_cons by done. by rewrite IH. }
  intros Hl. apply (H ""). by constructor.
Qed.
Lemma rsplit_once_None c s : has_byte c s = false → rsplit_once c s = None.
Proof.
  induction s as [|a s IH]; simpl; [done|]. intros [Ha%bool_decide_eq_false Hs]%orb_false_iff.
  by rewrite IH, decide_False.
Qed.
Lemma rsplit_once_last c a b :
  has_byte c b = false → rsplit_once c (a +:+ String c b) = Some (a, b).
Proof.
  intros Hb. induction a as [|x a IH]; simpl; [|by rewrite IH].
  by rewrite rsplit_once_None, decide_True.
Qed.
Lemma strip_prefix_Some p s s' : strip_prefix p s = Some s' ↔ s = p +:+ s'.
Proof.
  revert s. induction p as [|a p IH]; intros s; simpl; [by split; [intros [= ->]|intros ->]|].
  destruct s as [|b s]; [done|]. destruct (decide (a = b)) as [->|Hne].
  - rewrite IH. split; [by intros ->|by intros [= ->]].
  - split; [done|]. by intros [= -> ->].
Qed.

(** * [str::trim]: the Unicode white space, as UTF-8 *)
Definition white_space : list string :=
  (λ l, String.string_of_list_ascii (ascii_of_nat <$> l)) <$>
    [[9]; [10]; [11]; [12]; [13]; [32]; [194; 133]; [194; 160]; [225; 154; 128];
     [226; 128; 128]; [226; 128; 129]; [226; 128; 130]; [226; 128; 131]; [226; 128; 132];
     [226; 128; 133]; [226; 128; 134]; [226; 128; 135]; [226; 128; 136]; [226; 128; 137];
     [226; 128; 138]; [226; 128; 168]; [226; 128; 169]; [226; 128; 175]; [226; 129; 159];
     [227; 128; 128]].
Definition strip_one (ps : list string) (s : string) : option string :=
  head (omap (λ p, strip_prefix p s) ps).
Fixpoint strip_all (fuel : nat) (ps : list string) (s : string) : string :=
  match fuel with
  | O => s
  | S f => match strip_one ps s with Some s' => strip_all f ps s' | None => s end
  end.
Definition str_rev (s : string) : string :=
  String.string_of_list_ascii (rev (String.list_ascii_of_string s)).
(** Every white-space character has a byte, so the length is fuel enough. *)
Definition trim (s : string) : string :=
  let s := strip_all (String.length s) white_space s in
  str_rev (strip_all (String.length s) (str_rev <$> white_space) (str_rev s)).

(** [chars().filter(|c| !c.is_whitespace()).collect()] *)
Fixpoint remove_all (fuel : nat) (ps : list string) (s : string) : string :=
  match fuel, s with
  | S f, String a s' =>
      match strip_one ps s with
      | Some rest => remove_all f ps rest
      | None => String a (remove_all f ps s')
      end
  | _, _ => s
  end.
Definition remove_white_space (s : string) : string :=
  remove_all (String.length s) white_space s.
(** [s.split_whitespace()]: the pieces between white space, without the empty ones. *)
Fixpoint split_pieces (fuel : nat) (ps : list string) (piece s : string) : list string :=
  match fuel, s with
  | S f, String a s' =>
      match strip_one ps s with
      | Some rest => piece :: split_pieces f ps EmptyString rest
      | None => split_pieces f ps (piece +:+ String a EmptyString) s'
      end
  | _, _ => [piece]
  end.
Definition split_whitespace (s : string) : list string :=
  filter (λ p, p ≠ EmptyString) (split_pieces (String.length s) white_space EmptyString s).
(** [u8::is_ascii_whitespace]: no vertical tab. *)
Definition is_ascii_whitespace (a : ascii) : bool :=
  let n := nat_of_ascii a in
  (n =? 32) || (n =? 9) || (n =? 10) || (n =? 12) || (n =? 13).
Fixpoint str_filter (f : ascii → bool) (s : string) : string :=
  match s with
  | EmptyString => EmptyString
  | String a s' => if f a then String a (str_filter f s') else str_filter f s'
  end.
(** [s.ends_with(p)] *)
Definition ends_with (p s : string) : bool := starts_with (str_rev p) (str_rev s).
(** [s.replace(c, by)] for a byte [c]. *)
Fixpoint str_replace (c : ascii) (by_ s : string) : string :=
  match s with
  | EmptyString => EmptyString
  | String a s' =>
      (if decide (a = c) then by_ else String a EmptyString) +:+ str_replace c by_ s'
  end.
(** [s.lines()]: an ending line feed opens no further line, a carriage return before a line
    feed belongs to the line end. *)
Definition strip_cr (line : string) : string :=
  match str_rev line with
  | String a r => if decide (a = "013"%char) then str_rev r else line
  | EmptyString => line
  end.
Fixpoint lines_of_pieces (l : list string) : list string :=
  match l with
  | [] => []
  | [last] => if decide (last = EmptyString) then [] else [last]
  | line :: l' => strip_cr line :: lines_of_pieces l'
  end.
Definition str_lines (s : string) : list string := lines_of_pieces (str_split "010" s).

(** * IP address literals ([str::parse::<IpAddr>])

    The grammar of [core::net::parser]: dotted IPv4 without leading zeros, and IPv6 groups
    with at most one [::] and an optional IPv4 tail.  A parser returns its value and the rest
    of the input. *)
Inductive IpAddr := V4 (a b c d : Z) | V6 (groups : list Z).

Definition digit_value (radix : Z) (a : ascii) : option Z :=
  let n := Z.of_nat (nat_of_ascii a) in
  let v := if decide (48 ≤ n ≤ 57)%Z then Some (n - 48)%Z
           else if decide (97 ≤ n ≤ 102)%Z then Some (n - 87)%Z
           else if decide (65 ≤ n ≤ 70)%Z then Some (n - 55)%Z else None in
  match v with Some d => if decide (d < radix)%Z then Some d else None | None => None end.

(** Up to [max] digits, at least one; [(value, count, rest)]. *)
Fixpoint read_digits (radix : Z) (max : nat) (acc : Z) (count : nat) (s : string)
    : Z * nat * string :=
  match max, s with
  | S m, String a s' =>
      match digit_value radix a with
      | Some d => read_digits radix m (acc * radix + d) (S count) s'
      | None => (acc, count, s)
      end
  | _, _ => (acc, count, s)
  end.
(** A fourth (IPv4) or fifth (IPv6) digit is an error, so it must not follow. *)
Definition read_number (radix : Z) (max : nat) (allow_zero_prefix : bool) (limit : Z) (s : string)
    : option (Z * string) :=
  let '(v, count, rest) := read_digits radix (S max) 0 0 s in
  if (count =? 0) || (max <? count) then None
  else if negb allow_zero_prefix && starts_with "0" s && (1 <? count) then None
  else if decide (v ≤ limit)%Z then Some (v, rest) else None.
Definition read_char (a : ascii) (s : string) : option string :=
  match s with String b s' => if decide (a = b) then Some s' else None | EmptyString => None end.

Definition read_ipv4 (s : string) : option (Z * Z * Z * Z * string) :=
  match read_number 10 3 false 255 s with
  | Some (a, s) => match read_char "." s ≫= read_number 10 3 false 255 with
    | Some (b, s) => match read_char "." s ≫= read_number 10 3 false 255 with
      | Some (c, s) => match read_char "." s ≫= read_number 10 3 false 255 with
        | Some (d, s) => Some (a, b, c, d, s)
        | None => None end
      | None => None end
    | None => None end
  | None => None end.

(** [read_groups] with room for [limit] groups; [first] is true before the first one.  The
    boolean says that the last two groups were an IPv4 tail. *)
Fixpoint read_groups (limit : nat) (first : bool) (s : string) : list Z * bool * string :=
  match limit with
  | O => ([], false, s)
  | S l =>
      let after_sep := if first then Some s else read_char ":" s in
      match after_sep with
      | None => ([], false, s)
      | Some s1 =>
          match (if 1 <? limit then read_ipv4 s1 else None) with
          | Some (a, b, c, d, rest) => ([a * 256 + b; c * 256 + d]%Z, true, rest)
          | None =>
              match read_number 16 4 true 65535 s1 with
              | Some (g, rest) =>
                  let '(gs, v4, rest') := read_groups l false rest in (g :: gs, v4, rest')
              | None => ([], false, s)
              end
          end
      end
  end.
Definition read_ipv6 (s : string) : option (list Z * string) :=
  let '(head, head_v4, s1) := read_groups 8 true s in
  if length head =? 8 then Some (head, s1)
  else if head_v4 then None
  else match read_char ":" s1 ≫= read_char ":" with
       | Some s2 =>
           let '(tail, _, s3) := read_groups (7 - length head) true s2 in
           Some (head ++ replicate (8 - length head - length tail) 0%Z ++ tail, s3)
       | None => None
       end.
Definition parse_ip (s : string) : option IpAddr :=
  match read_ipv4 s with
  | Some (a, b, c, d, EmptyString) => Some (V4 a b c d)
  | _ => match read_ipv6 s with Some (g, EmptyString) => Some (V6 g) | _ => None end
  end.

(** * UTF-8 ([String::from_utf8]) *)

Definition utf8_cont (n : nat) : bool := (128 <=? n) && (n <=? 191).

(** The well-formed byte sequences of the Unicode standard (table 3-7). *)
Fixpoint utf8_valid_bytes (fuel : nat) (l : list nat) : bool :=
  match fuel with
  | O => match l with [] => true | _ => false end
  | S f =>
      match l with
      | [] => true
      | a :: l1 =>
          if a <=? 127 then utf8_valid_bytes f l1
          else if (194 <=? a) && (a <=? 223) then
            match l1 with b :: l2 => utf8_cont b && utf8_valid_bytes f l2 | _ => false end
          else if (224 <=? a) && (a <=? 239) then
            match l1 with
            | b :: c :: l2 =>
                let lo := if a =? 224 then 160 else 128 in
                let hi := if a =? 237 then 159 else 191 in
                (lo <=? b) && (b <=? hi) && utf8_cont c && utf8_valid_bytes f l2
            | _ => false
            end
          else if (240 <=? a) && (a <=? 244) then
            match l1 with
            | b :: c :: d :: l2 =>
                let lo := if a =? 240 then 144 else 128 in
                let hi := if a =? 244 then 143 else 191 in
                (lo <=? b) && (b <=? hi) && utf8_cont c && utf8_cont d
                && utf8_valid_bytes f l2
            | _ => false
            end
          else false
      end
  end.

Definition utf8_valid (s : string) : bool :=
  let l := nat_of_ascii <$> list_ascii_of_string s in utf8_valid_bytes (length l) l.

(** [String::from_utf8(bytes)], with the error dropped. *)
Definition from_utf8 (bytes : string) : option string :=
  if utf8_valid bytes then Some bytes else None.

Lemma from_utf8_valid s : utf8_valid s = true → from_utf8 s = Some s.
Proof. unfold from_utf8. by intros ->. Qed.

(** * Order on byte strings *)

(** [SELECT ... ORDER BY key]. *)
Definition key_le {A} (key : A → string) (a b : A) : Prop := String.le (key a) (key b).
#[export] Instance key_le_dec {A} (key : A → string) : RelDecision (key_le key).
Proof. intros a b. unfold key_le. apply _. Defined.
#[export] Instance key_le_total {A} (key : A → string) : Total (key_le key).
Proof. intros a b. unfold key_le. apply (total String.le). Qed.
#[export] Instance key_le_trans {A} (key : A → string) : Transitive (key_le key).
Proof. intros a b c. unfold key_le. by etrans. Qed.

Definition order_by {A} (key : A → string) (l : list A) : list A := merge_sort (key_le key) l.

Lemma order_by_perm {A} (key : A → string) l : order_by key l ≡ₚ l.
Proof. apply merge_sort_Permutation. Qed.
Lemma order_by_sorted {A} (key : A → string) l : Sorted (key_le key) (order_by key l).
Proof. apply Sorted_merge_sort, _. Qed.
Lemma elem_of_order_by {A} (key : A → string) l x : x ∈ order_by key l ↔ x ∈ l.
Proof. by rewrite (order_by_perm key l). Qed.

Lemma Sorted_key_le {A} (key : A → string) l :
  Sorted (key_le key) l ↔ Sorted String.le (key <$> l).
Proof.
  induction l as [|x l IH]; csimpl; [by split; constructor|]. split.
  - intros [Hs Hh]%Sorted_inv. constructor; [by apply IH|].
    destruct Hh as [|y l' Hy]; csimpl; by constructor.
  - intros [Hs Hh]%Sorted_inv. constructor; [by apply IH|].
    destruct l as [|y l']; [constructor|]. constructor. by inversion Hh.
Qed.

(** [ORDER BY k1, k2]. *)
Definition key2_le {A} (k1 k2 : A → string) (a b : A) : Prop :=
  String.le (k1 a) (k1 b) ∧ (k1 a = k1 b → String.le (k2 a) (k2 b)).
#[export] Instance key2_le_dec {A} (k1 k2 : A → string) : RelDecision (key2_le k1 k2).
Proof.
  intros a b. unfold key2_le. destruct (decide (k1 a = k1 b)) as [He|He].
  - destruct (decide (String.le (k1 a) (k1 b))); [|right; tauto].
    destruct (decide (String.le (k2 a) (k2 b))); [left|right]; tauto.
  - destruct (decide (String.le (k1 a) (k1 b))); [left|right]; tauto.
Defined.
#[export] Instance key2_le_total {A} (k1 k2 : A → string) : Total (key2_le k1 k2).
Proof.
  intros a b. unfold key2_le. destruct (decide (k1 a = k1 b)) as [He|He].
  - rewrite He. destruct (total String.le (k2 a) (k2 b)); [left|right]; done.
  - destruct (total String.le (k1 a) (k1 b)); [left|right]; split; naive_solver.
Qed.
#[export] Instance key2_le_trans {A} (k1 k2 : A → string) : Transitive (key2_le k1 k2).
Proof.
  intros a b c [H1 H2] [H3 H4]. split; [by etrans|]. intros He.
  assert (k1 a = k1 b) as Hab by (apply (anti_symm String.le); [done|by rewrite He]).
  etrans; [by apply H2|]. apply H4. by rewrite <-Hab.
Qed.
Definition order_by2 {A} (k1 k2 : A → string) (l : list A) : list A :=
  merge_sort (key2_le k1 k2) l.
Lemma order_by2_perm {A} (k1 k2 : A → string) l : order_by2 k1 k2 l ≡ₚ l.
Proof. apply merge_sort_Permutation. Qed.

(** * [serde_json] as an interface

    A value is stored as JSON text.  What the server needs of
    [serde_json::to_string] and [serde_json::from_str] is that parsing undoes
    printing; malformed text is a parse error, given by its message. *)
Class Serde (A : Type) := {
  to_json : A → Result string string;
  from_json : string → Result A string;
}.
Class SerdeLaws (A : Type) `{Serde A} : Prop :=
  serde_roundtrip : ∀ a, ∃ s, to_json a = Ok s ∧ from_json s = Ok a.

(** An encoder with the law, for every countable type: the bits of its code. *)
Fixpoint bits_of_pos (p : positive) : string :=
  match p with
  | xH => EmptyString
  | xO p' => String "0" (bits_of_pos p')
  | xI p' => String "1" (bits_of_pos p')
  end.
Fixpoint pos_of_bits (s : string) : option positive :=
  match s with
  | EmptyString => Some xH
  | String a s' =>
      match pos_of_bits s' with
      | Some p => if decide (a = "0"%char) then Some (xO p)
                  else if decide (a = "1"%char) then Some (xI p) else None
      | None => None
      end
  end.
Lemma pos_of_bits_of_pos p : pos_of_bits (bits_of_pos p) = Some p.
Proof. induction p as [p IH|p IH|]; simpl; rewrite ?IH; done. Qed.

Definition countable_serde {A} `{Countable A} : Serde A := {|
  to_json a := Ok (bits_of_pos (encode a));
  from_json s := ok_or "expected value at line 1 column 1" (pos_of_bits s ≫= decode);
|}.
Lemma countable_serde_laws {A} `{Countable A} : @SerdeLaws A countable_serde.
Proof.
  intros a. eexists. split; [done|]. simpl.
  by rewrite pos_of_bits_of_pos; simpl; rewrite decode_encode.
Qed.
