(* ===== verification/Models.v ===== *)
(** The shared types of the [auth_client] crate ([client/src/models], [client/src/params],
    [client/src/error]): realms, credentials, administrators, session data, JWT claims and the
    error type with its HTTP status.

    Field names carry a short prefix per record because projections are global. *)
From S2P Require Import Prelude RustStd.
From stdpp Require Import countable.

#[local] Set Warnings "-register-all".

(** * JSON values ([serde_json::Value]); a number is kept as its text *)
Inductive Value : Type :=
  | VNull
  | VBool (b : bool)
  | VNumber (repr : string)
  | VString (s : string)
  | VArray (l : list Value)
  | VObject (l : list (string * Value)).

Fixpoint value_to_tree (v : Value) : gen_tree (string + bool) :=
  match v with
  | VNull => GenNode 0 []
  | VBool b => GenLeaf (inr b)
  | VNumber s => GenNode 1 [GenLeaf (inl s)]
  | VString s => GenLeaf (inl s)
  | VArray l => GenNode 2 (value_to_tree <$> l)
  | VObject l => GenNode 3 ((λ kv, GenNode 4 [GenLeaf (inl kv.1); value_to_tree kv.2]) <$> l)
  end.
Fixpoint tree_to_value (t : gen_tree (string + bool)) : Value :=
  match t with
  | GenLeaf (inr b) => VBool b
  | GenLeaf (inl s) => VString s
  | GenNode 0 _ => VNull
  | GenNode 1 [GenLeaf (inl s)] => VNumber s
  | GenNode 2 l => VArray (tree_to_value <$> l)
  | GenNode 3 l =>
      VObject ((λ t', match t' with
                      | GenNode _ [GenLeaf (inl k); tv] => (k, tree_to_value tv)
                      | _ => (EmptyString, VNull)
                      end) <$> l)
  | _ => VNull
  end.
Lemma tree_to_value_to_tree : ∀ v, tree_to_value (value_to_tree v) = v.
Proof.
  fix IH 1. intros [| | | |l|l]; simpl; try done; f_equal.
  - induction l as [|v l IHl]; simpl; [done|]. f_equal; [apply IH|apply IHl].
  - induction l as [|[k v] l IHl]; simpl; [done|].
    f_equal; [|apply IHl]. f_equal. apply IH.
Qed.
#[export] Instance Value_eq_dec : EqDecision Value.
Proof. refine (inj_eq_dec value_to_tree). intros v w H.
  by rewrite <-(tree_to_value_to_tree v), H, tree_to_value_to_tree. Defined.
#[export] Instance Value_countable : Countable Value :=
  inj_countable' value_to_tree tree_to_value tree_to_value_to_tree.

(** * Realm authentication parameters ([client/src/params]) *)
Record IdpParams := mkIdpParams {
  idp_jwt_issuer_uri : string;
  idp_jwks_uri : string;
  idp_jwt_audience : option string;
}.
Record JwtParams := mkJwtParams {
  jp_idp_params : list IdpParams;
  jp_smallest_refresh_interval_seconds : option Z;
}.
Record UsernamePasswordParams := mkUsernamePasswordParams {
  upp_allow_expired_passwords : bool;
}.
Record TotpRealmParams := mkTotpRealmParams {
  trp_algorithm : string;
  trp_step : Z;
}.
Definition TotpRealmParams_default : TotpRealmParams := mkTotpRealmParams "SHA1" 30.
Record SamlParams := mkSamlParams {
  sp_idp_entity_id : string;
  sp_idp_sso_url : string;
  sp_idp_signing_certificates : list string;
  sp_idp_nameid_format : option string;
  sp_metadata_xml : option string;
  sp_sp_entity_id : string;
  sp_sp_acs_url : string;
  sp_subject_attribute : option string;
  sp_normalize_subject_case : bool;
  sp_role_attribute : option string;
  sp_attribute_claim_map : gmap string string;
  sp_allowed_return_origins : list string;
  sp_default_return_url : string;
}.
Record RealmAuthParams := mkRealmAuthParams {
  rap_jwt_params : option JwtParams;
  rap_username_password_params : option UsernamePasswordParams;
  rap_totp_params : option TotpRealmParams;
  rap_saml_params : option SamlParams;
}.
Definition RealmAuthParams_default : RealmAuthParams := mkRealmAuthParams None None None None.

#[export] Instance IdpParams_eq_dec : EqDecision IdpParams.
Proof. solve_decision. Defined.
#[export] Program Instance IdpParams_countable : Countable IdpParams :=
  inj_countable' (λ p, (idp_jwt_issuer_uri p, idp_jwks_uri p, idp_jwt_audience p))
    (λ '(a, b, c), mkIdpParams a b c) _.
Next Obligation. by intros []. Qed.
#[export] Instance JwtParams_eq_dec : EqDecision JwtParams.
Proof. solve_decision. Defined.
#[export] Program Instance JwtParams_countable : Countable JwtParams :=
  inj_countable' (λ p, (jp_idp_params p, jp_smallest_refresh_interval_seconds p))
    (λ '(a, b), mkJwtParams a b) _.
Next Obligation. by intros []. Qed.
#[export] Instance UsernamePasswordParams_eq_dec : EqDecision UsernamePasswordParams.
Proof. solve_decision. Defined.
#[export] Program Instance UsernamePasswordParams_countable : Countable UsernamePasswordParams :=
  inj_countable' upp_allow_expired_passwords mkUsernamePasswordParams _.
Next Obligation. by intros []. Qed.
#[export] Instance TotpRealmParams_eq_dec : EqDecision TotpRealmParams.
Proof. solve_decision. Defined.
#[export] Program Instance TotpRealmParams_countable : Countable TotpRealmParams :=
  inj_countable' (λ p, (trp_algorithm p, trp_step p)) (λ '(a, b), mkTotpRealmParams a b) _.
Next Obligation. by intros []. Qed.
#[export] Instance SamlParams_eq_dec : EqDecision SamlParams.
Proof. solve_decision. Defined.
(** The fields as lists of texts, which keeps the codes short. *)
Definition option_texts (o : option string) : list string := from_option (λ s, [s]) [] o.
Definition texts_option (l : list string) : option string := head l.
Definition saml_params_to_texts (p : SamlParams) : list (list string) :=
  [ [sp_idp_entity_id p; sp_idp_sso_url p; sp_sp_entity_id p; sp_sp_acs_url p;
     sp_default_return_url p];
    sp_idp_signing_certificates p; option_texts (sp_idp_nameid_format p);
    option_texts (sp_metadata_xml p); option_texts (sp_subject_attribute p);
    (if sp_normalize_subject_case p then [EmptyString] else []);
    option_texts (sp_role_attribute p); (map_to_list (sp_attribute_claim_map p)).*1;
    (map_to_list (sp_attribute_claim_map p)).*2; sp_allowed_return_origins p ].
Definition texts_to_saml_params (l : list (list string)) : option SamlParams :=
  match l with
  | [[e; s; se; sa; d]; certs; nf; xml; sub; norm; role; ks; vs; origins] =>
      Some (mkSamlParams e s certs (texts_option nf) (texts_option xml) se sa (texts_option sub)
        (bool_decide (norm ≠ [])) (texts_option role) (list_to_map (zip ks vs)) origins d)
  | _ => None
  end.
Lemma texts_to_saml_params_to_texts p : texts_to_saml_params (saml_params_to_texts p) = Some p.
Proof.
  destruct p as [e s certs nf xml se sa sub norm role m origins d]. simpl.
  rewrite zip_fst_snd, list_to_map_to_list. by destruct nf, xml, sub, norm, role.
Qed.
#[export] Instance SamlParams_countable : Countable SamlParams :=
  inj_countable saml_params_to_texts texts_to_saml_params texts_to_saml_params_to_texts.
#[export] Instance RealmAuthParams_eq_dec : EqDecision RealmAuthParams.
Proof. solve_decision. Defined.
#[export] Program Instance RealmAuthParams_countable : Countable RealmAuthParams :=
  inj_countable'
    (λ p, (rap_jwt_params p, rap_username_password_params p, rap_totp_params p, rap_saml_params p))
    (λ '(a, b, c, d), mkRealmAuthParams a b c d) _.
Next Obligation. by intros []. Qed.

(** * Realms, credentials, administrators ([client/src/models/base.rs]) *)
Definition ADMIN_REALM : string := "_".

Inductive AuthScheme := UsernamePassword | Jwt | Fido2 | DigitalCredentials | ClientCertificate | Saml.
#[export] Instance AuthScheme_eq_dec : EqDecision AuthScheme.
Proof. solve_decision. Defined.

(** The [#[serde(rename)]] of each scheme. *)
Definition auth_scheme_name (s : AuthScheme) : string :=
  match s with
  | UsernamePassword => "up" | Jwt => "jwt" | Fido2 => "f2"
  | DigitalCredentials => "dc" | ClientCertificate => "cc" | Saml => "sa"
  end.
(** [serde_json::to_string(&scheme)]: a quoted JSON string. *)
Definition auth_scheme_json (s : AuthScheme) : string :=
  String "034"%char (auth_scheme_name s +:+ String "034"%char EmptyString).
#[export] Instance auth_scheme_json_inj : Inj (=) (=) auth_scheme_json.
Proof. by intros [] []. Qed.

Record AuthenticatedClientScheme := mkClient {
  acs_username : string;
  acs_auth_scheme : AuthScheme;
}.

Record Realm := mkRealm {
  realm_id : string;
  realm_auth_params : RealmAuthParams;
  realm_session_max_age_seconds : Z;
  realm_session_max_stale_age_seconds : Z;
  realm_certificate_max_age_seconds : Z;
}.
(** [default_certificate_max_age_seconds]: one year. *)
Definition default_certificate_max_age_seconds : Z := 365 * 24 * 3600.

Inductive PasswordInput :=
  | Plaintext (p : string)
  | Hashed (phc : string).

Record UserPass := mkUserPass {
  up_realm : string;
  up_username : string;
  up_password_hash : string;
  up_password_input : option PasswordInput;
  up_change_password : bool;
  up_roles : list string;
  up_extra_claims : option (gmap string Value);
}.

Record Admin := mkAdmin {
  adm_id : string;
  adm_realms : list string;
  adm_userpass : option string;
  adm_jwt : option string;
  adm_fido2 : option string;
  adm_digital_credentials : option (gmap string string);
  adm_client_certificate : option string;
  adm_totp_enabled : option bool;
  adm_totp_secret : option string;
  adm_totp_auth_url : option string;
}.

(** Assignment to one field. *)
Definition with_id (id : string) (a : Admin) : Admin :=
  mkAdmin id (adm_realms a) (adm_userpass a) (adm_jwt a) (adm_fido2 a)
    (adm_digital_credentials a) (adm_client_certificate a) (adm_totp_enabled a)
    (adm_totp_secret a) (adm_totp_auth_url a).
Definition with_userpass (u : option string) (a : Admin) : Admin :=
  mkAdmin (adm_id a) (adm_realms a) u (adm_jwt a) (adm_fido2 a) (adm_digital_credentials a)
    (adm_client_certificate a) (adm_totp_enabled a) (adm_totp_secret a) (adm_totp_auth_url a).
Definition with_realms (l : list string) (a : Admin) : Admin :=
  mkAdmin (adm_id a) l (adm_userpass a) (adm_jwt a) (adm_fido2 a) (adm_digital_credentials a)
    (adm_client_certificate a) (adm_totp_enabled a) (adm_totp_secret a) (adm_totp_auth_url a).

Definition is_super_admin (a : Admin) : bool := bool_decide (ADMIN_REALM ∈ adm_realms a).
Definition can_administer_realm (a : Admin) (realm : string) : bool :=
  bool_decide (ADMIN_REALM ∈ adm_realms a) || bool_decide (realm ∈ adm_realms a).

Record SessionData := mkSessionData {
  sd_session_id : string;
  sd_realm_id : string;
  sd_username : string;
  sd_auth_scheme : string;
  sd_cookie_string : string;
  sd_max_stale_age_seconds : Z;
  sd_max_age_seconds : Z;
  sd_created_at : Z;
}.
#[export] Instance SessionData_eq_dec : EqDecision SessionData.
Proof. solve_decision. Defined.
#[export] Program Instance SessionData_countable : Countable SessionData :=
  inj_countable'
    (λ d, (sd_session_id d, sd_realm_id d, sd_username d, sd_auth_scheme d, sd_cookie_string d,
           sd_max_stale_age_seconds d, sd_max_age_seconds d, sd_created_at d))
    (λ '(a, b, c, d, e, f, g, h), mkSessionData a b c d e f g h) _.
Next Obligation. by intros []. Qed.

(** * Login ([client/src/models/login.rs]) *)
Record LoginRequest := mkLoginRequest { lr_totp_code : option string }.
Inductive AuthenticationNextStep := ChangePassword | TotpRequired | Authenticated.
Record AuthenticationResult := mkAuthenticationResult {
  ar_next_step : AuthenticationNextStep;
  ar_session_id : option string;
}.

(** * Errors ([client/src/error/auth_error.rs])

    [Panicked] is not a constructor of the source: it is the outcome of an [expect] that
    fails, which unwinds the handler. *)
Inductive AuthError :=
  | BadRequest (m : string)
  | Config (m : string)
  | Conflict (m : string)
  | Cookie (m : string)
  | Db (m : string)
  | Forbidden (m : string)
  | Generic (m : string)
  | Init (m : string)
  | JWT (m : string)
  | JWKS (m : string)
  | FailedHttpStatus (m : string)
  | Session (m : string)
  | SessionNotFound
  | SamlError (m : string)
  | Totp (m : string)
  | Unexpected (m : string)
  | Panicked (m : string).

(** [impl Display] (the [#[error]] attributes). *)
Definition auth_error_to_string (e : AuthError) : string :=
  match e with
  | BadRequest m => "Bad Request: " +:+ m
  | Config m => "Configuration error: " +:+ m
  | Conflict m => "Conflict: " +:+ m
  | Cookie m => "Cookie error: " +:+ m
  | Db m => "DB Error: " +:+ m
  | Forbidden m => "Forbidden: " +:+ m
  | Generic m => m
  | Init m => "server initialization error: " +:+ m
  | JWT m => "JWT error: " +:+ m
  | JWKS m => "JWKS error: " +:+ m
  | FailedHttpStatus m => "failed HTTP status: " +:+ m
  | Session m => "Session error: " +:+ m
  | SessionNotFound => "Session not found"
  | SamlError m => "SAML error: " +:+ m
  | Totp m => "TOTP/2FA error: " +:+ m
  | Unexpected m => "unexpected error: " +:+ m
  | Panicked m => m
  end.

(** [impl ResponseError for AuthError]: the status of the error response. *)
Definition error_response (e : AuthError) : Z :=
  match e with
  | BadRequest _ => 400
  | Conflict _ => 409
  | JWT _ | Session _ | Cookie _ | SamlError _ => 401
  | Forbidden _ => 403
  | SessionNotFound => 404
  | _ => 500
  end.

(** [AuthResultHelper::context] on a [Result] and on an [Option]. *)
Definition context {A E} (to_string : E → string) (ctx : string) (r : Result A E)
    : Result A AuthError :=
  map_err (λ e, Generic (ctx +:+ ": " +:+ to_string e)) r.
Definition context_option {A} (ctx : string) (o : option A) : Result A AuthError :=
  ok_or (Generic ctx) o.

(** * HTTP responses: a status and the value serialised as the JSON body *)
Record HttpResponse (B : Type) := mkResponse { http_status : Z; http_body : B }.
Arguments mkResponse {B} http_status http_body.
Arguments http_status {B} _.
Arguments http_body {B} _.

(** * JWT claims ([client/src/models/client_claims.rs], [certificate_claims.rs]) *)
Record RegisteredClaims := mkRegisteredClaims {
  rc_iss : option string;
  rc_sub : option string;
  rc_aud : option (list string);
  rc_exp : option Z;
  rc_nbf : option Z;
  rc_iat : option Z;
  rc_jti : option string;
}.
Definition RegisteredClaims_default : RegisteredClaims :=
  mkRegisteredClaims None None None None None None None.
Record AuthorizationClaims := mkAuthorizationClaims { ac_roles : option (list string) }.
Record AuthPrivateClaims := mkAuthPrivateClaims {
  apc_auth_scheme : option AuthScheme;
  apc_realm_id : option string;
}.
Record ClientClaims := mkClientClaims {
  cc_registered : RegisteredClaims;
  cc_authorization : AuthorizationClaims;
  cc_private : AuthPrivateClaims;
  cc_extra : gmap string Value;
}.
Record CertificateClaims := mkCertificateClaims {
  cert_realm_id : string;
  cert_sub : option string;
  cert_auth_scheme : AuthScheme;
  cert_verification_key : string;
  cert_iat : Z;
  cert_exp : Z;
  cert_extra : gmap string Value;
}.
