(* ===== verification/Jwt.v ===== *)
(** The [jsonwebtoken] crate as its callers see it: algorithms, the token header, the
    [Validation] settings with their defaults, and its functions as parameters. *)
From S2P Require Import Prelude RustStd Models.

Inductive JwtAlgorithm :=
  | HS256 | HS384 | HS512 | ES256 | ES384 | RS256 | RS384 | RS512 | PS256 | PS384 | PS512 | EdDSA.
#[export] Instance JwtAlgorithm_eq_dec : EqDecision JwtAlgorithm.
Proof. solve_decision. Defined.
Record JwtHeader := mkJwtHeader { jh_alg : JwtAlgorithm; jh_kid : option string }.

(** [jsonwebtoken::Validation] *)
Record Validation := mkValidation {
  val_algorithm : JwtAlgorithm;
  val_leeway : Z;
  val_validate_exp : bool;
  val_validate_nbf : bool;
  val_validate_aud : bool;
  val_required_spec_claims : list string;
  val_aud : option (list string);
  val_iss : option (list string);
}.
(** [Validation::new(alg)] *)
Definition Validation_new (alg : JwtAlgorithm) : Validation :=
  mkValidation alg 60 true false true ["exp"] None None.

Class JwtLibs := {
  Jwk : Type;
  DecodingKey : Type;
  decode_header : string → Result JwtHeader string;
  (** A JSON value through [serde_json::from_value::<Jwk>] *)
  jwk_of_json : Value → option Jwk;
  jwk_key_id : Jwk → option string;
  (** [DecodingKey::from_jwk] *)
  decoding_key_of_jwk : Jwk → Result DecodingKey string;
  jwt_algorithm_debug : JwtAlgorithm → string;
  (** [{:?}] on the errors of the attempted configurations *)
  jwt_errors_debug : list AuthError → string;
}.

(** [k.get(name)] on a JSON value; of equal keys the last one counts. *)
Fixpoint assoc_last {A} (name : string) (l : list (string * A)) : option A :=
  match l with
  | [] => None
  | (k, v) :: l' => match assoc_last name l' with
                    | Some w => Some w
                    | None => if decide (k = name) then Some v else None
                    end
  end.
Definition json_get (name : string) (v : Value) : option Value :=
  match v with VObject l => assoc_last name l | _ => None end.
(** [k.get(name).and_then(|v| v.as_str())] *)
Definition json_str_field (name : string) (v : Value) : option string :=
  match json_get name v with Some (VString s) => Some s | _ => None end.
