(* ===== verification/ClaimPolicy.v ===== *)
(** The policy on extra claims ([client/src/models/claim_policy.rs]) and the flat JSON
    object the claim types serialise to.  The server computes the reserved names by
    serialising fully populated samples; the theorems say what that buys: an extra-claims
    map the policy accepts can never make a token or a certificate carry a claim twice. *)
From S2P Require Import Prelude RustStd Models.
From stdpp Require Import pretty.

(** * Serialisation to the flat object ([#[serde(flatten)]], [skip_serializing_if])

    The fields in the order serde emits them, duplicates included: a flattened map is
    emitted after the typed fields without any deduplication against them. *)
Definition opt_field {A} (k : string) (f : A → Value) (o : option A) : list (string * Value) :=
  match o with Some a => [(k, f a)] | None => [] end.

Definition strings_value (l : list string) : Value := VArray (VString <$> l).
Definition int_value (z : Z) : Value := VNumber (pretty z).

Definition client_claims_fields (c : ClientClaims) : list (string * Value) :=
  let r := cc_registered c in
  opt_field "iss" VString (rc_iss r) ++
  opt_field "sub" VString (rc_sub r) ++
  opt_field "aud" strings_value (rc_aud r) ++
  opt_field "exp" int_value (rc_exp r) ++
  opt_field "nbf" int_value (rc_nbf r) ++
  opt_field "iat" int_value (rc_iat r) ++
  opt_field "jti" VString (rc_jti r) ++
  opt_field "roles" strings_value (ac_roles (cc_authorization c)) ++
  opt_field "as_as" (λ s, VString (auth_scheme_name s)) (apc_auth_scheme (cc_private c)) ++
  opt_field "as_rid" VString (apc_realm_id (cc_private c)) ++
  map_to_list (cc_extra c).

Definition certificate_claims_fields (c : CertificateClaims) : list (string * Value) :=
  [("realm_id", VString (cert_realm_id c))] ++
  opt_field "sub" VString (cert_sub c) ++
  [("auth_scheme", VString (auth_scheme_name (cert_auth_scheme c)));
   ("verification_key", VString (cert_verification_key c));
   ("iat", int_value (cert_iat c));
   ("exp", int_value (cert_exp c))] ++
  map_to_list (cert_extra c).

(** [object_keys]: the top-level keys of the serialised object. *)
Definition object_keys (fields : list (string * Value)) : gset string :=
  list_to_set fields.*1.

(** * [reserved_claim_names] *)
Definition client_claims_sample : ClientClaims := {|
  cc_registered := mkRegisteredClaims (Some "") (Some "") (Some []) (Some 0%Z) (Some 0%Z)
                     (Some 0%Z) (Some "");
  cc_authorization := mkAuthorizationClaims (Some []);
  cc_private := mkAuthPrivateClaims (Some UsernamePassword) (Some "");
  cc_extra := ∅;
|}.
Definition certificate_claims_sample : CertificateClaims := {|
  cert_realm_id := "";
  cert_sub := Some "";
  cert_auth_scheme := UsernamePassword;
  cert_verification_key := "";
  cert_iat := 0;
  cert_exp := 0;
  cert_extra := ∅;
|}.
Definition reserved_claim_names : gset string :=
  object_keys (client_claims_fields client_claims_sample) ∪
  object_keys (certificate_claims_fields certificate_claims_sample).

(** The first reserved name in iteration order is reported. *)
Fixpoint reject_reserved_claim_names (names : list string) : Result () AuthError :=
  match names with
  | [] => Ok ()
  | name :: names' =>
      if decide (name ∈ reserved_claim_names) then
        Err (BadRequest ("'" +:+ name +:+
          "' is a reserved claim name and cannot be used as an extra claim"))
      else reject_reserved_claim_names names'
  end.

(** * [validate_extra_claims_size] *)
Definition MAX_EXTRA_CLAIMS_BYTES : nat := 4096.

Definition validate_extra_claims_size `{Serde (gmap string Value)} (claims : gmap string Value)
    : Result () AuthError :=
  match to_json claims with
  | Err _ => Err (Panicked "a HashMap<String, Value> always serializes without error")
  | Ok text =>
      let size := String.length text in
      if decide (MAX_EXTRA_CLAIMS_BYTES < size) then
        Err (BadRequest ("extra_claims is " +:+ pretty size +:+
          " bytes when serialized, exceeding the " +:+ pretty MAX_EXTRA_CLAIMS_BYTES +:+
          "-byte limit"))
      else Ok ()
  end.

(** * The [aud] deserialiser: one string or an array, normalised to a list *)
Definition value_as_string (v : Value) : option string :=
  match v with VString s => Some s | _ => None end.
Definition deserialize_aud (v : Value) : option (option (list string)) :=
  match v with
  | VNull => Some None
  | VString s => Some (Some [s])
  | VArray l => Some <$> mapM value_as_string l
  | _ => None
  end.

(** * Lemmas *)

Definition reserved_claim_list : list string :=
  ["iss"; "sub"; "aud"; "exp"; "nbf"; "iat"; "jti"; "roles"; "as_as"; "as_rid";
   "realm_id"; "sub"; "auth_scheme"; "verification_key"; "iat"; "exp"].

Lemma elem_of_reserved k : k ∈ reserved_claim_names ↔ k ∈ reserved_claim_list.
Proof.
  unfold reserved_claim_names, object_keys. rewrite elem_of_union, !elem_of_list_to_set.
  rewrite <-elem_of_app. done.
Qed.

Lemma reject_reserved_ok names :
  reject_reserved_claim_names names = Ok () ↔ ∀ n, n ∈ names → n ∉ reserved_claim_names.
Proof.
  induction names as [|n names IH]; cbn [reject_reserved_claim_names].
  { split; [intros _ n Hn; by apply elem_of_nil in Hn|done]. }
  destruct (decide (n ∈ reserved_claim_names)) as [Hin|Hin].
  - split; [done|]. intros H. exfalso. eapply H; [|exact Hin]. by apply list_elem_of_here.
  - rewrite IH. setoid_rewrite elem_of_cons. clear IH. naive_solver.
Qed.

(** The typed keys, in emission order, whatever is skipped. *)
Definition client_typed_keys : list string :=
  ["iss"; "sub"; "aud"; "exp"; "nbf"; "iat"; "jti"; "roles"; "as_as"; "as_rid"].
Definition certificate_typed_keys : list string :=
  ["realm_id"; "sub"; "auth_scheme"; "verification_key"; "iat"; "exp"].

Lemma opt_field_sublist {A} k (f : A → Value) o (ks : list string) rest :
  rest.*1 `sublist_of` ks → (opt_field k f o ++ rest).*1 `sublist_of` k :: ks.
Proof. intros H. destruct o; simpl; [by apply sublist_skip|by apply sublist_cons]. Qed.

Definition without_extra (c : ClientClaims) : ClientClaims :=
  mkClientClaims (cc_registered c) (cc_authorization c) (cc_private c) ∅.
Definition cert_without_extra (c : CertificateClaims) : CertificateClaims :=
  mkCertificateClaims (cert_realm_id c) (cert_sub c) (cert_auth_scheme c)
    (cert_verification_key c) (cert_iat c) (cert_exp c) ∅.

Lemma client_claims_fields_split c :
  client_claims_fields c = client_claims_fields (without_extra c) ++ map_to_list (cc_extra c).
Proof.
  destruct c as [r a p extra]. unfold client_claims_fields, without_extra.
  cbn [cc_registered cc_authorization cc_private cc_extra].
  by rewrite map_to_list_empty, app_nil_r, <-!(assoc_L (++)).
Qed.
Lemma certificate_claims_fields_split c :
  certificate_claims_fields c =
    certificate_claims_fields (cert_without_extra c) ++ map_to_list (cert_extra c).
Proof.
  destruct c as [r s a k i e extra]. unfold certificate_claims_fields, cert_without_extra.
  cbn [cert_realm_id cert_sub cert_auth_scheme cert_verification_key cert_iat cert_exp cert_extra].
  by rewrite map_to_list_empty, app_nil_r, <-!(assoc_L (++)).
Qed.
Lemma client_typed_sublist c :
  (client_claims_fields (without_extra c)).*1 `sublist_of` client_typed_keys.
Proof.
  unfold client_claims_fields, client_typed_keys; simpl. rewrite map_to_list_empty.
  repeat apply opt_field_sublist. constructor.
Qed.
Lemma certificate_typed_sublist c :
  (certificate_claims_fields (cert_without_extra c)).*1 `sublist_of` certificate_typed_keys.
Proof.
  unfold certificate_claims_fields, certificate_typed_keys; simpl. rewrite map_to_list_empty.
  apply sublist_skip, opt_field_sublist. done.
Qed.

Lemma typed_keys_reserved k :
  k ∈ client_typed_keys ∨ k ∈ certificate_typed_keys → k ∈ reserved_claim_names.
Proof.
  rewrite elem_of_reserved, <-elem_of_app. done.
Qed.

(** Flattening a map after typed fields whose keys avoid it yields no duplicate. *)
Lemma flatten_nodup (typed : list (string * Value)) keys (extra : gmap string Value) :
  NoDup keys → typed.*1 `sublist_of` keys → (∀ k, k ∈ dom extra → k ∉ keys) →
  NoDup (typed ++ map_to_list extra).*1.
Proof.
  intros Hnd Hsub Hdisj. rewrite fmap_app. apply NoDup_app. split_and!.
  - by eapply sublist_NoDup.
  - intros k Hk ([k' v] & -> & Hkv)%list_elem_of_fmap. simpl in *.
    apply elem_of_map_to_list in Hkv. apply (Hdisj k'); [by apply elem_of_dom_2 in Hkv|].
    by eapply elem_of_sublist.
  - apply NoDup_fst_map_to_list.
Qed.

Lemma flatten_dup (typed : list (string * Value)) k v :
  k ∈ typed.*1 → ¬ NoDup (typed ++ map_to_list ({[ k := v ]} : gmap string Value)).*1.
Proof.
  rewrite map_to_list_singleton, fmap_app, NoDup_app. simpl. set_solver.
Qed.

(** * Properties *)

(** The reserved-name policy is exact.  A set of extra claim names is accepted precisely
    when no session token and no certificate that carries extra claims under those names can
    contain the same claim name twice once serialised. *)
Theorem reserved_claim_policy_exact (names : list string) :
  reject_reserved_claim_names names = Ok () ↔
  (∀ c : ClientClaims, (∀ k, k ∈ dom (cc_extra c) → k ∈ names) →
     NoDup (client_claims_fields c).*1) ∧
  (∀ c : CertificateClaims, (∀ k, k ∈ dom (cert_extra c) → k ∈ names) →
     NoDup (certificate_claims_fields c).*1).
Proof.
  rewrite reject_reserved_ok. split.
  - intros Hok. split; intros c Hc.
    + rewrite client_claims_fields_split.
      apply flatten_nodup with client_typed_keys; [by apply (bool_decide_unpack _)|
        apply client_typed_sublist|].
      intros k Hk Hin. apply (Hok k); [by apply Hc|]. apply typed_keys_reserved; auto.
    + rewrite certificate_claims_fields_split.
      apply flatten_nodup with certificate_typed_keys;
        [by apply (bool_decide_unpack _)|apply certificate_typed_sublist|].
      intros k Hk Hin. apply (Hok k); [by apply Hc|]. apply typed_keys_reserved; auto.
  - intros [Hcl Hce] n Hn Hres.
    assert (Hsub : ∀ k, k ∈ dom ({[ n := VNull ]} : gmap string Value) → k ∈ names).
    { intros k. rewrite dom_singleton, elem_of_singleton. by intros ->. }
    unfold reserved_claim_names, object_keys in Hres.
    apply elem_of_union in Hres as [Hres|Hres]; apply elem_of_list_to_set in Hres.
    + pose proof (Hcl (mkClientClaims (cc_registered client_claims_sample)
        (cc_authorization client_claims_sample) (cc_private client_claims_sample)
        {[ n := VNull ]}) Hsub) as Hnd.
      rewrite client_claims_fields_split in Hnd. by eapply flatten_dup, Hnd.
    + pose proof (Hce (mkCertificateClaims "" (Some "") UsernamePassword "" 0 0
        {[ n := VNull ]}) Hsub) as Hnd.
      rewrite certificate_claims_fields_split in Hnd. by eapply flatten_dup, Hnd.
Qed.
