(* ===== verification/Passwords.v ===== *)
(** Password hashing ([server/src/database/passwords.rs]).

    The Argon2 library and the PHC string format are a parameter ([Argon2]); the code's own
    part is which algorithm, version and cost parameters it hashes with and which it accepts
    from a caller that supplies an already computed hash. *)
From S2P Require Import Prelude RustStd Models.
From stdpp Require Import countable pretty.

(** * The [argon2] and [password_hash] crates *)

(** A parsed PHC string ([PasswordHash]); [phc_params] is [Params::try_from]. *)
Record Phc := mkPhc {
  phc_algorithm : string;
  phc_version : option Z;
  phc_params : Result (Z * Z * Z) string;
  phc_salt : option string;
  phc_hash : option string;
}.

Class Argon2 := {
  (** [PasswordHash::new] *)
  phc_parse : string → Result Phc string;
  (** [Argon2::new(algorithm, version, (m, t, p)).hash_password(password, salt)] *)
  argon2_hash_password : string → Z → Z * Z * Z → string → string → Result string string;
  (** [Argon2::verify_password(password, hash)]: costs are taken from the hash. *)
  argon2_verify_password : string → Phc → bool;
}.

(** What the crates document: hashing emits a PHC string that records the parameters it was
    computed with, and the password verifies against it. *)
Class Argon2Laws `{Argon2} : Prop := argon2_hash_spec :
  ∀ algorithm version params password salt h,
    argon2_hash_password algorithm version params password salt = Ok h →
    ∃ phc, phc_parse h = Ok phc ∧ phc_algorithm phc = algorithm ∧
      phc_version phc = Some version ∧ phc_params phc = Ok params ∧
      argon2_verify_password password phc = true ∧ utf8_valid h = true.

(** * The server's functions *)
Definition argon2id_ident : string := "argon2id".
Definition Version_V0x13 : Z := 19.
(** [server_argon2_params]: [(m_cost, t_cost, p_cost)] *)
Definition server_argon2_params : Z * Z * Z := (65536, 3, 4)%Z.

Section passwords.
Context `{Argon2}.

(** The salt is the random value the code draws from [OsRng]. *)
Definition hash_password_with_argon2 (salt password : string) : Result string AuthError :=
  map_err (λ e, Unexpected ("Failed to hash password with Argon2: " +:+ e))
    (argon2_hash_password argon2id_ident Version_V0x13 server_argon2_params password salt).

Definition validate_argon2_phc_string (hash : string) : Result () AuthError :=
  let? parsed := map_err (λ e, BadRequest ("not a valid Argon2 PHC string: " +:+ e))
                   (phc_parse hash) in
  if decide (phc_algorithm parsed ≠ argon2id_ident) then
    Err (BadRequest ("unsupported password hash algorithm '" +:+ phc_algorithm parsed +:+
      "': only " +:+ argon2id_ident +:+ " is accepted"))
  else if decide (phc_version parsed ≠ Some Version_V0x13) then
    Err (BadRequest ("unsupported Argon2 version " +:+
      match phc_version parsed with None => "none" | Some v => pretty v end +:+
      ": only version " +:+ pretty Version_V0x13 +:+ " is accepted"))
  else
    let? params := map_err (λ e, BadRequest ("unreadable Argon2 parameters: " +:+ e))
                     (phc_params parsed) in
    let '(m, t, p) := params in
    let '(sm, st, sp) := server_argon2_params in
    if decide (m ≠ sm ∨ t ≠ st ∨ p ≠ sp) then
      Err (BadRequest ("Argon2 parameters must match this server's own preset (m=" +:+
        pretty sm +:+ ", t=" +:+ pretty st +:+ ", p=" +:+ pretty sp +:+ "); got m=" +:+
        pretty m +:+ ", t=" +:+ pretty t +:+ ", p=" +:+ pretty p))
    else Ok ().

Definition verify_password_argon2 (stored password : string) : Result () AuthError :=
  let? parsed_hash := map_err (λ e, Unexpected ("Invalid stored password hash: " +:+ e))
                        (phc_parse stored) in
  if argon2_verify_password password parsed_hash then Ok ()
  else Err (Session "invalid credentials").

(** * Lemmas *)
Lemma validate_phc_ok h :
  validate_argon2_phc_string h = Ok () ↔
  ∃ phc, phc_parse h = Ok phc ∧ phc_algorithm phc = argon2id_ident ∧
    phc_version phc = Some Version_V0x13 ∧ phc_params phc = Ok server_argon2_params.
Proof.
  unfold validate_argon2_phc_string. destruct (phc_parse h) as [phc|e]; simpl; [|naive_solver].
  split.
  - case_decide; [done|]. case_decide; [done|].
    destruct (phc_params phc) as [[[m t] p]|] eqn:Hp; simpl; [|done].
    case_decide as Hc; [done|]. intros _. exists phc. split_and!; [done..|].
    rewrite Hp. unfold server_argon2_params. repeat f_equal; apply dec_stable; tauto.
  - intros (? & [= <-] & -> & -> & ->). by vm_compute.
Qed.

Lemma verify_hash_ok `{!Argon2Laws} salt password h :
  hash_password_with_argon2 salt password = Ok h → verify_password_argon2 h password = Ok ().
Proof.
  unfold hash_password_with_argon2, verify_password_argon2.
  destruct (argon2_hash_password _ _ _ _ _) as [h'|] eqn:Hh; [|done]. intros [= <-].
  apply argon2_hash_spec in Hh as (phc & -> & _ & _ & _ & Hv & _). simpl. by rewrite Hv.
Qed.

Lemma validate_hash_ok `{!Argon2Laws} salt password h :
  hash_password_with_argon2 salt password = Ok h → validate_argon2_phc_string h = Ok ().
Proof.
  unfold hash_password_with_argon2.
  destruct (argon2_hash_password _ _ _ _ _) as [h'|] eqn:Hh; [|done]. intros [= <-].
  apply argon2_hash_spec in Hh as (phc & ? & ? & ? & ? & _). apply validate_phc_ok. eauto.
Qed.

Lemma hash_password_utf8 `{!Argon2Laws} salt password h :
  hash_password_with_argon2 salt password = Ok h → utf8_valid h = true.
Proof.
  unfold hash_password_with_argon2.
  destruct (argon2_hash_password _ _ _ _ _) as [h'|] eqn:Hh; [|done]. intros [= <-].
  by apply argon2_hash_spec in Hh as (phc & ? & ? & ? & ? & ? & ?).
Qed.
End passwords.

(** * A concrete hash, for the witnesses: the PHC record itself, encoded *)
Module ToyArgon2.
#[local] Instance phc_eq_dec : EqDecision Phc.
Proof. unfold EqDecision. intros. unfold Decision. repeat decide equality. Defined.
Definition to_tuple (p : Phc) : string * option Z * (Z * Z * Z + string) * option string * option string :=
  (phc_algorithm p, phc_version p,
   match phc_params p with Ok a => inl a | Err e => inr e end, phc_salt p, phc_hash p).
Definition of_tuple (t : string * option Z * (Z * Z * Z + string) * option string * option string) : Phc :=
  let '(a, v, ps, s, h) := t in
  mkPhc a v (match ps with inl x => Ok x | inr e => Err e end) s h.
Lemma of_to_tuple p : of_tuple (to_tuple p) = p.
Proof. by destruct p as [? ? [[[] ]|] ? ?]. Qed.
#[local] Instance phc_countable : Countable Phc := inj_countable' to_tuple of_tuple of_to_tuple.

Definition toy_argon2 : Argon2 := {|
  phc_parse := @from_json Phc countable_serde;
  argon2_hash_password a v ps pw salt :=
    @to_json Phc countable_serde (mkPhc a (Some v) (Ok ps) (Some salt) (Some pw));
  argon2_verify_password pw p := bool_decide (phc_hash p = Some pw);
|}.
Lemma bits_of_pos_utf8 p : utf8_valid (bits_of_pos p) = true.
Proof.
  unfold utf8_valid. induction p as [p IH|p IH|]; simpl; [exact IH|exact IH|done].
Qed.
Lemma toy_argon2_laws : @Argon2Laws toy_argon2.
Proof.
  intros a v ps pw salt h [= <-]. exists (mkPhc a (Some v) (Ok ps) (Some salt) (Some pw)).
  destruct (@countable_serde_laws Phc _ _ (mkPhc a (Some v) (Ok ps) (Some salt) (Some pw)))
    as (s & [= <-] & Hs).
  split_and!; try done; [by apply bool_decide_eq_true|apply bits_of_pos_utf8].
Qed.
End ToyArgon2.
