(* ===== verification/Totp.v ===== *)
(** TOTP configuration ([server/src/totp.rs]) over the [totp_rs] crate, a parameter. *)
From S2P Require Import Prelude RustStd Models.

Inductive Algorithm := SHA1 | SHA256 | SHA512.
#[export] Instance Algorithm_eq_dec : EqDecision Algorithm.
Proof. solve_decision. Defined.

(** * The [totp_rs] crate *)
Class TotpRs := {
  TOTP : Type;
  (** [TOTP::new(algorithm, digits, skew, step, secret, issuer, account_name)] *)
  totp_new : Algorithm → Z → Z → Z → string → option string → string → Result TOTP string;
  (** [Secret::Encoded(s).to_bytes()] *)
  secret_to_bytes : string → Result string string;
  totp_get_secret_base32 : TOTP → string;
  totp_get_url : TOTP → string;
  (** [check_current] at the given Unix time *)
  totp_check : TOTP → Z → string → Result bool string;
}.

(** * [TotpParams] *)
Record TotpParams := mkTotpParams {
  tp_algorithm : Algorithm;
  tp_digits : Z;
  tp_skew : Z;
  tp_step : Z;
}.
Definition TotpParams_default : TotpParams := mkTotpParams SHA1 6 1 30.

Definition realm_params_to_totp_params (p : TotpRealmParams) : Result TotpParams AuthError :=
  let other := to_ascii_uppercase (trp_algorithm p) in
  let? algorithm :=
    (if decide (other = "SHA1") then Ok SHA1
     else if decide (other = "SHA256") then Ok SHA256
     else if decide (other = "SHA512") then Ok SHA512
     else Err (Totp ("Unknown TOTP algorithm '" +:+ other +:+
            "'; supported values: SHA1, SHA256, SHA512"))) in
  Ok (mkTotpParams algorithm 6 1 (trp_step p)).

Section totps.
Context `{TotpRs}.

Definition totp_build (params : TotpParams) (secret_bytes : string) (issuer : option string)
    (account_name : string) : Result TOTP AuthError :=
  map_err (λ e, Totp ("Failed to create TOTP: " +:+ e))
    (totp_new (tp_algorithm params) (tp_digits params) (tp_skew params) (tp_step params)
       secret_bytes issuer account_name).

(** [Totps::from_secret] *)
Definition from_secret (secret_base32 : string) (issuer : option string)
    (account_name : string) (params : option TotpParams) : Result TOTP AuthError :=
  let params := default TotpParams_default params in
  let? secret_bytes := map_err (λ e, Totp ("Invalid Base32 secret: " +:+ e))
                         (secret_to_bytes secret_base32) in
  totp_build params secret_bytes issuer account_name.

(** [Totps::with_params_and_account]; [secret] is the raw secret drawn by
    [Secret::generate_secret], for which [to_bytes] is the identity. *)
Definition with_params_and_account (secret : string) (params : TotpParams)
    (issuer : option string) (account_name : string) : Result TOTP AuthError :=
  totp_build params secret issuer account_name.

(** [Totps::new] *)
Definition Totps_new (secret : string) : Result TOTP AuthError :=
  with_params_and_account secret TotpParams_default None "".

(** [Totps::validate_token] at time [now] *)
Definition validate_token (totp : TOTP) (now : Z) (token : string) : Result bool AuthError :=
  map_err (λ e, Totp ("System time error: " +:+ e)) (totp_check totp now token).

(** [create_totp_secret] / [Totps::generate_secret_and_totps] *)
Definition create_totp_secret (secret issuer account_name : string)
    (params : option TotpParams) : Result (TOTP * string) AuthError :=
  let? totps := with_params_and_account secret (default TotpParams_default params)
                  (Some issuer) account_name in
  Ok (totps, totp_get_secret_base32 totps).
End totps.
