(* ===== verification/Database.v ===== *)
(** The credential store ([server/src/database]): the rows of the [Database] trait, the tables
    of the SQLite backend ([impls/sqlite.rs]) with their keys and foreign keys, and every
    operation of the trait as that backend implements it.

    A table is a finite map from its primary key to its remaining columns; JSON columns hold
    text.  One SQL statement is one atomic step; an operation made of several statements is
    their sequence, and the statements before a failing one stay executed.  Clock readings are
    arguments.  A query without [ORDER BY] answers in the order of the map. *)
From S2P Require Import Prelude RustStd Models Passwords Totp.
From stdpp Require Import pretty.

(** * Errors ([database/error.rs]) *)

(** The [sqlx::Error]s the code tells apart, and the decoding errors. *)
Inductive SqlxError :=
  | UniqueViolation
  | ForeignKeyViolation
  | CheckViolation
  | ColumnDecode (column : string)
  (** of PostgreSQL and MySQL: a text the server refuses, a sum out of the range of its type, a
      value longer than its column *)
  | InvalidText
  | OutOfRange
  | DataTooLong
  | InvalidJson
  (** a schema statement the server refuses *)
  | SchemaRefused
  | NoSuchTable.

(** What the development needs of [sqlx]: the text of an error, and what decoding a NULL
    column of SQLite as a plain [i64] or [String] yields. *)
Class Sqlx := {
  sqlx_to_string : SqlxError → string;
  sqlite_null_i64 : string → Result Z SqlxError;
  sqlite_null_string : string → Result string SqlxError;
}.

Inductive AuthDbError :=
  | DbUnexpected (m : string)
  | DbInit (m : string)
  | DbSql (e : SqlxError)
  | DbAuthMethod (m : string)
  | DbPasswordHashing (m : string)
  | DbInvalidCredentials
  | DbConflict (m : string).

Definition is_unique_violation (e : SqlxError) : bool :=
  match e with UniqueViolation => true | _ => false end.
Definition from_insert_error (conflict_message : string) (e : SqlxError) : AuthDbError :=
  if is_unique_violation e then DbConflict conflict_message else DbSql e.
Definition db_error_to_string `{Sqlx} (e : AuthDbError) : string :=
  match e with
  | DbUnexpected m => "unexpected DB error: " +:+ m
  | DbInit m => "DB initialization error: " +:+ m
  | DbSql e => "DB query error: " +:+ sqlx_to_string e
  | DbAuthMethod m => "Invalid DB auth method error: " +:+ m
  | DbPasswordHashing m => "Password hashing error: " +:+ m
  | DbInvalidCredentials => "Invalid credentials"
  | DbConflict m => m
  end.
(** [impl From<AuthDbError> for AuthError] *)
Definition auth_error_of_db `{Sqlx} (e : AuthDbError) : AuthError :=
  match e with
  | DbConflict m => Conflict m
  | _ => Db (db_error_to_string e)
  end.

(** * Records of the trait ([database/trait.rs]) *)
Record AppToken := mkAppToken {
  tok_token_hash : string;
  tok_entity : string;
  tok_policies : list string;
  tok_expiry : Z;
  tok_renewable : bool;
  tok_lease_duration_secs : Z;
  tok_created_at : Z;
}.
Record AppRole := mkAppRole {
  role_name : string;
  role_role_id : string;
  role_secret_id_ttl_secs : Z;
  role_token_ttl_secs : Z;
  role_bind_secret_id : bool;
  role_token_policies : list string;
}.
Record AppSecretId := mkAppSecretId {
  sid_accessor : string;
  sid_secret_id_hash : string;
  sid_role_name : string;
  sid_expiry : Z;
  sid_num_uses_remaining : Z;
}.
Record K8sRole := mkK8sRole {
  k8s_name : string;
  k8s_jwks_url : string;
  k8s_bound_sa_names : string;
  k8s_bound_sa_namespaces : string;
  k8s_token_ttl_secs : Z;
  k8s_expected_issuer : option string;
  k8s_bound_audiences : string;
}.

(** * Tables ([SqliteDatabase::init]) *)
Record RealmRow := mkRealmRow {
  rr_auth_params : string;
  rr_cookie_max_age_seconds : Z;
  rr_max_stale_age_seconds : Z;
  rr_certificate_max_age_seconds : Z;
}.
Record UserpassRow := mkUserpassRow {
  ur_password : string;
  ur_change_password : bool;
  ur_roles : string;
  ur_extra_claims : option string;
}.
Record AdminRow := mkAdminRow {
  ar_userpass : option string;
  ar_jwt : option string;
  ar_fido2 : option string;
  ar_digital_credentials : option string;
  ar_certificate : option string;
  ar_totp_enabled : option Z;
  ar_totp_secret : option string;
  ar_totp_auth_url : option string;
}.
Record AppTokenRow := mkAppTokenRow {
  tr_entity : string;
  tr_policies : string;
  tr_expiry : Z;
  tr_renewable : Z;
  tr_lease_duration_secs : Z;
  tr_created_at : Z;
}.
Record AppRoleRow := mkAppRoleRow {
  or_role_id : string;
  or_secret_id_ttl_secs : Z;
  or_token_ttl_secs : Z;
  or_bind_secret_id : Z;
  or_token_policies : string;
}.
Record SecretIdRow := mkSecretIdRow {
  sr_secret_id_hash : string;
  sr_role_name : string;
  sr_expiry : Z;
  sr_num_uses_remaining : Z;
}.
Record K8sRoleRow := mkK8sRoleRow {
  kr_jwks_url : string;
  kr_bound_sa_names : string;
  kr_bound_sa_namespaces : string;
  kr_token_ttl_secs : Z;
  kr_expected_issuer : option string;
  kr_bound_audiences : string;
}.

Record Database := mkDatabase {
  db_realm : gmap string RealmRow;
  db_userpass : gmap (string * string) UserpassRow;
  db_admin : gmap string AdminRow;
  db_admin_realms : gset (string * string);
  db_app_tokens : gmap string AppTokenRow;
  db_approle_roles : gmap string AppRoleRow;
  db_app_secret_ids : gmap string SecretIdRow;
  db_k8s_roles : gmap string K8sRoleRow;
}.
Definition empty_database : Database := mkDatabase ∅ ∅ ∅ ∅ ∅ ∅ ∅ ∅.

Definition set_realm f d := mkDatabase (f (db_realm d)) (db_userpass d) (db_admin d)
  (db_admin_realms d) (db_app_tokens d) (db_approle_roles d) (db_app_secret_ids d) (db_k8s_roles d).
Definition set_userpass f d := mkDatabase (db_realm d) (f (db_userpass d)) (db_admin d)
  (db_admin_realms d) (db_app_tokens d) (db_approle_roles d) (db_app_secret_ids d) (db_k8s_roles d).
Definition set_admin f d := mkDatabase (db_realm d) (db_userpass d) (f (db_admin d))
  (db_admin_realms d) (db_app_tokens d) (db_approle_roles d) (db_app_secret_ids d) (db_k8s_roles d).
Definition set_admin_realms f d := mkDatabase (db_realm d) (db_userpass d) (db_admin d)
  (f (db_admin_realms d)) (db_app_tokens d) (db_approle_roles d) (db_app_secret_ids d)
  (db_k8s_roles d).
Definition set_app_tokens f d := mkDatabase (db_realm d) (db_userpass d) (db_admin d)
  (db_admin_realms d) (f (db_app_tokens d)) (db_approle_roles d) (db_app_secret_ids d)
  (db_k8s_roles d).
Definition set_approle_roles f d := mkDatabase (db_realm d) (db_userpass d) (db_admin d)
  (db_admin_realms d) (db_app_tokens d) (f (db_approle_roles d)) (db_app_secret_ids d)
  (db_k8s_roles d).
Definition set_app_secret_ids f d := mkDatabase (db_realm d) (db_userpass d) (db_admin d)
  (db_admin_realms d) (db_app_tokens d) (db_approle_roles d) (f (db_app_secret_ids d))
  (db_k8s_roles d).
Definition set_k8s_roles f d := mkDatabase (db_realm d) (db_userpass d) (db_admin d)
  (db_admin_realms d) (db_app_tokens d) (db_approle_roles d) (db_app_secret_ids d)
  (f (db_k8s_roles d)).

Abbreviation DbM := (M Database AuthDbError).
Abbreviation SqlM := (M Database SqlxError).

(** [INSERT]: the CHECK constraint, then uniqueness, then the foreign key. *)
Definition sql_insert (check unique fk : Database → bool) (f : Database → Database) : SqlM () := λ d,
  if negb (check d) then (Err CheckViolation, d)
  else if negb (unique d) then (Err UniqueViolation, d)
  else if negb (fk d) then (Err ForeignKeyViolation, d)
  else (Ok (), f d).

(** [id GLOB '[a-zA-Z0-9_-]*']: the class constrains the first byte, [*] is anything. *)
Definition in_id_class (a : ascii) : bool :=
  let n := nat_of_ascii a in
  ((97 <=? n) && (n <=? 122)) || ((65 <=? n) && (n <=? 90)) || ((48 <=? n) && (n <=? 57))
  || (n =? 95) || (n =? 45).
Definition realm_id_glob (id : string) : bool :=
  match id with EmptyString => false | String a _ => in_id_class a end.

(** An [INTEGER] column that left the [i64] range has become a REAL and no longer decodes. *)
Definition column_i64 (column : string) (z : Z) : Result Z SqlxError :=
  if decide (in_i64 z) then Ok z else Err (ColumnDecode column).

Definition bool_i64 (b : bool) : Z := if b then 1 else 0.

(** The JSON codecs of the stored columns and the libraries the store calls. *)
Class DbLibs := {
  #[global] json_auth_params :: Serde RealmAuthParams;
  #[global] json_strings :: Serde (list string);
  #[global] json_claims :: Serde (gmap string Value);
  #[global] json_string_map :: Serde (gmap string string);
  #[global] lib_sqlx :: Sqlx;
  #[global] lib_argon2 :: Argon2;
  #[global] lib_totp :: TotpRs;
}.

Section operations.
Context {L : DbLibs}.

Definition sql {A} (m : SqlM A) : DbM A := with_err DbSql m.
Definition col {A} (r : Result A SqlxError) : Result A AuthDbError := map_err DbSql r.

(** ** Realms *)
Definition serialize_auth_params (realm : Realm) : Result string AuthDbError :=
  map_err (λ e, DbUnexpected ("Failed to serialize auth_params: " +:+ e))
    (to_json (realm_auth_params realm)).
Definition row_to_realm (r : string * RealmRow) : Result Realm AuthDbError :=
  let '(id, row) := r in
  let? auth_params := map_err (λ e, DbUnexpected ("Failed to deserialize auth_params: " +:+ e))
                        (from_json (rr_auth_params row)) in
  Ok (mkRealm id auth_params (rr_cookie_max_age_seconds row) (rr_max_stale_age_seconds row)
        (rr_certificate_max_age_seconds row)).

Definition create_realm (realm : Realm) : DbM () :=
  let* auth_params_json := of_result (serialize_auth_params realm) in
  with_err (from_insert_error ("realm '" +:+ realm_id realm +:+ "' already exists"))
    (sql_insert (λ _, realm_id_glob (realm_id realm))
       (λ d, bool_decide (db_realm d !! realm_id realm = None))
       (λ _, true)
       (set_realm <[realm_id realm := mkRealmRow auth_params_json
          (realm_session_max_age_seconds realm) (realm_session_max_stale_age_seconds realm)
          (realm_certificate_max_age_seconds realm)]>)).

Definition get_realm (id : string) : DbM (option Realm) :=
  let* row := gets (λ d, db_realm d !! id) in
  of_result (transpose ((λ row, row_to_realm (id, row)) <$> row)).

Definition update_realm (realm : Realm) : DbM () :=
  let* auth_params_json := of_result (serialize_auth_params realm) in
  modify (set_realm (alter (λ _, mkRealmRow auth_params_json
    (realm_session_max_age_seconds realm) (realm_session_max_stale_age_seconds realm)
    (realm_certificate_max_age_seconds realm)) (realm_id realm))).

(** [ON DELETE CASCADE] of [userpass] and [admin_realms]. *)
Definition delete_realm (id : string) : DbM () :=
  modify (λ d,
    let d := set_realm (delete id) d in
    let d := set_userpass (filter (λ kv, kv.1.1 ≠ id)) d in
    set_admin_realms (filter (λ ar, ar.2 ≠ id)) d).

Definition list_realms : DbM (list Realm) :=
  let* rows := gets (λ d, order_by fst (map_to_list (db_realm d))) in
  of_result (try_map row_to_realm rows).

(** ** Username/password entries *)
Definition serialize_roles (roles : list string) : Result string AuthDbError :=
  map_err (λ e, DbUnexpected ("failed to serialize roles: " +:+ e)) (to_json roles).
Definition serialize_extra_claims (extra_claims : option (gmap string Value))
    : Result (option string) AuthDbError :=
  map_err (λ e, DbUnexpected ("failed to serialize extra_claims: " +:+ e))
    (transpose (to_json <$> extra_claims)).
Definition deserialize_roles (username json : string) : Result (list string) AuthDbError :=
  map_err (λ e, DbUnexpected ("failed to deserialize roles for user '" +:+ username +:+ "': "
    +:+ e)) (from_json json).
Definition deserialize_extra_claims (username : string) (json : option string)
    : Result (option (gmap string Value)) AuthDbError :=
  map_err (λ e, DbUnexpected ("failed to deserialize extra_claims for user '" +:+ username
    +:+ "': " +:+ e)) (transpose (from_json <$> json)).
Definition password_utf8 (bytes : string) : Result string AuthDbError :=
  ok_or (DbUnexpected "stored password hash is not valid UTF-8") (from_utf8 bytes).

Definition create_userpass (userpass : UserPass) : DbM () :=
  let* roles_json := of_result (serialize_roles (up_roles userpass)) in
  let* extra_claims_json := of_result (serialize_extra_claims (up_extra_claims userpass)) in
  with_err (from_insert_error ("credentials for '" +:+ up_username userpass +:+
      "' already exist in realm '" +:+ up_realm userpass +:+ "'"))
    (sql_insert (λ _, true)
       (λ d, bool_decide (db_userpass d !! (up_realm userpass, up_username userpass) = None))
       (λ d, bool_decide (is_Some (db_realm d !! up_realm userpass)))
       (set_userpass <[(up_realm userpass, up_username userpass) := mkUserpassRow
          (up_password_hash userpass) (up_change_password userpass) roles_json
          extra_claims_json]>)).

Definition get_userpass (realm username : string) : DbM (option UserPass) :=
  let* row := gets (λ d, db_userpass d !! (realm, username)) in
  match row with
  | Some row => of_result (
      let? roles := deserialize_roles username (ur_roles row) in
      let? extra_claims := deserialize_extra_claims username (ur_extra_claims row) in
      Ok (Some (mkUserPass realm username "" None (ur_change_password row) roles extra_claims)))
  | None => ret None
  end.

Definition update_userpass (userpass : UserPass) : DbM () :=
  let* roles_json := of_result (serialize_roles (up_roles userpass)) in
  let* extra_claims_json := of_result (serialize_extra_claims (up_extra_claims userpass)) in
  modify (set_userpass (alter (λ _, mkUserpassRow (up_password_hash userpass)
    (up_change_password userpass) roles_json extra_claims_json)
    (up_realm userpass, up_username userpass))).

Definition update_userpass_metadata (realm username : string) (change_password : bool)
    (roles : list string) : DbM () :=
  let* roles_json := of_result (serialize_roles roles) in
  modify (set_userpass (alter (λ row, mkUserpassRow (ur_password row) change_password roles_json
    (ur_extra_claims row)) (realm, username))).

Definition delete_userpass (realm username : string) : DbM () :=
  modify (set_userpass (delete (realm, username))).

Definition delete_userpass_by_username (username : string) : DbM () :=
  modify (set_userpass (filter (λ kv, kv.1.2 ≠ username))).

Definition row_to_userpass (r : string * string * UserpassRow) : Result UserPass AuthDbError :=
  let '(realm, username, row) := r in
  let? roles := deserialize_roles username (ur_roles row) in
  let? extra_claims := deserialize_extra_claims username (ur_extra_claims row) in
  let? password_hash := password_utf8 (ur_password row) in
  Ok (mkUserPass realm username password_hash None (ur_change_password row) roles extra_claims).

Definition list_userpass_by_realm (realm : string) : DbM (list UserPass) :=
  let* rows := gets (λ d, order_by (λ r, r.1.2)
    (filter (λ r, r.1.1 = realm) (map_to_list (db_userpass d)))) in
  of_result (try_map row_to_userpass rows).

Definition list_all_userpass : DbM (list UserPass) :=
  let* rows := gets (λ d, order_by2 (λ r, r.1.1) (λ r, r.1.2) (map_to_list (db_userpass d))) in
  of_result (try_map row_to_userpass rows).

Definition validate_userpass (realm username password : string) : DbM bool :=
  let* row := gets (λ d, db_userpass d !! (realm, username)) in
  match row with
  | Some row => of_result (
      let? stored_password := password_utf8 (ur_password row) in
      let? _ := map_err (λ _, DbInvalidCredentials)
                  (verify_password_argon2 stored_password password) in
      Ok (ur_change_password row))
  | None => throw DbInvalidCredentials
  end.

(** ** Administrators *)
Definition serialize_digital_credentials (admin : Admin) : Result (option string) AuthDbError :=
  transpose ((λ digital_credentials,
    map_err (λ e, DbUnexpected ("Failed to serialize digital_credentials: " +:+ e))
      (to_json digital_credentials)) <$> adm_digital_credentials admin).

Definition admin_row (admin : Admin) (digital_credentials_json : option string) : AdminRow :=
  mkAdminRow (adm_userpass admin) (adm_jwt admin) (adm_fido2 admin) digital_credentials_json
    (adm_client_certificate admin) (bool_i64 <$> adm_totp_enabled admin)
    (adm_totp_secret admin) (adm_totp_auth_url admin).

Definition insert_admin_realm (admin_id realm_id : string) : SqlM () :=
  sql_insert (λ _, true)
    (λ d, bool_decide ((admin_id, realm_id) ∉ db_admin_realms d))
    (λ d, bool_decide (is_Some (db_admin d !! admin_id)) &&
          bool_decide (is_Some (db_realm d !! realm_id)))
    (set_admin_realms (union {[ (admin_id, realm_id) ]})).

Definition create_admin (admin : Admin) : DbM () :=
  let* digital_credentials_json := of_result (serialize_digital_credentials admin) in
  with_err (from_insert_error ("admin '" +:+ adm_id admin +:+ "' already exists"))
    (sql_insert (λ _, true)
       (λ d, bool_decide (db_admin d !! adm_id admin = None))
       (λ _, true)
       (set_admin <[adm_id admin := admin_row admin digital_credentials_json]>)) ;;;
  for_each (λ realm_id, sql (insert_admin_realm (adm_id admin) realm_id)) (adm_realms admin).

(** [SELECT realm_id FROM admin_realms WHERE admin_id = ?] *)
Definition select_admin_realms (admin_id : string) (d : Database) : list string :=
  snd <$> filter (λ ar, ar.1 = admin_id) (elements (db_admin_realms d)).

Definition row_to_admin (id : string) (realms : list string) (row : AdminRow)
    : Result Admin AuthDbError :=
  let? digital_credentials := transpose ((λ v,
    map_err (λ e, DbUnexpected ("Failed to deserialize the digital credentials: " +:+ e))
      (from_json v)) <$> ar_digital_credentials row) in
  Ok (mkAdmin id realms (ar_userpass row) (ar_jwt row) (ar_fido2 row) digital_credentials
        (ar_certificate row) ((λ v, bool_decide (v ≠ 0%Z)) <$> ar_totp_enabled row)
        (ar_totp_secret row) (ar_totp_auth_url row)).

Definition get_admin (id : string) : DbM (option Admin) :=
  let* row := gets (λ d, db_admin d !! id) in
  match row with
  | Some row =>
      let* realms := gets (select_admin_realms id) in
      of_result (map_ok Some (row_to_admin id realms row))
  | None => ret None
  end.

Definition update_admin (admin : Admin) : DbM () :=
  let* digital_credentials_json := of_result (serialize_digital_credentials admin) in
  modify (set_admin (alter (λ _, admin_row admin digital_credentials_json) (adm_id admin))) ;;;
  modify (set_admin_realms (filter (λ ar, ar.1 ≠ adm_id admin))) ;;;
  for_each (λ realm_id, sql (insert_admin_realm (adm_id admin) realm_id)) (adm_realms admin).

(** [ON DELETE CASCADE] of [admin_realms]. *)
Definition delete_admin (id : string) : DbM () :=
  modify (λ d, set_admin_realms (filter (λ ar, ar.1 ≠ id)) (set_admin (delete id) d)).

Definition list_admins : DbM (list Admin) :=
  let* rows := gets (λ d, order_by fst (map_to_list (db_admin d))) in
  map_m (λ '(admin_id, row),
    let* realms := gets (select_admin_realms admin_id) in
    of_result (row_to_admin admin_id realms row)) rows.

Definition admin_column (auth_method : AuthScheme) (row : AdminRow) : option string :=
  match auth_method with
  | UsernamePassword => ar_userpass row
  | Jwt => ar_jwt row
  | Fido2 => ar_fido2 row
  | DigitalCredentials => ar_digital_credentials row
  | ClientCertificate => ar_certificate row
  | Saml => None
  end.

Definition find_admins_by_auth_scheme (auth_method : AuthScheme) (value : string)
    : DbM (list Admin) :=
  match auth_method with
  | Saml => ret []
  | _ =>
      let* rows := gets (λ d, fst <$> filter (λ r, admin_column auth_method r.2 = Some value)
                          (map_to_list (db_admin d))) in
      let* admins := map_m get_admin rows in
      ret (omap id admins)
  end.

(** ** TOTP *)
Definition totp_err {A} (r : Result A AuthError) : Result A AuthDbError :=
  map_err (λ e, DbUnexpected ("TOTP error: " +:+ auth_error_to_string e)) r.

(** [secret] is the raw secret the library draws. *)
Definition generate_totp_secret (secret realm username : string) : DbM string :=
  let* totps := of_result (totp_err (Totps_new secret)) in
  ret (totp_get_secret_base32 totps).

(** [WHERE id = ? AND (userpass IS NOT NULL OR jwt IS NOT NULL)] *)
Definition totp_capable (row : AdminRow) : bool :=
  bool_decide (is_Some (ar_userpass row)) || bool_decide (is_Some (ar_jwt row)).
Definition set_totp (enabled : Z) (secret auth_url : option string) (row : AdminRow) : AdminRow :=
  if totp_capable row then
    mkAdminRow (ar_userpass row) (ar_jwt row) (ar_fido2 row) (ar_digital_credentials row)
      (ar_certificate row) (Some enabled) secret auth_url
  else row.

Definition enable_totp (realm username totp_secret issuer : string) : DbM () :=
  let* totps := of_result (totp_err (from_secret totp_secret (Some issuer) username None)) in
  modify (set_admin (alter (set_totp 1 (Some totp_secret) (Some (totp_get_url totps))) username)).

Definition disable_totp (realm username : string) : DbM () :=
  modify (set_admin (alter (set_totp 0 None None) username)).

Definition select_totp_row (username : string) (d : Database) : option AdminRow :=
  match db_admin d !! username with
  | Some row => if totp_capable row then Some row else None
  | None => None
  end.

Definition get_totp_secret (realm username : string) : DbM (option string) :=
  let* row := gets (select_totp_row username) in
  match row with
  | Some row => of_result (map_ok Some
      (match ar_totp_secret row with
       | Some s => Ok s
       | None => col (sqlite_null_string "totp_secret")
       end))
  | None => ret None
  end.

Definition is_totp_enabled (realm username : string) : DbM (option bool) :=
  let* row := gets (select_totp_row username) in
  match row with
  | Some row => of_result (map_ok (λ v, Some (bool_decide (v ≠ 0%Z)))
      (match ar_totp_enabled row with
       | Some v => Ok v
       | None => col (sqlite_null_i64 "totp_enabled")
       end))
  | None => ret None
  end.

(** ** App tokens *)
Definition to_json_or_empty (l : list string) : string :=
  match to_json l with Ok s => s | Err _ => "[]" end.
Definition from_json_or_default (s : string) : list string :=
  match from_json s with Ok l => l | Err _ => [] end.

Definition issue_app_token (token : AppToken) : DbM () :=
  sql (sql_insert (λ _, true)
    (λ d, bool_decide (db_app_tokens d !! tok_token_hash token = None))
    (λ _, true)
    (set_app_tokens <[tok_token_hash token := mkAppTokenRow (tok_entity token)
       (to_json_or_empty (tok_policies token)) (tok_expiry token)
       (bool_i64 (tok_renewable token)) (tok_lease_duration_secs token)
       (tok_created_at token)]>)).

Definition row_to_app_token (token_hash : string) (row : AppTokenRow)
    : Result AppToken AuthDbError :=
  let? expiry := col (column_i64 "expiry" (tr_expiry row)) in
  Ok (mkAppToken token_hash (tr_entity row) (from_json_or_default (tr_policies row)) expiry
        (bool_decide (tr_renewable row ≠ 0%Z)) (tr_lease_duration_secs row)
        (tr_created_at row)).

Definition lookup_app_token (now : Z) (token_hash : string) : DbM (option AppToken) :=
  let* row := gets (λ d, db_app_tokens d !! token_hash) in
  match row with
  | Some row =>
      if decide (tr_expiry row = 0%Z ∨ (tr_expiry row > now)%Z) then
        of_result (map_ok Some (row_to_app_token token_hash row))
      else ret None
  | None => ret None
  end.

Definition renewable_row (now : Z) (row : AppTokenRow) : Prop :=
  tr_renewable row = 1%Z ∧ (tr_expiry row > 0)%Z ∧ (tr_expiry row > now)%Z.
#[export] Instance renewable_row_dec now row : Decision (renewable_row now row).
Proof. unfold renewable_row. apply _. Defined.
Definition extend_row (now : Z) (row : AppTokenRow) : AppTokenRow :=
  mkAppTokenRow (tr_entity row) (tr_policies row) (now + tr_lease_duration_secs row)
    (tr_renewable row) (tr_lease_duration_secs row) (tr_created_at row).

Definition renew_app_token (now : Z) (token_hash : string) : DbM () :=
  let* rows_affected := gets (λ d,
    match db_app_tokens d !! token_hash with
    | Some row => if decide (renewable_row now row) then 1 else 0
    | None => 0
    end) in
  modify (set_app_tokens (alter (λ row,
    if decide (renewable_row now row) then extend_row now row else row) token_hash)) ;;;
  if decide (rows_affected = 0) then
    let* non_expiring := gets (λ d,
      match db_app_tokens d !! token_hash with
      | Some row => bool_decide (tr_renewable row = 1%Z) && bool_decide (tr_expiry row = 0%Z)
      | None => false
      end) in
    if negb non_expiring then
      throw (DbUnexpected "token not found, expired, or not renewable")
    else ret ()
  else ret ().

Definition revoke_app_token (token_hash : string) : DbM () :=
  modify (set_app_tokens (delete token_hash)).

(** ** AppRole *)
Definition approle_row (role : AppRole) : AppRoleRow :=
  mkAppRoleRow (role_role_id role) (role_secret_id_ttl_secs role) (role_token_ttl_secs role)
    (bool_i64 (role_bind_secret_id role)) (to_json_or_empty (role_token_policies role)).

(** [INSERT ... ON CONFLICT(name) DO UPDATE], under [role_id UNIQUE]. *)
Definition create_approle (role : AppRole) : DbM () :=
  sql (sql_insert (λ _, true)
    (λ d, bool_decide (map_Forall (λ name row,
       or_role_id row = role_role_id role → name = role_name role) (db_approle_roles d)))
    (λ _, true)
    (set_approle_roles <[role_name role := approle_row role]>)).

Definition row_to_approle (name : string) (row : AppRoleRow) : AppRole :=
  mkAppRole name (or_role_id row) (or_secret_id_ttl_secs row) (or_token_ttl_secs row)
    (bool_decide (or_bind_secret_id row ≠ 0%Z)) (from_json_or_default (or_token_policies row)).

Definition get_approle_by_role_id (role_id : string) : DbM (option AppRole) :=
  gets (λ d,
    match filter (λ r, or_role_id r.2 = role_id) (map_to_list (db_approle_roles d)) with
    | (name, row) :: _ => Some (row_to_approle name row)
    | [] => None
    end).

Definition get_approle_by_name (name : string) : DbM (option AppRole) :=
  gets (λ d, row_to_approle name <$> db_approle_roles d !! name).

Definition delete_approle (name : string) : DbM () :=
  modify (λ d, set_app_secret_ids (filter (λ kv, sr_role_name kv.2 ≠ name))
                 (set_approle_roles (delete name) d)).

Definition list_approle_names : DbM (list string) :=
  gets (λ d, order_by id (elements (dom (db_approle_roles d)))).

Definition create_secret_id (secret_id : AppSecretId) : DbM () :=
  sql (sql_insert (λ _, true)
    (λ d, bool_decide (db_app_secret_ids d !! sid_accessor secret_id = None))
    (λ d, bool_decide (is_Some (db_approle_roles d !! sid_role_name secret_id)))
    (set_app_secret_ids <[sid_accessor secret_id := mkSecretIdRow
       (sid_secret_id_hash secret_id) (sid_role_name secret_id) (sid_expiry secret_id)
       (sid_num_uses_remaining secret_id)]>)).

Definition usable_secret_id (role_name secret_id_hash : string) (now : Z) (row : SecretIdRow)
    : Prop :=
  sr_role_name row = role_name ∧ sr_secret_id_hash row = secret_id_hash ∧
  (sr_expiry row = 0%Z ∨ (sr_expiry row > now)%Z).
#[export] Instance usable_secret_id_dec role_name h now row :
  Decision (usable_secret_id role_name h now row).
Proof. unfold usable_secret_id. apply _. Defined.

Definition decrement_uses (row : SecretIdRow) : SecretIdRow :=
  mkSecretIdRow (sr_secret_id_hash row) (sr_role_name row) (sr_expiry row)
    (sr_num_uses_remaining row - 1).

(** One [BEGIN IMMEDIATE] transaction: no other writer runs between its statements, so the
    [rows_affected] re-checks always see the row that was read. *)
Definition consume_secret_id (now : Z) (role_name secret_id_hash : string)
    : DbM (option string) :=
  let* rows := gets (λ d, map_to_list (filter (λ r, usable_secret_id role_name secret_id_hash now r.2)
                            (db_app_secret_ids d))) in
  match rows with
  | [] => ret None
  | (accessor, row) :: _ =>
      let num_uses := sr_num_uses_remaining row in
      (if decide (num_uses = 1%Z) then
         modify (set_app_secret_ids (delete accessor))
       else if decide (num_uses > 1)%Z then
         modify (set_app_secret_ids (alter decrement_uses accessor))
       else ret ()) ;;;
      ret (Some accessor)
  end.

Definition destroy_secret_id (role_name accessor : string) : DbM () :=
  modify (set_app_secret_ids (λ m,
    match m !! accessor with
    | Some row => if decide (sr_role_name row = role_name) then delete accessor m else m
    | None => m
    end)).

(** ** Kubernetes roles *)
Definition create_k8s_role (role : K8sRole) : DbM () :=
  modify (set_k8s_roles <[k8s_name role := mkK8sRoleRow (k8s_jwks_url role)
    (k8s_bound_sa_names role) (k8s_bound_sa_namespaces role) (k8s_token_ttl_secs role)
    (k8s_expected_issuer role) (k8s_bound_audiences role)]>).

Definition row_to_k8s_role (name : string) (row : K8sRoleRow) : K8sRole :=
  mkK8sRole name (kr_jwks_url row) (kr_bound_sa_names row) (kr_bound_sa_namespaces row)
    (kr_token_ttl_secs row) (kr_expected_issuer row) (kr_bound_audiences row).

Definition get_k8s_role (name : string) : DbM (option K8sRole) :=
  gets (λ d, row_to_k8s_role name <$> db_k8s_roles d !! name).

Definition delete_k8s_role (name : string) : DbM () :=
  modify (set_k8s_roles (delete name)).

Definition list_k8s_role_names : DbM (list string) :=
  gets (λ d, order_by id (elements (dom (db_k8s_roles d)))).

(** ** Initialisation ([Database::initialize_db], [SqliteDatabase::init]) *)
Definition APP_REALM_ADMIN_USERNAME : string := "admin".
Definition APP_REALM_ADMIN_INITIAL_PASSWORD : string := "change_me".

Definition app_realm : Realm :=
  mkRealm ADMIN_REALM
    (mkRealmAuthParams None (Some (mkUsernamePasswordParams true)) None None)
    3600 3600 (365 * 24 * 3600).
Definition app_admin : Admin :=
  mkAdmin APP_REALM_ADMIN_USERNAME [ADMIN_REALM] (Some APP_REALM_ADMIN_USERNAME)
    None None None None None None None.

Definition initialize_db (salt : string) : DbM () :=
  let* realm := get_realm ADMIN_REALM in
  (if decide (realm = None) then create_realm app_realm else ret ()) ;;;
  let* userpass := get_userpass ADMIN_REALM APP_REALM_ADMIN_USERNAME in
  if decide (userpass = None) then
    let* password_hash := of_result (map_err
      (λ e, DbInit ("failed to set the app admin initial password: " +:+ auth_error_to_string e))
      (hash_password_with_argon2 salt APP_REALM_ADMIN_INITIAL_PASSWORD)) in
    create_userpass (mkUserPass ADMIN_REALM APP_REALM_ADMIN_USERNAME password_hash None true [] None) ;;;
    create_admin app_admin
  else ret ().

(** [init] after its [CREATE TABLE IF NOT EXISTS] statements and column migrations, which
    leave the rows as they are. *)
Definition init (salt : string) : DbM () :=
  let* realm_count := gets (λ d, size (db_realm d)) in
  if decide (realm_count = 0) then initialize_db salt else ret ().
End operations.
