(* ===== verification/DatabaseFacts.v ===== *)
(** Facts about the credential store: the integrity invariant of its tables and that every
    operation keeps it, and what its reads answer under it. *)
From S2P Require Import Prelude RustStd Models Passwords Totp Database.

(** The laws asked of the codecs and of the hashing library. *)
Class DbLaws `{L : DbLibs} : Prop := {
  #[global] law_auth_params :: SerdeLaws RealmAuthParams;
  #[global] law_strings :: SerdeLaws (list string);
  #[global] law_claims :: SerdeLaws (gmap string Value);
  #[global] law_string_map :: SerdeLaws (gmap string string);
  #[global] law_argon2 :: Argon2Laws;
}.

(** * The invariant *)
Section invariant.
Context `{L : DbLibs}.

Definition decodes (A : Type) `{Serde A} (text : string) : Prop :=
  ∃ a : A, from_json text = Ok a.

Record userpass_row_wf (row : UserpassRow) : Prop := {
  wf_roles : decodes (list string) (ur_roles row);
  wf_extra_claims : ∀ t, ur_extra_claims row = Some t → decodes (gmap string Value) t;
  wf_password : utf8_valid (ur_password row) = true;
}.

Record db_wf (d : Database) : Prop := {
  wf_realm : ∀ id row, db_realm d !! id = Some row →
    realm_id_glob id = true ∧ decodes RealmAuthParams (rr_auth_params row);
  wf_userpass : ∀ r u row, db_userpass d !! (r, u) = Some row →
    is_Some (db_realm d !! r) ∧ userpass_row_wf row;
  wf_admin : ∀ id row t, db_admin d !! id = Some row →
    ar_digital_credentials row = Some t → decodes (gmap string string) t;
  wf_admin_realms : ∀ a r, (a, r) ∈ db_admin_realms d →
    is_Some (db_admin d !! a) ∧ is_Some (db_realm d !! r);
  wf_role_ids : ∀ n1 n2 row1 row2, db_approle_roles d !! n1 = Some row1 →
    db_approle_roles d !! n2 = Some row2 → or_role_id row1 = or_role_id row2 → n1 = n2;
  wf_secret_ids : ∀ accessor row, db_app_secret_ids d !! accessor = Some row →
    is_Some (db_approle_roles d !! sr_role_name row);
}.

Lemma empty_database_wf : db_wf empty_database.
Proof. split; cbn; intros *; try rewrite lookup_empty; try done; set_solver. Qed.
End invariant.

Lemma ensures_sql_insert R `{!PreOrder R} check unique fk f :
  (∀ d, check d = true → unique d = true → fk d = true → R d (f d)) →
  ensures R (sql_insert check unique fk f).
Proof.
  intros H d. unfold sql_insert.
  destruct (check d) eqn:?, (unique d) eqn:?, (fk d) eqn:?; simpl; try reflexivity. by apply H.
Qed.

Lemma wp_sql_insert check unique fk f (Q : Result () SqlxError → Database → Prop) d :
  wp (sql_insert check unique fk f) Q d ↔
  match check d, unique d, fk d with
  | false, _, _ => Q (Err CheckViolation) d
  | _, false, _ => Q (Err UniqueViolation) d
  | _, _, false => Q (Err ForeignKeyViolation) d
  | _, _, _ => Q (Ok ()) (f d)
  end.
Proof. unfold wp, sql_insert. by destruct (check d), (unique d), (fk d). Qed.

(** * Reads change nothing *)
Section reading.
Context {L : DbLibs}.

Lemma get_realm_reads id : reads (get_realm id).
Proof. unfold get_realm. solve_reads. Qed.
Lemma list_realms_reads : reads list_realms.
Proof. unfold list_realms. solve_reads. Qed.
Lemma get_userpass_reads r u : reads (get_userpass r u).
Proof. unfold get_userpass. solve_reads. Qed.
Lemma list_userpass_by_realm_reads r : reads (list_userpass_by_realm r).
Proof. unfold list_userpass_by_realm. solve_reads. Qed.
Lemma list_all_userpass_reads : reads list_all_userpass.
Proof. unfold list_all_userpass. solve_reads. Qed.
Lemma validate_userpass_reads r u p : reads (validate_userpass r u p).
Proof. unfold validate_userpass. solve_reads. Qed.
Lemma get_admin_reads id : reads (get_admin id).
Proof. unfold get_admin. solve_reads. Qed.
Lemma find_admins_reads scheme value : reads (find_admins_by_auth_scheme scheme value).
Proof. unfold find_admins_by_auth_scheme. destruct scheme; solve_reads; apply get_admin_reads. Qed.
Lemma list_admins_reads : reads list_admins.
Proof. unfold list_admins. solve_reads. Qed.
Lemma get_totp_secret_reads r u : reads (get_totp_secret r u).
Proof. unfold get_totp_secret. solve_reads. Qed.
Lemma is_totp_enabled_reads r u : reads (is_totp_enabled r u).
Proof. unfold is_totp_enabled. solve_reads. Qed.
Lemma lookup_app_token_reads now h : reads (lookup_app_token now h).
Proof. unfold lookup_app_token. solve_reads. Qed.
End reading.
#[export] Hint Resolve get_realm_reads list_realms_reads get_userpass_reads
  list_userpass_by_realm_reads list_all_userpass_reads validate_userpass_reads get_admin_reads
  list_admins_reads get_totp_secret_reads is_totp_enabled_reads lookup_app_token_reads : reads.

(** * Every operation keeps the invariant *)
Section preservation.
Context `{L : DbLibs} `{!DbLaws}.

Lemma to_json_decodes {A} `{SerdeLaws A} (a : A) text : to_json a = Ok text → decodes A text.
Proof. intros Ht. destruct (serde_roundtrip a) as (s & Hs & Hf). exists a. congruence. Qed.

Lemma serialize_roles_decodes l text : serialize_roles l = Ok text → decodes (list string) text.
Proof.
  unfold serialize_roles. destruct (to_json l) eqn:Ht; [|done]. intros [= <-].
  by eapply to_json_decodes.
Qed.
Lemma serialize_extra_claims_decodes c o t :
  serialize_extra_claims c = Ok o → o = Some t → decodes (gmap string Value) t.
Proof.
  unfold serialize_extra_claims. intros Ho ->. destruct c as [c|]; [|done]. simpl in Ho.
  destruct (to_json c) eqn:Ht; [|done]. simplify_eq/=. by eapply to_json_decodes.
Qed.
Lemma serialize_auth_params_decodes r text :
  serialize_auth_params r = Ok text → decodes RealmAuthParams text.
Proof.
  unfold serialize_auth_params. destruct (to_json _) eqn:Ht; [|done]. intros [= <-].
  by eapply to_json_decodes.
Qed.
Lemma serialize_digital_credentials_decodes a o t :
  serialize_digital_credentials a = Ok o → o = Some t → decodes (gmap string string) t.
Proof.
  unfold serialize_digital_credentials. intros Ho ->.
  destruct (adm_digital_credentials a) as [c|]; [|done]. simpl in Ho.
  destruct (to_json c) eqn:Ht; [|done]. simplify_eq/=. by eapply to_json_decodes.
Qed.

(** ** One lemma per kind of write *)
Ltac wf_split := intros [Hr Hu Ha Har Hri Hsi]; split; cbn; try done.

Lemma wf_insert_realm id row d :
  realm_id_glob id = true → decodes RealmAuthParams (rr_auth_params row) →
  db_wf d → db_wf (set_realm <[id := row]> d).
Proof.
  intros Hid Hrow. wf_split.
  - intros i r [[<- <-]|[? ?]]%lookup_insert_Some; eauto.
  - intros r u x Hx. rewrite lookup_insert_is_Some. destruct (Hu _ _ _ Hx) as [? ?].
    split; [destruct (decide (id = r)); tauto|done].
  - intros a r Hx. rewrite lookup_insert_is_Some. destruct (Har _ _ Hx) as [? ?].
    split; [done|destruct (decide (id = r)); tauto].
Qed.
Lemma wf_alter_realm id f d :
  (∀ row, decodes RealmAuthParams (rr_auth_params row) →
     decodes RealmAuthParams (rr_auth_params (f row))) →
  db_wf d → db_wf (set_realm (alter f id) d).
Proof.
  intros Hf. wf_split.
  - intros i r. rewrite lookup_alter_Some. intros [(<- & y & Hy & ->)|[_ Hy]];
      destruct (Hr _ _ Hy); auto.
  - intros r u row. rewrite lookup_alter_is_Some. apply Hu.
  - intros a r. rewrite lookup_alter_is_Some. apply Har.
Qed.
Lemma wf_insert_userpass r u row d :
  is_Some (db_realm d !! r) → userpass_row_wf row →
  db_wf d → db_wf (set_userpass <[(r, u) := row]> d).
Proof.
  intros Hreal Hrow. wf_split.
  intros r' u' x [[[= <- <-] <-]|[? ?]]%lookup_insert_Some; eauto.
Qed.
Lemma wf_alter_userpass k f d :
  (∀ row, userpass_row_wf row → userpass_row_wf (f row)) →
  db_wf d → db_wf (set_userpass (alter f k) d).
Proof.
  intros Hf. wf_split. intros r u x. rewrite lookup_alter_Some.
  intros [(-> & y & Hy & ->)|[_ Hy]]; destruct (Hu _ _ _ Hy); auto.
Qed.
Lemma wf_shrink_userpass f d :
  (∀ m, f m ⊆ m) → db_wf d → db_wf (set_userpass f d).
Proof. intros Hf. wf_split. intros r u x Hx. eapply Hu, lookup_weaken, Hf. done. Qed.
Lemma wf_insert_admin id row d :
  (∀ t, ar_digital_credentials row = Some t → decodes (gmap string string) t) →
  db_wf d → db_wf (set_admin <[id := row]> d).
Proof.
  intros Hrow. wf_split.
  - intros i x t [[<- <-]|[? ?]]%lookup_insert_Some; eauto.
  - intros a r Hx. rewrite lookup_insert_is_Some. destruct (Har _ _ Hx) as [? ?].
    split; [destruct (decide (id = a)); tauto|done].
Qed.
Lemma wf_alter_admin id f d :
  (∀ row t, (∀ t, ar_digital_credentials row = Some t → decodes (gmap string string) t) →
     ar_digital_credentials (f row) = Some t → decodes (gmap string string) t) →
  db_wf d → db_wf (set_admin (alter f id) d).
Proof.
  intros Hf. wf_split.
  - intros i x t. rewrite lookup_alter_Some. intros [(<- & y & Hy & ->)|[_ Hy]]; eauto.
  - intros a r. rewrite lookup_alter_is_Some. apply Har.
Qed.
Lemma wf_insert_admin_realm a r d :
  is_Some (db_admin d !! a) → is_Some (db_realm d !! r) →
  db_wf d → db_wf (set_admin_realms (union {[ (a, r) ]}) d).
Proof. intros Hadm Hreal. wf_split. intros a' r' Hin. set_solver. Qed.
Lemma wf_shrink_admin_realms f d :
  (∀ X, f X ⊆ X) → db_wf d → db_wf (set_admin_realms f d).
Proof. intros Hf. wf_split. intros a r Hin. eapply Har, Hf, Hin. Qed.
Lemma wf_set_app_tokens f d : db_wf d → db_wf (set_app_tokens f d).
Proof. wf_split. Qed.
Lemma wf_set_k8s_roles f d : db_wf d → db_wf (set_k8s_roles f d).
Proof. wf_split. Qed.
Lemma wf_insert_approle name row d :
  (∀ n row', db_approle_roles d !! n = Some row' → or_role_id row' = or_role_id row → n = name) →
  db_wf d → db_wf (set_approle_roles <[name := row]> d).
Proof.
  intros Hfresh. wf_split.
  - intros n1 n2 r1 r2 [[<- <-]|[? ?]]%lookup_insert_Some
      [[<- <-]|[? ?]]%lookup_insert_Some Heq; eauto using eq_sym.
  - intros acc x Hx. rewrite lookup_insert_is_Some.
    destruct (decide (name = sr_role_name x)); [tauto|]. eauto.
Qed.
Lemma wf_insert_secret_id acc row d :
  is_Some (db_approle_roles d !! sr_role_name row) →
  db_wf d → db_wf (set_app_secret_ids <[acc := row]> d).
Proof. intros Hrow. wf_split. intros i x [[<- <-]|[? ?]]%lookup_insert_Some; eauto. Qed.
Lemma wf_alter_secret_id acc f d :
  (∀ row, sr_role_name (f row) = sr_role_name row) →
  db_wf d → db_wf (set_app_secret_ids (alter f acc) d).
Proof.
  intros Hf. wf_split. intros i x. rewrite lookup_alter_Some.
  intros [(<- & y & Hy & ->)|[_ Hy]]; rewrite ?Hf; eauto.
Qed.
Lemma wf_shrink_secret_ids f d :
  (∀ m, f m ⊆ m) → db_wf d → db_wf (set_app_secret_ids f d).
Proof. intros Hf. wf_split. intros i x Hx. eapply Hsi, lookup_weaken, Hf. done. Qed.

(** ** The operations *)
Ltac guards :=
  repeat match goal with
  | H : bool_decide _ = true |- _ => apply bool_decide_eq_true in H
  | H : (_ && _) = true |- _ => apply andb_true_iff in H as [? ?]
  end.
Ltac wf_result := apply ensures_with_result; [apply _|]; intros ? ?.
Ltac wf_insert := apply ensures_with_err, ensures_sql_insert; [apply _|]; intros d ???; guards; unfold preserve.
Ltac wf_modify := apply ensures_modify; intros d; unfold preserve.

Lemma create_realm_wf r : ensures (preserve db_wf) (create_realm r).
Proof.
  wf_result. wf_insert. apply wf_insert_realm; [done|]. by eapply serialize_auth_params_decodes.
Qed.
Lemma update_realm_wf r : ensures (preserve db_wf) (update_realm r).
Proof.
  wf_result. wf_modify. apply wf_alter_realm. intros _ _.
  by eapply serialize_auth_params_decodes.
Qed.
Lemma delete_realm_wf id : ensures (preserve db_wf) (delete_realm id).
Proof.
  wf_modify. intros [Hr Hu Ha Har Hri Hsi]. split; cbn; try done.
  - intros i row [_ Hx]%lookup_delete_Some. eauto.
  - intros r u row [Hx Hne]%map_lookup_filter_Some. destruct (Hu _ _ _ Hx). split; [|done].
    by rewrite lookup_delete_ne by (intros ->; done).
  - intros a r [Hne Hx]%elem_of_filter. destruct (Har _ _ Hx). split; [done|].
    by rewrite lookup_delete_ne by (intros ->; done).
Qed.
Lemma create_userpass_wf u :
  utf8_valid (up_password_hash u) = true → ensures (preserve db_wf) (create_userpass u).
Proof.
  intros Hutf. do 2 wf_result. wf_insert. apply wf_insert_userpass; [done|]. split; simpl.
  - by eapply serialize_roles_decodes.
  - intros t. by eapply serialize_extra_claims_decodes.
  - done.
Qed.
Lemma update_userpass_wf u :
  utf8_valid (up_password_hash u) = true → ensures (preserve db_wf) (update_userpass u).
Proof.
  intros Hutf. do 2 wf_result. wf_modify. apply wf_alter_userpass. intros _ _. split; simpl.
  - by eapply serialize_roles_decodes.
  - intros t. by eapply serialize_extra_claims_decodes.
  - done.
Qed.
Lemma update_userpass_metadata_wf r u c l :
  ensures (preserve db_wf) (update_userpass_metadata r u c l).
Proof.
  wf_result. wf_modify. apply wf_alter_userpass. intros row []. split; simpl; [|done..].
  by eapply serialize_roles_decodes.
Qed.
Lemma delete_userpass_wf r u : ensures (preserve db_wf) (delete_userpass r u).
Proof. wf_modify. apply wf_shrink_userpass. intros m. apply delete_subseteq. Qed.
Lemma delete_userpass_by_username_wf u : ensures (preserve db_wf) (delete_userpass_by_username u).
Proof. wf_modify. apply wf_shrink_userpass. intros m. apply map_filter_subseteq. Qed.

Lemma insert_admin_realms_wf a l :
  ensures (preserve db_wf) (for_each (λ r, sql (insert_admin_realm a r)) l).
Proof.
  apply ensures_for_each; [apply _|]. intros r. wf_insert. by apply wf_insert_admin_realm.
Qed.
Lemma create_admin_wf a : ensures (preserve db_wf) (create_admin a).
Proof.
  wf_result. apply ensures_bind; [apply _| |intros _; apply insert_admin_realms_wf].
  wf_insert. apply wf_insert_admin. simpl. intros t.
  by eapply serialize_digital_credentials_decodes.
Qed.
Lemma update_admin_wf a : ensures (preserve db_wf) (update_admin a).
Proof.
  wf_result. apply ensures_bind; [apply _| |intros _].
  { wf_modify. apply wf_alter_admin. simpl. intros _ t _.
    by eapply serialize_digital_credentials_decodes. }
  apply ensures_bind; [apply _| |intros _; apply insert_admin_realms_wf].
  wf_modify. apply wf_shrink_admin_realms. set_solver.
Qed.
Lemma delete_admin_wf id : ensures (preserve db_wf) (delete_admin id).
Proof.
  wf_modify. intros [Hr Hu Ha Har Hri Hsi]. split; cbn; try done.
  - intros i row t [_ Hx]%lookup_delete_Some. eauto.
  - intros a r [Hne Hx]%elem_of_filter. destruct (Har _ _ Hx). split; [|done].
    by rewrite lookup_delete_ne by (intros ->; done).
Qed.
Lemma set_totp_wf e s u id d :
  db_wf d → db_wf (set_admin (alter (set_totp e s u) id) d).
Proof.
  apply wf_alter_admin. intros row t Hrow. unfold set_totp.
  destruct (totp_capable row); simpl; eauto.
Qed.
Lemma enable_totp_wf r u s i : ensures (preserve db_wf) (enable_totp r u s i).
Proof. wf_result. wf_modify. apply set_totp_wf. Qed.
Lemma disable_totp_wf r u : ensures (preserve db_wf) (disable_totp r u).
Proof. wf_modify. apply set_totp_wf. Qed.
Lemma issue_app_token_wf t : ensures (preserve db_wf) (issue_app_token t).
Proof. wf_insert. apply wf_set_app_tokens. Qed.
Lemma renew_app_token_wf now h : ensures (preserve db_wf) (renew_app_token now h).
Proof. unfold renew_app_token. ensures_steps. intros ?. by apply wf_set_app_tokens. Qed.
Lemma revoke_app_token_wf h : ensures (preserve db_wf) (revoke_app_token h).
Proof. wf_modify. apply wf_set_app_tokens. Qed.
Lemma create_approle_wf r : ensures (preserve db_wf) (create_approle r).
Proof. wf_insert. apply wf_insert_approle. intros n row Hn Heq. by eapply H1. Qed.
Lemma delete_approle_wf name : ensures (preserve db_wf) (delete_approle name).
Proof.
  wf_modify. intros [Hr Hu Ha Har Hri Hsi]. split; cbn; try done.
  - intros n1 n2 r1 r2 [_ ?]%lookup_delete_Some [_ ?]%lookup_delete_Some. eauto.
  - intros acc row [Hx Hne]%map_lookup_filter_Some. simpl in Hne.
    rewrite lookup_delete_ne by (intros ->; done). eauto.
Qed.
Lemma create_secret_id_wf s : ensures (preserve db_wf) (create_secret_id s).
Proof. wf_insert. by apply wf_insert_secret_id. Qed.
Lemma consume_secret_id_wf now r h : ensures (preserve db_wf) (consume_secret_id now r h).
Proof.
  unfold consume_secret_id. ensures_steps.
  - red. apply wf_shrink_secret_ids. intros m. apply delete_subseteq.
  - red. by apply wf_alter_secret_id.
Qed.
Lemma destroy_secret_id_wf r a : ensures (preserve db_wf) (destroy_secret_id r a).
Proof.
  wf_modify. apply wf_shrink_secret_ids. intros m.
  destruct (m !! a); [|done]. case_decide; [apply delete_subseteq|done].
Qed.
Lemma create_k8s_role_wf r : ensures (preserve db_wf) (create_k8s_role r).
Proof. wf_modify. apply wf_set_k8s_roles. Qed.
Lemma delete_k8s_role_wf n : ensures (preserve db_wf) (delete_k8s_role n).
Proof. wf_modify. apply wf_set_k8s_roles. Qed.
Lemma init_wf salt : ensures (preserve db_wf) (init salt).
Proof.
  unfold init, initialize_db. ensures_steps.
  - apply create_realm_wf.
  - apply create_userpass_wf. simpl. destruct (hash_password_with_argon2 _ _) eqn:Hh; [|done].
    simplify_eq/=. by eapply hash_password_utf8.
  - apply create_admin_wf.
Qed.
End preservation.

(** * Reachable databases

    A request against the store: any operation of the trait that writes, with any arguments
    the program can pass.  Strings are Rust strings where the text matters (the password). *)
Inductive db_step `{L : DbLibs} : Database → Database → Prop :=
  | step_init salt d : db_step d (init salt d).2
  | step_create_realm r d : db_step d (create_realm r d).2
  | step_update_realm r d : db_step d (update_realm r d).2
  | step_delete_realm id d : db_step d (delete_realm id d).2
  | step_create_userpass u d :
      utf8_valid (up_password_hash u) = true → db_step d (create_userpass u d).2
  | step_update_userpass u d :
      utf8_valid (up_password_hash u) = true → db_step d (update_userpass u d).2
  | step_update_userpass_metadata r u c l d : db_step d (update_userpass_metadata r u c l d).2
  | step_delete_userpass r u d : db_step d (delete_userpass r u d).2
  | step_delete_userpass_by_username u d : db_step d (delete_userpass_by_username u d).2
  | step_create_admin a d : db_step d (create_admin a d).2
  | step_update_admin a d : db_step d (update_admin a d).2
  | step_delete_admin id d : db_step d (delete_admin id d).2
  | step_enable_totp r u s i d : db_step d (enable_totp r u s i d).2
  | step_disable_totp r u d : db_step d (disable_totp r u d).2
  | step_issue_app_token t d : db_step d (issue_app_token t d).2
  | step_renew_app_token now h d : db_step d (renew_app_token now h d).2
  | step_revoke_app_token h d : db_step d (revoke_app_token h d).2
  | step_create_approle r d : db_step d (create_approle r d).2
  | step_delete_approle n d : db_step d (delete_approle n d).2
  | step_create_secret_id s d : db_step d (create_secret_id s d).2
  | step_consume_secret_id now r h d : db_step d (consume_secret_id now r h d).2
  | step_destroy_secret_id r a d : db_step d (destroy_secret_id r a d).2
  | step_create_k8s_role r d : db_step d (create_k8s_role r d).2
  | step_delete_k8s_role n d : db_step d (delete_k8s_role n d).2.

Definition reachable_db `{L : DbLibs} : Database → Prop := rtc db_step empty_database.

Create HintDb db_wf.
#[export] Hint Resolve create_realm_wf update_realm_wf delete_realm_wf create_userpass_wf
  update_userpass_wf update_userpass_metadata_wf delete_userpass_wf
  delete_userpass_by_username_wf create_admin_wf update_admin_wf delete_admin_wf
  enable_totp_wf disable_totp_wf issue_app_token_wf renew_app_token_wf revoke_app_token_wf
  create_approle_wf delete_approle_wf create_secret_id_wf consume_secret_id_wf
  destroy_secret_id_wf create_k8s_role_wf delete_k8s_role_wf init_wf : db_wf.

Section reachable.
Context `{L : DbLibs} `{!DbLaws}.

Lemma db_step_wf d d' : db_step d d' → db_wf d → db_wf d'.
Proof.
  intros Hstep Hwf. destruct Hstep;
    match goal with |- db_wf (?m ?d).2 =>
      apply (ltac:(eauto with db_wf) : ensures (preserve db_wf) m) end; done.
Qed.
Lemma reachable_db_wf d : reachable_db d → db_wf d.
Proof.
  intros Hd. eapply (rtc_ind_r db_wf); [apply empty_database_wf| |exact Hd].
  eauto using db_step_wf.
Qed.

(** ** Reads of a well-formed database succeed *)
Lemma row_to_realm_ok d id row :
  db_wf d → db_realm d !! id = Some row →
  ∃ p, from_json (rr_auth_params row) = Ok p ∧
    row_to_realm (id, row) = Ok (mkRealm id p (rr_cookie_max_age_seconds row)
      (rr_max_stale_age_seconds row) (rr_certificate_max_age_seconds row)).
Proof.
  intros Hwf Hrow. destruct (wf_realm _ Hwf _ _ Hrow) as [_ [p Hp]].
  exists p. split; [done|]. simpl. by rewrite Hp.
Qed.
Lemma deserialize_roles_ok u row : userpass_row_wf row →
  ∃ roles, deserialize_roles u (ur_roles row) = Ok roles.
Proof. intros [[l Hl] _ _]. exists l. unfold deserialize_roles. by rewrite Hl. Qed.
Lemma deserialize_extra_claims_ok u row : userpass_row_wf row →
  ∃ c, deserialize_extra_claims u (ur_extra_claims row) = Ok c.
Proof.
  intros [_ Hx _]. unfold deserialize_extra_claims.
  destruct (ur_extra_claims row) as [t|]; [|by eexists]. simpl.
  destruct (Hx t eq_refl) as [c Hc]. rewrite Hc. by eexists.
Qed.
Lemma row_to_userpass_ok r u row : userpass_row_wf row →
  is_ok (row_to_userpass (r, u, row)) = true.
Proof.
  intros Hrow. unfold row_to_userpass.
  destruct (deserialize_roles_ok u row Hrow) as [roles ->].
  destruct (deserialize_extra_claims_ok u row Hrow) as [c ->]. simpl.
  unfold password_utf8. by rewrite from_utf8_valid by apply Hrow.
Qed.
Lemma row_to_admin_ok d id row realms :
  db_wf d → db_admin d !! id = Some row → is_ok (row_to_admin id realms row) = true.
Proof.
  intros Hwf Hrow. unfold row_to_admin.
  destruct (ar_digital_credentials row) as [t|] eqn:Ht; [|done]. simpl.
  destruct (wf_admin _ Hwf _ _ _ Hrow Ht) as [c Hc]. by rewrite Hc.
Qed.
End reachable.
