(* ===== verification/DbOps.v ===== *)
(** The operations of the [Database] trait ([server/src/database/trait.rs]) as data, their answers,
    and what they do on SQLite: the contract a second backend is compared with; and what the
    comparisons share. *)
From S2P Require Import Prelude RustStd Models Passwords Totp Database DatabaseFacts Simulation.

(** Every operation of the trait; clock readings and random draws are its arguments. *)
Inductive DbOp :=
  | OpInit (salt : string)
  | OpCreateRealm (realm : Realm)
  | OpGetRealm (id : string)
  | OpUpdateRealm (realm : Realm)
  | OpDeleteRealm (id : string)
  | OpListRealms
  | OpCreateUserpass (userpass : UserPass)
  | OpGetUserpass (realm username : string)
  | OpUpdateUserpass (userpass : UserPass)
  | OpUpdateUserpassMetadata (realm username : string) (change_password : bool) (roles : list string)
  | OpDeleteUserpass (realm username : string)
  | OpDeleteUserpassByUsername (username : string)
  | OpListUserpassByRealm (realm : string)
  | OpListAllUserpass
  | OpValidateUserpass (realm username password : string)
  | OpCreateAdmin (admin : Admin)
  | OpGetAdmin (id : string)
  | OpUpdateAdmin (admin : Admin)
  | OpDeleteAdmin (id : string)
  | OpListAdmins
  | OpFindAdmins (auth_method : AuthScheme) (value : string)
  | OpGenerateTotpSecret (secret realm username : string)
  | OpEnableTotp (realm username totp_secret issuer : string)
  | OpDisableTotp (realm username : string)
  | OpGetTotpSecret (realm username : string)
  | OpIsTotpEnabled (realm username : string)
  | OpIssueAppToken (token : AppToken)
  | OpLookupAppToken (now : Z) (token_hash : string)
  | OpRenewAppToken (now : Z) (token_hash : string)
  | OpRevokeAppToken (token_hash : string)
  | OpCreateApprole (role : AppRole)
  | OpGetApproleByRoleId (role_id : string)
  | OpGetApproleByName (name : string)
  | OpDeleteApprole (name : string)
  | OpListApproleNames
  | OpCreateSecretId (secret_id : AppSecretId)
  | OpConsumeSecretId (now : Z) (role_name secret_id_hash : string)
  | OpDestroySecretId (role_name accessor : string)
  | OpCreateK8sRole (role : K8sRole)
  | OpGetK8sRole (name : string)
  | OpDeleteK8sRole (name : string)
  | OpListK8sRoleNames.

Inductive DbAnswer :=
  | AnsUnit
  | AnsBool (b : bool)
  | AnsText (s : string)
  | AnsOptText (o : option string)
  | AnsOptBool (o : option bool)
  | AnsNames (l : list string)
  | AnsRealm (o : option Realm)
  | AnsRealms (l : list Realm)
  | AnsUserpass (o : option UserPass)
  | AnsUserpasses (l : list UserPass)
  | AnsAdmin (o : option Admin)
  | AnsAdmins (l : list Admin)
  | AnsToken (o : option AppToken)
  | AnsApprole (o : option AppRole)
  | AnsK8sRole (o : option K8sRole).

(** The same answer; lists up to their order, which each backend chooses. *)
Definition same_answer (a b : DbAnswer) : Prop :=
  match a, b with
  | AnsNames l, AnsNames l' => l ≡ₚ l'
  | AnsRealms l, AnsRealms l' => l ≡ₚ l'
  | AnsUserpasses l, AnsUserpasses l' => l ≡ₚ l'
  | AnsAdmins l, AnsAdmins l' => l ≡ₚ l'
  | _, _ => a = b
  end.

Definition answers {S E A} (f : A → DbAnswer) (m : M S E A) : M S E DbAnswer :=
  let* a := m in ret (f a).
Definition done_ {S E} : M S E () → M S E DbAnswer := answers (λ _, AnsUnit).

Section sqlite.
Context {L : DbLibs}.

Definition sqlite_op (op : DbOp) : DbM DbAnswer :=
  match op with
  | OpInit salt => done_ (init salt)
  | OpCreateRealm realm => done_ (create_realm realm)
  | OpGetRealm id => answers AnsRealm (get_realm id)
  | OpUpdateRealm realm => done_ (update_realm realm)
  | OpDeleteRealm id => done_ (delete_realm id)
  | OpListRealms => answers AnsRealms list_realms
  | OpCreateUserpass userpass => done_ (create_userpass userpass)
  | OpGetUserpass realm username => answers AnsUserpass (get_userpass realm username)
  | OpUpdateUserpass userpass => done_ (update_userpass userpass)
  | OpUpdateUserpassMetadata realm username change_password roles =>
      done_ (update_userpass_metadata realm username change_password roles)
  | OpDeleteUserpass realm username => done_ (delete_userpass realm username)
  | OpDeleteUserpassByUsername username => done_ (delete_userpass_by_username username)
  | OpListUserpassByRealm realm => answers AnsUserpasses (list_userpass_by_realm realm)
  | OpListAllUserpass => answers AnsUserpasses list_all_userpass
  | OpValidateUserpass realm username password =>
      answers AnsBool (validate_userpass realm username password)
  | OpCreateAdmin admin => done_ (create_admin admin)
  | OpGetAdmin id => answers AnsAdmin (get_admin id)
  | OpUpdateAdmin admin => done_ (update_admin admin)
  | OpDeleteAdmin id => done_ (delete_admin id)
  | OpListAdmins => answers AnsAdmins list_admins
  | OpFindAdmins auth_method value =>
      answers AnsAdmins (find_admins_by_auth_scheme auth_method value)
  | OpGenerateTotpSecret secret realm username =>
      answers AnsText (generate_totp_secret secret realm username)
  | OpEnableTotp realm username totp_secret issuer =>
      done_ (enable_totp realm username totp_secret issuer)
  | OpDisableTotp realm username => done_ (disable_totp realm username)
  | OpGetTotpSecret realm username => answers AnsOptText (get_totp_secret realm username)
  | OpIsTotpEnabled realm username => answers AnsOptBool (is_totp_enabled realm username)
  | OpIssueAppToken token => done_ (issue_app_token token)
  | OpLookupAppToken now token_hash => answers AnsToken (lookup_app_token now token_hash)
  | OpRenewAppToken now token_hash => done_ (renew_app_token now token_hash)
  | OpRevokeAppToken token_hash => done_ (revoke_app_token token_hash)
  | OpCreateApprole role => done_ (create_approle role)
  | OpGetApproleByRoleId role_id => answers AnsApprole (get_approle_by_role_id role_id)
  | OpGetApproleByName name => answers AnsApprole (get_approle_by_name name)
  | OpDeleteApprole name => done_ (delete_approle name)
  | OpListApproleNames => answers AnsNames list_approle_names
  | OpCreateSecretId secret_id => done_ (create_secret_id secret_id)
  | OpConsumeSecretId now role_name secret_id_hash =>
      answers AnsOptText (consume_secret_id now role_name secret_id_hash)
  | OpDestroySecretId role_name accessor => done_ (destroy_secret_id role_name accessor)
  | OpCreateK8sRole role => done_ (create_k8s_role role)
  | OpGetK8sRole name => answers AnsK8sRole (get_k8s_role name)
  | OpDeleteK8sRole name => done_ (delete_k8s_role name)
  | OpListK8sRoleNames => answers AnsNames list_k8s_role_names
  end.
End sqlite.

Fixpoint run_db_ops {S E} (step : DbOp → M S E DbAnswer) (ops : list DbOp) (s : S)
    : list (Result DbAnswer E) * S :=
  match ops with
  | [] => ([], s)
  | op :: ops' =>
      let '(r, s1) := step op s in
      let '(rs, s2) := run_db_ops step ops' s1 in (r :: rs, s2)
  end.

(** * What the comparisons share *)
Lemma same_answer_refl a : same_answer a a.
Proof. destruct a; simpl; reflexivity. Qed.

(** The ids of the rows that two conditions, equal row by row, select. *)
Lemma selected_ids {V1 V2} (P1 : string * V1 → Prop) (P2 : string * V2 → Prop)
    `{!∀ x, Decision (P1 x), !∀ x, Decision (P2 x)} l1 l2 :
  Forall2 (λ a b, a.1 = b.1 ∧ (P1 a ↔ P2 b)) l1 l2 → fst <$> filter P1 l1 = fst <$> filter P2 l2.
Proof.
  induction 1 as [|a b l1 l2 [Hk HP] _ IH]; [done|]. rewrite !filter_cons.
  destruct (decide (P1 a)), (decide (P2 b)); try tauto. rewrite !fmap_cons. by rewrite Hk, IH.
Qed.
(** Half of [i64]: the sum of a clock and a lease duration fits. *)
Definition half_range : Z := 2 ^ 62.
Definition token_fits (row : AppTokenRow) : Prop :=
  in_i64 (tr_expiry row) ∧ (0 ≤ tr_lease_duration_secs row < half_range)%Z.

Section shared.
Context {L : DbLibs}.

Lemma userpass_filter (P : string * string * UserpassRow → Prop) `{!∀ x, Decision (P x)}
    (m : gmap (string * string) UserpassRow) :
  map_Forall (λ _ row, userpass_row_wf row) m → map_Forall (λ _ row, userpass_row_wf row) (filter P m).
Proof. intros Hm k row [Hrow _]%map_lookup_filter_Some. by apply (Hm k). Qed.
(** What another backend may answer: the same, or for a NULL column of TOTP that there is nothing,
    where SQLite decodes the NULL. *)
Definition same_result_by (same : DbAnswer → DbAnswer → Prop) (op : DbOp)
    (a b : Result DbAnswer AuthDbError) : Prop :=
  result_rel same a b ∨
  match op with
  | OpGetTotpSecret _ _ =>
      a = Ok (AnsOptText None) ∧
      b = map_ok (λ s, AnsOptText (Some s)) (col (sqlite_null_string "totp_secret"))
  | OpIsTotpEnabled _ _ =>
      a = Ok (AnsOptBool None) ∧
      b = map_ok (λ v, AnsOptBool (Some (bool_decide (v ≠ 0%Z)))) (col (sqlite_null_i64 "totp_enabled"))
  | _ => False
  end.
Definition same_result : DbOp → Result DbAnswer AuthDbError → Result DbAnswer AuthDbError → Prop :=
  same_result_by same_answer.
(** A NULL column: PostgreSQL answers it, SQLite decodes it. *)
Definition totp_answer {A} (null : Result (option A) AuthDbError) (a b : Result (option A) AuthDbError)
    : Prop := a = b ∨ (a = Ok None ∧ b = null).

(** Renewing, by the row. *)
Lemma renew_app_token_by_row now h d :
  renew_app_token now h d =
    match db_app_tokens d !! h with
    | Some row =>
        if decide (renewable_row now row) then
          (Ok (), set_app_tokens (alter (extend_row now) h) d)
        else if bool_decide (tr_renewable row = 1%Z) && bool_decide (tr_expiry row = 0%Z) then (Ok (), d)
        else (Err (DbUnexpected "token not found, expired, or not renewable"), d)
    | None => (Err (DbUnexpected "token not found, expired, or not renewable"), d)
    end.
Proof.
  assert (∀ f, alter f h (db_app_tokens d) = db_app_tokens d → set_app_tokens (alter f h) d = d) as Hset
    by (intros f Hf; unfold set_app_tokens; rewrite Hf; by destruct d).
  unfold renew_app_token, bind, gets, modify, throw, ret.
  destruct (db_app_tokens d !! h) as [row|] eqn:Hrow.
  - destruct (decide (renewable_row now row)) as [Hr|Hr].
    + assert (alter (λ row, if decide (renewable_row now row) then extend_row now row else row) h
        (db_app_tokens d) = alter (extend_row now) h (db_app_tokens d)) as Heq.
      { apply map_eq. intros i. destruct (decide (h = i)) as [<-|Hne]; [|by rewrite !lookup_alter_ne].
        rewrite !lookup_alter_eq, Hrow. simpl. by rewrite decide_True. }
      simpl. unfold set_app_tokens. by rewrite Heq.
    + rewrite Hset; [simpl; rewrite Hrow; by destruct (bool_decide _ && bool_decide _)|].
      apply map_eq. intros i. destruct (decide (h = i)) as [<-|Hne]; [|by rewrite !lookup_alter_ne].
      rewrite !lookup_alter_eq, Hrow. simpl. by rewrite decide_False.
  - rewrite Hset; [simpl; by rewrite Hrow|]. apply map_eq. intros i.
    destruct (decide (h = i)) as [<-|Hne]; [|by rewrite !lookup_alter_ne].
    by rewrite !lookup_alter_eq, Hrow.
Qed.
End shared.
