(* ===== verification/SqlServers.v ===== *)
(** What the stores on PostgreSQL and MySQL meet that SQLite does not have: texts a server
    refuses, sums that leave the column type, column lengths and collations. *)
From S2P Require Import Prelude RustStd Models Passwords Totp Database.

(** * PostgreSQL *)

(** PostgreSQL refuses a text that holds a NUL byte, as a parameter of any statement. *)
Definition no_nul (s : string) : bool := negb (has_byte "000" s).
Definition pg_text (texts : list string) : Result () SqlxError :=
  if forallb no_nul texts then Ok () else Err InvalidText.

(** [BIGINT] addition: out of range is an error of the statement (in MySQL too). *)
Definition bigint_add (a b : Z) : Result Z SqlxError :=
  if decide (in_i64 (a + b)) then Ok (a + b)%Z else Err OutOfRange.

(** The rows a condition selects: an error on one row is an error of the statement. *)
Fixpoint try_filter {A E} (f : A → Result bool E) (l : list A) : Result (list A) E :=
  match l with
  | [] => Ok []
  | a :: l' =>
      let? keep := f a in
      let? rest := try_filter f l' in
      Ok (if keep then a :: rest else rest)
  end.
Lemma try_filter_ok {A E} (f : A → Result bool E) (P : A → Prop) `{!∀ a, Decision (P a)} l :
  (∀ a, a ∈ l → f a = Ok (bool_decide (P a))) → try_filter f l = Ok (filter P l).
Proof.
  induction l as [|a l IH]; intros Hl; [done|]. simpl. rewrite Hl by left. simpl.
  rewrite IH by (intros b Hb; apply Hl; by right). simpl. rewrite filter_cons.
  by case_bool_decide; [rewrite decide_True|rewrite decide_False].
Qed.

(** * MySQL *)

(** The strict mode of the session ([STRICT_TRANS_TABLES], on by default), the collation of the
    text columns, as the keys it compares, and the text of Rust's [FromUtf8Error]. *)
Class MySql := {
  my_strict : bool;
  collation_key : string → string;
  from_utf8_error : string → string;
}.

(** A byte that continues a UTF-8 character, and the first [n] characters of a text. *)
Definition is_continuation (a : ascii) : bool := utf8_cont (nat_of_ascii a).
Fixpoint take_chars (n : nat) (s : string) : string * string :=
  match s with
  | EmptyString => (EmptyString, EmptyString)
  | String a s' =>
      if is_continuation a then
        let '(p, r) := take_chars n s' in (String a p, r)
      else match n with
           | 0 => (EmptyString, s)
           | S n' => let '(p, r) := take_chars n' s' in (String a p, r)
           end
  end.
Fixpoint all_spaces (s : string) : bool :=
  match s with
  | EmptyString => true
  | String a s' => bool_decide (a = " "%char) && all_spaces s'
  end.
Section mysql.
Context {MY : MySql}.
(** What a [VARCHAR(n)] column stores: trailing spaces are cut in every mode, more than that is
    an error in strict mode. *)
Definition varchar (n : nat) (s : string) : Result string SqlxError :=
  let '(p, r) := take_chars n s in
  if all_spaces r || negb my_strict then Ok p else Err DataTooLong.
(** What a [TEXT] column stores: at most 65535 bytes. *)
Definition text_column (s : string) : Result string SqlxError :=
  if decide (Z.of_nat (String.length s) ≤ 65535)%Z then Ok s
  else if my_strict then Err DataTooLong
  else Ok (String.substring 0 (Z.to_nat 65535) s).
Definition same_text (a b : string) : Prop := collation_key a = collation_key b.
#[export] Instance same_text_dec a b : Decision (same_text a b).
Proof. unfold same_text. apply _. Defined.
End mysql.
