(* ===== verification/PgDatabase.v ===== *)
(** The credential store on PostgreSQL ([server/src/database/impls/postgres.rs]): the tables, with
    the column types that differ from SQLite's, and every operation of the [Database] trait.

    A JSONB column gives back the value it was given.  [ORDER BY] follows the collation of the
    database; a query without it answers in the order of the map.  An operation of the trait that
    one statement implements is one atomic step; the statement refuses a text with a NUL byte
    among its parameters before anything else. *)
From S2P Require Import Prelude RustStd Models Passwords Totp Database SqlServers.

(** [serde_json::to_value] and [from_value] *)
Class SerdeValue (A : Type) := {
  to_value : A → Result Value string;
  from_value : Value → Result A string;
}.
Class SerdeValueLaws (A : Type) `{SerdeValue A} : Prop :=
  serde_value_roundtrip : ∀ a, ∃ v, to_value a = Ok v ∧ from_value v = Ok a.

(** The codecs of the JSONB columns, and the collation of the database. *)
Class PgLibs := {
  #[global] value_auth_params :: SerdeValue RealmAuthParams;
  #[global] value_string_map :: SerdeValue (gmap string string);
  collation_le : string → string → bool;
}.

(** JSONB refuses a NUL character in its strings. *)
Fixpoint jsonb_ok (v : Value) : bool :=
  match v with
  | VString s => no_nul s
  | VArray l => forallb jsonb_ok l
  | VObject l => forallb (λ kv, no_nul kv.1 && jsonb_ok kv.2) l
  | _ => true
  end.
(** [v @> '["value"]'::jsonb] *)
Definition jsonb_contains_one (v : Value) (value : string) : bool :=
  match v with VArray l => bool_decide (VString value ∈ l) | _ => false end.

(** * Tables *)
Record PgRealmRow := mkPgRealmRow {
  pr_auth_params : Value;
  pr_cookie_max_age_seconds : Z;
  pr_max_stale_age_seconds : Z;
  pr_certificate_max_age_seconds : Z;
}.
Record PgAdminRow := mkPgAdminRow {
  pa_userpass : option string;
  pa_jwt : option string;
  pa_fido2 : option string;
  pa_digital_credentials : option Value;
  pa_certificate : option string;
  pa_totp_enabled : option bool;
  pa_totp_secret : option string;
  pa_totp_auth_url : option string;
}.
Record PgAppTokenRow := mkPgAppTokenRow {
  pt_entity : string;
  pt_policies : string;
  pt_expiry : Z;
  pt_renewable : bool;
  pt_lease_duration_secs : Z;
  pt_created_at : Z;
}.
Record PgAppRoleRow := mkPgAppRoleRow {
  po_role_id : string;
  po_secret_id_ttl_secs : Z;
  po_token_ttl_secs : Z;
  po_bind_secret_id : bool;
  po_token_policies : string;
}.
Record PgDatabase := mkPgDatabase {
  pg_realm : gmap string PgRealmRow;
  pg_userpass : gmap (string * string) UserpassRow;
  pg_admin : gmap string PgAdminRow;
  pg_admin_realms : gset (string * string);
  pg_app_tokens : gmap string PgAppTokenRow;
  pg_approle_roles : gmap string PgAppRoleRow;
  pg_app_secret_ids : gmap string SecretIdRow;
  pg_k8s_roles : gmap string K8sRoleRow;
}.
Definition empty_pg_database : PgDatabase := mkPgDatabase ∅ ∅ ∅ ∅ ∅ ∅ ∅ ∅.

Definition set_pg_realm f d := mkPgDatabase (f (pg_realm d)) (pg_userpass d) (pg_admin d)
  (pg_admin_realms d) (pg_app_tokens d) (pg_approle_roles d) (pg_app_secret_ids d) (pg_k8s_roles d).
Definition set_pg_userpass f d := mkPgDatabase (pg_realm d) (f (pg_userpass d)) (pg_admin d)
  (pg_admin_realms d) (pg_app_tokens d) (pg_approle_roles d) (pg_app_secret_ids d) (pg_k8s_roles d).
Definition set_pg_admin f d := mkPgDatabase (pg_realm d) (pg_userpass d) (f (pg_admin d))
  (pg_admin_realms d) (pg_app_tokens d) (pg_approle_roles d) (pg_app_secret_ids d) (pg_k8s_roles d).
Definition set_pg_admin_realms f d := mkPgDatabase (pg_realm d) (pg_userpass d) (pg_admin d)
  (f (pg_admin_realms d)) (pg_app_tokens d) (pg_approle_roles d) (pg_app_secret_ids d)
  (pg_k8s_roles d).
Definition set_pg_app_tokens f d := mkPgDatabase (pg_realm d) (pg_userpass d) (pg_admin d)
  (pg_admin_realms d) (f (pg_app_tokens d)) (pg_approle_roles d) (pg_app_secret_ids d)
  (pg_k8s_roles d).
Definition set_pg_approle_roles f d := mkPgDatabase (pg_realm d) (pg_userpass d) (pg_admin d)
  (pg_admin_realms d) (pg_app_tokens d) (f (pg_approle_roles d)) (pg_app_secret_ids d)
  (pg_k8s_roles d).
Definition set_pg_app_secret_ids f d := mkPgDatabase (pg_realm d) (pg_userpass d) (pg_admin d)
  (pg_admin_realms d) (pg_app_tokens d) (pg_approle_roles d) (f (pg_app_secret_ids d))
  (pg_k8s_roles d).
Definition set_pg_k8s_roles f d := mkPgDatabase (pg_realm d) (pg_userpass d) (pg_admin d)
  (pg_admin_realms d) (pg_app_tokens d) (pg_approle_roles d) (pg_app_secret_ids d)
  (f (pg_k8s_roles d)).

Abbreviation PgM := (M PgDatabase AuthDbError).
Abbreviation PgSqlM := (M PgDatabase SqlxError).

(** The parameters of a statement, and an [INSERT]: the CHECK constraint, then uniqueness, then
    the foreign key. *)
Definition pg_params (texts : list string) (jsonb : list Value) : PgSqlM () :=
  of_result (if forallb jsonb_ok jsonb then pg_text texts else Err InvalidText).
Definition pg_insert (check unique fk : PgDatabase → bool) (f : PgDatabase → PgDatabase)
    : PgSqlM () := λ d,
  if negb (check d) then (Err CheckViolation, d)
  else if negb (unique d) then (Err UniqueViolation, d)
  else if negb (fk d) then (Err ForeignKeyViolation, d)
  else (Ok (), f d).
Definition opt_text (o : option string) : list string := match o with Some t => [t] | None => [] end.
Definition opt_value (o : option Value) : list Value := match o with Some v => [v] | None => [] end.

(** [id ~ '^[a-zA-Z0-9_-]+$'] *)
Fixpoint in_id_classes (s : string) : bool :=
  match s with EmptyString => true | String a s' => in_id_class a && in_id_classes s' end.
Definition realm_id_regex (id : string) : bool :=
  match id with EmptyString => false | _ => in_id_classes id end.

Section operations.
Context {L : DbLibs} {PL : PgLibs}.

Definition pg_sql {A} (m : PgSqlM A) : PgM A := with_err DbSql m.
(** A query with text parameters. *)
Definition pg_select {A} (texts : list string) (f : PgDatabase → A) : PgM A :=
  pg_sql (pg_params texts []) ;;; gets f.
(** An [UPDATE] or [DELETE] with text parameters. *)
Definition pg_execute (texts : list string) (jsonb : list Value) (f : PgDatabase → PgDatabase)
    : PgM () := pg_sql (pg_params texts jsonb) ;;; modify f.
Definition collation_order (a b : string) : Prop := collation_le a b = true.
#[local] Instance collation_order_dec {A} (key : A → string) :
  RelDecision (λ a b, collation_order (key a) (key b)).
Proof. intros a b. unfold collation_order. apply _. Defined.
Definition pg_order_by {A} (key : A → string) (l : list A) : list A :=
  merge_sort (λ a b, collation_order (key a) (key b)) l.

(** ** Realms *)
Definition pg_serialize_auth_params (realm : Realm) : Result Value AuthDbError :=
  map_err (λ e, DbUnexpected ("Failed to serialize auth_params: " +:+ e))
    (to_value (realm_auth_params realm)).
Definition pg_row_to_realm (r : string * PgRealmRow) : Result Realm AuthDbError :=
  let '(id, row) := r in
  let? auth_params := map_err (λ e, DbUnexpected ("Failed to deserialize auth_params: " +:+ e))
                        (from_value (pr_auth_params row)) in
  Ok (mkRealm id auth_params (pr_cookie_max_age_seconds row) (pr_max_stale_age_seconds row)
        (pr_certificate_max_age_seconds row)).
Definition pg_realm_row (realm : Realm) (auth_params_json : Value) : PgRealmRow :=
  mkPgRealmRow auth_params_json (realm_session_max_age_seconds realm)
    (realm_session_max_stale_age_seconds realm) (realm_certificate_max_age_seconds realm).

Definition pg_create_realm (realm : Realm) : PgM () :=
  let* auth_params_json := of_result (pg_serialize_auth_params realm) in
  with_err (from_insert_error ("realm '" +:+ realm_id realm +:+ "' already exists"))
    (pg_params [realm_id realm] [auth_params_json] ;;;
     pg_insert (λ _, realm_id_regex (realm_id realm))
       (λ d, bool_decide (pg_realm d !! realm_id realm = None))
       (λ _, true)
       (set_pg_realm <[realm_id realm := pg_realm_row realm auth_params_json]>)).
Definition pg_get_realm (id : string) : PgM (option Realm) :=
  let* row := pg_select [id] (λ d, pg_realm d !! id) in
  of_result (transpose ((λ row, pg_row_to_realm (id, row)) <$> row)).
Definition pg_update_realm (realm : Realm) : PgM () :=
  let* auth_params_json := of_result (pg_serialize_auth_params realm) in
  pg_execute [realm_id realm] [auth_params_json]
    (set_pg_realm (alter (λ _, pg_realm_row realm auth_params_json) (realm_id realm))).
(** [ON DELETE CASCADE] of [userpass] and [admin_realms]. *)
Definition pg_delete_realm (id : string) : PgM () :=
  pg_execute [id] [] (λ d,
    let d := set_pg_realm (delete id) d in
    let d := set_pg_userpass (filter (λ kv, kv.1.1 ≠ id)) d in
    set_pg_admin_realms (filter (λ ar, ar.2 ≠ id)) d).
Definition pg_list_realms : PgM (list Realm) :=
  let* rows := gets (λ d, pg_order_by fst (map_to_list (pg_realm d))) in
  of_result (try_map pg_row_to_realm rows).

(** ** Username/password entries *)
Definition pg_create_userpass (userpass : UserPass) : PgM () :=
  let* roles_json := of_result (serialize_roles (up_roles userpass)) in
  let* extra_claims_json := of_result (serialize_extra_claims (up_extra_claims userpass)) in
  with_err (from_insert_error ("credentials for '" +:+ up_username userpass +:+
      "' already exist in realm '" +:+ up_realm userpass +:+ "'"))
    (pg_params ([up_realm userpass; up_username userpass; roles_json] ++ opt_text extra_claims_json)
       [] ;;;
     pg_insert (λ _, true)
       (λ d, bool_decide (pg_userpass d !! (up_realm userpass, up_username userpass) = None))
       (λ d, bool_decide (is_Some (pg_realm d !! up_realm userpass)))
       (set_pg_userpass <[(up_realm userpass, up_username userpass) := mkUserpassRow
          (up_password_hash userpass) (up_change_password userpass) roles_json
          extra_claims_json]>)).
Definition pg_get_userpass (realm username : string) : PgM (option UserPass) :=
  let* row := pg_select [realm; username] (λ d, pg_userpass d !! (realm, username)) in
  match row with
  | Some row => of_result (
      let? roles := deserialize_roles username (ur_roles row) in
      let? extra_claims := deserialize_extra_claims username (ur_extra_claims row) in
      Ok (Some (mkUserPass realm username "" None (ur_change_password row) roles extra_claims)))
  | None => ret None
  end.
Definition pg_update_userpass (userpass : UserPass) : PgM () :=
  let* roles_json := of_result (serialize_roles (up_roles userpass)) in
  let* extra_claims_json := of_result (serialize_extra_claims (up_extra_claims userpass)) in
  pg_execute ([up_realm userpass; up_username userpass; roles_json] ++ opt_text extra_claims_json) []
    (set_pg_userpass (alter (λ _, mkUserpassRow (up_password_hash userpass)
      (up_change_password userpass) roles_json extra_claims_json)
      (up_realm userpass, up_username userpass))).
Definition pg_update_userpass_metadata (realm username : string) (change_password : bool)
    (roles : list string) : PgM () :=
  let* roles_json := of_result (serialize_roles roles) in
  pg_execute [realm; username; roles_json] []
    (set_pg_userpass (alter (λ row, mkUserpassRow (ur_password row) change_password roles_json
      (ur_extra_claims row)) (realm, username))).
Definition pg_delete_userpass (realm username : string) : PgM () :=
  pg_execute [realm; username] [] (set_pg_userpass (delete (realm, username))).
Definition pg_delete_userpass_by_username (username : string) : PgM () :=
  pg_execute [username] [] (set_pg_userpass (filter (λ kv, kv.1.2 ≠ username))).
Definition pg_list_userpass_by_realm (realm : string) : PgM (list UserPass) :=
  let* rows := pg_select [realm] (λ d, pg_order_by (λ r, r.1.2)
    (filter (λ r, r.1.1 = realm) (map_to_list (pg_userpass d)))) in
  of_result (try_map row_to_userpass rows).
(** [ORDER BY realm, username] *)
Definition pg_list_all_userpass : PgM (list UserPass) :=
  let* rows := gets (λ d, pg_order_by (λ r, r.1.1)
    (pg_order_by (λ r, r.1.2) (map_to_list (pg_userpass d)))) in
  of_result (try_map row_to_userpass rows).
Definition pg_validate_userpass (realm username password : string) : PgM bool :=
  let* row := pg_select [realm; username] (λ d, pg_userpass d !! (realm, username)) in
  match row with
  | Some row => of_result (
      let? stored_password := password_utf8 (ur_password row) in
      let? _ := map_err (λ _, DbInvalidCredentials) (verify_password_argon2 stored_password password) in
      Ok (ur_change_password row))
  | None => throw DbInvalidCredentials
  end.

(** ** Admins *)
Definition pg_serialize_digital_credentials (admin : Admin) : Result (option Value) AuthDbError :=
  transpose ((λ digital_credentials,
    map_err (λ e, DbUnexpected ("Failed to serialize digital_credentials: " +:+ e))
      (to_value digital_credentials)) <$> adm_digital_credentials admin).
Definition pg_admin_row (admin : Admin) (digital_credentials_json : option Value) : PgAdminRow :=
  mkPgAdminRow (adm_userpass admin) (adm_jwt admin) (adm_fido2 admin) digital_credentials_json
    (adm_client_certificate admin) (adm_totp_enabled admin) (adm_totp_secret admin)
    (adm_totp_auth_url admin).
Definition admin_texts (admin : Admin) : list string :=
  adm_id admin :: opt_text (adm_userpass admin) ++ opt_text (adm_jwt admin) ++
  opt_text (adm_fido2 admin) ++ opt_text (adm_client_certificate admin) ++
  opt_text (adm_totp_secret admin) ++ opt_text (adm_totp_auth_url admin).
Definition pg_insert_admin_realm (admin_id realm_id : string) : PgSqlM () :=
  pg_params [admin_id; realm_id] [] ;;;
  pg_insert (λ _, true)
    (λ d, bool_decide ((admin_id, realm_id) ∉ pg_admin_realms d))
    (λ d, bool_decide (is_Some (pg_admin d !! admin_id)) &&
          bool_decide (is_Some (pg_realm d !! realm_id)))
    (set_pg_admin_realms (union {[ (admin_id, realm_id) ]})).

Definition pg_create_admin (admin : Admin) : PgM () :=
  let* digital_credentials_json := of_result (pg_serialize_digital_credentials admin) in
  with_err (from_insert_error ("admin '" +:+ adm_id admin +:+ "' already exists"))
    (pg_params (admin_texts admin) (opt_value digital_credentials_json) ;;;
     pg_insert (λ _, true)
       (λ d, bool_decide (pg_admin d !! adm_id admin = None))
       (λ _, true)
       (set_pg_admin <[adm_id admin := pg_admin_row admin digital_credentials_json]>)) ;;;
  for_each (λ realm_id, pg_sql (pg_insert_admin_realm (adm_id admin) realm_id)) (adm_realms admin).

(** [SELECT realm_id FROM admin_realms WHERE admin_id = $1] *)
Definition pg_realms_of_admin (admin_id : string) : PgM (list string) :=
  pg_select [admin_id] (λ d,
    snd <$> filter (λ ar, ar.1 = admin_id) (elements (pg_admin_realms d))).
Definition pg_row_to_admin (id : string) (realms : list string) (row : PgAdminRow)
    : Result Admin AuthDbError :=
  let? digital_credentials := transpose ((λ v,
    map_err (λ e, DbUnexpected ("Failed to deserialize digital_credentials: " +:+ e))
      (from_value v)) <$> pa_digital_credentials row) in
  Ok (mkAdmin id realms (pa_userpass row) (pa_jwt row) (pa_fido2 row) digital_credentials
        (pa_certificate row) (pa_totp_enabled row) (pa_totp_secret row) (pa_totp_auth_url row)).
Definition pg_get_admin (id : string) : PgM (option Admin) :=
  let* row := pg_select [id] (λ d, pg_admin d !! id) in
  match row with
  | Some row =>
      let* realms := pg_realms_of_admin id in
      of_result (map_ok Some (pg_row_to_admin id realms row))
  | None => ret None
  end.
Definition pg_update_admin (admin : Admin) : PgM () :=
  let* digital_credentials_json := of_result (pg_serialize_digital_credentials admin) in
  pg_execute (admin_texts admin) (opt_value digital_credentials_json)
    (set_pg_admin (alter (λ _, pg_admin_row admin digital_credentials_json) (adm_id admin))) ;;;
  pg_execute [adm_id admin] [] (set_pg_admin_realms (filter (λ ar, ar.1 ≠ adm_id admin))) ;;;
  for_each (λ realm_id, pg_sql (pg_insert_admin_realm (adm_id admin) realm_id)) (adm_realms admin).
(** [ON DELETE CASCADE] of [admin_realms]. *)
Definition pg_delete_admin (id : string) : PgM () :=
  pg_execute [id] [] (λ d,
    set_pg_admin_realms (filter (λ ar, ar.1 ≠ id)) (set_pg_admin (delete id) d)).
Definition pg_list_admins : PgM (list Admin) :=
  let* rows := gets (λ d, pg_order_by fst (map_to_list (pg_admin d))) in
  map_m (λ '(admin_id, row),
    let* realms := pg_realms_of_admin admin_id in
    of_result (pg_row_to_admin admin_id realms row)) rows.

(** The query of a scheme: its text and JSONB parameters, and the rows it selects. *)
Definition pg_admin_query (auth_method : AuthScheme) (value : string)
    : Result (list string * list Value * (PgAdminRow → bool)) AuthDbError :=
  match auth_method with
  | UsernamePassword => Ok ([value], [], λ row, bool_decide (pa_userpass row = Some value))
  | Jwt => Ok ([value], [], λ row, bool_decide (pa_jwt row = Some value))
  | Fido2 => Ok ([value], [], λ row, bool_decide (pa_fido2 row = Some value))
  | DigitalCredentials =>
      (** [digital_credentials @> $1::jsonb], for the JSON array of the value *)
      let? _ := map_err (λ e, DbUnexpected ("Failed to serialize VP query value: " +:+ e +:+
                  " for value: " +:+ value)) (to_json [value]) in
      Ok ([], [VArray [VString value]], λ row,
          match pa_digital_credentials row with
          | Some v => jsonb_contains_one v value
          | None => false
          end)
  | ClientCertificate => Ok ([value], [], λ row, bool_decide (pa_certificate row = Some value))
  | Saml => Ok ([], [], λ _, false)
  end.
Definition pg_find_admins_by_auth_scheme (auth_method : AuthScheme) (value : string)
    : PgM (list Admin) :=
  match auth_method with
  | Saml => ret []
  | _ =>
      let* query := of_result (pg_admin_query auth_method value) in
      let '(texts, jsonb, selected) := query in
      pg_sql (pg_params texts jsonb) ;;;
      let* rows := gets (λ d, fst <$> filter (λ r, selected r.2 = true)
                          (map_to_list (pg_admin d))) in
      let* admins := map_m pg_get_admin rows in
      ret (omap id admins)
  end.

(** ** TOTP *)
Definition pg_generate_totp_secret (secret realm username : string) : PgM string :=
  let* totps := of_result (totp_err (Totps_new secret)) in
  ret (totp_get_secret_base32 totps).
(** [WHERE id = $1 AND (userpass IS NOT NULL OR jwt IS NOT NULL)] *)
Definition pg_totp_capable (row : PgAdminRow) : bool :=
  bool_decide (is_Some (pa_userpass row)) || bool_decide (is_Some (pa_jwt row)).
Definition pg_set_totp (enabled : bool) (secret auth_url : option string) (row : PgAdminRow)
    : PgAdminRow :=
  if pg_totp_capable row then
    mkPgAdminRow (pa_userpass row) (pa_jwt row) (pa_fido2 row) (pa_digital_credentials row)
      (pa_certificate row) (Some enabled) secret auth_url
  else row.
Definition pg_enable_totp (realm username totp_secret issuer : string) : PgM () :=
  let* totps := of_result (totp_err (from_secret totp_secret (Some issuer) username None)) in
  pg_execute [totp_secret; totp_get_url totps; username] [] (set_pg_admin
    (alter (pg_set_totp true (Some totp_secret) (Some (totp_get_url totps))) username)).
Definition pg_disable_totp (realm username : string) : PgM () :=
  pg_execute [username] [] (set_pg_admin (alter (pg_set_totp false None None) username)).
Definition pg_select_totp_row (username : string) (d : PgDatabase) : option PgAdminRow :=
  match pg_admin d !! username with
  | Some row => if pg_totp_capable row then Some row else None
  | None => None
  end.
(** The columns are read as they are, NULL included. *)
Definition pg_get_totp_secret (realm username : string) : PgM (option string) :=
  let* row := pg_select [username] (pg_select_totp_row username) in
  ret (row ≫= pa_totp_secret).
Definition pg_is_totp_enabled (realm username : string) : PgM (option bool) :=
  let* row := pg_select [username] (pg_select_totp_row username) in
  ret (row ≫= pa_totp_enabled).

(** ** App tokens: the hash is a BYTEA, which holds any bytes. *)
Definition pg_issue_app_token (token : AppToken) : PgM () :=
  pg_sql (pg_params [tok_entity token; to_json_or_empty (tok_policies token)] [] ;;;
    pg_insert (λ _, true)
      (λ d, bool_decide (pg_app_tokens d !! tok_token_hash token = None))
      (λ _, true)
      (set_pg_app_tokens <[tok_token_hash token := mkPgAppTokenRow (tok_entity token)
         (to_json_or_empty (tok_policies token)) (tok_expiry token) (tok_renewable token)
         (tok_lease_duration_secs token) (tok_created_at token)]>)).
Definition pg_row_to_app_token (token_hash : string) (row : PgAppTokenRow) : AppToken :=
  mkAppToken token_hash (pt_entity row) (from_json_or_default (pt_policies row)) (pt_expiry row)
    (pt_renewable row) (pt_lease_duration_secs row) (pt_created_at row).
Definition pg_lookup_app_token (now : Z) (token_hash : string) : PgM (option AppToken) :=
  let* row := gets (λ d, pg_app_tokens d !! token_hash) in
  match row with
  | Some row =>
      if decide (pt_expiry row = 0%Z ∨ (pt_expiry row > now)%Z) then
        ret (Some (pg_row_to_app_token token_hash row))
      else ret None
  | None => ret None
  end.
Definition pg_renewable_row (now : Z) (row : PgAppTokenRow) : Prop :=
  pt_renewable row = true ∧ (pt_expiry row > 0)%Z ∧ (pt_expiry row > now)%Z.
#[export] Instance pg_renewable_row_dec now row : Decision (pg_renewable_row now row).
Proof. unfold pg_renewable_row. apply _. Defined.
Definition pg_extend_row (expiry : Z) (row : PgAppTokenRow) : PgAppTokenRow :=
  mkPgAppTokenRow (pt_entity row) (pt_policies row) expiry (pt_renewable row)
    (pt_lease_duration_secs row) (pt_created_at row).
(** The sum [$1 + lease_duration_secs] of a row the statement updates can be out of range. *)
Definition pg_renew_app_token (now : Z) (token_hash : string) : PgM () :=
  let* row := gets (λ d, pg_app_tokens d !! token_hash) in
  match row with
  | Some row =>
      if decide (pg_renewable_row now row) then
        let* expiry := of_result (col (bigint_add now (pt_lease_duration_secs row))) in
        modify (set_pg_app_tokens (alter (pg_extend_row expiry) token_hash))
      else if pt_renewable row && bool_decide (pt_expiry row = 0%Z) then ret ()
      else throw (DbUnexpected "token not found, expired, or not renewable")
  | None => throw (DbUnexpected "token not found, expired, or not renewable")
  end.
Definition pg_revoke_app_token (token_hash : string) : PgM () :=
  modify (set_pg_app_tokens (delete token_hash)).

(** ** AppRole *)
Definition pg_approle_row (role : AppRole) : PgAppRoleRow :=
  mkPgAppRoleRow (role_role_id role) (role_secret_id_ttl_secs role) (role_token_ttl_secs role)
    (role_bind_secret_id role) (to_json_or_empty (role_token_policies role)).
(** [INSERT ... ON CONFLICT(name) DO UPDATE], under [role_id UNIQUE]. *)
Definition pg_create_approle (role : AppRole) : PgM () :=
  pg_sql (pg_params [role_name role; role_role_id role;
      to_json_or_empty (role_token_policies role)] [] ;;;
    pg_insert (λ _, true)
      (λ d, bool_decide (map_Forall (λ name row,
         po_role_id row = role_role_id role → name = role_name role) (pg_approle_roles d)))
      (λ _, true)
      (set_pg_approle_roles <[role_name role := pg_approle_row role]>)).
Definition pg_row_to_approle (name : string) (row : PgAppRoleRow) : AppRole :=
  mkAppRole name (po_role_id row) (po_secret_id_ttl_secs row) (po_token_ttl_secs row)
    (po_bind_secret_id row) (from_json_or_default (po_token_policies row)).
Definition pg_get_approle_by_role_id (role_id : string) : PgM (option AppRole) :=
  pg_select [role_id] (λ d,
    match filter (λ r, po_role_id r.2 = role_id) (map_to_list (pg_approle_roles d)) with
    | (name, row) :: _ => Some (pg_row_to_approle name row)
    | [] => None
    end).
Definition pg_get_approle_by_name (name : string) : PgM (option AppRole) :=
  pg_select [name] (λ d, pg_row_to_approle name <$> pg_approle_roles d !! name).
Definition pg_delete_approle (name : string) : PgM () :=
  pg_execute [name] [] (λ d, set_pg_app_secret_ids (filter (λ kv, sr_role_name kv.2 ≠ name))
    (set_pg_approle_roles (delete name) d)).
Definition pg_list_approle_names : PgM (list string) :=
  gets (λ d, pg_order_by id (elements (dom (pg_approle_roles d)))).

(** ** Secret ids *)
Definition pg_create_secret_id (secret_id : AppSecretId) : PgM () :=
  pg_sql (pg_params [sid_accessor secret_id; sid_role_name secret_id] [] ;;;
    pg_insert (λ _, true)
      (λ d, bool_decide (pg_app_secret_ids d !! sid_accessor secret_id = None))
      (λ d, bool_decide (is_Some (pg_approle_roles d !! sid_role_name secret_id)))
      (set_pg_app_secret_ids <[sid_accessor secret_id := mkSecretIdRow
         (sid_secret_id_hash secret_id) (sid_role_name secret_id) (sid_expiry secret_id)
         (sid_num_uses_remaining secret_id)]>)).
(** One transaction: [FOR UPDATE] locks the row that was read until its end. *)
Definition pg_consume_secret_id (now : Z) (role_name secret_id_hash : string)
    : PgM (option string) :=
  let* rows := pg_select [role_name] (λ d,
    map_to_list (filter (λ r, usable_secret_id role_name secret_id_hash now r.2)
      (pg_app_secret_ids d))) in
  match rows with
  | [] => ret None
  | (accessor, row) :: _ =>
      let num_uses := sr_num_uses_remaining row in
      (if decide (num_uses = 1%Z) then
         modify (set_pg_app_secret_ids (delete accessor))
       else if decide (num_uses > 1)%Z then
         modify (set_pg_app_secret_ids (alter decrement_uses accessor))
       else ret ()) ;;;
      ret (Some accessor)
  end.
Definition pg_destroy_secret_id (role_name accessor : string) : PgM () :=
  pg_execute [accessor; role_name] [] (set_pg_app_secret_ids (λ m,
    match m !! accessor with
    | Some row => if decide (sr_role_name row = role_name) then delete accessor m else m
    | None => m
    end)).

(** ** Kubernetes roles *)
Definition pg_create_k8s_role (role : K8sRole) : PgM () :=
  pg_execute ([k8s_name role; k8s_jwks_url role; k8s_bound_sa_names role;
      k8s_bound_sa_namespaces role] ++ opt_text (k8s_expected_issuer role) ++
      [k8s_bound_audiences role]) []
    (set_pg_k8s_roles <[k8s_name role := mkK8sRoleRow (k8s_jwks_url role)
      (k8s_bound_sa_names role) (k8s_bound_sa_namespaces role) (k8s_token_ttl_secs role)
      (k8s_expected_issuer role) (k8s_bound_audiences role)]>).
Definition pg_get_k8s_role (name : string) : PgM (option K8sRole) :=
  pg_select [name] (λ d, row_to_k8s_role name <$> pg_k8s_roles d !! name).
Definition pg_delete_k8s_role (name : string) : PgM () :=
  pg_execute [name] [] (set_pg_k8s_roles (delete name)).
Definition pg_list_k8s_role_names : PgM (list string) :=
  gets (λ d, pg_order_by id (elements (dom (pg_k8s_roles d)))).

(** ** Initialisation ([Database::initialize_db], [PostgresDatabase::init]) *)
Definition pg_initialize_db (salt : string) : PgM () :=
  let* realm := pg_get_realm ADMIN_REALM in
  (if decide (realm = None) then pg_create_realm app_realm else ret ()) ;;;
  let* userpass := pg_get_userpass ADMIN_REALM APP_REALM_ADMIN_USERNAME in
  if decide (userpass = None) then
    let* password_hash := of_result (map_err
      (λ e, DbInit ("failed to set the app admin initial password: " +:+ auth_error_to_string e))
      (hash_password_with_argon2 salt APP_REALM_ADMIN_INITIAL_PASSWORD)) in
    pg_create_userpass (mkUserPass ADMIN_REALM APP_REALM_ADMIN_USERNAME password_hash None true []
      None) ;;;
    pg_create_admin app_admin
  else ret ().
(** [init] after its [CREATE TABLE IF NOT EXISTS] statements and column migrations, which
    leave the rows as they are. *)
Definition pg_init (salt : string) : PgM () :=
  let* realm_count := gets (λ d, size (pg_realm d)) in
  if decide (realm_count = 0) then pg_initialize_db salt else ret ().
End operations.
