(* ===== verification/MyDatabase.v ===== *)
(** The credential store on MySQL ([server/src/database/impls/mysql.rs]): the tables, with their
    column types, and every operation of the [Database] trait.

    A table maps what the server compares of a primary key to the key as it was stored and the
    remaining columns, which are those of SQLite.  A JSON column holds the document it was given;
    the server has its own way of writing it ([my_json_text]).  Values are fitted to their columns
    when a row is written ([SqlServers.varchar], [text_column], [unsigned_column]), for an [UPDATE]
    only when there is a row.  [ORDER BY] compares the keys of the collation; a query without it
    answers in the order of the map.  An operation that one statement implements is one atomic
    step. *)
From S2P Require Import Prelude RustStd Models Passwords Totp Database SqlServers.

(** What depends on the server and on the driver.  The server: the documents a JSON column takes
    and the text it gives for one, its operator [REGEXP], whether it takes the statement that
    creates [k8s_roles], which has a literal default for a TEXT column (MariaDB does, MySQL only
    outside strict mode).  The driver: decoding a JSON column
    as a [String] and a BIGINT UNSIGNED column as an [i64], and whether the rows affected by an
    [UPDATE] are those it found or those it changed. *)
Class MyServer := {
  my_json_valid : string → bool;
  my_json_text : string → string;
  my_regexp : string → string → bool;
  my_text_default : bool;
  my_json_string : string → string → Result string SqlxError;
  my_unsigned_i64 : string → Z → Result Z SqlxError;
  my_found_rows : bool;
}.

(** * Tables *)
Abbreviation Keyed K V := (gmap K (K * V)).
Record MyDatabase := mkMyDatabase {
  my_realm : Keyed string RealmRow;
  my_userpass : Keyed (string * string) UserpassRow;
  my_admin : Keyed string AdminRow;
  my_admin_realms : Keyed (string * string) ();
  my_app_tokens : Keyed string AppTokenRow;
  my_approle_roles : Keyed string AppRoleRow;
  my_app_secret_ids : Keyed string SecretIdRow;
  (** no table where its statement is refused *)
  my_k8s_roles : option (Keyed string K8sRoleRow);
}.
(** What the schema statements make of a new database. *)
Definition my_schema `{SV : MyServer} : MyDatabase :=
  mkMyDatabase ∅ ∅ ∅ ∅ ∅ ∅ ∅ (if my_text_default then Some ∅ else None).

Definition set_my_realm f d := mkMyDatabase (f (my_realm d)) (my_userpass d) (my_admin d)
  (my_admin_realms d) (my_app_tokens d) (my_approle_roles d) (my_app_secret_ids d) (my_k8s_roles d).
Definition set_my_userpass f d := mkMyDatabase (my_realm d) (f (my_userpass d)) (my_admin d)
  (my_admin_realms d) (my_app_tokens d) (my_approle_roles d) (my_app_secret_ids d) (my_k8s_roles d).
Definition set_my_admin f d := mkMyDatabase (my_realm d) (my_userpass d) (f (my_admin d))
  (my_admin_realms d) (my_app_tokens d) (my_approle_roles d) (my_app_secret_ids d) (my_k8s_roles d).
Definition set_my_admin_realms f d := mkMyDatabase (my_realm d) (my_userpass d) (my_admin d)
  (f (my_admin_realms d)) (my_app_tokens d) (my_approle_roles d) (my_app_secret_ids d)
  (my_k8s_roles d).
Definition set_my_app_tokens f d := mkMyDatabase (my_realm d) (my_userpass d) (my_admin d)
  (my_admin_realms d) (f (my_app_tokens d)) (my_approle_roles d) (my_app_secret_ids d)
  (my_k8s_roles d).
Definition set_my_approle_roles f d := mkMyDatabase (my_realm d) (my_userpass d) (my_admin d)
  (my_admin_realms d) (my_app_tokens d) (f (my_approle_roles d)) (my_app_secret_ids d)
  (my_k8s_roles d).
Definition set_my_app_secret_ids f d := mkMyDatabase (my_realm d) (my_userpass d) (my_admin d)
  (my_admin_realms d) (my_app_tokens d) (my_approle_roles d) (f (my_app_secret_ids d))
  (my_k8s_roles d).
Definition set_my_k8s_roles f d := mkMyDatabase (my_realm d) (my_userpass d) (my_admin d)
  (my_admin_realms d) (my_app_tokens d) (my_approle_roles d) (my_app_secret_ids d)
  (f (my_k8s_roles d)).

Abbreviation MyM := (M MyDatabase AuthDbError).
Abbreviation MySqlM := (M MyDatabase SqlxError).

(** * Statements *)

(** [INSERT]: the columns, then the CHECK constraint, uniqueness and the foreign keys. *)
Definition my_insert {R} (columns : Result R SqlxError) (check : R → bool)
    (unique fk : R → MyDatabase → bool) (f : R → MyDatabase → MyDatabase) : MySqlM () := λ d,
  match columns with
  | Err e => (Err e, d)
  | Ok row =>
      if negb (check row) then (Err CheckViolation, d)
      else if negb (unique row d) then (Err UniqueViolation, d)
      else if negb (fk row d) then (Err ForeignKeyViolation, d)
      else (Ok (), f row d)
  end.
(** [UPDATE] of the row a primary key finds: its columns are assigned when there is one. *)
Definition my_update {K V} `{Countable K} (k : K) (table : MyDatabase → Keyed K V)
    (set : (Keyed K V → Keyed K V) → MyDatabase → MyDatabase)
    (assign : V → Result V SqlxError) : MySqlM () :=
  let* row := gets (λ d, table d !! k) in
  match row with
  | Some (name, v) => let* v' := of_result (assign v) in modify (set <[k := (name, v')]>)
  | None => ret ()
  end.
(** The rows of a table, with their keys as they are stored. *)
Definition my_rows {K V} `{Countable K} (table : Keyed K V) : list (K * V) := (map_to_list table).*2.

(** [text LIKE pattern], character by character: [%] is any text, [_] one character, a backslash
    quotes the next one. *)
Definition skip_char (s : string) : option string :=
  match s with EmptyString => None | _ => Some (take_chars 1 s).2 end.
Fixpoint like (pattern : string) (s : string) : bool :=
  let fix any (like_rest : string → bool) (s : string) : bool :=
    like_rest s || match s with EmptyString => false | String _ s' => any like_rest s' end in
  match pattern with
  | EmptyString => match s with EmptyString => true | _ => false end
  | String "%" p => any (like p) s
  | String "_" p => match skip_char s with Some s' => like p s' | None => false end
  | String "\" (String c p) =>
      match s with String a s' => bool_decide (a = c) && like p s' | EmptyString => false end
  | String c p =>
      match s with String a s' => bool_decide (a = c) && like p s' | EmptyString => false end
  end.

Section operations.
Context {L : DbLibs} {MY : MySql} {SV : MyServer}.

Definition my_sql {A} (m : MySqlM A) : MyM A := with_err DbSql m.
Definition pair_key (k : string * string) : string * string :=
  (collation_key k.1, collation_key k.2).
(** [VARCHAR] and [TEXT] columns that may be NULL. *)
Definition opt_column (f : string → Result string SqlxError) (o : option string)
    : Result (option string) SqlxError := transpose (f <$> o).
Definition json_column (document : string) : Result string SqlxError :=
  if my_json_valid document then Ok document else Err InvalidJson.
(** [BIGINT UNSIGNED]: a negative value is an error in strict mode, and else 0. *)
Definition unsigned_column (z : Z) : Result Z SqlxError :=
  if decide (0 ≤ z)%Z then Ok z else if my_strict then Err OutOfRange else Ok 0%Z.
Definition my_order_by {A} (key : A → string) (l : list A) : list A :=
  order_by (λ a, collation_key (key a)) l.

(** ** Realms *)
Definition my_realm_row (realm : Realm) (auth_params_json : string) : Result RealmRow SqlxError :=
  let? auth_params := json_column auth_params_json in
  let? cookie_max_age := unsigned_column (realm_session_max_age_seconds realm) in
  let? max_stale_age := unsigned_column (realm_session_max_stale_age_seconds realm) in
  let? certificate_max_age := unsigned_column (realm_certificate_max_age_seconds realm) in
  Ok (mkRealmRow auth_params cookie_max_age max_stale_age certificate_max_age).
Definition my_row_to_realm (r : string * RealmRow) : Result Realm AuthDbError :=
  let '(id, row) := r in
  let? auth_params_str := col (my_json_string "auth_params" (my_json_text (rr_auth_params row))) in
  let? auth_params := map_err (λ e, DbUnexpected ("Failed to deserialize auth_params: " +:+ e))
                        (from_json auth_params_str) in
  let? cookie_max_age := col (my_unsigned_i64 "cookie_max_age_seconds" (rr_cookie_max_age_seconds row)) in
  let? max_stale_age := col (my_unsigned_i64 "max_stale_age_seconds" (rr_max_stale_age_seconds row)) in
  let? certificate_max_age :=
    col (my_unsigned_i64 "certificate_max_age_seconds" (rr_certificate_max_age_seconds row)) in
  Ok (mkRealm id auth_params cookie_max_age max_stale_age certificate_max_age).

Definition my_create_realm (realm : Realm) : MyM () :=
  let* auth_params_json := of_result (serialize_auth_params realm) in
  with_err (from_insert_error ("realm '" +:+ realm_id realm +:+ "' already exists"))
    (my_insert (let? id := varchar 255 (realm_id realm) in
                let? row := my_realm_row realm auth_params_json in Ok (id, row))
       (λ r, my_regexp "^[a-zA-Z0-9_-]+$" r.1)
       (λ r d, bool_decide (my_realm d !! collation_key r.1 = None))
       (λ _ _, true)
       (λ r, set_my_realm <[collation_key r.1 := r]>)).
Definition my_get_realm (id : string) : MyM (option Realm) :=
  let* row := gets (λ d, my_realm d !! collation_key id) in
  of_result (transpose (my_row_to_realm <$> row)).
Definition my_update_realm (realm : Realm) : MyM () :=
  let* auth_params_json := of_result (serialize_auth_params realm) in
  my_sql (my_update (collation_key (realm_id realm)) my_realm set_my_realm
    (λ _, my_realm_row realm auth_params_json)).
(** [ON DELETE CASCADE] of [userpass] and [admin_realms], whose foreign keys compare as the
    primary key does. *)
Definition my_delete_realm (id : string) : MyM () :=
  modify (λ d,
    let d := set_my_realm (delete (collation_key id)) d in
    let d := set_my_userpass (filter (λ kv, kv.1.1 ≠ collation_key id)) d in
    set_my_admin_realms (filter (λ kv, kv.1.2 ≠ collation_key id)) d).
Definition my_list_realms : MyM (list Realm) :=
  let* rows := gets (λ d, my_order_by fst (my_rows (my_realm d))) in
  of_result (try_map my_row_to_realm rows).

(** ** Username/password entries *)
Definition my_userpass_row (password_hash : string) (change_password : bool) (roles_json : string)
    (extra_claims_json : option string) : Result UserpassRow SqlxError :=
  let? password := text_column password_hash in
  let? roles := text_column roles_json in
  let? extra_claims := opt_column text_column extra_claims_json in
  Ok (mkUserpassRow password change_password roles extra_claims).
Definition my_create_userpass (userpass : UserPass) : MyM () :=
  let* roles_json := of_result (serialize_roles (up_roles userpass)) in
  let* extra_claims_json := of_result (serialize_extra_claims (up_extra_claims userpass)) in
  with_err (from_insert_error ("credentials for '" +:+ up_username userpass +:+
      "' already exist in realm '" +:+ up_realm userpass +:+ "'"))
    (my_insert (let? realm := varchar 255 (up_realm userpass) in
                let? username := varchar 255 (up_username userpass) in
                let? row := my_userpass_row (up_password_hash userpass) (up_change_password userpass)
                              roles_json extra_claims_json in
                Ok (realm, username, row))
       (λ _, true)
       (λ r d, bool_decide (my_userpass d !! pair_key r.1 = None))
       (λ r d, bool_decide (is_Some (my_realm d !! collation_key r.1.1)))
       (λ r, set_my_userpass <[pair_key r.1 := r]>)).
Definition my_get_userpass (realm username : string) : MyM (option UserPass) :=
  let* row := gets (λ d, my_userpass d !! pair_key (realm, username)) in
  match row with
  | Some (name, row) => of_result (
      let? roles := deserialize_roles username (ur_roles row) in
      let? extra_claims := deserialize_extra_claims username (ur_extra_claims row) in
      Ok (Some (mkUserPass name.1 name.2 "" None (ur_change_password row) roles extra_claims)))
  | None => ret None
  end.
Definition my_update_userpass (userpass : UserPass) : MyM () :=
  let* roles_json := of_result (serialize_roles (up_roles userpass)) in
  let* extra_claims_json := of_result (serialize_extra_claims (up_extra_claims userpass)) in
  my_sql (my_update (pair_key (up_realm userpass, up_username userpass)) my_userpass set_my_userpass
    (λ _, my_userpass_row (up_password_hash userpass) (up_change_password userpass) roles_json
            extra_claims_json)).
Definition my_update_userpass_metadata (realm username : string) (change_password : bool)
    (roles : list string) : MyM () :=
  let* roles_json := of_result (serialize_roles roles) in
  my_sql (my_update (pair_key (realm, username)) my_userpass set_my_userpass
    (λ row, map_ok (λ roles, mkUserpassRow (ur_password row) change_password roles
                               (ur_extra_claims row)) (text_column roles_json))).
Definition my_delete_userpass (realm username : string) : MyM () :=
  modify (set_my_userpass (delete (pair_key (realm, username)))).
Definition my_delete_userpass_by_username (username : string) : MyM () :=
  modify (set_my_userpass (filter (λ kv, kv.1.2 ≠ collation_key username))).
Definition my_list_userpass_by_realm (realm : string) : MyM (list UserPass) :=
  let* rows := gets (λ d, my_order_by (λ r, r.1.2)
    (my_rows (filter (λ kv, kv.1.1 = collation_key realm) (my_userpass d)))) in
  of_result (try_map row_to_userpass rows).
Definition my_list_all_userpass : MyM (list UserPass) :=
  let* rows := gets (λ d, order_by2 (λ r, collation_key r.1.1) (λ r, collation_key r.1.2)
    (my_rows (my_userpass d))) in
  of_result (try_map row_to_userpass rows).
Definition my_validate_userpass (realm username password : string) : MyM bool :=
  let* row := gets (λ d, my_userpass d !! pair_key (realm, username)) in
  match row with
  | Some (_, row) => of_result (
      let? stored_password := password_utf8 (ur_password row) in
      let? _ := map_err (λ _, DbInvalidCredentials) (verify_password_argon2 stored_password password) in
      Ok (ur_change_password row))
  | None => throw DbInvalidCredentials
  end.

(** ** Administrators *)
Definition my_admin_row (admin : Admin) (digital_credentials_json : option string)
    : Result AdminRow SqlxError :=
  let? userpass := opt_column (varchar 255) (adm_userpass admin) in
  let? jwt := opt_column text_column (adm_jwt admin) in
  let? fido2 := opt_column text_column (adm_fido2 admin) in
  let? digital_credentials := opt_column json_column digital_credentials_json in
  let? certificate := opt_column text_column (adm_client_certificate admin) in
  let? totp_secret := opt_column (varchar 4096) (adm_totp_secret admin) in
  let? totp_auth_url := opt_column text_column (adm_totp_auth_url admin) in
  Ok (mkAdminRow userpass jwt fido2 digital_credentials certificate
        (bool_i64 <$> adm_totp_enabled admin) totp_secret totp_auth_url).
Definition my_insert_admin_realm (admin_id realm_id : string) : MySqlM () :=
  my_insert (let? admin := varchar 255 admin_id in
             let? realm := varchar 255 realm_id in Ok (admin, realm))
    (λ _, true)
    (λ r d, bool_decide (my_admin_realms d !! pair_key r = None))
    (λ r d, bool_decide (is_Some (my_admin d !! collation_key r.1)) &&
            bool_decide (is_Some (my_realm d !! collation_key r.2)))
    (λ r, set_my_admin_realms <[pair_key r := (r, ())]>).

Definition my_create_admin (admin : Admin) : MyM () :=
  let* digital_credentials_json := of_result (serialize_digital_credentials admin) in
  with_err (from_insert_error ("admin '" +:+ adm_id admin +:+ "' already exists"))
    (my_insert (let? id := varchar 255 (adm_id admin) in
                let? row := my_admin_row admin digital_credentials_json in Ok (id, row))
       (λ _, true)
       (λ r d, bool_decide (my_admin d !! collation_key r.1 = None))
       (λ _ _, true)
       (λ r, set_my_admin <[collation_key r.1 := r]>)) ;;;
  for_each (λ realm_id, my_sql (my_insert_admin_realm (adm_id admin) realm_id)) (adm_realms admin).

(** [SELECT realm_id FROM admin_realms WHERE admin_id = ?] *)
Definition my_select_admin_realms (admin_id : string) (d : MyDatabase) : list string :=
  (λ r, r.1.2) <$> my_rows (filter (λ kv, kv.1.1 = collation_key admin_id) (my_admin_realms d)).
Definition my_row_to_admin (id : string) (realms : list string) (row : AdminRow)
    : Result Admin AuthDbError :=
  let? dc_json := col (transpose (my_json_string "digital_credentials" <$>
                    (my_json_text <$> ar_digital_credentials row))) in
  let? digital_credentials := transpose ((λ dc_json,
    map_err (λ e, DbUnexpected ("Failed to deserialize digital_credentials: " +:+ e))
      (from_json dc_json)) <$> dc_json) in
  Ok (mkAdmin id realms (ar_userpass row) (ar_jwt row) (ar_fido2 row) digital_credentials
        (ar_certificate row) ((λ v, bool_decide (v ≠ 0%Z)) <$> ar_totp_enabled row)
        (ar_totp_secret row) (ar_totp_auth_url row)).
Definition my_get_admin (id : string) : MyM (option Admin) :=
  let* row := gets (λ d, my_admin d !! collation_key id) in
  match row with
  | Some (name, row) =>
      let* realms := gets (my_select_admin_realms id) in
      of_result (map_ok Some (my_row_to_admin name realms row))
  | None => ret None
  end.
Definition my_update_admin (admin : Admin) : MyM () :=
  let* digital_credentials_json := of_result (serialize_digital_credentials admin) in
  my_sql (my_update (collation_key (adm_id admin)) my_admin set_my_admin
    (λ _, my_admin_row admin digital_credentials_json)) ;;;
  modify (set_my_admin_realms (filter (λ kv, kv.1.1 ≠ collation_key (adm_id admin)))) ;;;
  for_each (λ realm_id, my_sql (my_insert_admin_realm (adm_id admin) realm_id)) (adm_realms admin).
(** [ON DELETE CASCADE] of [admin_realms]. *)
Definition my_delete_admin (id : string) : MyM () :=
  modify (λ d, set_my_admin_realms (filter (λ kv, kv.1.1 ≠ collation_key id))
                 (set_my_admin (delete (collation_key id)) d)).
Definition my_list_admins : MyM (list Admin) :=
  let* rows := gets (λ d, my_order_by fst (my_rows (my_admin d))) in
  map_m (λ '(admin_id, row),
    let* realms := gets (my_select_admin_realms admin_id) in
    of_result (my_row_to_admin admin_id realms row)) rows.

(** The condition of a scheme's query.  The JSON text is compared with a pattern in which
    [%], [_] and backslashes of the value keep their meaning. *)
Definition my_admin_query (auth_method : AuthScheme) (value : string)
    : Result (AdminRow → bool) AuthDbError :=
  let equal (column : AdminRow → option string) row :=
    match column row with Some c => bool_decide (same_text c value) | None => false end in
  match auth_method with
  | UsernamePassword => Ok (equal ar_userpass)
  | Jwt => Ok (equal ar_jwt)
  | Fido2 => Ok (equal ar_fido2)
  | DigitalCredentials =>
      let? pattern := map_err (λ e, DbUnexpected ("Failed to serialize digital_credentials query value: "
                        +:+ e +:+ " for value: " +:+ value)) (to_json [value]) in
      Ok (λ row, match ar_digital_credentials row with
                 | Some document => like pattern (my_json_text document)
                 | None => false
                 end)
  | ClientCertificate => Ok (equal ar_certificate)
  | Saml => Ok (λ _, false)
  end.
Definition my_find_admins_by_auth_scheme (auth_method : AuthScheme) (value : string)
    : MyM (list Admin) :=
  match auth_method with
  | Saml => ret []
  | _ =>
      let* selected := of_result (my_admin_query auth_method value) in
      let* rows := gets (λ d, (filter (λ r, selected r.2 = true) (my_rows (my_admin d))).*1) in
      let* admins := map_m my_get_admin rows in
      ret (omap id admins)
  end.

(** ** TOTP *)
Definition my_generate_totp_secret (secret realm username : string) : MyM string :=
  let* totps := of_result (totp_err (Totps_new secret)) in
  ret (totp_get_secret_base32 totps).
(** [WHERE id = ? AND (userpass IS NOT NULL OR jwt IS NOT NULL)] *)
Definition my_set_totp (enabled : Z) (secret auth_url : option string) (row : AdminRow)
    : Result AdminRow SqlxError :=
  if totp_capable row then
    let? secret := opt_column (varchar 4096) secret in
    let? auth_url := opt_column text_column auth_url in
    Ok (set_totp enabled secret auth_url row)
  else Ok row.
Definition my_enable_totp (realm username totp_secret issuer : string) : MyM () :=
  let* totps := of_result (totp_err (from_secret totp_secret (Some issuer) username None)) in
  my_sql (my_update (collation_key username) my_admin set_my_admin
    (my_set_totp 1 (Some totp_secret) (Some (totp_get_url totps)))).
Definition my_disable_totp (realm username : string) : MyM () :=
  my_sql (my_update (collation_key username) my_admin set_my_admin (my_set_totp 0 None None)).
Definition my_select_totp_row (username : string) (d : MyDatabase) : option AdminRow :=
  match my_admin d !! collation_key username with
  | Some (_, row) => if totp_capable row then Some row else None
  | None => None
  end.
(** The columns are read as they are, NULL included. *)
Definition my_get_totp_secret (realm username : string) : MyM (option string) :=
  gets (λ d, my_select_totp_row username d ≫= ar_totp_secret).
Definition my_is_totp_enabled (realm username : string) : MyM (option bool) :=
  gets (λ d, (λ v, bool_decide (v ≠ 0%Z)) <$> (my_select_totp_row username d ≫= ar_totp_enabled)).

(** ** App tokens: the primary key is the first 64 bytes of the hash. *)
Definition token_key (token_hash : string) : string := String.substring 0 64 token_hash.
Definition my_token_row (token : AppToken) : Result (string * AppTokenRow) SqlxError :=
  let? token_hash := text_column (tok_token_hash token) in
  let? entity := text_column (tok_entity token) in
  let? policies := text_column (to_json_or_empty (tok_policies token)) in
  Ok (token_hash, mkAppTokenRow entity policies (tok_expiry token) (bool_i64 (tok_renewable token))
        (tok_lease_duration_secs token) (tok_created_at token)).
Definition my_issue_app_token (token : AppToken) : MyM () :=
  my_sql (my_insert (my_token_row token)
    (λ _, true)
    (λ r d, bool_decide (my_app_tokens d !! token_key r.1 = None))
    (λ _ _, true)
    (λ r, set_my_app_tokens <[token_key r.1 := r]>)).
(** [WHERE token_hash = ?] *)
Definition my_select_token (token_hash : string) (d : MyDatabase) : option AppTokenRow :=
  match my_app_tokens d !! token_key token_hash with
  | Some (stored, row) => if decide (stored = token_hash) then Some row else None
  | None => None
  end.
Definition my_row_to_app_token (token_hash : string) (row : AppTokenRow) : AppToken :=
  mkAppToken token_hash (tr_entity row) (from_json_or_default (tr_policies row)) (tr_expiry row)
    (bool_decide (tr_renewable row ≠ 0%Z)) (tr_lease_duration_secs row) (tr_created_at row).
Definition my_lookup_app_token (now : Z) (token_hash : string) : MyM (option AppToken) :=
  let* row := gets (my_select_token token_hash) in
  match row with
  | Some row =>
      if decide (tr_expiry row = 0%Z ∨ (tr_expiry row > now)%Z) then
        ret (Some (my_row_to_app_token token_hash row))
      else ret None
  | None => ret None
  end.
(** The sum of the [UPDATE] can leave BIGINT; a row that keeps its expiry may not count among the
    rows affected. *)
Definition my_set_expiry (expiry : Z) (row : AppTokenRow) : AppTokenRow :=
  mkAppTokenRow (tr_entity row) (tr_policies row) expiry (tr_renewable row)
    (tr_lease_duration_secs row) (tr_created_at row).
Definition my_renew_app_token (now : Z) (token_hash : string) : MyM () :=
  let* row := gets (my_select_token token_hash) in
  let* rows_affected :=
    match row with
    | Some row =>
        if decide (renewable_row now row) then
          let* expiry := of_result (col (bigint_add now (tr_lease_duration_secs row))) in
          modify (set_my_app_tokens (alter (λ r, (r.1, my_set_expiry expiry r.2)) (token_key token_hash))) ;;;
          ret (if my_found_rows || bool_decide (expiry ≠ tr_expiry row) then 1 else 0)
        else ret 0
    | None => ret 0
    end in
  if decide (rows_affected = 0) then
    let* non_expiring := gets (λ d,
      match my_select_token token_hash d with
      | Some row => bool_decide (tr_renewable row = 1%Z) && bool_decide (tr_expiry row = 0%Z)
      | None => false
      end) in
    if negb non_expiring then throw (DbUnexpected "token not found, expired, or not renewable")
    else ret ()
  else ret ().
Definition my_revoke_app_token (token_hash : string) : MyM () :=
  modify (set_my_app_tokens (λ m,
    match m !! token_key token_hash with
    | Some (stored, _) => if decide (stored = token_hash) then delete (token_key token_hash) m else m
    | None => m
    end)).

(** ** AppRole *)
Definition my_approle_row (role : AppRole) : Result (string * AppRoleRow) SqlxError :=
  let? name := varchar 255 (role_name role) in
  let? role_id := varchar 255 (role_role_id role) in
  let? token_policies := text_column (to_json_or_empty (role_token_policies role)) in
  Ok (name, mkAppRoleRow role_id (role_secret_id_ttl_secs role) (role_token_ttl_secs role)
        (bool_i64 (role_bind_secret_id role)) token_policies).
(** The key of the row that holds this role id, by [role_id UNIQUE]. *)
Definition my_role_id_holder (role_id : string) (d : MyDatabase) : option string :=
  fst <$> head (filter (λ kv, same_text (or_role_id kv.2.2) role_id) (map_to_list (my_approle_roles d))).
(** [INSERT ... ON DUPLICATE KEY UPDATE]: a row of this name takes the other columns, its role id
    included; so does, under the name it has, the row that holds the role id. *)
Definition my_create_approle (role : AppRole) : MyM () :=
  my_sql (
    let* row := of_result (my_approle_row role) in
    let key := collation_key row.1 in
    let* named := gets (λ d, my_approle_roles d !! key) in
    let* holder := gets (my_role_id_holder (or_role_id row.2)) in
    match named, holder with
    | Some (name, _), holder =>
        if decide (holder = None ∨ holder = Some key) then
          modify (set_my_approle_roles <[key := (name, row.2)]>)
        else throw UniqueViolation
    | None, Some key' => modify (set_my_approle_roles (alter (λ r, (r.1, row.2)) key'))
    | None, None => modify (set_my_approle_roles <[key := row]>)
    end).
Definition my_get_approle_by_role_id (role_id : string) : MyM (option AppRole) :=
  gets (λ d,
    match filter (λ r, same_text (or_role_id r.2) role_id) (my_rows (my_approle_roles d)) with
    | (name, row) :: _ => Some (row_to_approle name row)
    | [] => None
    end).
Definition my_get_approle_by_name (name : string) : MyM (option AppRole) :=
  gets (λ d, (λ r, row_to_approle r.1 r.2) <$> my_approle_roles d !! collation_key name).
(** [ON DELETE CASCADE] of [app_secret_ids]. *)
Definition my_delete_approle (name : string) : MyM () :=
  modify (λ d, set_my_app_secret_ids (filter (λ kv, ¬ same_text (sr_role_name kv.2.2) name))
                 (set_my_approle_roles (delete (collation_key name)) d)).
Definition my_list_approle_names : MyM (list string) :=
  gets (λ d, my_order_by id (my_rows (my_approle_roles d)).*1).

(** ** Secret ids *)
Definition my_secret_id_row (secret_id : AppSecretId) : Result (string * SecretIdRow) SqlxError :=
  let? accessor := varchar 36 (sid_accessor secret_id) in
  let? secret_id_hash := text_column (sid_secret_id_hash secret_id) in
  let? role_name := varchar 255 (sid_role_name secret_id) in
  Ok (accessor, mkSecretIdRow secret_id_hash role_name (sid_expiry secret_id)
        (sid_num_uses_remaining secret_id)).
Definition my_create_secret_id (secret_id : AppSecretId) : MyM () :=
  my_sql (my_insert (my_secret_id_row secret_id)
    (λ _, true)
    (λ r d, bool_decide (my_app_secret_ids d !! collation_key r.1 = None))
    (λ r d, bool_decide (is_Some (my_approle_roles d !! collation_key (sr_role_name r.2))))
    (λ r, set_my_app_secret_ids <[collation_key r.1 := r]>)).
Definition my_usable_secret_id (role_name secret_id_hash : string) (now : Z) (row : SecretIdRow)
    : Prop :=
  same_text (sr_role_name row) role_name ∧ sr_secret_id_hash row = secret_id_hash ∧
  (sr_expiry row = 0%Z ∨ (sr_expiry row > now)%Z).
#[export] Instance my_usable_secret_id_dec role_name h now row :
  Decision (my_usable_secret_id role_name h now row).
Proof. unfold my_usable_secret_id. apply _. Defined.
(** One transaction: [FOR UPDATE] locks the row that was read until its end. *)
Definition my_consume_secret_id (now : Z) (role_name secret_id_hash : string)
    : MyM (option string) :=
  let* rows := gets (λ d, my_rows (filter (λ kv,
    my_usable_secret_id role_name secret_id_hash now kv.2.2) (my_app_secret_ids d))) in
  match rows with
  | [] => ret None
  | (accessor, row) :: _ =>
      let num_uses := sr_num_uses_remaining row in
      (if decide (num_uses = 1%Z) then
         modify (set_my_app_secret_ids (delete (collation_key accessor)))
       else if decide (num_uses > 1)%Z then
         modify (set_my_app_secret_ids (alter (λ r, (r.1, decrement_uses r.2)) (collation_key accessor)))
       else ret ()) ;;;
      ret (Some accessor)
  end.
Definition my_destroy_secret_id (role_name accessor : string) : MyM () :=
  modify (set_my_app_secret_ids (λ m,
    match m !! collation_key accessor with
    | Some (_, row) =>
        if decide (same_text (sr_role_name row) role_name) then delete (collation_key accessor) m else m
    | None => m
    end)).

(** ** Kubernetes roles *)
Definition my_k8s_row (role : K8sRole) : Result (string * K8sRoleRow) SqlxError :=
  let? name := varchar 255 (k8s_name role) in
  let? jwks_url := text_column (k8s_jwks_url role) in
  let? bound_sa_names := text_column (k8s_bound_sa_names role) in
  let? bound_sa_namespaces := text_column (k8s_bound_sa_namespaces role) in
  let? expected_issuer := opt_column text_column (k8s_expected_issuer role) in
  let? bound_audiences := text_column (k8s_bound_audiences role) in
  Ok (name, mkK8sRoleRow jwks_url bound_sa_names bound_sa_namespaces (k8s_token_ttl_secs role)
        expected_issuer bound_audiences).
(** A statement on a table that is not there fails before anything else. *)
Definition k8s_table : MySqlM (Keyed string K8sRoleRow) :=
  let* table := gets my_k8s_roles in
  of_result (ok_or NoSuchTable table).
(** [INSERT ... ON DUPLICATE KEY UPDATE]: the row keeps the name it was stored under. *)
Definition my_create_k8s_role (role : K8sRole) : MyM () :=
  my_sql (
    let* table := k8s_table in
    let* row := of_result (my_k8s_row role) in
    let key := collation_key row.1 in
    let row := match table !! key with Some (name, _) => (name, row.2) | None => row end in
    modify (set_my_k8s_roles (λ _, Some (<[key := row]> table)))).
Definition my_get_k8s_role (name : string) : MyM (option K8sRole) :=
  my_sql (
    let* table := k8s_table in
    ret ((λ r, row_to_k8s_role r.1 r.2) <$> table !! collation_key name)).
Definition my_delete_k8s_role (name : string) : MyM () :=
  my_sql (
    let* table := k8s_table in
    modify (set_my_k8s_roles (λ _, Some (delete (collation_key name) table)))).
Definition my_list_k8s_role_names : MyM (list string) :=
  my_sql (
    let* table := k8s_table in
    ret (my_order_by id (my_rows table).*1)).

(** ** Initialisation ([Database::initialize_db], [MySqlDatabase::init]) *)
Definition my_initialize_db (salt : string) : MyM () :=
  let* realm := my_get_realm ADMIN_REALM in
  (if decide (realm = None) then my_create_realm app_realm else ret ()) ;;;
  let* userpass := my_get_userpass ADMIN_REALM APP_REALM_ADMIN_USERNAME in
  if decide (userpass = None) then
    let* password_hash := of_result (map_err
      (λ e, DbInit ("failed to set the app admin initial password: " +:+ auth_error_to_string e))
      (hash_password_with_argon2 salt APP_REALM_ADMIN_INITIAL_PASSWORD)) in
    my_create_userpass (mkUserPass ADMIN_REALM APP_REALM_ADMIN_USERNAME password_hash None true []
      None) ;;;
    my_create_admin app_admin
  else ret ().
(** [init] without its [CREATE TABLE IF NOT EXISTS] statements and column migrations, which leave
    the rows as they are, but for the last one: that of [k8s_roles] creates the table where the
    server takes it, and is an error elsewhere. *)
Definition my_init (salt : string) : MyM () :=
  let* realm_count := gets (λ d, size (my_realm d)) in
  (if decide (realm_count = 0) then my_initialize_db salt else ret ()) ;;;
  if my_text_default then modify (set_my_k8s_roles (λ table, Some (default ∅ table)))
  else my_sql (throw SchemaRefused).
End operations.
