(* ===== verification/MySim.v ===== *)
(** The credential store on MySQL beside the one on SQLite ([MyDatabase.v], [DbOps.v]): the laws
    asked of the server and the driver, the operations they are compared on, the relation between
    their tables ([Keyed.keyed], table by table), and how statements and rows correspond. *)
From S2P Require Import Prelude RustStd Models Passwords Totp Database DatabaseFacts SqlServers Simulation Keyed DbOps MyDatabase.

(** A JSON column takes what the codecs write, and gives back a text of the same document; the
    driver decodes a column to what it holds, or not at all. *)
Class MyLaws `{L : DbLibs, MY : MySql, SV : MyServer} : Prop := {
  #[global] my_law_db :: DbLaws;
  law_auth_params_json : ∀ (a : RealmAuthParams) t, to_json a = Ok t →
    my_json_valid t = true ∧ from_json (my_json_text t) = Ok a;
  law_string_map_json : ∀ (c : gmap string string) t, to_json c = Ok t →
    my_json_valid t = true ∧ from_json (my_json_text t) = Ok c;
  law_json_string : ∀ c t t', my_json_string c t = Ok t' → t' = t;
  law_unsigned : ∀ c z z', my_unsigned_i64 c z = Ok z' → z' = z;
}.

(** A set of names the collation tells apart and the columns hold as they are. *)
Class MyNames `{MY : MySql} (names : string → Prop) : Prop := {
  names_apart : ∀ a b, names a → names b → collation_key a = collation_key b → a = b;
  names_varchar : ∀ a, names a → varchar 255 a = Ok a;
  names_text : ∀ a, names a → text_column a = Ok a;
}.

(** * The operations *)
Section operations.
Context {L : DbLibs} {MY : MySql} {SV : MyServer}.
Definition my_op (op : DbOp) : MyM DbAnswer :=
  match op with
  | OpInit salt => done_ (my_init salt)
  | OpCreateRealm realm => done_ (my_create_realm realm)
  | OpGetRealm id => answers AnsRealm (my_get_realm id)
  | OpUpdateRealm realm => done_ (my_update_realm realm)
  | OpDeleteRealm id => done_ (my_delete_realm id)
  | OpListRealms => answers AnsRealms my_list_realms
  | OpCreateUserpass userpass => done_ (my_create_userpass userpass)
  | OpGetUserpass realm username => answers AnsUserpass (my_get_userpass realm username)
  | OpUpdateUserpass userpass => done_ (my_update_userpass userpass)
  | OpUpdateUserpassMetadata realm username change_password roles =>
      done_ (my_update_userpass_metadata realm username change_password roles)
  | OpDeleteUserpass realm username => done_ (my_delete_userpass realm username)
  | OpDeleteUserpassByUsername username => done_ (my_delete_userpass_by_username username)
  | OpListUserpassByRealm realm => answers AnsUserpasses (my_list_userpass_by_realm realm)
  | OpListAllUserpass => answers AnsUserpasses my_list_all_userpass
  | OpValidateUserpass realm username password =>
      answers AnsBool (my_validate_userpass realm username password)
  | OpCreateAdmin admin => done_ (my_create_admin admin)
  | OpGetAdmin id => answers AnsAdmin (my_get_admin id)
  | OpUpdateAdmin admin => done_ (my_update_admin admin)
  | OpDeleteAdmin id => done_ (my_delete_admin id)
  | OpListAdmins => answers AnsAdmins my_list_admins
  | OpFindAdmins auth_method value =>
      answers AnsAdmins (my_find_admins_by_auth_scheme auth_method value)
  | OpGenerateTotpSecret secret realm username =>
      answers AnsText (my_generate_totp_secret secret realm username)
  | OpEnableTotp realm username totp_secret issuer =>
      done_ (my_enable_totp realm username totp_secret issuer)
  | OpDisableTotp realm username => done_ (my_disable_totp realm username)
  | OpGetTotpSecret realm username => answers AnsOptText (my_get_totp_secret realm username)
  | OpIsTotpEnabled realm username => answers AnsOptBool (my_is_totp_enabled realm username)
  | OpIssueAppToken token => done_ (my_issue_app_token token)
  | OpLookupAppToken now token_hash => answers AnsToken (my_lookup_app_token now token_hash)
  | OpRenewAppToken now token_hash => done_ (my_renew_app_token now token_hash)
  | OpRevokeAppToken token_hash => done_ (my_revoke_app_token token_hash)
  | OpCreateApprole role => done_ (my_create_approle role)
  | OpGetApproleByRoleId role_id => answers AnsApprole (my_get_approle_by_role_id role_id)
  | OpGetApproleByName name => answers AnsApprole (my_get_approle_by_name name)
  | OpDeleteApprole name => done_ (my_delete_approle name)
  | OpListApproleNames => answers AnsNames my_list_approle_names
  | OpCreateSecretId secret_id => done_ (my_create_secret_id secret_id)
  | OpConsumeSecretId now role_name secret_id_hash =>
      answers AnsOptText (my_consume_secret_id now role_name secret_id_hash)
  | OpDestroySecretId role_name accessor => done_ (my_destroy_secret_id role_name accessor)
  | OpCreateK8sRole role => done_ (my_create_k8s_role role)
  | OpGetK8sRole name => answers AnsK8sRole (my_get_k8s_role name)
  | OpDeleteK8sRole name => done_ (my_delete_k8s_role name)
  | OpListK8sRoleNames => answers AnsNames my_list_k8s_role_names
  end.

(** ** What the two backends are compared on *)
Definition text_fits (s : string) : Prop := text_column s = Ok s.
Definition json_fits {A} `{Serde A} (a : A) : Prop := ∀ t, to_json a = Ok t → text_fits t.
Definition token_short (h : string) : Prop := String.length h ≤ 64.
Definition realm_fits (realm : Realm) : Prop :=
  (0 ≤ realm_session_max_age_seconds realm ∧ 0 ≤ realm_session_max_stale_age_seconds realm ∧
   0 ≤ realm_certificate_max_age_seconds realm)%Z.
Definition userpass_fits (u : UserPass) : Prop :=
  utf8_valid (up_password_hash u) = true ∧ text_fits (up_password_hash u) ∧
  json_fits (up_roles u) ∧ (∀ c, up_extra_claims u = Some c → json_fits c).
Definition opt_all {A} (Q : A → Prop) (o : option A) : Prop := ∀ a, o = Some a → Q a.

Definition admin_fits (a : Admin) : Prop :=
  opt_all (λ s, varchar 4096 s = Ok s) (adm_totp_secret a) ∧ opt_all text_fits (adm_totp_auth_url a).

(** The names of an operation, in [names]. *)
Definition db_op_names (op : DbOp) : list string :=
  match op with
  | OpInit _ => [ADMIN_REALM; APP_REALM_ADMIN_USERNAME]
  | OpCreateRealm realm | OpUpdateRealm realm => [realm_id realm]
  | OpGetRealm id | OpDeleteRealm id | OpGetAdmin id | OpDeleteAdmin id => [id]
  | OpCreateUserpass u | OpUpdateUserpass u => [up_realm u; up_username u]
  | OpGetUserpass r u | OpUpdateUserpassMetadata r u _ _ | OpDeleteUserpass r u
  | OpValidateUserpass r u _ => [r; u]
  | OpDeleteUserpassByUsername u => [u]
  | OpListUserpassByRealm r => [r]
  | OpCreateAdmin a | OpUpdateAdmin a =>
      adm_id a :: option_list (adm_userpass a) ++ option_list (adm_jwt a) ++ option_list (adm_fido2 a)
        ++ option_list (adm_client_certificate a) ++ adm_realms a
  | OpFindAdmins _ v => [v]
  | OpEnableTotp _ u _ _ | OpDisableTotp _ u | OpGetTotpSecret _ u | OpIsTotpEnabled _ u => [u]
  | OpCreateApprole r => [role_name r; role_role_id r]
  | OpGetApproleByRoleId n | OpGetApproleByName n | OpDeleteApprole n => [n]
  | OpCreateSecretId s => [sid_accessor s; sid_role_name s]
  | OpConsumeSecretId _ r _ => [r]
  | OpDestroySecretId r a => [a; r]
  | OpCreateK8sRole r => [k8s_name r]
  | OpGetK8sRole n | OpDeleteK8sRole n => [n]
  | _ => []
  end.
(** The other conditions: values that fit their columns, realm ids both CHECK constraints judge
    alike, no search by digital credentials, role ids not taken under another name, no two usable
    secret ids with one hash, clocks and lease durations whose sum fits and which a server that
    counts changed rows only can tell from the expiry. *)
Definition my_op_ok (d : Database) (op : DbOp) : Prop :=
  match op with
  | OpInit salt =>
      realm_id_glob ADMIN_REALM = my_regexp "^[a-zA-Z0-9_-]+$" ADMIN_REALM ∧
      json_fits ([] : list string) ∧
      (∀ h, hash_password_with_argon2 salt APP_REALM_ADMIN_INITIAL_PASSWORD = Ok h → text_fits h)
  | OpCreateRealm realm =>
      realm_id_glob (realm_id realm) = my_regexp "^[a-zA-Z0-9_-]+$" (realm_id realm) ∧
      realm_fits realm
  | OpUpdateRealm realm => realm_fits realm
  | OpCreateUserpass u | OpUpdateUserpass u => userpass_fits u
  | OpUpdateUserpassMetadata _ _ _ roles => json_fits roles
  | OpCreateAdmin a | OpUpdateAdmin a =>
      admin_fits a
  | OpFindAdmins auth_method _ => auth_method ≠ DigitalCredentials
  | OpEnableTotp _ u s issuer =>
      varchar 4096 s = Ok s ∧
      ∀ t, from_secret s (Some issuer) u None = Ok t → text_fits (totp_get_url t)
  | OpIssueAppToken t =>
      token_short (tok_token_hash t) ∧ text_fits (tok_token_hash t) ∧ text_fits (tok_entity t) ∧
      text_fits (to_json_or_empty (tok_policies t)) ∧
      in_i64 (tok_expiry t) ∧ (0 ≤ tok_lease_duration_secs t < half_range)%Z
  | OpLookupAppToken _ h | OpRevokeAppToken h => token_short h
  | OpRenewAppToken now h =>
      token_short h ∧ (0 ≤ now < half_range)%Z ∧
      (my_found_rows = true ∨ ∀ row, db_app_tokens d !! h = Some row →
         tr_expiry row ≠ (now + tr_lease_duration_secs row)%Z)
  | OpCreateApprole r =>
      text_fits (to_json_or_empty (role_token_policies r)) ∧
      ∀ n row, db_approle_roles d !! n = Some row → or_role_id row = role_role_id r → n = role_name r
  | OpCreateSecretId s =>
      varchar 36 (sid_accessor s) = Ok (sid_accessor s) ∧ text_fits (sid_secret_id_hash s)
  | OpConsumeSecretId now r h =>
      ∀ a1 a2 row1 row2, db_app_secret_ids d !! a1 = Some row1 → db_app_secret_ids d !! a2 = Some row2 →
        usable_secret_id r h now row1 → usable_secret_id r h now row2 → a1 = a2
  | OpCreateK8sRole r =>
      text_fits (k8s_jwks_url r) ∧ text_fits (k8s_bound_sa_names r) ∧
      text_fits (k8s_bound_sa_namespaces r) ∧ opt_all text_fits (k8s_expected_issuer r) ∧
      text_fits (k8s_bound_audiences r)
  | _ => True
  end.
(** Along the run on SQLite. *)
Fixpoint my_ops_ok (names : string → Prop) (ops : list DbOp) (d : Database) : Prop :=
  match ops with
  | [] => True
  | op :: ops' =>
      Forall names (db_op_names op) ∧ my_op_ok d op ∧ my_ops_ok names ops' (sqlite_op op d).2
  end.
End operations.

(** * The relation *)
Section relation.
Context {L : DbLibs} {MY : MySql} {SV : MyServer} (names : string → Prop).

Definition pair_names (k : string * string) : Prop := names k.1 ∧ names k.2.
Definition realm_row_ok (row : RealmRow) : Prop :=
  (∃ a : RealmAuthParams, to_json a = Ok (rr_auth_params row)) ∧
  (0 ≤ rr_cookie_max_age_seconds row ∧ 0 ≤ rr_max_stale_age_seconds row ∧
   0 ≤ rr_certificate_max_age_seconds row)%Z.
Definition admin_row_ok (row : AdminRow) : Prop :=
  opt_all names (ar_userpass row) ∧ opt_all names (ar_jwt row) ∧ opt_all names (ar_fido2 row) ∧
  opt_all names (ar_certificate row) ∧
  opt_all (λ t, ∃ c : gmap string string, to_json c = Ok t) (ar_digital_credentials row).

Record my_sim (m : MyDatabase) (d : Database) : Prop := {
  ms_realm : keyed collation_key names (my_realm m) (db_realm d);
  ms_realm_ok : map_Forall (λ _, realm_row_ok) (db_realm d);
  ms_userpass : keyed pair_key pair_names (my_userpass m) (db_userpass d);
  ms_userpass_ok : map_Forall (λ _, userpass_row_wf) (db_userpass d);
  ms_admin : keyed collation_key names (my_admin m) (db_admin d);
  ms_admin_ok : map_Forall (λ _, admin_row_ok) (db_admin d);
  ms_admin_realms :
    keyed pair_key pair_names (my_admin_realms m) (gset_to_gmap () (db_admin_realms d));
  ms_app_tokens : keyed token_key token_short (my_app_tokens m) (db_app_tokens d);
  ms_token_fits : map_Forall (λ _, token_fits) (db_app_tokens d);
  ms_approle_roles : keyed collation_key names (my_approle_roles m) (db_approle_roles d);
  ms_role_ids : map_Forall (λ n row, names (or_role_id row) ∧
    ∀ n' row', db_approle_roles d !! n' = Some row' → or_role_id row' = or_role_id row → n' = n)
    (db_approle_roles d);
  ms_app_secret_ids : keyed collation_key names (my_app_secret_ids m) (db_app_secret_ids d);
  ms_secret_ok : map_Forall (λ _ row, names (sr_role_name row)) (db_app_secret_ids d);
  (** the table is there where the server takes its statement, and only there *)
  ms_k8s_roles :
    match my_k8s_roles m with
    | Some table => my_text_default = true ∧ keyed collation_key names table (db_k8s_roles d)
    | None => my_text_default = false
    end;
}.
Lemma my_sim_schema : my_sim my_schema empty_database.
Proof.
  split; cbn; rewrite ?gset_to_gmap_empty; try solve [apply keyed_empty|apply map_Forall_empty].
  destruct my_text_default; [|done]. split; [done|apply keyed_empty].
Qed.
End relation.

(** * Tables, one update at a time *)
Section updates.
Context {L : DbLibs} {MY : MySql} {SV : MyServer} (names : string → Prop).
Implicit Types (m : MyDatabase) (d : Database).
Abbreviation sim := (my_sim names).

Ltac my_split := intros []; split; cbn; done.
Lemma my_set_realm f g m d :
  keyed collation_key names (f (my_realm m)) (g (db_realm d)) →
  map_Forall (λ _, realm_row_ok) (g (db_realm d)) →
  sim m d → sim (set_my_realm f m) (set_realm g d).
Proof. intros ? ?. my_split. Qed.
Lemma my_set_userpass f g m d :
  keyed pair_key (pair_names names) (f (my_userpass m)) (g (db_userpass d)) →
  map_Forall (λ _, userpass_row_wf) (g (db_userpass d)) →
  sim m d → sim (set_my_userpass f m) (set_userpass g d).
Proof. intros ? ?. my_split. Qed.
Lemma my_set_admin f g m d :
  keyed collation_key names (f (my_admin m)) (g (db_admin d)) →
  map_Forall (λ _, admin_row_ok names) (g (db_admin d)) →
  sim m d → sim (set_my_admin f m) (set_admin g d).
Proof. intros ? ?. my_split. Qed.
Lemma my_set_admin_realms f g m d :
  keyed pair_key (pair_names names) (f (my_admin_realms m)) (gset_to_gmap () (g (db_admin_realms d))) →
  sim m d → sim (set_my_admin_realms f m) (set_admin_realms g d).
Proof. intros ?. my_split. Qed.
Lemma my_set_app_tokens f g m d :
  keyed token_key token_short (f (my_app_tokens m)) (g (db_app_tokens d)) →
  map_Forall (λ _, token_fits) (g (db_app_tokens d)) →
  sim m d → sim (set_my_app_tokens f m) (set_app_tokens g d).
Proof. intros ? ?. my_split. Qed.
Lemma my_set_roles f g m d :
  keyed collation_key names (f (my_approle_roles m)) (g (db_approle_roles d)) →
  map_Forall (λ n row, names (or_role_id row) ∧
    ∀ n' row', g (db_approle_roles d) !! n' = Some row' → or_role_id row' = or_role_id row → n' = n)
    (g (db_approle_roles d)) →
  sim m d → sim (set_my_approle_roles f m) (set_approle_roles g d).
Proof. intros ? ?. my_split. Qed.
Lemma my_set_secret_ids f g m d :
  keyed collation_key names (f (my_app_secret_ids m)) (g (db_app_secret_ids d)) →
  map_Forall (λ _ row, names (sr_role_name row)) (g (db_app_secret_ids d)) →
  sim m d → sim (set_my_app_secret_ids f m) (set_app_secret_ids g d).
Proof. intros ? ?. my_split. Qed.
Lemma my_set_k8s_roles table g m d :
  my_text_default = true → keyed collation_key names table (g (db_k8s_roles d)) →
  sim m d → sim (set_my_k8s_roles (λ _, Some table) m) (set_k8s_roles g d).
Proof. intros ? ?. my_split. Qed.
(** Without the table, the rows of SQLite are those of nothing. *)
Lemma my_no_k8s_roles g m d :
  my_text_default = false → sim m d → sim m (set_k8s_roles g d).
Proof.
  intros Hd []. split; cbn; try done. destruct (my_k8s_roles m); [|done]. naive_solver congruence.
Qed.
End updates.

(** * Keys *)
Section keys.
Context {MY : MySql} (names : string → Prop) {NM : MyNames names}.

Lemma pair_names_apart a b :
  pair_names names a → pair_names names b → pair_key a = pair_key b → a = b.
Proof.
  destruct a as [a1 a2], b as [b1 b2]. intros [Ha1 Ha2] [Hb1 Hb2] [= H1 H2].
  f_equal; by apply (names_apart (names := names)).
Qed.
Lemma token_key_short h : token_short h → token_key h = h.
Proof.
  unfold token_short, token_key. generalize 64. induction h as [|a h IH]; intros [|n] Hn; simpl in *; try done; [lia|].
  by rewrite IH by lia.
Qed.
Lemma token_apart a b : token_short a → token_short b → token_key a = token_key b → a = b.
Proof. intros Ha Hb. by rewrite !token_key_short. Qed.
Lemma same_text_names a b : names a → names b → (same_text a b ↔ a = b).
Proof. intros Ha Hb. split; [by apply names_apart|by intros ->]. Qed.
End keys.

(** * Statements *)
Section statements.
Context {L : DbLibs} {MY : MySql} {SV : MyServer} (names : string → Prop).
Abbreviation sim := (simulates (E := AuthDbError) (my_sim names)).

Lemma sim_my_insert {R} columns (row : R) check unique fk f (c' u' k' : Database → bool) g
    (e : SqlxError → AuthDbError) :
  columns = Ok row →
  (∀ m d, my_sim names m d → check row = c' d ∧ unique row m = u' d ∧ fk row m = k' d ∧
    (u' d = true → k' d = true → my_sim names (f row m) (g d))) →
  sim eq (with_err e (my_insert columns check unique fk f)) (with_err e (sql_insert c' u' k' g)).
Proof.
  intros -> H. apply sim_with_err. intros m d Hs. destruct (H m d Hs) as (Hc & Hu & Hk & Hf).
  unfold my_insert, sql_insert. rewrite Hc, Hu, Hk. destruct (c' d), (u' d), (k' d); simpl; auto.
Qed.
(** An [UPDATE] whose values fit is the update of the row by a function. *)
Lemma my_update_run {K V} `{Countable K} k (table : MyDatabase → gmap K (K * V)) set assign f m :
  (∀ g g' m, g (table m) = g' (table m) → set g m = set g' m) → (∀ m, set id m = m) →
  (∀ name v, table m !! k = Some (name, v) → assign v = Ok (f v)) →
  my_update k table set assign m = (Ok (), set (alter (λ r, (r.1, f r.2)) k) m).
Proof.
  intros Hset Hid Hassign. unfold my_update, bind, gets, of_result, modify, ret.
  destruct (table m !! k) as [[name v]|] eqn:Hrow.
  - rewrite (Hassign name v eq_refl). f_equal. apply Hset. by rewrite (alter_found _ _ _ _ Hrow).
  - f_equal. rewrite <-(Hid m) at 1. apply Hset. by rewrite alter_absent.
Qed.
Lemma sim_my_update {K V} `{Countable K} k (table : MyDatabase → gmap K (K * V)) set assign f g :
  (∀ g g' m, g (table m) = g' (table m) → set g m = set g' m) → (∀ m, set id m = m) →
  (∀ m d name v, my_sim names m d → table m !! k = Some (name, v) → assign v = Ok (f v)) →
  (∀ m d, my_sim names m d → my_sim names (set (alter (λ r, (r.1, f r.2)) k) m) (g d)) →
  sim eq (my_sql (my_update k table set assign)) (modify g).
Proof.
  intros Hset Hid Hassign Hg m d Hs. unfold my_sql, with_err.
  rewrite (my_update_run k table set assign f m) by eauto. split; [done|by apply Hg].
Qed.
End statements.

(** * Columns and rows *)

(** What a read may answer besides: an error of the driver, which could not decode a column. *)
Definition driver_error `{SV : MyServer} (e : SqlxError) : Prop :=
  (∃ c t, my_json_string c t = Err e) ∨ (∃ c z, my_unsigned_i64 c z = Err e).
Definition up_to_driver `{SV : MyServer} {A B} (Q : A → B → Prop)
    (r1 : Result A AuthDbError) (r2 : Result B AuthDbError) : Prop :=
  result_rel Q r1 r2 ∨ ∃ e, r1 = Err (DbSql e) ∧ driver_error e.

(** The same administrator, up to the order of its realms. *)
Definition same_admin (a b : Admin) : Prop :=
  adm_realms a ≡ₚ adm_realms b ∧
  mkAdmin (adm_id a) [] (adm_userpass a) (adm_jwt a) (adm_fido2 a) (adm_digital_credentials a)
    (adm_client_certificate a) (adm_totp_enabled a) (adm_totp_secret a) (adm_totp_auth_url a) =
  mkAdmin (adm_id b) [] (adm_userpass b) (adm_jwt b) (adm_fido2 b) (adm_digital_credentials b)
    (adm_client_certificate b) (adm_totp_enabled b) (adm_totp_secret b) (adm_totp_auth_url b).

Section rows.
Context {L : DbLibs} {MY : MySql} {SV : MyServer} {LAWS : MyLaws} (names : string → Prop)
  {NM : MyNames names}.

Lemma opt_column_fits (Q : string → Prop) f o :
  (∀ s, Q s → f s = Ok s) → opt_all Q o → opt_column f o = Ok o.
Proof. intros Hf Ho. destruct o as [s|]; [|done]. unfold opt_column. simpl. by rewrite (Hf s) by by apply Ho. Qed.
Lemma unsigned_column_fits z : (0 ≤ z)%Z → unsigned_column z = Ok z.
Proof. intros Hz. unfold unsigned_column. by rewrite decide_True. Qed.
Lemma json_column_valid t : my_json_valid t = true → json_column t = Ok t.
Proof. intros Ht. unfold json_column. by rewrite Ht. Qed.

Lemma my_realm_row_fits realm t :
  serialize_auth_params realm = Ok t → realm_fits realm →
  let row := mkRealmRow t (realm_session_max_age_seconds realm)
    (realm_session_max_stale_age_seconds realm) (realm_certificate_max_age_seconds realm) in
  my_realm_row realm t = Ok row ∧ realm_row_ok row.
Proof.
  intros Ht%map_err_ok (H1 & H2 & H3). destruct (law_auth_params_json _ _ Ht) as [Hv _].
  unfold my_realm_row. rewrite json_column_valid, !unsigned_column_fits by done.
  split; [done|]. split; [by exists (realm_auth_params realm)|done].
Qed.
Lemma my_userpass_row_fits u roles claims :
  serialize_roles (up_roles u) = Ok roles → serialize_extra_claims (up_extra_claims u) = Ok claims →
  userpass_fits u →
  let row := mkUserpassRow (up_password_hash u) (up_change_password u) roles claims in
  my_userpass_row (up_password_hash u) (up_change_password u) roles claims = Ok row ∧
  userpass_row_wf row.
Proof.
  intros Hr Hc (Hutf & Hp & Hrf & Hcf). unfold my_userpass_row. rewrite Hp. simpl.
  rewrite (Hrf roles) by by apply map_err_ok in Hr. simpl.
  rewrite (opt_column_fits text_fits); [|done|].
  - split; [done|]. split; simpl; [by eapply serialize_roles_decodes| |done].
    intros t. by eapply serialize_extra_claims_decodes.
  - intros t ->. unfold serialize_extra_claims in Hc. destruct (up_extra_claims u) as [c|]; [|done].
    simpl in Hc. destruct (to_json c) as [t'|] eqn:Ht; [|done]. simpl in Hc. injection Hc as ->.
    by apply (Hcf c eq_refl).
Qed.
Lemma opt_names_column o : opt_all names o →
  opt_column (varchar 255) o = Ok o ∧ opt_column text_column o = Ok o.
Proof.
  intros Ho. split; apply (opt_column_fits names); try done; intros s; [by apply names_varchar|by apply names_text].
Qed.
Lemma serialize_digital_credentials_json a t :
  serialize_digital_credentials a = Ok t → opt_all (λ t, ∃ c : gmap string string, to_json c = Ok t) t.
Proof.
  unfold serialize_digital_credentials. intros H s ->.
  destruct (adm_digital_credentials a) as [c|]; simpl in H; [|done]. exists c.
  destruct (to_json c) as [t'|]; simpl in H; [|done]. by injection H as ->.
Qed.
Lemma my_admin_row_fits a t :
  serialize_digital_credentials a = Ok t → admin_fits a →
  opt_all names (adm_userpass a) → opt_all names (adm_jwt a) → opt_all names (adm_fido2 a) →
  opt_all names (adm_client_certificate a) →
  my_admin_row a t = Ok (admin_row a t) ∧ admin_row_ok names (admin_row a t).
Proof.
  intros Ht%serialize_digital_credentials_json [Hs Hu] H1 H2 H3 H4. unfold my_admin_row.
  rewrite (proj1 (opt_names_column _ H1)), (proj2 (opt_names_column _ H2)),
    (proj2 (opt_names_column _ H3)), (proj2 (opt_names_column _ H4)).
  cbn [and_then]. rewrite (opt_column_fits (λ t, ∃ c : gmap string string, to_json c = Ok t) json_column t); [| |exact Ht].
  - cbn [and_then]. rewrite (opt_column_fits _ (varchar 4096) _ (λ s H, H) Hs). cbn [and_then].
    rewrite (opt_column_fits text_fits text_column _ (λ s H, H) Hu). done.
  - intros s [c Hc]. apply json_column_valid. by apply (law_string_map_json c).
Qed.

(** Rows are read as on SQLite, or not at all. *)
Lemma my_realm_rows id row :
  realm_row_ok row →
  up_to_driver eq (my_row_to_realm (id, row)) (row_to_realm (id, row)) ∧
  is_ok (row_to_realm (id, row)) = true.
Proof.
  intros [[a Ha] _]. destruct (law_auth_params_json _ _ Ha) as [_ Htext].
  destruct (serde_roundtrip a) as (t & Ht & Hback). rewrite Ha in Ht. injection Ht as <-.
  unfold my_row_to_realm, row_to_realm. rewrite Hback. split; [|done].
  destruct (my_json_string _ _) as [t|e] eqn:Hs; [|right; exists e; split; [done|left; eauto]].
  apply law_json_string in Hs as ->. simpl. rewrite Htext. simpl.
  repeat match goal with
  | |- context [col (my_unsigned_i64 ?c ?z)] =>
      let Hz := fresh in destruct (my_unsigned_i64 c z) eqn:Hz; simpl;
      [apply law_unsigned in Hz as ->|right; eexists; split; [done|right; eauto]]
  end.
  by left.
Qed.
Lemma my_admin_rows id realms realms' row :
  admin_row_ok names row → realms ≡ₚ realms' →
  up_to_driver same_admin (my_row_to_admin id realms row) (row_to_admin id realms' row) ∧
  is_ok (row_to_admin id realms' row) = true.
Proof.
  intros (_ & _ & _ & _ & Hdc) Hrealms. unfold my_row_to_admin, row_to_admin.
  destruct (ar_digital_credentials row) as [t|]; [|by split; [left|]].
  destruct (Hdc t eq_refl) as [c Hc]. destruct (law_string_map_json _ _ Hc) as [_ Htext].
  destruct (serde_roundtrip c) as (t' & Ht' & Hback). rewrite Hc in Ht'. injection Ht' as <-.
  simpl. rewrite Hback. simpl. split; [|done].
  destruct (my_json_string _ _) as [t'|e] eqn:Hs; [|right; exists e; split; [done|left; eauto]].
  apply law_json_string in Hs as ->. simpl. rewrite Htext. by left.
Qed.
End rows.

(** ** Rows in two orders *)
Section orders.
Context {SV : MyServer}.
Lemma try_map_up_to {A B C} (Q : B → C → Prop) (f1 : A → Result B AuthDbError) f2 l :
  (∀ x, x ∈ l → up_to_driver Q (f1 x) (f2 x) ∧ is_ok (f2 x) = true) →
  up_to_driver (Forall2 Q) (try_map f1 l) (try_map f2 l).
Proof.
  induction l as [|x l IH]; intros Hl; [by left; constructor|].
  destruct (Hl x ltac:(by left)) as [Hx Hok]. simpl. destruct (f2 x) as [c|]; [|done].
  destruct Hx as [Hx|(e & -> & He)]; [|right; by exists e].
  destruct (f1 x) as [b|]; [|done]. simpl.
  destruct IH as [IH|(e & -> & He)]; [by intros y Hy; apply Hl; right| |right; by exists e].
  left. destruct (try_map f1 l), (try_map f2 l); try done. by constructor.
Qed.
(** Both lists hold the rows of [l]. *)
Lemma decode_up_to {A B C} (Q : B → C → Prop) (f1 : A → Result B AuthDbError) f2 l l1 l2 :
  (∀ x, x ∈ l → up_to_driver Q (f1 x) (f2 x) ∧ is_ok (f2 x) = true) → l1 ≡ₚ l → l2 ≡ₚ l →
  up_to_driver (λ r1 r2, ∃ r, r ≡ₚ r2 ∧ Forall2 Q r1 r) (try_map f1 l1) (try_map f2 l2).
Proof.
  intros Hl H1 H2. destruct (try_map_up_to Q f1 f2 l1) as [Hr|Hr]; [|left|by right].
  - intros x Hx. apply Hl. by rewrite <-H1.
  - destruct (try_map_is_ok f2 l1) as [r Hok].
    { intros x Hx. apply Hl. by rewrite <-H1. }
    rewrite Hok in Hr. destruct (try_map f1 l1) as [r1|]; [|done]. simpl in Hr.
    destruct (try_map_perm f2 l1 l2 r) as (r2 & -> & Hp); [by rewrite H1, H2|done|].
    simpl. by exists r.
Qed.
Lemma up_to_driver_impl {A B} (Q Q' : A → B → Prop) (r1 : Result A AuthDbError) (r2 : Result B AuthDbError) :
  up_to_driver Q r1 r2 → (∀ a b, Q a b → Q' a b) → up_to_driver Q' r1 r2.
Proof. intros [H|H] HQ; [left; by eapply result_rel_impl|by right]. Qed.
End orders.
