(* ===== verification/MyDatabaseFacts.v ===== *)
(** Every operation of the credential store on MySQL beside the same operation on SQLite ([MySim.v]
    holds the relation): it keeps the relation and answers the same, as far as the driver decodes
    its columns. *)
From S2P Require Import Prelude RustStd Models Passwords Totp Database DatabaseFacts SqlServers Simulation Keyed DbOps MyDatabase MySim.

(** * Every operation *)
Section simulation.
Context {L : DbLibs} {MY : MySql} {SV : MyServer} {LAWS : MyLaws} (names : string → Prop)
  {NM : MyNames names}.
Abbreviation sim := (simulates (E := AuthDbError) (my_sim names)).
Implicit Types (m : MyDatabase) (d : Database).
Let apart := names_apart (names := names).
Let apart2 := pair_names_apart names.

Lemma my_order_by_rows {K V} `{Countable K} key (m : gmap K (K * V)) (d : gmap K V) k P :
  keyed k P m d → my_order_by key (my_rows m) ≡ₚ map_to_list d.
Proof. intros Hm. unfold my_order_by. rewrite order_by_perm. by apply (keyed_rows k P). Qed.

(** ** Realms *)
Lemma my_sim_create_realm realm :
  names (realm_id realm) →
  realm_id_glob (realm_id realm) = my_regexp "^[a-zA-Z0-9_-]+$" (realm_id realm) →
  realm_fits realm → sim eq (my_create_realm realm) (create_realm realm).
Proof.
  intros Hn Hid Hf. apply sim_pure. intros t Ht.
  destruct (my_realm_row_fits realm t Ht Hf) as [Hrow Hok].
  eapply sim_my_insert; [by rewrite names_varchar, Hrow|]. intros m d Hs. simpl. split_and!; [done| |done|].
  - apply bool_decide_ext. by eapply keyed_none, Hn; [apply apart|apply ms_realm].
  - intros _ _. apply my_set_realm; [| |done].
    + by apply keyed_insert; [apply apart|apply ms_realm|].
    + apply map_Forall_insert_2; [done|]. by eapply ms_realm_ok.
Qed.
Lemma my_sim_get_realm id m d : names id → my_sim names m d →
  up_to_driver eq (my_get_realm id m).1 (get_realm id d).1.
Proof.
  intros Hn Hs. unfold my_get_realm, get_realm, bind, gets, of_result. cbn [fst].
  rewrite (keyed_lookup _ _ apart _ _ id (ms_realm _ _ _ Hs) Hn).
  destruct (db_realm d !! id) as [row|] eqn:Hrow; [|by left].
  destruct (my_realm_rows id row) as [[Hr|(e & He & Hd)] Hok]; [by eapply (ms_realm_ok _ _ _ Hs)|..].
  - left. apply result_rel_eq in Hr. cbn [fmap option_fmap option_map]. rewrite Hr.
    by apply result_rel_refl.
  - right. exists e. cbn [fmap option_fmap option_map]. by rewrite He.
Qed.
Lemma my_sim_update_realm realm :
  names (realm_id realm) → realm_fits realm → sim eq (my_update_realm realm) (update_realm realm).
Proof.
  intros Hn Hf. apply sim_pure. intros t Ht.
  destruct (my_realm_row_fits realm t Ht Hf) as [Hrow Hok].
  eapply (sim_my_update names _ my_realm); [|by intros []|by intros; apply Hrow|].
  - intros g g' m Hg. unfold set_my_realm. by rewrite Hg.
  - intros m d Hs. apply my_set_realm; [| |done].
    + by apply keyed_alter; [apply apart|apply ms_realm|].
    + intros i row. rewrite lookup_alter_Some. intros [(<- & y & Hy & ->)|[_ Hi]]; [done|].
      by eapply (ms_realm_ok _ _ _ Hs).
Qed.
Lemma set_filter_gmap {A} `{Countable A} (Q : A → Prop) `{!∀ x, Decision (Q x)} (X : gset A) :
  gset_to_gmap () (filter Q X) = filter (λ kv, Q kv.1) (gset_to_gmap () X).
Proof.
  apply map_eq. intros i. apply option_eq. intros [].
  rewrite map_lookup_filter_Some, !lookup_gset_to_gmap_Some. set_solver.
Qed.
Lemma my_filter_admin_realms (F1 : (string * string) * ((string * string) * ()) → Prop)
    (F2 : string * string → Prop) `{!∀ x, Decision (F1 x), !∀ x, Decision (F2 x)} m d :
  (∀ k v, pair_names names k → F1 (pair_key k, (k, v)) ↔ F2 k) → my_sim names m d →
  my_sim names (set_my_admin_realms (filter F1) m) (set_admin_realms (filter F2) d).
Proof.
  intros HF Hs. apply my_set_admin_realms; [|done]. rewrite set_filter_gmap.
  apply keyed_filter; [apply ms_admin_realms, Hs|]. intros k v _ Hk. by apply HF.
Qed.
Lemma names_differ a b : names a → names b → (collation_key a ≠ collation_key b ↔ a ≠ b).
Proof. intros Ha Hb. split; [by intros H ->|]. intros H Heq. by apply H, apart. Qed.
Lemma my_sim_delete_realm id : names id → sim eq (my_delete_realm id) (delete_realm id).
Proof.
  intros Hn. apply sim_modify. intros m d Hs. cbv zeta.
  apply (my_filter_admin_realms _ (λ ar, ar.2 ≠ id)); [by intros k v [_ Hk]; apply names_differ|].
  apply my_set_userpass; cbn.
  - apply keyed_filter; [apply ms_userpass, Hs|]. intros k v _ [Hk _]. by apply names_differ.
  - apply userpass_filter. by eapply ms_userpass_ok.
  - apply my_set_realm; [| |done].
    + by apply keyed_delete; [apply apart|apply ms_realm|].
    + apply map_Forall_delete. by eapply ms_realm_ok.
Qed.
Lemma Forall2_eq {A} (l l' : list A) : Forall2 eq l l' → l = l'.
Proof. induction 1; congruence. Qed.
Lemma my_sim_list_realms m d : my_sim names m d →
  up_to_driver (≡ₚ) (my_list_realms m).1 (list_realms d).1.
Proof.
  intros Hs. unfold my_list_realms, list_realms, bind, gets, of_result. cbn [fst].
  eapply up_to_driver_impl.
  - eapply (decode_up_to eq); [|by eapply my_order_by_rows, ms_realm|apply order_by_perm].
    intros [i row] Hin%elem_of_map_to_list. apply my_realm_rows. by eapply (ms_realm_ok _ _ _ Hs).
  - intros r1 r2 (r & Hr & ->%Forall2_eq). done.
Qed.

(** ** Username/password entries *)
Lemma my_sim_create_userpass u :
  names (up_realm u) → names (up_username u) → userpass_fits u →
  sim eq (my_create_userpass u) (create_userpass u).
Proof.
  intros Hr Hu Hf. apply sim_pure. intros roles Hroles. apply sim_pure. intros claims Hclaims.
  destruct (my_userpass_row_fits u roles claims Hroles Hclaims Hf) as [Hrow Hok].
  eapply sim_my_insert; [by rewrite !names_varchar, Hrow|]. intros m d Hs. simpl. split_and!; [done| | |].
  - apply bool_decide_ext. by eapply (keyed_none pair_key); [apply apart2|apply ms_userpass|].
  - apply bool_decide_ext. by eapply keyed_is_Some, Hr; [apply apart|apply ms_realm].
  - intros _ _. apply my_set_userpass; [| |done].
    + by apply (keyed_insert pair_key); [apply apart2|apply ms_userpass|].
    + apply map_Forall_insert_2; [done|]. by eapply ms_userpass_ok.
Qed.
Lemma my_userpass_lookup r u m d : names r → names u → my_sim names m d →
  my_userpass m !! pair_key (r, u) = pair (r, u) <$> db_userpass d !! (r, u).
Proof. intros Hr Hu Hs. by apply (keyed_lookup pair_key (pair_names names)); [apply apart2|apply ms_userpass|]. Qed.
Lemma my_sim_get_userpass r u :
  names r → names u → sim eq (my_get_userpass r u) (get_userpass r u).
Proof.
  intros Hr Hu. apply sim_gets. intros m d Hs. rewrite (my_userpass_lookup r u m d) by done.
  destruct (db_userpass d !! (r, u)); [|by apply sim_ret]. by apply sim_of_result, result_rel_eq.
Qed.
Lemma my_sim_alter_userpass r u f m d :
  names r → names u → (∀ row, userpass_row_wf row → userpass_row_wf (f row)) → my_sim names m d →
  my_sim names (set_my_userpass (alter (λ r, (r.1, f r.2)) (pair_key (r, u))) m)
    (set_userpass (alter f (r, u)) d).
Proof.
  intros Hr Hu Hf Hs. apply my_set_userpass; [| |done].
  - by apply (keyed_alter pair_key); [apply apart2|apply ms_userpass|].
  - intros k row. rewrite lookup_alter_Some. intros [(<- & y & Hy & ->)|[_ Hi]].
    + apply Hf. by eapply (ms_userpass_ok _ _ _ Hs).
    + by eapply (ms_userpass_ok _ _ _ Hs).
Qed.
Lemma my_sim_update_userpass u :
  names (up_realm u) → names (up_username u) → userpass_fits u →
  sim eq (my_update_userpass u) (update_userpass u).
Proof.
  intros Hr Hu Hf. apply sim_pure. intros roles Hroles. apply sim_pure. intros claims Hclaims.
  destruct (my_userpass_row_fits u roles claims Hroles Hclaims Hf) as [Hrow Hok].
  eapply (sim_my_update names _ my_userpass); [|by intros []|by intros; apply Hrow|].
  - intros g g' m Hg. unfold set_my_userpass. by rewrite Hg.
  - intros m d Hs. by apply my_sim_alter_userpass.
Qed.
Lemma my_sim_update_userpass_metadata r u c roles :
  names r → names u → json_fits roles →
  sim eq (my_update_userpass_metadata r u c roles) (update_userpass_metadata r u c roles).
Proof.
  intros Hr Hu Hf. apply sim_pure. intros t Ht.
  eapply (sim_my_update names _ my_userpass _ _
    (λ row, mkUserpassRow (ur_password row) c t (ur_extra_claims row))); [|by intros []| |].
  - intros g g' m Hg. unfold set_my_userpass. by rewrite Hg.
  - intros m d name v _ _. by rewrite (Hf t) by by apply map_err_ok in Ht.
  - intros m d Hs. apply (my_sim_alter_userpass r u
      (λ row, mkUserpassRow (ur_password row) c t (ur_extra_claims row))); [done..| |done].
    intros row [? ? ?]. split; simpl; [by eapply serialize_roles_decodes|done..].
Qed.
Lemma my_sim_delete_userpass r u :
  names r → names u → sim eq (my_delete_userpass r u) (delete_userpass r u).
Proof.
  intros Hr Hu. apply sim_modify. intros m d Hs. apply my_set_userpass; [| |done].
  - by apply (keyed_delete pair_key); [apply apart2|apply ms_userpass|].
  - apply map_Forall_delete. by eapply ms_userpass_ok.
Qed.
Lemma my_sim_delete_userpass_by_username u :
  names u → sim eq (my_delete_userpass_by_username u) (delete_userpass_by_username u).
Proof.
  intros Hu. apply sim_modify. intros m d Hs. apply my_set_userpass; [| |done].
  - apply keyed_filter; [apply ms_userpass, Hs|]. intros k v _ [_ Hk]. by apply names_differ.
  - apply userpass_filter. by eapply ms_userpass_ok.
Qed.
(** Rows read in two orders. *)
Lemma my_userpass_lists m d l1 l2 :
  my_sim names m d → l1 ≡ₚ l2 → (∀ x, x ∈ l2 → x ∈ map_to_list (db_userpass d)) →
  result_rel (≡ₚ) (try_map row_to_userpass l1) (try_map row_to_userpass l2).
Proof.
  intros Hs Hl Hin. eapply try_map_two_orders; [|..|reflexivity].
  - by apply Forall_Forall2_diag, Forall_true.
  - intros [[r u] row] Hrow%Hin%elem_of_map_to_list. apply row_to_userpass_ok.
    by eapply (ms_userpass_ok _ _ _ Hs).
  - done.
Qed.
Lemma my_sim_list_userpass_by_realm r :
  names r → sim (≡ₚ) (my_list_userpass_by_realm r) (list_userpass_by_realm r).
Proof.
  intros Hr. apply sim_gets. intros m d Hs. apply sim_of_result.
  assert (keyed pair_key (pair_names names)
    (filter (λ kv, kv.1.1 = collation_key r) (my_userpass m))
    (filter (λ kv, kv.1.1 = r) (db_userpass d))) as Hk.
  { apply keyed_filter; [apply ms_userpass, Hs|]. intros k v _ [Hk _]. simpl. by apply (same_text_names names). }
  apply (my_userpass_lists m d); [done| |].
  - rewrite (my_order_by_rows _ _ _ _ _ Hk), order_by_perm. apply filter_rows.
  - intros x. rewrite order_by_perm. by intros [_ Hx]%list_elem_of_filter.
Qed.
Lemma my_sim_list_all_userpass : sim (≡ₚ) my_list_all_userpass list_all_userpass.
Proof.
  apply sim_gets. intros m d Hs. apply sim_of_result. apply (my_userpass_lists m d); [done| |].
  - rewrite !order_by2_perm. eapply keyed_rows, ms_userpass, Hs.
  - intros x. by rewrite order_by2_perm.
Qed.
Lemma my_sim_validate_userpass r u pw :
  names r → names u → sim eq (my_validate_userpass r u pw) (validate_userpass r u pw).
Proof.
  intros Hr Hu. apply sim_gets. intros m d Hs. rewrite (my_userpass_lookup r u m d) by done.
  destruct (db_userpass d !! (r, u)); [|by apply sim_throw]. by apply sim_of_result, result_rel_eq.
Qed.

(** ** Administrators *)
Lemma my_sim_insert_admin_realm a r :
  names a → names r → sim eq (my_sql (my_insert_admin_realm a r)) (sql (insert_admin_realm a r)).
Proof.
  intros Ha Hr. eapply sim_my_insert; [by rewrite !names_varchar|]. intros m d Hs. simpl.
  split_and!; [done| | |].
  - apply bool_decide_ext.
    rewrite (keyed_none pair_key (pair_names names) apart2 _ _ (a, r) (ms_admin_realms _ _ _ Hs)) by done.
    apply lookup_gset_to_gmap_None.
  - f_equal; apply bool_decide_ext.
    + by eapply keyed_is_Some, Ha; [apply apart|apply ms_admin].
    + by eapply keyed_is_Some, Hr; [apply apart|apply ms_realm].
  - intros _ _. apply my_set_admin_realms; [|done]. rewrite gset_to_gmap_union_singleton.
    by apply (keyed_insert pair_key); [apply apart2|apply ms_admin_realms|].
Qed.
Lemma my_sim_insert_admin_realms a realms :
  names a → Forall names realms →
  sim eq (for_each (λ r, my_sql (my_insert_admin_realm a r)) realms)
         (for_each (λ r, sql (insert_admin_realm a r)) realms).
Proof.
  intros Ha Hr. apply sim_for_each. intros r Hin. apply my_sim_insert_admin_realm; [done|].
  by apply (proj1 (Forall_forall names realms) Hr).
Qed.
(** The names of an administrator. *)
Definition admin_names (a : Admin) : Prop :=
  names (adm_id a) ∧ opt_all names (adm_userpass a) ∧ opt_all names (adm_jwt a) ∧
  opt_all names (adm_fido2 a) ∧ opt_all names (adm_client_certificate a) ∧ Forall names (adm_realms a).
Lemma my_sim_create_admin a :
  admin_names a → admin_fits a → sim eq (my_create_admin a) (create_admin a).
Proof.
  intros (Hid & H1 & H2 & H3 & H4 & Hr) Hf. apply sim_pure. intros t Ht.
  destruct (my_admin_row_fits names a t Ht Hf H1 H2 H3 H4) as [Hrow Hok].
  eapply sim_bind; [|intros _ _ _; by apply my_sim_insert_admin_realms].
  eapply sim_my_insert; [by rewrite names_varchar, Hrow|]. intros m d Hs. simpl.
  split_and!; [done| |done|].
  - apply bool_decide_ext. by eapply keyed_none, Hid; [apply apart|apply ms_admin].
  - intros _ _. apply my_set_admin; [| |done].
    + by apply keyed_insert; [apply apart|apply ms_admin|].
    + apply map_Forall_insert_2; [done|]. by eapply ms_admin_ok.
Qed.
Lemma my_sim_alter_admin id f m d :
  names id → (∀ row, admin_row_ok names row → admin_row_ok names (f row)) → my_sim names m d →
  my_sim names (set_my_admin (alter (λ r, (r.1, f r.2)) (collation_key id)) m)
    (set_admin (alter f id) d).
Proof.
  intros Hid Hf Hs. apply my_set_admin; [| |done].
  - by apply keyed_alter; [apply apart|apply ms_admin|].
  - intros i row. rewrite lookup_alter_Some. intros [(<- & y & Hy & ->)|[_ Hi]].
    + apply Hf. by eapply (ms_admin_ok _ _ _ Hs).
    + by eapply (ms_admin_ok _ _ _ Hs).
Qed.
Lemma set_my_admin_table g g' m : g (my_admin m) = g' (my_admin m) → set_my_admin g m = set_my_admin g' m.
Proof. intros Hg. unfold set_my_admin. by rewrite Hg. Qed.
Lemma my_sim_update_admin a :
  admin_names a → admin_fits a → sim eq (my_update_admin a) (update_admin a).
Proof.
  intros (Hid & H1 & H2 & H3 & H4 & Hr) Hf. apply sim_pure. intros t Ht.
  destruct (my_admin_row_fits names a t Ht Hf H1 H2 H3 H4) as [Hrow Hok].
  eapply sim_bind; [|intros _ _ _; eapply sim_bind; [|intros _ _ _; by apply my_sim_insert_admin_realms]].
  - eapply (sim_my_update names _ my_admin); [intros; by apply set_my_admin_table|by intros []|
      by intros; apply Hrow|]. intros m d Hs. by apply my_sim_alter_admin.
  - apply sim_modify. intros m d Hs. apply (my_filter_admin_realms _ (λ ar, ar.1 ≠ adm_id a)); [|done].
    intros k v [Hk _]. by apply names_differ.
Qed.
Lemma my_sim_delete_admin id : names id → sim eq (my_delete_admin id) (delete_admin id).
Proof.
  intros Hid. apply sim_modify. intros m d Hs.
  apply (my_filter_admin_realms _ (λ ar, ar.1 ≠ id)); [intros k v [Hk _]; by apply names_differ|].
  apply my_set_admin; [| |done].
  - by apply keyed_delete; [apply apart|apply ms_admin|].
  - apply map_Forall_delete. by eapply ms_admin_ok.
Qed.

Lemma my_realms_of_admin id m d : names id → my_sim names m d →
  my_select_admin_realms id m ≡ₚ select_admin_realms id d.
Proof.
  intros Hid Hs. unfold my_select_admin_realms, select_admin_realms.
  assert (keyed pair_key (pair_names names)
    (filter (λ kv, kv.1.1 = collation_key id) (my_admin_realms m))
    (filter (λ kv, kv.1.1 = id) (gset_to_gmap () (db_admin_realms d)))) as Hk.
  { apply keyed_filter; [apply ms_admin_realms, Hs|]. intros k v _ [Hk _]. simpl.
    by apply (same_text_names names). }
  unfold my_rows. rewrite (keyed_rows _ _ _ _ Hk).
  change (λ r : string * string * (), r.1.2) with (snd ∘ (fst : string * string * () → string * string)).
  rewrite list_fmap_compose. apply fmap_Permutation. apply NoDup_Permutation.
  - apply NoDup_fmap_fst, NoDup_map_to_list. intros ? [] [] _ _. done.
  - apply NoDup_filter, NoDup_elements.
  - intros ar. rewrite list_elem_of_fmap, list_elem_of_filter, elem_of_elements. split.
    + intros ([ar' []] & -> & Hin%elem_of_map_to_list). apply map_lookup_filter_Some in Hin as [Hin ?].
      by apply lookup_gset_to_gmap_Some in Hin as [? _].
    + intros [Ha Hin]. exists (ar, ()). split; [done|]. apply elem_of_map_to_list.
      by apply map_lookup_filter_Some; rewrite lookup_gset_to_gmap_Some.
Qed.
Definition same_admins (l1 l2 : list Admin) : Prop := ∃ l, l ≡ₚ l2 ∧ Forall2 same_admin l1 l.
Lemma my_sim_get_admin id m d : names id → my_sim names m d →
  up_to_driver (option_Forall2 same_admin) (my_get_admin id m).1 (get_admin id d).1 ∧
  (is_Some (db_admin d !! id) → ∃ a, (get_admin id d).1 = Ok (Some a)).
Proof.
  intros Hid Hs. unfold my_get_admin, get_admin, bind, gets, of_result, ret. cbn [fst].
  rewrite (keyed_lookup _ _ apart _ _ id (ms_admin _ _ _ Hs) Hid).
  destruct (db_admin d !! id) as [row|] eqn:Hrow; [|split; [left; constructor|by intros [? ?]]].
  cbn [fmap option_fmap option_map fst].
  destruct (my_admin_rows names id (my_select_admin_realms id m) (select_admin_realms id d) row)
    as [Hr Hok]; [by eapply (ms_admin_ok _ _ _ Hs)|by apply my_realms_of_admin|].
  destruct (row_to_admin _ _ _) as [b|]; [|done]. split; [|intros _; by exists b].
  destruct Hr as [Hr|(e & -> & He)]; [|right; by exists e]. left.
  destruct (my_row_to_admin _ _ _); [|done]. simpl in *. by constructor.
Qed.
Lemma my_sim_list_admins m d : my_sim names m d →
  up_to_driver same_admins (my_list_admins m).1 (list_admins d).1.
Proof.
  intros Hs. unfold my_list_admins, list_admins. rewrite !gets_bind.
  rewrite !map_m_reads by (intros [i row]; solve_reads).
  apply (decode_up_to same_admin) with (l := map_to_list (db_admin d));
    [|by eapply my_order_by_rows, ms_admin|apply order_by_perm].
  intros [i row] Hin%elem_of_map_to_list. unfold bind, gets, of_result. cbn [fst].
  apply (my_admin_rows names); [by eapply (ms_admin_ok _ _ _ Hs)|].
  apply my_realms_of_admin; [|done]. by eapply keyed_names; [apply (ms_admin _ _ _ Hs)|].
Qed.
Lemma my_admin_query_run s v :
  s ≠ DigitalCredentials → s ≠ Saml → names v →
  ∃ sel, my_admin_query s v = Ok sel ∧
    ∀ row, admin_row_ok names row → (sel row = true ↔ admin_column s row = Some v).
Proof.
  intros Hd Hsaml Hv. destruct s; try done; eexists; (split; [done|]);
    intros row (Hu & Hj & Hf & Hc & _); simpl;
    match goal with |- match ?o with _ => _ end = true ↔ _ => destruct o as [c|] eqn:Ho end;
    try (split; [done|by intros [= ]]);
    rewrite bool_decide_eq_true, (same_text_names names) by eauto; naive_solver.
Qed.
Lemma my_selected_admins sel s v m d :
  my_sim names m d →
  (∀ row, admin_row_ok names row → (sel row = true ↔ admin_column s row = Some v)) →
  (filter (λ r, sel r.2 = true) (my_rows (my_admin m))).*1 ≡ₚ
    fst <$> filter (λ r, admin_column s r.2 = Some v) (map_to_list (db_admin d)).
Proof.
  intros Hs Hsel. unfold my_rows. rewrite (keyed_rows _ _ _ _ (ms_admin _ _ _ Hs)).
  erewrite selected_ids; [done|]. apply Forall_Forall2_diag, Forall_forall.
  intros [i row] Hin%elem_of_map_to_list. split; [done|]. apply Hsel. by eapply (ms_admin_ok _ _ _ Hs).
Qed.
Lemma omap_same_admins l1 l2 :
  (∃ l, l ≡ₚ l2 ∧ Forall2 (option_Forall2 same_admin) l1 l) → same_admins (omap id l1) (omap id l2).
Proof.
  intros (l & Hl & Hf). exists (omap id l). split.
  - by apply omap_Permutation.
  - clear Hl. induction Hf as [|a b l1 l Hab _ IH]; [constructor|].
    destruct Hab; [by constructor|done].
Qed.
Lemma my_get_admin_reads id : reads (my_get_admin id).
Proof.
  apply reads_bind; [apply reads_gets|]. intros [[name row]|]; [|apply reads_ret].
  apply reads_bind; [apply reads_gets|]. intros realms. apply reads_of_result.
Qed.
Lemma found_run {S A} (f : string → M S AuthDbError (option A)) ids s :
  ((let* admins := map_m f ids in ret (omap id admins)) s).1 = map_ok (omap id) (map_m f ids s).1.
Proof. unfold bind, ret. by destruct (map_m f ids s) as [[l|e] s']. Qed.
Lemma my_sim_find_admins s v m d :
  names v → s ≠ DigitalCredentials → my_sim names m d →
  up_to_driver same_admins (my_find_admins_by_auth_scheme s v m).1 (find_admins_by_auth_scheme s v d).1.
Proof.
  intros Hv Hd Hs. destruct (decide (s = Saml)) as [->|Hsaml]; [left; by exists []|].
  destruct (my_admin_query_run s v Hd Hsaml Hv) as (sel & Hq & Hsel).
  set (ids := (filter (λ r, sel r.2 = true) (my_rows (my_admin m))).*1).
  set (ids' := fst <$> filter (λ r, admin_column s r.2 = Some v) (map_to_list (db_admin d))).
  assert (find_admins_by_auth_scheme s v d = (let* admins := map_m get_admin ids' in ret (omap id admins)) d)
    as -> by by destruct s.
  assert (my_find_admins_by_auth_scheme s v m =
    (let* admins := map_m my_get_admin ids in ret (omap id admins)) m) as ->.
  { assert (my_find_admins_by_auth_scheme s v m =
      (let* selected := of_result (my_admin_query s v) in
       let* rows := gets (λ m, (filter (λ r, selected r.2 = true) (my_rows (my_admin m))).*1) in
       let* admins := map_m my_get_admin rows in ret (omap id admins)) m) as -> by by destruct s.
    by rewrite Hq. }
  rewrite !found_run, !map_m_reads by (apply my_get_admin_reads || apply get_admin_reads).
  assert (up_to_driver (λ r1 r2, ∃ r, r ≡ₚ r2 ∧ Forall2 (option_Forall2 same_admin) r1 r)
    (try_map (λ i, (my_get_admin i m).1) ids) (try_map (λ i, (get_admin i d).1) ids')) as Hr.
  { apply decode_up_to with (l := ids'); [|by apply my_selected_admins|done].
    intros i ([i' row] & -> & [_ Hin%elem_of_map_to_list]%list_elem_of_filter)%list_elem_of_fmap.
    cbn [fst]. destruct (my_sim_get_admin i' m d) as [Hget Hsome]; [|done|].
    - by eapply keyed_names; [apply (ms_admin _ _ _ Hs)|].
    - split; [done|]. destruct Hsome as [a ->]; [by eexists|done]. }
  destruct Hr as [Hr|(e & -> & He)]; [left|right; by exists e].
  destruct (try_map _ ids), (try_map _ ids'); try done. by apply omap_same_admins.
Qed.

(** ** TOTP *)
Lemma my_sim_generate_totp_secret secret r u :
  sim eq (my_generate_totp_secret secret r u) (generate_totp_secret secret r u).
Proof. apply sim_pure. intros t _. by apply sim_ret. Qed.
Lemma set_totp_ok b s url row : admin_row_ok names row → admin_row_ok names (set_totp b s url row).
Proof. intros Hrow. unfold set_totp. by destruct (totp_capable row). Qed.
Lemma my_set_totp_fits b s url row :
  opt_all (λ s, varchar 4096 s = Ok s) s → opt_all text_fits url →
  my_set_totp b s url row = Ok (set_totp b s url row).
Proof.
  intros Hs Hu. unfold my_set_totp. destruct (totp_capable row) eqn:Hc; [|by unfold set_totp; rewrite Hc].
  rewrite (opt_column_fits _ (varchar 4096) _ (λ s H, H) Hs). cbn [and_then].
  by rewrite (opt_column_fits text_fits text_column _ (λ s H, H) Hu).
Qed.
Lemma my_sim_set_totp u b s url :
  names u → opt_all (λ s, varchar 4096 s = Ok s) s → opt_all text_fits url →
  sim eq (my_sql (my_update (collation_key u) my_admin set_my_admin (my_set_totp b s url)))
    (modify (set_admin (alter (set_totp b s url) u))).
Proof.
  intros Hu Hs Hl. eapply (sim_my_update names _ my_admin _ _ (set_totp b s url));
    [intros; by apply set_my_admin_table|by intros []| |].
  - intros m d name v _ _. by apply my_set_totp_fits.
  - intros m d Hsim. apply my_sim_alter_admin; [done| |done]. intros row. apply set_totp_ok.
Qed.
Lemma my_sim_enable_totp r u secret issuer :
  names u → varchar 4096 secret = Ok secret →
  (∀ t, from_secret secret (Some issuer) u None = Ok t → text_fits (totp_get_url t)) →
  sim eq (my_enable_totp r u secret issuer) (enable_totp r u secret issuer).
Proof.
  intros Hu Hs Hurl. apply sim_pure. intros t Ht. apply my_sim_set_totp; [done|by intros ? [= <-]|].
  intros ? [= <-]. apply Hurl. by apply map_err_ok in Ht.
Qed.
Lemma my_sim_disable_totp r u : names u → sim eq (my_disable_totp r u) (disable_totp r u).
Proof. intros Hu. by apply my_sim_set_totp. Qed.
Lemma my_totp_row u m d : names u → my_sim names m d → my_select_totp_row u m = select_totp_row u d.
Proof.
  intros Hu Hs. unfold my_select_totp_row, select_totp_row.
  rewrite (keyed_lookup _ _ apart _ _ u (ms_admin _ _ _ Hs) Hu). by destruct (db_admin d !! u).
Qed.
Lemma my_sim_get_totp_secret r u m d :
  names u → my_sim names m d →
  totp_answer (map_ok Some (col (sqlite_null_string "totp_secret")))
    (my_get_totp_secret r u m).1 (get_totp_secret r u d).1.
Proof.
  intros Hu Hs. unfold my_get_totp_secret, get_totp_secret, gets, bind. cbn [fst].
  rewrite (my_totp_row u m d) by done. destruct (select_totp_row u d) as [row|]; [|by left].
  unfold of_result, totp_answer. simpl. destruct (ar_totp_secret row); auto.
Qed.
Lemma my_sim_is_totp_enabled r u m d :
  names u → my_sim names m d →
  totp_answer (map_ok (λ v, Some (bool_decide (v ≠ 0%Z))) (col (sqlite_null_i64 "totp_enabled")))
    (my_is_totp_enabled r u m).1 (is_totp_enabled r u d).1.
Proof.
  intros Hu Hs. unfold my_is_totp_enabled, is_totp_enabled, gets, bind. cbn [fst].
  rewrite (my_totp_row u m d) by done. destruct (select_totp_row u d) as [row|]; [|by left].
  unfold of_result, totp_answer. simpl. destruct (ar_totp_enabled row); auto.
Qed.

(** ** App tokens *)
Lemma my_token h m d : token_short h → my_sim names m d →
  my_app_tokens m !! token_key h = pair h <$> db_app_tokens d !! h.
Proof. intros Hh Hs. by apply (keyed_lookup token_key token_short); [apply token_apart|apply (ms_app_tokens names)|]. Qed.
Lemma my_select_token_run h m d : token_short h → my_sim names m d →
  my_select_token h m = db_app_tokens d !! h.
Proof.
  intros Hh Hs. unfold my_select_token. rewrite (my_token h m d) by done.
  destruct (db_app_tokens d !! h); [|done]. simpl. by rewrite decide_True.
Qed.
Lemma my_sim_issue_app_token t :
  my_op_ok empty_database (OpIssueAppToken t) → sim eq (my_issue_app_token t) (issue_app_token t).
Proof.
  intros (Hh & Hf & He & Hp & Hx & Hl).
  assert (my_token_row t = Ok (tok_token_hash t, mkAppTokenRow (tok_entity t)
    (to_json_or_empty (tok_policies t)) (tok_expiry t) (bool_i64 (tok_renewable t))
    (tok_lease_duration_secs t) (tok_created_at t))) as Hrow
    by (unfold my_token_row; by rewrite Hf, He, Hp).
  eapply sim_my_insert; [exact Hrow|]. intros m d Hs. simpl. split_and!; [done| |done|].
  - apply bool_decide_ext. by eapply (keyed_none token_key); [apply token_apart|apply (ms_app_tokens names)|].
  - intros _ _. apply my_set_app_tokens; [| |done].
    + by apply (keyed_insert token_key); [apply token_apart|apply (ms_app_tokens names)|].
    + apply map_Forall_insert_2; [done|]. by eapply (ms_token_fits names).
Qed.
Lemma my_sim_lookup_app_token now h :
  token_short h → sim eq (my_lookup_app_token now h) (lookup_app_token now h).
Proof.
  intros Hh. apply sim_gets. intros m d Hs. rewrite (my_select_token_run h m d) by done.
  destruct (db_app_tokens d !! h) as [row|] eqn:Hrow; [|by apply sim_ret].
  case_decide; [|by apply sim_ret]. destruct (ms_token_fits _ _ _ Hs _ _ Hrow) as [Hx _].
  intros m' d' Hs'. unfold row_to_app_token, column_i64. by rewrite decide_True.
Qed.
Lemma my_sim_renew_app_token now h m d :
  my_op_ok d (OpRenewAppToken now h) → my_sim names m d →
  result_rel eq (my_renew_app_token now h m).1 (renew_app_token now h d).1 ∧
  my_sim names (my_renew_app_token now h m).2 (renew_app_token now h d).2.
Proof.
  intros (Hh & Hnow & Hfound) Hs. rewrite renew_app_token_by_row. unfold my_renew_app_token.
  rewrite gets_bind, (my_select_token_run h m d) by done.
  destruct (db_app_tokens d !! h) as [row|] eqn:Hrow.
  2: { unfold bind, ret, gets. simpl. rewrite (my_select_token_run h m d), Hrow by done. by simpl. }
  destruct (ms_token_fits _ _ _ Hs _ _ Hrow) as [_ Hl]. case_decide as Hr.
  - unfold bigint_add. rewrite decide_True by (unfold in_i64, i64_min, i64_max, half_range in *; lia).
    unfold bind, of_result, modify, ret. simpl.
    assert (my_found_rows || bool_decide ((now + tr_lease_duration_secs row)%Z ≠ tr_expiry row) = true) as ->.
    { destruct Hfound as [->|Hne]; [done|]. rewrite bool_decide_eq_true_2; [apply orb_true_r|].
      intros Heq. by apply (Hne row eq_refl). }
    simpl. split; [done|]. apply my_set_app_tokens; [| |done].
    + rewrite (alter_found _ _ _ _ Hrow), (alter_found _ _ _ (h, row)) by by rewrite (my_token h m d), Hrow.
      by apply (keyed_insert token_key); [apply token_apart|apply (ms_app_tokens names)|].
    + intros i row'. rewrite (alter_found _ _ _ _ Hrow). intros [[<- <-]|[_ Hi]]%lookup_insert_Some.
      * split; simpl; [|done]. unfold in_i64, i64_min, i64_max, half_range in *; lia.
      * by eapply (ms_token_fits _ _ _ Hs).
  - unfold bind, ret, gets. simpl. rewrite (my_select_token_run h m d), Hrow by done.
    by destruct (bool_decide _ && bool_decide _).
Qed.
Lemma my_sim_revoke_app_token h :
  token_short h → sim eq (my_revoke_app_token h) (revoke_app_token h).
Proof.
  intros Hh. apply sim_modify. intros m d Hs. apply my_set_app_tokens; [| |done].
  - assert (keyed token_key token_short (delete (token_key h) (my_app_tokens m)) (delete h (db_app_tokens d)))
      as Hk by by apply (keyed_delete token_key); [apply token_apart|apply (ms_app_tokens names)|].
    rewrite (my_token h m d) by done. destruct (db_app_tokens d !! h) eqn:Hrow; simpl.
    + by rewrite decide_True.
    + by rewrite delete_id in Hk by by rewrite (my_token h m d), Hrow.
  - apply map_Forall_delete. by eapply (ms_token_fits names).
Qed.

(** ** AppRole *)
Lemma my_role n m d : names n → my_sim names m d →
  my_approle_roles m !! collation_key n = pair n <$> db_approle_roles d !! n.
Proof. intros Hn Hs. by apply (keyed_lookup _ _ apart _ _ n (ms_approle_roles _ _ _ Hs)). Qed.
Lemma my_role_id_holder_names r m d : names r → my_sim names m d →
  match my_role_id_holder r m with
  | Some k => ∃ n row, k = collation_key n ∧ db_approle_roles d !! n = Some row ∧ or_role_id row = r
  | None => True
  end.
Proof.
  intros Hr Hs. unfold my_role_id_holder. destruct (filter _ _) as [|[k [n row]] l] eqn:Hl; [done|].
  assert ((k, (n, row)) ∈ (k, (n, row)) :: l) as Hin by by left. rewrite <-Hl in Hin.
  apply list_elem_of_filter in Hin as [Hsame Hin%elem_of_map_to_list]. simpl in *.
  apply (proj2 (ms_approle_roles _ _ _ Hs)) in Hin as [Hrow ->]. exists n, row. split_and!; [done..|].
  apply (same_text_names names); [|done..]. by apply (ms_role_ids _ _ _ Hs n row Hrow).
Qed.
Lemma my_sim_create_approle r m d :
  names (role_name r) → names (role_role_id r) → my_op_ok d (OpCreateApprole r) → my_sim names m d →
  result_rel eq (my_create_approle r m).1 (create_approle r d).1 ∧
  my_sim names (my_create_approle r m).2 (create_approle r d).2.
Proof.
  intros Hn Hr [Hp Hfree] Hs.
  assert (create_approle r d = (Ok (), set_approle_roles <[role_name r := approle_row r]> d)) as ->.
  { unfold create_approle, sql, with_err, sql_insert. simpl. by rewrite bool_decide_eq_true_2. }
  assert (my_approle_row r = Ok (role_name r, approle_row r)) as Hrow
    by (unfold my_approle_row; by rewrite !names_varchar, Hp).
  assert (my_sim names (set_my_approle_roles <[collation_key (role_name r) := (role_name r, approle_row r)]> m)
    (set_approle_roles <[role_name r := approle_row r]> d)) as Hs'.
  { apply my_set_roles; [by apply keyed_insert; [apply apart|apply ms_approle_roles|]| |done].
    intros n row. intros [[<- <-]|[Hne Hi]]%lookup_insert_Some.
    - split; [done|]. intros n' row' [[-> _]|[_ Hi]]%lookup_insert_Some; [done|]. by apply Hfree.
    - destruct (ms_role_ids _ _ _ Hs n row Hi) as [? Huniq]. split; [done|].
      intros n' row' [[<- <-]|[_ Hi']]%lookup_insert_Some Heq; [|by eapply Huniq].
      exfalso. apply Hne. symmetry. by apply (Hfree n row). }
  assert (my_create_approle r m =
    (Ok (), set_my_approle_roles <[collation_key (role_name r) := (role_name r, approle_row r)]> m)) as ->;
    [|done].
  unfold my_create_approle, my_sql, with_err. rewrite Hrow. unfold bind, of_result, gets. cbn [fst snd].
  rewrite (my_role _ m d) by done. pose proof (my_role_id_holder_names (role_role_id r) m d Hr Hs) as Hh.
  change (or_role_id (approle_row r)) with (role_role_id r).
  destruct (my_role_id_holder _ _) as [k|].
  - destruct Hh as (n & row & -> & Hi & Hid). assert (n = role_name r) as -> by by eapply Hfree.
    rewrite Hi. simpl. by rewrite decide_True by by right.
  - destruct (db_approle_roles d !! role_name r); cbn [fmap option_fmap option_map]; [|done].
    by rewrite decide_True by by left.
Qed.
(** At most one row in two orders. *)
Lemma perm_at_most_one {A} (l1 l2 : list A) :
  l1 ≡ₚ l2 → NoDup l2 → (∀ x y, x ∈ l2 → y ∈ l2 → x = y) → l1 = l2.
Proof.
  intros Hp Hd Hl. destruct l2 as [|x [|y l]].
  - by apply Permutation_nil_r in Hp.
  - by apply Permutation_singleton_r in Hp.
  - exfalso. assert (x = y) as -> by (apply Hl; set_solver). apply NoDup_cons in Hd as [Hd _]. set_solver.
Qed.
Lemma my_sim_get_approle_by_role_id r :
  names r → sim eq (my_get_approle_by_role_id r) (get_approle_by_role_id r).
Proof.
  intros Hr. apply sim_gets_ret. intros m d Hs.
  assert (filter (λ x, same_text (or_role_id x.2) r) (my_rows (my_approle_roles m)) =
    filter (λ x, or_role_id x.2 = r) (map_to_list (db_approle_roles d))) as ->; [|done].
  apply perm_at_most_one.
  - unfold my_rows. rewrite (keyed_rows _ _ _ _ (ms_approle_roles _ _ _ Hs)).
    erewrite filter_agree; [done|]. intros [n row] Hin%elem_of_map_to_list.
    apply (same_text_names names); [|done]. by apply (ms_role_ids _ _ _ Hs n row Hin).
  - apply NoDup_filter, NoDup_map_to_list.
  - intros [n1 row1] [n2 row2] [H1 Hi1%elem_of_map_to_list]%list_elem_of_filter
      [H2 Hi2%elem_of_map_to_list]%list_elem_of_filter. simpl in *.
    assert (n1 = n2) as -> by (eapply (ms_role_ids _ _ _ Hs n2 row2 Hi2); [done|congruence]). congruence.
Qed.
Lemma my_sim_get_approle_by_name n :
  names n → sim eq (my_get_approle_by_name n) (get_approle_by_name n).
Proof.
  intros Hn. apply sim_gets_ret. intros m d Hs. rewrite (my_role n m d) by done.
  by destruct (db_approle_roles d !! n).
Qed.
Lemma my_sim_delete_approle n : names n → sim eq (my_delete_approle n) (delete_approle n).
Proof.
  intros Hn. apply sim_modify. intros m d Hs. apply my_set_secret_ids; cbn.
  - apply keyed_filter; [apply ms_app_secret_ids, Hs|]. intros a row Hrow _. simpl.
    rewrite (same_text_names names); [done| |done]. by apply (ms_secret_ok _ _ _ Hs a row Hrow).
  - intros a row [Hrow _]%map_lookup_filter_Some. by apply (ms_secret_ok _ _ _ Hs a row Hrow).
  - apply my_set_roles; [| |done].
    + by apply keyed_delete; [apply apart|apply ms_approle_roles|].
    + intros i row [_ Hi]%lookup_delete_Some. destruct (ms_role_ids _ _ _ Hs i row Hi) as [? Hu].
      split; [done|]. intros n' row' [_ Hi']%lookup_delete_Some. by apply Hu.
Qed.
(** The names of the rows. *)
Lemma keys_dom {V} (d : gmap string V) : (map_to_list d).*1 ≡ₚ elements (dom d).
Proof.
  apply NoDup_Permutation; [apply NoDup_fst_map_to_list|apply NoDup_elements|].
  intros n. rewrite elem_of_elements, elem_of_dom, list_elem_of_fmap. split.
  - intros ([n' v] & -> & Hin%elem_of_map_to_list). by exists v.
  - intros [v Hv]. exists (n, v). split; [done|]. by apply elem_of_map_to_list.
Qed.
Lemma my_names {V} (m : gmap string (string * V)) (t : gmap string V) :
  keyed collation_key names m t → my_order_by id (my_rows m).*1 ≡ₚ order_by id (elements (dom t)).
Proof.
  intros Hm. unfold my_order_by, my_rows. rewrite !order_by_perm, (keyed_rows _ _ _ _ Hm). apply keys_dom.
Qed.
Lemma my_sim_list_approle_names : sim (≡ₚ) my_list_approle_names list_approle_names.
Proof. apply sim_gets_ret. intros m d Hs. by apply my_names, ms_approle_roles. Qed.

(** ** Secret ids and Kubernetes roles *)
Lemma my_sim_create_secret_id s :
  names (sid_accessor s) → names (sid_role_name s) → my_op_ok empty_database (OpCreateSecretId s) →
  sim eq (my_create_secret_id s) (create_secret_id s).
Proof.
  intros Ha Hr [Hacc Hh].
  assert (my_secret_id_row s = Ok (sid_accessor s, mkSecretIdRow (sid_secret_id_hash s)
    (sid_role_name s) (sid_expiry s) (sid_num_uses_remaining s))) as Hrow
    by (unfold my_secret_id_row; by rewrite Hacc, Hh, names_varchar).
  eapply sim_my_insert; [exact Hrow|]. intros m d Hs. simpl. split_and!; [done| | |].
  - apply bool_decide_ext. by eapply keyed_none, Ha; [apply apart|apply ms_app_secret_ids].
  - apply bool_decide_ext. by eapply keyed_is_Some, Hr; [apply apart|apply ms_approle_roles].
  - intros _ _. apply my_set_secret_ids; [| |done].
    + by apply keyed_insert; [apply apart|apply ms_app_secret_ids|].
    + apply map_Forall_insert_2; [done|]. by eapply ms_secret_ok.
Qed.
Lemma my_sim_consume_secret_id now r h m d :
  names r → my_op_ok d (OpConsumeSecretId now r h) → my_sim names m d →
  result_rel eq (my_consume_secret_id now r h m).1 (consume_secret_id now r h d).1 ∧
  my_sim names (my_consume_secret_id now r h m).2 (consume_secret_id now r h d).2.
Proof.
  intros Hr Hone Hs. unfold my_consume_secret_id, consume_secret_id. rewrite !gets_bind.
  set (rows := map_to_list (filter (λ x, usable_secret_id r h now x.2) (db_app_secret_ids d))).
  assert (∀ a row, (a, row) ∈ rows →
    db_app_secret_ids d !! a = Some row ∧ usable_secret_id r h now row) as Hrows.
  { intros a row Hin%elem_of_map_to_list. by apply map_lookup_filter_Some in Hin. }
  assert (my_rows (filter (λ kv, my_usable_secret_id r h now kv.2.2) (my_app_secret_ids m)) = rows) as ->.
  { apply perm_at_most_one; [|apply NoDup_map_to_list|].
    - apply (keyed_rows collation_key names).
      apply keyed_filter; [apply ms_app_secret_ids, Hs|]. intros a row Hrow _.
      unfold my_usable_secret_id, usable_secret_id. cbn [snd].
      rewrite (same_text_names names); [done| |done]. by apply (ms_secret_ok _ _ _ Hs a row Hrow).
    - intros [a1 row1] [a2 row2] [H1 U1]%Hrows [H2 U2]%Hrows.
      assert (a1 = a2) as -> by by eapply Hone. congruence. }
  destruct rows as [|[a row] l]; [by split|].
  destruct (Hrows a row ltac:(by left)) as [Hrow _].
  assert (names a) as Ha by by eapply keyed_names; [apply (ms_app_secret_ids _ _ _ Hs)|].
  revert m d Hs Hone Hrows Hrow. cbv zeta. intros m d Hs _ _ _.
  match goal with |- result_rel eq (bind ?x _ _).1 (bind ?y _ _).1 ∧ _ => assert (sim eq x y) as Hsim end.
  - destruct (decide (sr_num_uses_remaining row = 1%Z)); [|destruct (decide _); [|by apply sim_ret]];
      apply sim_modify; intros m' d' Hs'; (apply my_set_secret_ids; [| |done]).
    + by apply keyed_delete; [apply apart|apply ms_app_secret_ids|].
    + apply map_Forall_delete. by eapply ms_secret_ok.
    + by apply keyed_alter; [apply apart|apply ms_app_secret_ids|].
    + intros i x. rewrite lookup_alter_Some. intros [(<- & y & Hy & ->)|[_ Hi]].
      * exact (ms_secret_ok _ _ _ Hs' _ _ Hy).
      * exact (ms_secret_ok _ _ _ Hs' _ _ Hi).
  - destruct (sim_bind _ eq eq _ _ (λ _, ret (Some a)) (λ _, ret (Some a)) Hsim) with m d; [|done..].
    intros _ _ _. by apply sim_ret.
Qed.
Lemma my_sim_destroy_secret_id r a :
  names r → names a → sim eq (my_destroy_secret_id r a) (destroy_secret_id r a).
Proof.
  intros Hr Ha. apply sim_modify. intros m d Hs.
  pose proof (keyed_lookup _ _ apart _ _ a (ms_app_secret_ids _ _ _ Hs) Ha) as Hrow.
  apply my_set_secret_ids; [| |done].
  - rewrite Hrow. destruct (db_app_secret_ids d !! a) as [row|] eqn:Hd; simpl; [|apply ms_app_secret_ids, Hs].
    pose proof (same_text_names names (sr_role_name row) r (ms_secret_ok _ _ _ Hs a row Hd) Hr) as Hiff.
    destruct (decide (same_text (sr_role_name row) r)), (decide (sr_role_name row = r)); try tauto.
    + by apply keyed_delete; [apply apart|apply ms_app_secret_ids|].
    + apply ms_app_secret_ids, Hs.
  - destruct (db_app_secret_ids d !! a); [|by eapply ms_secret_ok]. case_decide; [|by eapply ms_secret_ok].
    apply map_Forall_delete. by eapply ms_secret_ok.
Qed.
Lemma k8s_table_there m d :
  my_text_default = true → my_sim names m d →
  ∃ table, k8s_table m = (Ok table, m) ∧ keyed collation_key names table (db_k8s_roles d).
Proof.
  intros Hd Hs. pose proof (ms_k8s_roles _ _ _ Hs) as Hk. unfold k8s_table. rewrite gets_bind.
  destruct (my_k8s_roles m) as [table|]; [|congruence]. exists table. by destruct Hk.
Qed.
Lemma k8s_table_missing {A} (k : _ → MySqlM A) m d :
  my_text_default = false → my_sim names m d →
  my_sql (let* table := k8s_table in k table) m = (Err (DbSql NoSuchTable), m).
Proof.
  intros Hd Hs. pose proof (ms_k8s_roles _ _ _ Hs) as Hk. unfold my_sql, with_err, k8s_table, bind, gets.
  destruct (my_k8s_roles m); [|done]. destruct Hk. congruence.
Qed.
(** A statement on the table beside the one on SQLite's. *)
Lemma sim_k8s {A} (Q : A → A → Prop) (k : Keyed string K8sRoleRow → MySqlM A) (y : DbM A) :
  my_text_default = true →
  (∀ table m d, keyed collation_key names table (db_k8s_roles d) → my_sim names m d →
    result_rel Q (my_sql (k table) m).1 (y d).1 ∧ my_sim names (my_sql (k table) m).2 (y d).2) →
  sim Q (my_sql (let* table := k8s_table in k table)) y.
Proof.
  intros Hd Hk m d Hs. destruct (k8s_table_there m d Hd Hs) as (table & Ht & Hkeyed).
  unfold my_sql, with_err at 1 2. rewrite (bind_Ok _ _ _ _ _ Ht). by apply Hk.
Qed.
Lemma my_create_k8s_table m d :
  my_text_default = true → my_sim names m d →
  my_sim names (set_my_k8s_roles (λ table, Some (default ∅ table)) m) d.
Proof.
  intros Hd []. split; cbn; try done. destruct (my_k8s_roles m); simpl; [done|congruence].
Qed.
Lemma my_sim_create_k8s_role r :
  my_text_default = true → names (k8s_name r) → my_op_ok empty_database (OpCreateK8sRole r) →
  sim eq (my_create_k8s_role r) (create_k8s_role r).
Proof.
  intros Hd Hn (H1 & H2 & H3 & H4 & H5).
  assert (my_k8s_row r = Ok (k8s_name r, mkK8sRoleRow (k8s_jwks_url r) (k8s_bound_sa_names r)
    (k8s_bound_sa_namespaces r) (k8s_token_ttl_secs r) (k8s_expected_issuer r) (k8s_bound_audiences r)))
    as Hrow.
  { unfold my_k8s_row. rewrite names_varchar, H1, H2, H3 by done. cbn [and_then].
    rewrite (opt_column_fits text_fits text_column _ (λ s H, H) H4). cbn [and_then]. by rewrite H5. }
  apply sim_k8s; [done|]. intros table m d Hk Hs. rewrite Hrow.
  unfold my_sql, with_err, bind, of_result. cbn [fst snd]. split; [done|].
  apply my_set_k8s_roles; [done| |done].
  rewrite (keyed_lookup _ _ apart _ _ _ Hk Hn).
  pose proof (keyed_insert _ _ apart _ _ (k8s_name r) (mkK8sRoleRow (k8s_jwks_url r) (k8s_bound_sa_names r)
    (k8s_bound_sa_namespaces r) (k8s_token_ttl_secs r) (k8s_expected_issuer r) (k8s_bound_audiences r))
    Hk Hn). by destruct (db_k8s_roles d !! k8s_name r).
Qed.
Lemma my_sim_get_k8s_role n :
  my_text_default = true → names n → sim eq (my_get_k8s_role n) (get_k8s_role n).
Proof.
  intros Hd Hn. apply sim_k8s; [done|]. intros table m d Hk Hs.
  rewrite (keyed_lookup _ _ apart _ _ _ Hk Hn). split; [|done]. by destruct (db_k8s_roles d !! n) eqn:Hrow; simpl; rewrite Hrow.
Qed.
Lemma my_sim_delete_k8s_role n :
  my_text_default = true → names n → sim eq (my_delete_k8s_role n) (delete_k8s_role n).
Proof.
  intros Hd Hn. apply sim_k8s; [done|]. intros table m d Hk Hs. split; [done|].
  apply my_set_k8s_roles; [done| |done]. by apply keyed_delete; [apply apart| |].
Qed.
Lemma my_sim_list_k8s_role_names :
  my_text_default = true → sim (≡ₚ) my_list_k8s_role_names list_k8s_role_names.
Proof. intros Hd. apply sim_k8s; [done|]. intros table m d Hk Hs. split; [|done]. by apply my_names. Qed.

(** ** Initialisation *)
Lemma my_sim_initialize_db salt m d :
  Forall names [ADMIN_REALM; APP_REALM_ADMIN_USERNAME] → my_op_ok d (OpInit salt) →
  size (db_realm d) = 0 → my_sim names m d →
  result_rel eq (my_initialize_db salt m).1 (initialize_db salt d).1 ∧
  my_sim names (my_initialize_db salt m).2 (initialize_db salt d).2.
Proof.
  intros [Hr [Hu _]%Forall_cons]%Forall_cons (Hid & Hroles & Hhash) Hsize Hs.
  assert (db_realm d = ∅) as Hempty by by apply map_size_empty_inv.
  assert (my_get_realm ADMIN_REALM m = (Ok None, m)) as Hm.
  { unfold my_get_realm. rewrite gets_bind.
    rewrite (keyed_lookup _ _ apart _ _ _ (ms_realm _ _ _ Hs) Hr). by rewrite Hempty, lookup_empty. }
  assert (get_realm ADMIN_REALM d = (Ok None, d)) as Hd
    by (unfold get_realm; rewrite gets_bind; by rewrite Hempty, lookup_empty).
  unfold my_initialize_db, initialize_db. rewrite (bind_Ok _ _ _ _ _ Hm), (bind_Ok _ _ _ _ _ Hd).
  rewrite !decide_True by done. revert m d Hs Hsize Hempty Hm Hd. intros m d Hs _ _ _ _.
  refine (sim_bind (my_sim names) eq eq _ _ _ _ _ _ m d Hs); [by apply my_sim_create_realm|].
  intros _ _ _. eapply sim_bind; [by apply my_sim_get_userpass|]. intros userpass ? <-.
  case_decide; [|by apply sim_ret]. apply sim_pure. intros hash Hh%map_err_ok.
  eapply sim_bind.
  - apply my_sim_create_userpass; [done..|]. split_and!; [|by apply Hhash|done|done].
    by eapply hash_password_utf8.
  - intros _ _ _. apply my_sim_create_admin; [|done]. split_and!; try done. by intros ? [= <-].
    by repeat constructor.
Qed.
Lemma my_sim_init salt m d :
  Forall names [ADMIN_REALM; APP_REALM_ADMIN_USERNAME] → my_op_ok d (OpInit salt) → my_sim names m d →
  (result_rel eq (my_init salt m).1 (init salt d).1 ∨
   my_text_default = false ∧ (my_init salt m).1 = Err (DbSql SchemaRefused)) ∧
  my_sim names (my_init salt m).2 (init salt d).2.
Proof.
  intros Hn Hok Hs. unfold my_init, init. rewrite !gets_bind.
  rewrite (keyed_size _ _ _ _ (ms_realm _ _ _ Hs)).
  assert (result_rel eq
      ((if decide (size (db_realm d) = 0) then my_initialize_db salt else ret ()) m).1
      ((if decide (size (db_realm d) = 0) then initialize_db salt else ret ()) d).1 ∧
    my_sim names ((if decide (size (db_realm d) = 0) then my_initialize_db salt else ret ()) m).2
      ((if decide (size (db_realm d) = 0) then initialize_db salt else ret ()) d).2) as [Hr Hs'].
  { case_decide; [by apply my_sim_initialize_db|by split]. }
  unfold bind. destruct ((if decide _ then my_initialize_db salt else ret ()) m) as [[[]|e] m'].
  - destruct ((if decide _ then initialize_db salt else ret ()) d) as [[[]|e] d']; [|done].
    destruct my_text_default eqn:Hd; simpl in *; [|split; [by right|done]].
    split; [by left|by apply my_create_k8s_table].
  - destruct ((if decide _ then initialize_db salt else ret ()) d) as [[[]|e'] d']; [done|].
    simpl in *. split; [by left|done].
Qed.
End simulation.
