(* ===== verification/Toy.v ===== *)
(** Concrete libraries for the witnesses: codecs from [Countable] encodings and an Argon2 whose
    hash records the password.  They satisfy the laws the theorems ask of the real ones. *)
From S2P Require Import Prelude RustStd Models Jwt Passwords Totp Database DatabaseFacts.

Definition toy_totp : TotpRs := {|
  TOTP := string * string;
  totp_new _ _ _ _ secret issuer account := Ok (secret, default "" issuer +:+ ":" +:+ account);
  secret_to_bytes s := Ok s;
  totp_get_secret_base32 t := t.1;
  totp_get_url t := "otpauth://totp/" +:+ t.2;
  totp_check t _ token := Ok (bool_decide (token = t.1));
|}.
Definition toy_sqlx : Sqlx := {|
  sqlx_to_string _ := "sql error";
  sqlite_null_i64 _ := Ok 0%Z;
  sqlite_null_string _ := Ok "";
|}.
#[export] Instance toy_libs : DbLibs := {|
  json_auth_params := countable_serde;
  json_strings := countable_serde;
  json_claims := countable_serde;
  json_string_map := countable_serde;
  lib_sqlx := toy_sqlx;
  lib_argon2 := ToyArgon2.toy_argon2;
  lib_totp := toy_totp;
|}.
#[export] Instance toy_laws : DbLaws.
Proof. split; try apply countable_serde_laws. apply ToyArgon2.toy_argon2_laws. Qed.

(** A database after [init]. *)
Definition toy_db : Database := (init "salt" empty_database).2.
Lemma toy_db_reachable : reachable_db toy_db.
Proof. apply rtc_once. constructor. Qed.

(** Every token is RS256 without a key id; a JSON string is the key of that name. *)
Definition toy_jwt_libs : JwtLibs := {|
  Jwk := string;
  DecodingKey := string;
  decode_header _ := Ok (mkJwtHeader RS256 None);
  jwk_of_json v := match v with VString s => Some s | _ => None end;
  jwk_key_id jwk := Some jwk;
  decoding_key_of_jwk jwk := Ok jwk;
  jwt_algorithm_debug _ := "HS256";
  jwt_errors_debug _ := "[]";
|}.
