(* ===== verification/DatabaseSpec.v ===== *)
(** What the credential store promises: the properties of [Database.v]. *)
From S2P Require Import Prelude RustStd Models Passwords Totp Database DatabaseFacts Toy.

Section reads.
Context `{L : DbLibs} `{!DbLaws}.

Lemma get_realm_is_ok d id : db_wf d → is_ok (get_realm id d).1 = true.
Proof.
  intros Hwf. unfold get_realm, bind, gets, of_result.
  destruct (db_realm d !! id) as [row|] eqn:Hrow; [|done].
  destruct (row_to_realm_ok d id row Hwf Hrow) as (p & _ & Heq). cbn -[row_to_realm].
  by rewrite Heq.
Qed.
Lemma list_realms_is_ok d : db_wf d → is_ok (list_realms d).1 = true.
Proof.
  intros Hwf. unfold list_realms, bind, gets, of_result.
  destruct (try_map_is_ok row_to_realm (order_by fst (map_to_list (db_realm d)))) as [l Hl].
  - intros [id row] Hin%elem_of_order_by%elem_of_map_to_list.
    destruct (row_to_realm_ok d id row Hwf Hin) as (p & _ & ->). done.
  - cbn -[row_to_realm]. by rewrite Hl.
Qed.
Lemma get_userpass_is_ok d r u : db_wf d → is_ok (get_userpass r u d).1 = true.
Proof.
  intros Hwf. unfold get_userpass, bind, gets, of_result.
  destruct (db_userpass d !! (r, u)) as [row|] eqn:Hrow; [|done].
  destruct (wf_userpass _ Hwf _ _ _ Hrow) as [_ Hr].
  destruct (deserialize_roles_ok u row Hr) as [roles ->].
  by destruct (deserialize_extra_claims_ok u row Hr) as [c ->].
Qed.
Lemma userpass_rows_ok d l :
  db_wf d → (∀ x, x ∈ l → x ∈ map_to_list (db_userpass d)) →
  ∃ l', try_map row_to_userpass l = Ok l'.
Proof.
  intros Hwf Hl. apply try_map_is_ok. intros [[r u] row] Hin%Hl%elem_of_map_to_list.
  apply row_to_userpass_ok. by destruct (wf_userpass _ Hwf _ _ _ Hin).
Qed.
Lemma get_admin_is_ok d id : db_wf d → is_ok (get_admin id d).1 = true.
Proof.
  intros Hwf. unfold get_admin, bind, gets, of_result.
  destruct (db_admin d !! id) as [row|] eqn:Hrow; [|done].
  pose proof (row_to_admin_ok d id row (select_admin_realms id d) Hwf Hrow). cbn -[row_to_admin].
  by rewrite is_ok_map_ok.
Qed.
Lemma list_admins_is_ok d : db_wf d → is_ok (list_admins d).1 = true.
Proof.
  intros Hwf. unfold list_admins, bind at 1, gets at 1. apply map_m_is_ok.
  - intros [id row]. solve_reads.
  - intros [id row] Hin%elem_of_order_by%elem_of_map_to_list.
    apply (row_to_admin_ok d id row (select_admin_realms id d) Hwf Hin).
Qed.
Lemma find_admins_is_ok d s v : db_wf d → is_ok (find_admins_by_auth_scheme s v d).1 = true.
Proof.
  intros Hwf. unfold find_admins_by_auth_scheme.
  assert (Hm : ∀ l, is_ok ((let* admins := map_m get_admin l in ret (omap id admins)) d).1 = true).
  { intros l. unfold bind.
    assert (is_ok (map_m get_admin l d).1 = true) as Hok
      by (apply map_m_is_ok; [apply get_admin_reads|intros id _; by apply get_admin_is_ok]).
    by destruct (map_m get_admin l d) as [[as_|e] d']. }
  destruct s; done || apply Hm.
Qed.
End reads.

(** * Integrity *)

(** C3: whatever sequence of writes the store went through, its references are intact (every
    credential belongs to an existing realm, every membership to an existing administrator
    and realm, every secret id to an existing role, no two roles share a [role_id]) and no
    read of realms, credentials or administrators can fail to decode a row. *)
Theorem reachable_db_integrity `{L : DbLibs} `{!DbLaws} (d : Database) :
  reachable_db d →
  (∀ r u, is_Some (db_userpass d !! (r, u)) → is_Some (db_realm d !! r)) ∧
  (∀ a r, (a, r) ∈ db_admin_realms d → is_Some (db_admin d !! a) ∧ is_Some (db_realm d !! r)) ∧
  (∀ acc row, db_app_secret_ids d !! acc = Some row →
     is_Some (db_approle_roles d !! sr_role_name row)) ∧
  (∀ n1 n2 row1 row2, db_approle_roles d !! n1 = Some row1 →
     db_approle_roles d !! n2 = Some row2 → or_role_id row1 = or_role_id row2 → n1 = n2) ∧
  (∀ id, is_ok (get_realm id d).1 = true) ∧
  is_ok (list_realms d).1 = true ∧
  (∀ r u, is_ok (get_userpass r u d).1 = true) ∧
  (∀ r, is_ok (list_userpass_by_realm r d).1 = true) ∧
  is_ok (list_all_userpass d).1 = true ∧
  (∀ id, is_ok (get_admin id d).1 = true) ∧
  is_ok (list_admins d).1 = true ∧
  (∀ s v, is_ok (find_admins_by_auth_scheme s v d).1 = true).
Proof.
  intros Hwf%reachable_db_wf. split_and!.
  - intros r u [row Hrow]. by destruct (wf_userpass _ Hwf _ _ _ Hrow).
  - apply (wf_admin_realms _ Hwf).
  - apply (wf_secret_ids _ Hwf).
  - apply (wf_role_ids _ Hwf).
  - intros id. by apply get_realm_is_ok.
  - by apply list_realms_is_ok.
  - intros r u. by apply get_userpass_is_ok.
  - intros r. unfold list_userpass_by_realm, bind, gets, of_result; cbn -[row_to_userpass].
    edestruct (userpass_rows_ok d) as [l ->]; [done| |done].
    intros x Hx%elem_of_order_by. by apply list_elem_of_filter in Hx as [_ Hx].
  - unfold list_all_userpass, bind, gets, of_result; cbn -[row_to_userpass].
    edestruct (userpass_rows_ok d) as [l ->]; [done| |done].
    intros x. by rewrite order_by2_perm.
  - intros id. by apply get_admin_is_ok.
  - by apply list_admins_is_ok.
  - intros s v. by apply find_admins_is_ok.
Qed.
Lemma reachable_db_integrity_witness :
  reachable_db toy_db ∧ is_ok (list_admins toy_db).1 = true.
Proof.
  split; [apply toy_db_reachable|].
  apply (reachable_db_integrity toy_db toy_db_reachable).
Defined.

(** * Realms refine a finite map *)

(** The store holds exactly the realms of [m]. *)
Definition realms_of `{L : DbLibs} (d : Database) (m : gmap string Realm) : Prop :=
  ∀ id, (get_realm id d).1 = Ok (m !! id).

Section realms.
Context `{L : DbLibs} `{LAWS : !DbLaws}.

Lemma get_realm_eq id d :
  (get_realm id d).1 = transpose ((λ row, row_to_realm (id, row)) <$> db_realm d !! id).
Proof. done. Qed.
Lemma row_to_realm_id id row r : row_to_realm (id, row) = Ok r → realm_id r = id.
Proof. simpl. destruct (from_json _); simpl; [|done]. by intros [= <-]. Qed.
Lemma realms_of_elem d m id r : realms_of d m →
  m !! id = Some r ↔ ∃ row, db_realm d !! id = Some row ∧ row_to_realm (id, row) = Ok r.
Proof.
  intros Hm. specialize (Hm id). rewrite get_realm_eq in Hm.
  destruct (db_realm d !! id) as [row|]; cbn -[row_to_realm] in *.
  - destruct (row_to_realm (id, row)) eqn:Hr; [|done]. split; [|by intros (? & [= <-] & ?); congruence].
    intros Hx. exists row. split; congruence.
  - split; [congruence|by intros (? & ? & ?)].
Qed.
Lemma realms_of_None d m id : realms_of d m → m !! id = None ↔ db_realm d !! id = None.
Proof.
  intros Hm. specialize (Hm id). rewrite get_realm_eq in Hm.
  destruct (db_realm d !! id) as [row|]; cbn -[row_to_realm] in *; [|split; congruence].
  destruct (row_to_realm (id, row)); split; congruence.
Qed.
Lemma serialize_auth_params_row r :
  ∃ t, serialize_auth_params r = Ok t ∧
    row_to_realm (realm_id r, mkRealmRow t (realm_session_max_age_seconds r)
      (realm_session_max_stale_age_seconds r) (realm_certificate_max_age_seconds r)) = Ok r.
Proof.
  destruct (serde_roundtrip (realm_auth_params r)) as (t & Ht & Hf). exists t.
  unfold serialize_auth_params. rewrite Ht. simpl. rewrite Hf. by destruct r.
Qed.
Lemma list_realms_refines d m : realms_of d m →
  ∃ l, list_realms d = (Ok l, d) ∧ Sorted (key_le realm_id) l ∧ NoDup l ∧
    ∀ x, x ∈ l ↔ m !! realm_id x = Some x.
Proof.
  intros Hm. pose (rows := order_by fst (map_to_list (db_realm d))).
  assert (Hrows : ∀ id row, (id, row) ∈ rows ↔ db_realm d !! id = Some row).
  { intros id row. unfold rows. by rewrite elem_of_order_by, elem_of_map_to_list. }
  destruct (try_map_is_ok row_to_realm rows) as [l Hl].
  { intros [id row] Hin%Hrows. specialize (Hm id). rewrite get_realm_eq, Hin in Hm.
    cbn -[row_to_realm] in Hm. by destruct (row_to_realm _). }
  assert (Hids : realm_id <$> l = fst <$> rows).
  { eapply try_map_fmap, Hl. intros [id row] y. apply row_to_realm_id. }
  exists l. split_and!.
  - unfold list_realms, bind, gets, of_result. fold rows. by rewrite Hl.
  - rewrite Sorted_key_le, Hids, <-Sorted_key_le. apply order_by_sorted.
  - apply (NoDup_fmap_1 realm_id). rewrite Hids. unfold rows.
    rewrite (order_by_perm fst). apply NoDup_fst_map_to_list.
  - intros x. rewrite (try_map_elem_of _ _ _ _ Hl), (realms_of_elem d m) by done. split.
    + intros ([id row] & Hin%Hrows & Hx). rewrite (row_to_realm_id _ _ _ Hx). eauto.
    + intros (row & Hrow & Hx). exists (realm_id x, row). by rewrite Hrows.
Qed.
End realms.

(** C12: the realm table refines a finite map from ids to realms.  Creating inserts a realm
    whose id starts with a letter, digit, underscore or dash and is not taken, and otherwise
    fails with the matching error and changes nothing; updating replaces an existing realm
    and ignores an unknown one; deleting removes; listing returns every realm once, in order. *)
Theorem realm_store_refines_map `{L : DbLibs} `{!DbLaws} (d : Database) (m : gmap string Realm) :
  realms_of d m → ∀ (r : Realm) (id : string),
  (∃ d', create_realm r d =
      (if negb (realm_id_glob (realm_id r)) then Err (DbSql CheckViolation)
       else match m !! realm_id r with
            | Some _ => Err (DbConflict ("realm '" +:+ realm_id r +:+ "' already exists"))
            | None => Ok ()
            end, d') ∧
    realms_of d' (if realm_id_glob (realm_id r) && bool_decide (m !! realm_id r = None)
                  then <[realm_id r := r]> m else m)) ∧
  (∃ d', update_realm r d = (Ok (), d') ∧ realms_of d' (alter (λ _, r) (realm_id r) m)) ∧
  (∃ d', delete_realm id d = (Ok (), d') ∧ realms_of d' (delete id m)) ∧
  (∃ l, list_realms d = (Ok l, d) ∧ Sorted (key_le realm_id) l ∧ NoDup l ∧
    ∀ x, x ∈ l ↔ m !! realm_id x = Some x).
Proof.
  intros Hm r id. destruct (serialize_auth_params_row r) as (t & Ht & Hrow).
  split_and!.
  - unfold create_realm, bind, of_result. rewrite Ht. unfold with_err, sql_insert.
    destruct (realm_id_glob (realm_id r)); simpl; [|by eexists].
    destruct (m !! realm_id r) as [x|] eqn:Hx.
    + rewrite bool_decide_eq_false_2 by (rewrite <-(realms_of_None d m) by done; congruence).
      by eexists.
    + rewrite bool_decide_eq_true_2 by (by rewrite <-(realms_of_None d m)). eexists. split; [done|].
      intros i. rewrite get_realm_eq. simpl db_realm.
      destruct (decide (realm_id r = i)) as [<-|Hne]; simplify_map_eq; [|apply Hm].
      cbn -[row_to_realm]. by rewrite Hrow.
  - unfold update_realm, bind, of_result. rewrite Ht. eexists. split; [done|].
    intros i. rewrite get_realm_eq. simpl db_realm.
    destruct (decide (realm_id r = i)) as [<-|Hne].
    + rewrite !lookup_alter_eq. specialize (Hm (realm_id r)). rewrite get_realm_eq in Hm.
      destruct (db_realm d !! realm_id r) as [row|]; cbn -[row_to_realm] in *.
      * rewrite Hrow. destruct (row_to_realm _); simplify_eq/=. by destruct (m !! _).
      * by simplify_eq; destruct (m !! _).
    + rewrite !lookup_alter_ne by done. apply Hm.
  - eexists. split; [done|]. intros i. rewrite get_realm_eq. simpl db_realm.
    destruct (decide (id = i)) as [<-|Hne]; [by rewrite !lookup_delete_eq|].
    rewrite !lookup_delete_ne by done. apply Hm.
  - apply list_realms_refines, Hm.
Qed.
Lemma realm_store_refines_map_witness :
  realms_of empty_database ∅ ∧ ∃ d', create_realm app_realm empty_database = (Ok (), d') ∧
    realms_of d' {[ "_" := app_realm ]}.
Proof.
  assert (realms_of empty_database ∅) as H0.
  { intros id. rewrite get_realm_eq. by rewrite !lookup_empty. }
  split; [done|].
  destruct (realm_store_refines_map empty_database ∅ H0 app_realm "_") as [(d' & Hc & Hr) _].
  exists d'. split; [exact Hc|exact Hr].
Defined.

(** * Administrators *)


Section admins.
Context `{L : DbLibs} `{LAWS : !DbLaws}.

Lemma elem_of_select_admin_realms a d r :
  r ∈ select_admin_realms a d ↔ (a, r) ∈ db_admin_realms d.
Proof.
  unfold select_admin_realms. rewrite list_elem_of_fmap.
  setoid_rewrite list_elem_of_filter. setoid_rewrite elem_of_elements. split.
  - by intros ([a' r'] & -> & Ha & ?); simpl in *; subst.
  - intros Hr. by exists (a, r).
Qed.
Lemma NoDup_select_admin_realms a d : NoDup (select_admin_realms a d).
Proof.
  unfold select_admin_realms. apply NoDup_fmap_2_strong.
  - intros [a1 r1] [a2 r2] [Ha1 _]%list_elem_of_filter [Ha2 _]%list_elem_of_filter ?.
    by simplify_eq/=.
  - apply NoDup_filter, NoDup_elements.
Qed.
Lemma select_admin_realms_perm a d l :
  NoDup l → (∀ r, r ∈ l ↔ (a, r) ∈ db_admin_realms d) → select_admin_realms a d ≡ₚ l.
Proof.
  intros Hnd Hl. apply NoDup_Permutation; [apply NoDup_select_admin_realms|done|].
  intros r. by rewrite elem_of_select_admin_realms, Hl.
Qed.

Lemma admin_row_roundtrip a t realms :
  serialize_digital_credentials a = Ok t →
  row_to_admin (adm_id a) realms (admin_row a t) = Ok (with_realms realms a).
Proof.
  unfold serialize_digital_credentials, row_to_admin, admin_row, with_realms.
  assert (Hb : (λ v, bool_decide (v ≠ 0%Z)) <$> (bool_i64 <$> adm_totp_enabled a) =
               adm_totp_enabled a) by (by destruct (adm_totp_enabled a) as [[]|]).
  destruct (adm_digital_credentials a) as [c|]; simpl.
  - destruct (serde_roundtrip c) as (s & Hs & Hf). rewrite Hs. intros [= <-]. simpl.
    by rewrite Hf, Hb.
  - intros [= <-]. simpl. by rewrite Hb.
Qed.
Lemma serialize_digital_credentials_ok a : ∃ t, serialize_digital_credentials a = Ok t.
Proof.
  unfold serialize_digital_credentials. destruct (adm_digital_credentials a) as [c|]; simpl; eauto.
  destruct (serde_roundtrip c) as (s & -> & _). simpl. eauto.
Qed.

Lemma insert_admin_realm_run a r d :
  is_Some (db_admin d !! a) →
  sql (insert_admin_realm a r) d =
    if decide ((a, r) ∈ db_admin_realms d) then (Err (DbSql UniqueViolation), d)
    else match db_realm d !! r with
         | None => (Err (DbSql ForeignKeyViolation), d)
         | Some _ => (Ok (), set_admin_realms (union {[ (a, r) ]}) d)
         end.
Proof.
  intros Ha. unfold sql, with_err, insert_admin_realm, sql_insert.
  case_decide as Hin; simpl.
  - by rewrite bool_decide_eq_false_2 by tauto.
  - rewrite bool_decide_eq_true_2 by done. rewrite bool_decide_eq_true_2 by done. simpl.
    by destruct (db_realm d !! r) as [row|].
Qed.
Lemma set_admin_realms_empty d : set_admin_realms (union ∅) d = d.
Proof. destruct d; unfold set_admin_realms; simpl. f_equal. set_solver. Qed.

(** The loop over the memberships stops at the first one that cannot be inserted. *)
Lemma insert_admin_realms_run a l d :
  is_Some (db_admin d !! a) →
  ∃ don rest, l = don ++ rest ∧ NoDup don ∧ (∀ r, r ∈ don → (a, r) ∉ db_admin_realms d) ∧
    for_each (λ r, sql (insert_admin_realm a r)) l d =
      (match rest with
       | [] => Ok ()
       | r :: _ => Err (DbSql (if decide (r ∈ don ∨ (a, r) ∈ db_admin_realms d)
                               then UniqueViolation else ForeignKeyViolation))
       end, set_admin_realms (union (list_to_set (pair a <$> don))) d) ∧
    match rest with
    | [] => True
    | r :: _ => r ∈ don ∨ (a, r) ∈ db_admin_realms d ∨ db_realm d !! r = None
    end.
Proof.
  revert d. induction l as [|r l IH]; intros d Ha; cbn [for_each].
  { exists [], []. split_and!; try done; [constructor|by intros ? ?%elem_of_nil|].
    simpl. by rewrite set_admin_realms_empty. }
  unfold bind at 1. rewrite insert_admin_realm_run by done.
  destruct (decide ((a, r) ∈ db_admin_realms d)) as [Hin|Hin];
    [|destruct (db_realm d !! r) as [row|] eqn:Hrow].
  - exists [], (r :: l). split_and!; try done; [constructor|by intros ? ?%elem_of_nil| |tauto].
    simpl. rewrite set_admin_realms_empty, decide_True by tauto. done.
  - destruct (IH (set_admin_realms (union {[ (a, r) ]}) d))
      as (don & rest & -> & Hnd & Hfr & -> & Hrest); [done|]. simpl in Hfr.
    exists (r :: don), rest. split_and!; [done| | | |].
    + constructor; [|done]. intros Hr. apply (Hfr r Hr). set_solver.
    + intros r' [->|Hr']%elem_of_cons; [done|]. specialize (Hfr r' Hr'). set_solver.
    + f_equal.
      * destruct rest as [|x rest]; [done|]. do 2 f_equal. simpl.
        apply decide_ext. set_solver.
      * destruct d; unfold set_admin_realms; simpl. f_equal. set_solver.
    + destruct rest as [|x rest]; [done|]. simpl in Hrest. set_solver.
  - exists [], (r :: l). split_and!; try done; [constructor|by intros ? ?%elem_of_nil| |tauto].
    simpl. rewrite set_admin_realms_empty, decide_False by set_solver. done.
Qed.

Lemma create_admin_run a t d :
  serialize_digital_credentials a = Ok t →
  create_admin a d =
    match db_admin d !! adm_id a with
    | Some _ => (Err (DbConflict ("admin '" +:+ adm_id a +:+ "' already exists")), d)
    | None => for_each (λ r, sql (insert_admin_realm (adm_id a) r)) (adm_realms a)
                (set_admin <[adm_id a := admin_row a t]> d)
    end.
Proof.
  intros Ht. unfold create_admin, bind, of_result, with_err, sql_insert. rewrite Ht. simpl.
  by destruct (db_admin d !! adm_id a) as [row|].
Qed.
End admins.

(** C37: creating an administrator with a taken id fails with a conflict and changes nothing.
    Otherwise the row is written together with the memberships listed before the first one
    that is a duplicate or names an unknown realm: the call succeeds exactly when there is no
    such membership, reading the administrator back gives what was created (memberships in
    some order), and after a failure the row and the earlier memberships stay behind. *)
Theorem create_admin_outcome `{L : DbLibs} `{!DbLaws} (d : Database) (a : Admin) :
  db_wf d →
  match db_admin d !! adm_id a with
  | Some _ => create_admin a d = (Err (DbConflict ("admin '" +:+ adm_id a +:+ "' already exists")), d)
  | None =>
      ∃ don rest realms, adm_realms a = don ++ rest ∧ realms ≡ₚ don ∧
        let '(res, d') := create_admin a d in
        get_admin (adm_id a) d' = (Ok (Some (with_realms realms a)), d') ∧
        (∀ id, id ≠ adm_id a → db_admin d' !! id = db_admin d !! id ∧
           ∀ r, (id, r) ∈ db_admin_realms d' ↔ (id, r) ∈ db_admin_realms d) ∧
        match rest with
        | [] => res = Ok ()
        | r :: _ =>
            if decide (r ∈ don) then res = Err (DbSql UniqueViolation)
            else db_realm d !! r = None ∧ res = Err (DbSql ForeignKeyViolation)
        end
  end.
Proof.
  intros Hwf. destruct (serialize_digital_credentials_ok a) as [t Ht].
  rewrite (create_admin_run a t) by done.
  destruct (db_admin d !! adm_id a) as [row|] eqn:Hrow; [done|].
  set (d1 := set_admin _ d).
  destruct (insert_admin_realms_run (adm_id a) (adm_realms a) d1)
    as (don & rest & Hsplit & Hnd & Hfr & Hrun & Hrest); [unfold d1; simpl; by simplify_map_eq|].
  assert (Hno : ∀ r, (adm_id a, r) ∉ db_admin_realms d).
  { intros r Hin. destruct (wf_admin_realms _ Hwf _ _ Hin) as [[? ?] _]. congruence. }
  exists don, rest, (select_admin_realms (adm_id a)
    (set_admin_realms (union (list_to_set (pair (adm_id a) <$> don))) d1)).
  split; [done|]. split.
  { apply select_admin_realms_perm; [done|]. intros r. simpl.
    rewrite elem_of_union, elem_of_list_to_set, list_elem_of_fmap. specialize (Hno r).
    naive_solver. }
  rewrite Hrun. split_and!.
  - unfold get_admin, bind, gets. simpl. simplify_map_eq. unfold of_result.
    by rewrite admin_row_roundtrip.
  - intros id Hid. simpl. split; [by simplify_map_eq|]. intros r.
    rewrite elem_of_union, elem_of_list_to_set, list_elem_of_fmap. naive_solver.
  - destruct rest as [|r rest]; [done|]. simpl in Hrest.
    destruct (decide (r ∈ don)) as [Hr|Hr]; [by rewrite decide_True by tauto|].
    rewrite decide_False by (intros [?|?]; [done|by eapply Hno]).
    split; [|done]. destruct Hrest as [?|[?|?]]; [done|by edestruct Hno|done].
Qed.
Lemma create_admin_outcome_witness :
  let bob := mkAdmin "bob" ["_"; "gone"] None None None None None None None None in
  db_wf toy_db ∧ ∃ realms,
    let d' := (create_admin bob toy_db).2 in
    get_admin "bob" d' = (Ok (Some (with_realms realms bob)), d').
Proof.
  intros bob. assert (db_wf toy_db) as Hwf by apply reachable_db_wf, toy_db_reachable.
  split; [done|]. pose proof (create_admin_outcome toy_db bob Hwf) as H.
  replace (db_admin toy_db !! adm_id bob) with (@None AdminRow) in H by by vm_compute.
  destruct H as (don & rest & realms & _ & _ & H). exists realms.
  destruct (create_admin bob toy_db) as [res d']. apply H.
Defined.

(** * Credentials *)

Definition without_hash (u : UserPass) : UserPass :=
  mkUserPass (up_realm u) (up_username u) "" None (up_change_password u) (up_roles u)
    (up_extra_claims u).

Section credentials.
Context `{L : DbLibs} `{LAWS : !DbLaws}.

Lemma row_to_userpass_key r u row x :
  row_to_userpass (r, u, row) = Ok x →
  up_realm x = r ∧ up_username x = u ∧ up_password_hash x = ur_password row.
Proof.
  unfold row_to_userpass, password_utf8, from_utf8.
  destruct (deserialize_roles _ _); [|done]. destruct (deserialize_extra_claims _ _); [|done].
  simpl. destruct (utf8_valid _); [|done]. by intros [= <-].
Qed.
Lemma get_userpass_without_hash r u row x d :
  db_userpass d !! (r, u) = Some row → row_to_userpass (r, u, row) = Ok x →
  get_userpass r u d = (Ok (Some (without_hash x)), d).
Proof.
  intros Hrow. unfold get_userpass, row_to_userpass, bind, gets, of_result. rewrite Hrow.
  destruct (deserialize_roles _ _); [|done]. destruct (deserialize_extra_claims _ _); [|done].
  simpl. destruct (password_utf8 _); [|done]. by intros [= <-].
Qed.
Lemma get_userpass_None r u d :
  db_userpass d !! (r, u) = None → get_userpass r u d = (Ok None, d).
Proof. intros Hrow. unfold get_userpass, bind, gets. by rewrite Hrow. Qed.
Lemma userpass_row_roundtrip u rt ct :
  utf8_valid (up_password_hash u) = true →
  serialize_roles (up_roles u) = Ok rt → serialize_extra_claims (up_extra_claims u) = Ok ct →
  row_to_userpass (up_realm u, up_username u,
    mkUserpassRow (up_password_hash u) (up_change_password u) rt ct) =
  Ok (mkUserPass (up_realm u) (up_username u) (up_password_hash u) None (up_change_password u)
        (up_roles u) (up_extra_claims u)).
Proof.
  intros Hutf Hr Hc. unfold row_to_userpass, deserialize_roles, deserialize_extra_claims. simpl.
  unfold serialize_roles in Hr. unfold serialize_extra_claims in Hc.
  destruct (serde_roundtrip (up_roles u)) as (s & Hs & Hf). rewrite Hs in Hr.
  simplify_eq/=. rewrite Hf. simpl.
  destruct (up_extra_claims u) as [c|]; simplify_eq/=.
  - destruct (serde_roundtrip c) as (s' & Hs' & Hf'). rewrite Hs' in Hc. simplify_eq/=.
    rewrite Hf'. simpl. unfold password_utf8. by rewrite from_utf8_valid.
  - unfold password_utf8. by rewrite from_utf8_valid.
Qed.
Lemma serialize_userpass_ok u :
  ∃ rt ct, serialize_roles (up_roles u) = Ok rt ∧
           serialize_extra_claims (up_extra_claims u) = Ok ct.
Proof.
  unfold serialize_roles, serialize_extra_claims.
  destruct (serde_roundtrip (up_roles u)) as (rt & -> & _).
  destruct (up_extra_claims u) as [c|]; simpl; [|by eauto].
  destruct (serde_roundtrip c) as (ct & -> & _). simpl. eauto.
Qed.
Lemma create_userpass_run u rt ct d :
  serialize_roles (up_roles u) = Ok rt → serialize_extra_claims (up_extra_claims u) = Ok ct →
  create_userpass u d =
    match db_userpass d !! (up_realm u, up_username u), db_realm d !! up_realm u with
    | Some _, _ => (Err (DbConflict ("credentials for '" +:+ up_username u +:+
        "' already exist in realm '" +:+ up_realm u +:+ "'")), d)
    | None, None => (Err (DbSql ForeignKeyViolation), d)
    | None, Some _ => (Ok (), set_userpass <[(up_realm u, up_username u) :=
        mkUserpassRow (up_password_hash u) (up_change_password u) rt ct]> d)
    end.
Proof.
  intros Hr Hc. unfold create_userpass, bind, of_result, with_err, sql_insert.
  rewrite Hr, Hc. simpl.
  destruct (db_userpass d !! _) as [row|]; simpl; [done|].
  by destruct (db_realm d !! _) as [row|].
Qed.
End credentials.

(** Listing the credentials of a realm answers exactly that realm's entries, in user name
    order and each once; fetching one of them gives the same entry with the hash blanked,
    while the list carries the stored password hash itself. *)
Theorem list_userpass_by_realm_exact `{L : DbLibs} `{!DbLaws} (d : Database) (r : string) :
  db_wf d →
  ∃ l, list_userpass_by_realm r d = (Ok l, d) ∧
    Sorted String.le (up_username <$> l) ∧ NoDup (up_username <$> l) ∧
    (∀ x, x ∈ l → up_realm x = r ∧
       get_userpass r (up_username x) d = (Ok (Some (without_hash x)), d) ∧
       ∃ row, db_userpass d !! (r, up_username x) = Some row ∧
         up_password_hash x = ur_password row) ∧
    (∀ u, u ∉ up_username <$> l → get_userpass r u d = (Ok None, d)).
Proof.
  intros Hwf.
  pose (rows := order_by (λ x, x.1.2) (filter (λ x, x.1.1 = r) (map_to_list (db_userpass d)))).
  assert (Hrows : ∀ r' u row, (r', u, row) ∈ rows ↔ r' = r ∧ db_userpass d !! (r', u) = Some row).
  { intros r' u row. unfold rows.
    by rewrite elem_of_order_by, list_elem_of_filter, elem_of_map_to_list. }
  destruct (userpass_rows_ok d rows) as [l Hl]; [done| |].
  { intros [[r' u] row] [-> Hx]%Hrows. by apply elem_of_map_to_list. }
  assert (Hus : up_username <$> l = (λ x, x.1.2) <$> rows).
  { eapply try_map_fmap, Hl. intros [[r' u] row] x Hx. by apply row_to_userpass_key in Hx as (_ & ? & _). }
  assert (Hsort : Sorted String.le (up_username <$> l)).
  { rewrite Hus. rewrite <-Sorted_key_le. apply order_by_sorted. }
  exists l. split_and!; [|done| | |].
  - unfold list_userpass_by_realm, bind, gets, of_result. fold rows. by rewrite Hl.
  - rewrite Hus. unfold rows. rewrite (order_by_perm _). apply NoDup_fmap_2_strong.
    + intros [[r1 u1] x1] [[r2 u2] x2] [? H1%elem_of_map_to_list]%list_elem_of_filter
        [? H2%elem_of_map_to_list]%list_elem_of_filter ?. simplify_eq/=. congruence.
    + apply NoDup_filter, NoDup_map_to_list.
  - intros x Hx. apply (try_map_elem_of _ _ _ _ Hl) in Hx as ([[r' u] row] & [-> Hrow]%Hrows & Hx).
    destruct (row_to_userpass_key _ _ _ _ Hx) as (Hr & Hu & Hh). rewrite Hr, Hu.
    split_and!; [done|by eapply get_userpass_without_hash|eauto].
  - intros u Hu. apply get_userpass_None. apply eq_None_not_Some. intros [row Hrow].
    apply Hu. rewrite Hus. apply list_elem_of_fmap. exists (r, u, row). by rewrite Hrows.
Qed.
Lemma list_userpass_by_realm_exact_witness :
  db_wf toy_db ∧ ∃ l, list_userpass_by_realm "_" toy_db = (Ok l, toy_db).
Proof.
  assert (db_wf toy_db) as Hwf by apply reachable_db_wf, toy_db_reachable. split; [done|].
  destruct (list_userpass_by_realm_exact toy_db "_" Hwf) as (l & Hl & _). by exists l.
Defined.


(** Deleting a realm removes the realm, the credentials of its users and the memberships in
    it, and nothing else: administrators, tokens, roles and all other realms' rows stay. *)
Theorem delete_realm_cascade `{L : DbLibs} (d : Database) (id : string) :
  ∃ d', delete_realm id d = (Ok (), d') ∧
    (∀ r, db_realm d' !! r = if decide (r = id) then None else db_realm d !! r) ∧
    (∀ r u, db_userpass d' !! (r, u) = if decide (r = id) then None else db_userpass d !! (r, u)) ∧
    (∀ a r, (a, r) ∈ db_admin_realms d' ↔ (a, r) ∈ db_admin_realms d ∧ r ≠ id) ∧
    db_admin d' = db_admin d ∧ db_app_tokens d' = db_app_tokens d ∧
    db_approle_roles d' = db_approle_roles d ∧ db_app_secret_ids d' = db_app_secret_ids d ∧
    db_k8s_roles d' = db_k8s_roles d.
Proof.
  eexists. split; [done|]. simpl. split_and!; try done.
  - intros r. case_decide; subst; by simplify_map_eq.
  - intros r u. case_decide; subst.
    + apply map_lookup_filter_None. right. intros ? _ []. done.
    + destruct (db_userpass d !! (r, u)) as [row|] eqn:Hrow.
      * by apply map_lookup_filter_Some.
      * apply map_lookup_filter_None. by left.
  - intros a r. rewrite elem_of_filter. simpl. tauto.
Qed.
