(* ===== verification/PgSim.v ===== *)
(** The credential store on PostgreSQL beside the one on SQLite ([PgDatabase.v], [DbOps.v]): the
    operations they are compared on, the relation between their tables, and how the statements,
    the updates of a table and the rows of the two sides correspond. *)
From S2P Require Import Prelude RustStd Models Passwords Totp Database DatabaseFacts Toy SqlServers Simulation DbOps PgDatabase.

(** The laws asked of the codecs: JSON texts hold no NUL byte, which JSON escapes. *)
Class PgLaws `{L : DbLibs, PL : PgLibs} : Prop := {
  #[global] law_db :: DbLaws;
  #[global] law_value_params :: SerdeValueLaws RealmAuthParams;
  #[global] law_value_map :: SerdeValueLaws (gmap string string);
  law_strings_text : ∀ (l : list string) t, to_json l = Ok t → no_nul t = true;
  law_claims_text : ∀ (c : gmap string Value) t, to_json c = Ok t → no_nul t = true;
}.

(** * The operations *)
Section operations.
Context {L : DbLibs} {PL : PgLibs}.
Definition pg_op (op : DbOp) : PgM DbAnswer :=
  match op with
  | OpInit salt => done_ (pg_init salt)
  | OpCreateRealm realm => done_ (pg_create_realm realm)
  | OpGetRealm id => answers AnsRealm (pg_get_realm id)
  | OpUpdateRealm realm => done_ (pg_update_realm realm)
  | OpDeleteRealm id => done_ (pg_delete_realm id)
  | OpListRealms => answers AnsRealms pg_list_realms
  | OpCreateUserpass userpass => done_ (pg_create_userpass userpass)
  | OpGetUserpass realm username => answers AnsUserpass (pg_get_userpass realm username)
  | OpUpdateUserpass userpass => done_ (pg_update_userpass userpass)
  | OpUpdateUserpassMetadata realm username change_password roles =>
      done_ (pg_update_userpass_metadata realm username change_password roles)
  | OpDeleteUserpass realm username => done_ (pg_delete_userpass realm username)
  | OpDeleteUserpassByUsername username => done_ (pg_delete_userpass_by_username username)
  | OpListUserpassByRealm realm => answers AnsUserpasses (pg_list_userpass_by_realm realm)
  | OpListAllUserpass => answers AnsUserpasses pg_list_all_userpass
  | OpValidateUserpass realm username password =>
      answers AnsBool (pg_validate_userpass realm username password)
  | OpCreateAdmin admin => done_ (pg_create_admin admin)
  | OpGetAdmin id => answers AnsAdmin (pg_get_admin id)
  | OpUpdateAdmin admin => done_ (pg_update_admin admin)
  | OpDeleteAdmin id => done_ (pg_delete_admin id)
  | OpListAdmins => answers AnsAdmins pg_list_admins
  | OpFindAdmins auth_method value =>
      answers AnsAdmins (pg_find_admins_by_auth_scheme auth_method value)
  | OpGenerateTotpSecret secret realm username =>
      answers AnsText (pg_generate_totp_secret secret realm username)
  | OpEnableTotp realm username totp_secret issuer =>
      done_ (pg_enable_totp realm username totp_secret issuer)
  | OpDisableTotp realm username => done_ (pg_disable_totp realm username)
  | OpGetTotpSecret realm username => answers AnsOptText (pg_get_totp_secret realm username)
  | OpIsTotpEnabled realm username => answers AnsOptBool (pg_is_totp_enabled realm username)
  | OpIssueAppToken token => done_ (pg_issue_app_token token)
  | OpLookupAppToken now token_hash => answers AnsToken (pg_lookup_app_token now token_hash)
  | OpRenewAppToken now token_hash => done_ (pg_renew_app_token now token_hash)
  | OpRevokeAppToken token_hash => done_ (pg_revoke_app_token token_hash)
  | OpCreateApprole role => done_ (pg_create_approle role)
  | OpGetApproleByRoleId role_id => answers AnsApprole (pg_get_approle_by_role_id role_id)
  | OpGetApproleByName name => answers AnsApprole (pg_get_approle_by_name name)
  | OpDeleteApprole name => done_ (pg_delete_approle name)
  | OpListApproleNames => answers AnsNames pg_list_approle_names
  | OpCreateSecretId secret_id => done_ (pg_create_secret_id secret_id)
  | OpConsumeSecretId now role_name secret_id_hash =>
      answers AnsOptText (pg_consume_secret_id now role_name secret_id_hash)
  | OpDestroySecretId role_name accessor => done_ (pg_destroy_secret_id role_name accessor)
  | OpCreateK8sRole role => done_ (pg_create_k8s_role role)
  | OpGetK8sRole name => answers AnsK8sRole (pg_get_k8s_role name)
  | OpDeleteK8sRole name => done_ (pg_delete_k8s_role name)
  | OpListK8sRoleNames => answers AnsNames pg_list_k8s_role_names
  end.

(** The caller's texts an operation sends; JSON texts come on top. *)
Definition db_op_texts (op : DbOp) : list string :=
  match op with
  | OpCreateRealm realm | OpUpdateRealm realm => [realm_id realm]
  | OpGetRealm id | OpDeleteRealm id => [id]
  | OpCreateUserpass u | OpUpdateUserpass u => [up_realm u; up_username u]
  | OpGetUserpass r u | OpUpdateUserpassMetadata r u _ _ | OpDeleteUserpass r u
  | OpValidateUserpass r u _ => [r; u]
  | OpDeleteUserpassByUsername u => [u]
  | OpListUserpassByRealm r => [r]
  | OpCreateAdmin a | OpUpdateAdmin a => admin_texts a ++ adm_realms a
  | OpGetAdmin id | OpDeleteAdmin id => [id]
  | OpFindAdmins _ v => [v]
  | OpEnableTotp _ u s _ => [s; u]
  | OpDisableTotp _ u | OpGetTotpSecret _ u | OpIsTotpEnabled _ u => [u]
  | OpIssueAppToken t => [tok_entity t]
  | OpCreateApprole r => [role_name r; role_role_id r]
  | OpGetApproleByRoleId r => [r]
  | OpGetApproleByName n | OpDeleteApprole n => [n]
  | OpCreateSecretId s => [sid_accessor s; sid_role_name s]
  | OpConsumeSecretId _ r _ => [r]
  | OpDestroySecretId r a => [a; r]
  | OpCreateK8sRole r => [k8s_name r; k8s_jwks_url r; k8s_bound_sa_names r; k8s_bound_sa_namespaces r]
      ++ opt_text (k8s_expected_issuer r) ++ [k8s_bound_audiences r]
  | OpGetK8sRole n | OpDeleteK8sRole n => [n]
  | _ => []
  end.
Definition jsonb_storable {A} `{SerdeValue A} (a : A) : Prop := ∀ v, to_value a = Ok v → jsonb_ok v = true.

(** What the two backends are compared on: a realm id both CHECK constraints judge alike, text that
    is UTF-8, clocks and lease durations whose sum fits, and no search by digital credentials. *)
Definition db_op_ok (op : DbOp) : Prop :=
  forallb no_nul (db_op_texts op) = true ∧
  match op with
  | OpInit salt => jsonb_storable (realm_auth_params app_realm)
  | OpCreateRealm realm =>
      realm_id_glob (realm_id realm) = realm_id_regex (realm_id realm) ∧
      jsonb_storable (realm_auth_params realm)
  | OpUpdateRealm realm => jsonb_storable (realm_auth_params realm)
  | OpCreateUserpass u | OpUpdateUserpass u => utf8_valid (up_password_hash u) = true
  | OpCreateAdmin a | OpUpdateAdmin a => ∀ c, adm_digital_credentials a = Some c → jsonb_storable c
  | OpFindAdmins auth_method _ => auth_method ≠ DigitalCredentials
  | OpEnableTotp _ u s issuer =>
      ∀ t, from_secret s (Some issuer) u None = Ok t → no_nul (totp_get_url t) = true
  | OpIssueAppToken t =>
      in_i64 (tok_expiry t) ∧ (0 ≤ tok_lease_duration_secs t < half_range)%Z
  | OpRenewAppToken now _ => (0 ≤ now < half_range)%Z
  | _ => True
  end.
End operations.

(** * The relation *)
Section relation.
Context {L : DbLibs} {PL : PgLibs}.

Definition realm_view (row : RealmRow) : option (RealmAuthParams * (Z * Z * Z)) :=
  match from_json (rr_auth_params row) with
  | Ok a => Some (a, (rr_cookie_max_age_seconds row, rr_max_stale_age_seconds row,
                      rr_certificate_max_age_seconds row))
  | Err _ => None
  end.
Definition pg_realm_view (row : PgRealmRow) : option (RealmAuthParams * (Z * Z * Z)) :=
  match from_value (pr_auth_params row) with
  | Ok a => Some (a, (pr_cookie_max_age_seconds row, pr_max_stale_age_seconds row,
                      pr_certificate_max_age_seconds row))
  | Err _ => None
  end.
(** An administrator without id and memberships. *)
Definition admin_view (row : AdminRow) : option (Admin * option Z) :=
  match row_to_admin "" [] row with Ok a => Some (a, ar_totp_enabled row) | Err _ => None end.
Definition pg_admin_view (row : PgAdminRow) : option (Admin * option Z) :=
  match pg_row_to_admin "" [] row with
  | Ok a => Some (a, bool_i64 <$> pa_totp_enabled row)
  | Err _ => None
  end.
Definition token_view (row : PgAppTokenRow) : AppTokenRow :=
  mkAppTokenRow (pt_entity row) (pt_policies row) (pt_expiry row) (bool_i64 (pt_renewable row))
    (pt_lease_duration_secs row) (pt_created_at row).
Definition role_view (row : PgAppRoleRow) : AppRoleRow :=
  mkAppRoleRow (po_role_id row) (po_secret_id_ttl_secs row) (po_token_ttl_secs row)
    (bool_i64 (po_bind_secret_id row)) (po_token_policies row).

Record pg_sim (p : PgDatabase) (d : Database) : Prop := {
  sim_realm : same_view pg_realm_view realm_view (pg_realm p) (db_realm d);
  sim_realm_ok : ∀ id row, db_realm d !! id = Some row → is_Some (realm_view row);
  sim_userpass : pg_userpass p = db_userpass d;
  sim_userpass_ok : ∀ k row, db_userpass d !! k = Some row → userpass_row_wf row;
  sim_admin : same_view pg_admin_view admin_view (pg_admin p) (db_admin d);
  sim_admin_ok : ∀ id row, db_admin d !! id = Some row → is_Some (admin_view row);
  sim_admin_ids : ∀ id row, db_admin d !! id = Some row → no_nul id = true;
  sim_admin_realms : pg_admin_realms p = db_admin_realms d;
  sim_app_tokens : same_view token_view id (pg_app_tokens p) (db_app_tokens d);
  sim_token_fits : ∀ h row, db_app_tokens d !! h = Some row → token_fits row;
  sim_approle_roles : same_view role_view id (pg_approle_roles p) (db_approle_roles d);
  sim_app_secret_ids : pg_app_secret_ids p = db_app_secret_ids d;
  sim_k8s_roles : pg_k8s_roles p = db_k8s_roles d;
}.
Lemma pg_sim_empty : pg_sim empty_pg_database empty_database.
Proof. by split; cbn; unfold same_view; rewrite ?fmap_empty. Qed.
End relation.

(** * Statements *)
Section statements.
Context {L : DbLibs} {PL : PgLibs}.
Abbreviation sim := (simulates pg_sim).

Lemma pg_params_ok texts js p :
  forallb no_nul texts = true → forallb jsonb_ok js = true → pg_params texts js p = (Ok (), p).
Proof. intros Ht Hj. unfold pg_params, of_result, pg_text. by rewrite Ht, Hj. Qed.
Lemma pg_select_run {A} texts (f : PgDatabase → A) p :
  forallb no_nul texts = true → pg_select texts f p = gets f p.
Proof. intros Ht. unfold pg_select, pg_sql, with_err, bind. by rewrite pg_params_ok. Qed.
Lemma pg_select_reads {A} texts (f : PgDatabase → A) : reads (pg_select texts f).
Proof. intros p. unfold pg_select, pg_sql, with_err, bind, pg_params, of_result, gets. by case_match. Qed.
Lemma sim_select {A A' B B'} (Q : B → B' → Prop) texts (f : PgDatabase → A) (f' : Database → A') k k' :
  forallb no_nul texts = true →
  (∀ p d, pg_sim p d → sim Q (k (f p)) (k' (f' d))) →
  sim Q (bind (pg_select texts f) k) (bind (gets f') k').
Proof.
  intros Ht Hk p d Hs. unfold bind at 1 3. rewrite pg_select_run by done. by apply Hk.
Qed.
Lemma sim_select_last {A A'} (Q : A → A' → Prop) texts (f : PgDatabase → A) (f' : Database → A') :
  forallb no_nul texts = true → (∀ p d, pg_sim p d → Q (f p) (f' d)) →
  sim Q (pg_select texts f) (gets f').
Proof. intros Ht Hk p d Hs. rewrite pg_select_run by done. split; [by apply Hk|done]. Qed.
Lemma sim_execute texts js f g :
  forallb no_nul texts = true → forallb jsonb_ok js = true →
  (∀ p d, pg_sim p d → pg_sim (f p) (g d)) →
  sim eq (pg_execute texts js f) (modify g).
Proof.
  intros Ht Hj Hf p d Hs. unfold pg_execute, pg_sql, with_err, bind.
  rewrite pg_params_ok by done. split; [done|by apply Hf].
Qed.
Lemma sim_insert texts js (c u k : PgDatabase → bool) (c' u' k' : Database → bool) f g (e : SqlxError → AuthDbError) :
  forallb no_nul texts = true → forallb jsonb_ok js = true →
  (∀ p d, pg_sim p d → c p = c' d ∧ u p = u' d ∧ k p = k' d ∧
    (u' d = true → k' d = true → pg_sim (f p) (g d))) →
  sim eq (with_err e (pg_params texts js ;;; pg_insert c u k f)) (with_err e (sql_insert c' u' k' g)).
Proof.
  intros Ht Hj H. apply sim_with_err. intros p d Hs. unfold bind. rewrite pg_params_ok by done.
  destruct (H p d Hs) as (Hc & Hu & Hk & Hf). unfold pg_insert, sql_insert. rewrite Hc, Hu, Hk.
  destruct (c' d), (u' d), (k' d); simpl; auto.
Qed.
End statements.

(** * Tables, one update at a time *)
Section updates.
Context {L : DbLibs} {PL : PgLibs}.
Implicit Types (p : PgDatabase) (d : Database).

Ltac sim_split := intros []; split; cbn; try done.

Lemma sim_insert_realm id v r p d :
  pg_realm_view v = realm_view r → is_Some (realm_view r) → pg_sim p d →
  pg_sim (set_pg_realm <[id := v]> p) (set_realm <[id := r]> d).
Proof.
  intros Hv Hr. sim_split; [by apply same_view_insert|].
  intros i row [[<- <-]|[_ Hrow]]%lookup_insert_Some; eauto.
Qed.
Lemma sim_alter_realm id v r p d :
  pg_realm_view v = realm_view r → is_Some (realm_view r) → pg_sim p d →
  pg_sim (set_pg_realm (alter (λ _, v) id) p) (set_realm (alter (λ _, r) id) d).
Proof.
  intros Hv Hr. sim_split; [by apply same_view_alter|].
  intros i row. rewrite lookup_alter_Some. intros [(<- & y & Hy & ->)|[_ Hrow]]; eauto.
Qed.
Lemma sim_set_userpass f p d :
  (∀ m, map_Forall (λ _ row, userpass_row_wf row) m → map_Forall (λ _ row, userpass_row_wf row) (f m)) →
  pg_sim p d → pg_sim (set_pg_userpass f p) (set_userpass f d).
Proof. intros Hf. sim_split; [by f_equal|]. by apply Hf. Qed.
Lemma sim_insert_admin id v r p d :
  pg_admin_view v = admin_view r → is_Some (admin_view r) → no_nul id = true → pg_sim p d →
  pg_sim (set_pg_admin <[id := v]> p) (set_admin <[id := r]> d).
Proof.
  intros Hv Hr Hid. sim_split; [by apply same_view_insert| |];
    intros i row [[<- <-]|[_ Hrow]]%lookup_insert_Some; eauto.
Qed.
Lemma sim_alter_admin id f g p d :
  (∀ v r, pg_admin_view v = admin_view r → is_Some (admin_view r) →
     pg_admin_view (f v) = admin_view (g r) ∧ is_Some (admin_view (g r))) → pg_sim p d →
  pg_sim (set_pg_admin (alter f id) p) (set_admin (alter g id) d).
Proof.
  intros Hf [? ? ? ? Ha Hok Hids]. split; cbn; try done.
  - apply map_eq. intros i. rewrite !lookup_fmap. pose proof (same_view_lookup _ _ _ _ i Ha) as Hi.
    destruct (decide (id = i)) as [->|Hne]; [|by rewrite !lookup_alter_ne by done].
    rewrite !lookup_alter_eq. destruct (pg_admin p !! i), (db_admin d !! i) eqn:Hrow; simplify_eq/=; [|done].
    f_equal. eapply Hf; eauto.
  - intros i row. rewrite lookup_alter_Some. intros [(<- & y & Hy & ->)|[_ Hrow]]; [|eauto].
    pose proof (same_view_lookup _ _ _ _ id Ha) as Hi. rewrite Hy in Hi.
    destruct (pg_admin p !! id); simplify_eq/=. eapply Hf; eauto.
  - intros i row. rewrite lookup_alter_Some. intros [(<- & y & Hy & ->)|[_ Hrow]]; eauto.
Qed.
Lemma sim_set_admin_realms f p d :
  pg_sim p d → pg_sim (set_pg_admin_realms f p) (set_admin_realms f d).
Proof. sim_split. by f_equal. Qed.
Lemma sim_set_app_tokens f g p d :
  same_view token_view id (f (pg_app_tokens p)) (g (db_app_tokens d)) →
  (∀ h row, g (db_app_tokens d) !! h = Some row → token_fits row) →
  pg_sim p d → pg_sim (set_pg_app_tokens f p) (set_app_tokens g d).
Proof. intros Hf Hg. sim_split. Qed.
Lemma sim_set_roles f g p d :
  same_view role_view id (f (pg_approle_roles p)) (g (db_approle_roles d)) →
  pg_sim p d → pg_sim (set_pg_approle_roles f p) (set_approle_roles g d).
Proof. intros Hf. sim_split. Qed.
Lemma sim_set_secret_ids f p d :
  pg_sim p d → pg_sim (set_pg_app_secret_ids f p) (set_app_secret_ids f d).
Proof. sim_split. by f_equal. Qed.
Lemma sim_set_k8s_roles f p d :
  pg_sim p d → pg_sim (set_pg_k8s_roles f p) (set_k8s_roles f d).
Proof. sim_split. by f_equal. Qed.
Lemma sim_delete_realm id p d :
  pg_sim p d → pg_sim (set_pg_realm (delete id) p) (set_realm (delete id) d).
Proof.
  sim_split; [by apply same_view_delete|]. intros i row [_ Hrow]%lookup_delete_Some. eauto.
Qed.
Lemma sim_delete_admin id p d :
  pg_sim p d → pg_sim (set_pg_admin (delete id) p) (set_admin (delete id) d).
Proof.
  sim_split; [by apply same_view_delete| |]; intros i row [_ Hrow]%lookup_delete_Some; eauto.
Qed.
End updates.

(** * Rows and the values they hold *)
Section rows.
Context {L : DbLibs} {PL : PgLibs} {LAWS : PgLaws}.
Implicit Types (p : PgDatabase) (d : Database).

Lemma realm_rows i v r :
  pg_realm_view v = realm_view r → is_Some (realm_view r) →
  pg_row_to_realm (i, v) = row_to_realm (i, r) ∧ is_ok (row_to_realm (i, r)) = true.
Proof.
  unfold pg_realm_view, realm_view, pg_row_to_realm, row_to_realm.
  destruct (from_value (pr_auth_params v)), (from_json (rr_auth_params r)); simpl;
    intros Hv [x Hx]; try discriminate. by injection Hv as -> -> -> ->.
Qed.
Lemma admin_rows i realms v r :
  pg_admin_view v = admin_view r → is_Some (admin_view r) →
  pg_row_to_admin i realms v = row_to_admin i realms r ∧ is_ok (row_to_admin i realms r) = true.
Proof.
  unfold pg_admin_view, admin_view, pg_row_to_admin, row_to_admin.
  destruct v as [vu vj vf [vd|] vc vt vs vo], r as [ru rj rf [rd|] rc rt rs ro]; simpl;
    try destruct (from_value vd); try destruct (from_json rd); simpl; intros Hv [x Hx];
    try discriminate; injection Hv; intros; split; congruence.
Qed.
(** Both rows name the same credentials. *)
Lemma admin_columns v r :
  pg_admin_view v = admin_view r → is_Some (admin_view r) →
  pa_userpass v = ar_userpass r ∧ pa_jwt v = ar_jwt r ∧ pa_fido2 v = ar_fido2 r ∧
  pa_certificate v = ar_certificate r ∧ pa_totp_secret v = ar_totp_secret r ∧
  bool_i64 <$> pa_totp_enabled v = ar_totp_enabled r.
Proof.
  unfold pg_admin_view, admin_view, pg_row_to_admin, row_to_admin.
  destruct v as [vu vj vf [vd|] vc vt vs vo], r as [ru rj rf [rd|] rc rt rs ro]; simpl;
    try destruct (from_value vd); try destruct (from_json rd); simpl; intros Hv [x Hx];
    try discriminate; injection Hv; intros; split_and!; congruence.
Qed.

(** Serialising for the two backends. *)
Lemma auth_params_sim realm :
  jsonb_storable (realm_auth_params realm) →
  result_rel (λ v t, forallb jsonb_ok [v] = true ∧ from_value v = Ok (realm_auth_params realm) ∧
                     from_json t = Ok (realm_auth_params realm))
    (pg_serialize_auth_params realm) (serialize_auth_params realm).
Proof.
  intros Hj. unfold pg_serialize_auth_params, serialize_auth_params.
  destruct (serde_value_roundtrip (realm_auth_params realm)) as (v & Hv & Hv').
  destruct (serde_roundtrip (realm_auth_params realm)) as (t & Ht & Ht'). rewrite Hv, Ht. simpl.
  by rewrite (Hj v Hv).
Qed.
Lemma digital_credentials_sim a :
  (∀ c, adm_digital_credentials a = Some c → jsonb_storable c) →
  result_rel (λ v t, forallb jsonb_ok (opt_value v) = true ∧
      pg_admin_view (pg_admin_row a v) = admin_view (admin_row a t) ∧
      is_Some (admin_view (admin_row a t)))
    (pg_serialize_digital_credentials a) (serialize_digital_credentials a).
Proof.
  intros Hj. unfold pg_serialize_digital_credentials, serialize_digital_credentials, pg_admin_view,
    admin_view, pg_row_to_admin, row_to_admin.
  destruct a as [i rs u j f [c|] cert te ts tu]; simpl in *.
  - destruct (serde_value_roundtrip c) as (v & Hv & Hv'). destruct (serde_roundtrip c) as (t & Ht & Ht').
    rewrite Hv, Ht. simpl. rewrite Hv', Ht'. simpl. rewrite (Hj c eq_refl v Hv).
    split; [done|]. split; [|by eexists]. destruct te as [[]|]; done.
  - split; [done|]. split; [|by eexists]. destruct te as [[]|]; done.
Qed.
Lemma roles_text roles t : serialize_roles roles = Ok t → no_nul t = true.
Proof. unfold serialize_roles. intros H%map_err_ok. by eapply law_strings_text. Qed.
Lemma claims_text claims o : serialize_extra_claims claims = Ok o → forallb no_nul (opt_text o) = true.
Proof.
  unfold serialize_extra_claims. destruct claims as [c|]; simpl; [|by intros [= <-]].
  destruct (to_json c) as [t|] eqn:Ht; simpl; [|done]. intros [= <-]. simpl.
  by rewrite (law_claims_text _ _ Ht).
Qed.
Lemma policies_text l : no_nul (to_json_or_empty l) = true.
Proof. unfold to_json_or_empty. destruct (to_json l) eqn:Ht; [|done]. by eapply law_strings_text. Qed.
End rows.
