(* ===== verification/PgDatabaseSpec.v ===== *)
(** The credential store on PostgreSQL simulates the one on SQLite, operation by operation and for
    every sequence of operations ([PgSim.v] holds the relation). *)
From S2P Require Import Prelude RustStd Models Passwords Totp Database DatabaseFacts Toy SqlServers Simulation DbOps PgDatabase PgSim.
From stdpp Require Import sorting.

(** * Every operation *)
Section simulation.
Context {L : DbLibs} {PL : PgLibs} {LAWS : PgLaws}.
Abbreviation sim := (simulates (E := AuthDbError) pg_sim).
Implicit Types (p : PgDatabase) (d : Database).

(** ** Realms *)
Lemma sim_create_realm realm :
  no_nul (realm_id realm) = true → realm_id_glob (realm_id realm) = realm_id_regex (realm_id realm) →
  jsonb_storable (realm_auth_params realm) → sim eq (pg_create_realm realm) (create_realm realm).
Proof.
  intros Ht Hid Hj. eapply sim_bind; [by apply sim_of_result, auth_params_sim|].
  intros v t (Hv & Hv' & Ht'). apply sim_insert; [by simpl; rewrite Ht|done|].
  intros p d Hs. split_and!; [done| |done|].
  - apply bool_decide_ext. eapply same_view_none, sim_realm, Hs.
  - intros _ _. apply sim_insert_realm; [| |done]; unfold pg_realm_view, realm_view; simpl;
      rewrite ?Hv', Ht'; [done|by eexists].
Qed.
Lemma realm_lookup id p d : pg_sim p d →
  transpose ((λ row, pg_row_to_realm (id, row)) <$> pg_realm p !! id) =
  transpose ((λ row, row_to_realm (id, row)) <$> db_realm d !! id).
Proof.
  intros Hs. pose proof (same_view_lookup _ _ _ _ id (sim_realm _ _ Hs)) as Hv.
  pose proof (sim_realm_ok _ _ Hs id) as Hok.
  destruct (pg_realm p !! id) as [v|], (db_realm d !! id) as [r|]; try done. injection Hv as Hv.
  destruct (realm_rows id v r Hv) as [Heq _]; [by apply Hok|]. cbn [fmap option_fmap option_map].
  by rewrite Heq.
Qed.
Lemma sim_get_realm id : no_nul id = true → sim eq (pg_get_realm id) (get_realm id).
Proof.
  intros Ht. apply sim_select; [by simpl; rewrite Ht|]. intros p d Hs.
  apply sim_of_result, result_rel_eq, realm_lookup, Hs.
Qed.
Lemma sim_update_realm realm :
  no_nul (realm_id realm) = true → jsonb_storable (realm_auth_params realm) →
  sim eq (pg_update_realm realm) (update_realm realm).
Proof.
  intros Ht Hj. eapply sim_bind; [by apply sim_of_result, auth_params_sim|].
  intros v t (Hv & Hv' & Ht'). apply sim_execute; [by simpl; rewrite Ht|done|]. intros p d Hs.
  apply sim_alter_realm; [| |done]; unfold pg_realm_view, realm_view; simpl;
    rewrite ?Hv', Ht'; [done|by eexists].
Qed.
Lemma sim_delete_realm_op id : no_nul id = true → sim eq (pg_delete_realm id) (delete_realm id).
Proof.
  intros Ht. apply sim_execute; [by simpl; rewrite Ht|done|]. intros p d Hs.
  apply (sim_set_admin_realms (filter (λ ar, ar.2 ≠ id))), sim_set_userpass; [|by apply sim_delete_realm].
  intros m. apply userpass_filter.
Qed.
Lemma pg_order_by_perm {A} (key : A → string) l : pg_order_by key l ≡ₚ l.
Proof. apply merge_sort_Permutation. Qed.
Lemma sim_list_realms : sim (≡ₚ) pg_list_realms list_realms.
Proof.
  apply sim_gets. intros p d Hs. apply sim_of_result.
  eapply same_view_decode; [apply sim_realm, Hs| |apply pg_order_by_perm|apply order_by_perm].
  intros i v r Hrow Hv. apply realm_rows; [done|]. by eapply sim_realm_ok.
Qed.

(** ** Username/password entries *)
Lemma sim_create_userpass u :
  no_nul (up_realm u) = true → no_nul (up_username u) = true → utf8_valid (up_password_hash u) = true →
  sim eq (pg_create_userpass u) (create_userpass u).
Proof.
  intros Hr Hu Hutf. apply sim_pure. intros roles Hroles. apply sim_pure. intros claims Hclaims.
  apply sim_insert; [|done|].
  - rewrite forallb_app, (claims_text _ _ Hclaims). simpl. by rewrite Hr, Hu, (roles_text _ _ Hroles).
  - intros p d Hs. split_and!; [done| | |].
    + by rewrite (sim_userpass _ _ Hs).
    + apply bool_decide_ext. eapply same_view_is_Some, sim_realm, Hs.
    + intros _ _. apply sim_set_userpass; [|done]. intros m Hm. apply map_Forall_insert_2; [|done].
      split; simpl; [by eapply serialize_roles_decodes| |done].
      intros t. by eapply serialize_extra_claims_decodes.
Qed.
Lemma sim_get_userpass r u :
  no_nul r = true → no_nul u = true → sim eq (pg_get_userpass r u) (get_userpass r u).
Proof.
  intros Hr Hu. apply sim_select; [by simpl; rewrite Hr, Hu|]. intros p d Hs.
  rewrite (sim_userpass _ _ Hs). destruct (db_userpass d !! (r, u)); [|by apply sim_ret].
  by apply sim_of_result, result_rel_eq.
Qed.
Lemma sim_update_userpass u :
  no_nul (up_realm u) = true → no_nul (up_username u) = true → utf8_valid (up_password_hash u) = true →
  sim eq (pg_update_userpass u) (update_userpass u).
Proof.
  intros Hr Hu Hutf. apply sim_pure. intros roles Hroles. apply sim_pure. intros claims Hclaims.
  apply sim_execute; [|done|].
  - rewrite forallb_app, (claims_text _ _ Hclaims). simpl. by rewrite Hr, Hu, (roles_text _ _ Hroles).
  - intros p d Hs. apply sim_set_userpass; [|done]. intros m Hm k row. rewrite lookup_alter_Some.
    intros [(_ & y & Hy & ->)|[_ Hrow]]; [|by apply (Hm k)].
    split; simpl; [by eapply serialize_roles_decodes| |done].
    intros t. by eapply serialize_extra_claims_decodes.
Qed.
Lemma sim_update_userpass_metadata r u c roles :
  no_nul r = true → no_nul u = true →
  sim eq (pg_update_userpass_metadata r u c roles) (update_userpass_metadata r u c roles).
Proof.
  intros Hr Hu. apply sim_pure. intros t Ht.
  apply sim_execute; [by simpl; rewrite Hr, Hu, (roles_text _ _ Ht)|done|].
  intros p d Hs. apply sim_set_userpass; [|done]. intros m Hm k row. rewrite lookup_alter_Some.
  intros [(_ & y & Hy & ->)|[_ Hrow]]; [|by apply (Hm k)]. destruct (Hm _ _ Hy).
  split; simpl; [by eapply serialize_roles_decodes|done..].
Qed.
Lemma sim_delete_userpass r u :
  no_nul r = true → no_nul u = true → sim eq (pg_delete_userpass r u) (delete_userpass r u).
Proof.
  intros Hr Hu. apply sim_execute; [by simpl; rewrite Hr, Hu|done|]. intros p d Hs.
  apply sim_set_userpass; [|done]. intros m Hm. by apply map_Forall_delete.
Qed.
Lemma sim_delete_userpass_by_username u :
  no_nul u = true → sim eq (pg_delete_userpass_by_username u) (delete_userpass_by_username u).
Proof.
  intros Hu. apply sim_execute; [by simpl; rewrite Hu|done|]. intros p d Hs.
  apply sim_set_userpass; [|done]. intros m. apply userpass_filter.
Qed.
(** Rows of equal tables in two orders. *)
Lemma userpass_lists p d l l1 l2 :
  pg_sim p d → (∀ x, x ∈ l → x ∈ map_to_list (db_userpass d)) → l1 ≡ₚ l → l2 ≡ₚ l →
  result_rel (≡ₚ) (try_map row_to_userpass l1) (try_map row_to_userpass l2).
Proof.
  intros Hs Hl. apply try_map_two_orders.
  - by apply Forall_Forall2_diag, Forall_true.
  - intros [[r u] row] Hin%Hl%elem_of_map_to_list. apply row_to_userpass_ok. by eapply sim_userpass_ok.
Qed.
Lemma sim_list_userpass_by_realm r :
  no_nul r = true → sim (≡ₚ) (pg_list_userpass_by_realm r) (list_userpass_by_realm r).
Proof.
  intros Hr. apply sim_select; [by simpl; rewrite Hr|]. intros p d Hs. apply sim_of_result.
  rewrite (sim_userpass _ _ Hs).
  eapply (userpass_lists p d); [done| |apply pg_order_by_perm|apply order_by_perm].
  by intros x [_ Hx]%list_elem_of_filter.
Qed.
Lemma sim_list_all_userpass : sim (≡ₚ) pg_list_all_userpass list_all_userpass.
Proof.
  apply sim_gets. intros p d Hs. apply sim_of_result. rewrite (sim_userpass _ _ Hs).
  eapply (userpass_lists p d); [done| |by rewrite !pg_order_by_perm|apply order_by2_perm]. done.
Qed.
Lemma sim_validate_userpass r u pw :
  no_nul r = true → no_nul u = true → sim eq (pg_validate_userpass r u pw) (validate_userpass r u pw).
Proof.
  intros Hr Hu. apply sim_select; [by simpl; rewrite Hr, Hu|]. intros p d Hs.
  rewrite (sim_userpass _ _ Hs). destruct (db_userpass d !! (r, u)); [|by apply sim_throw].
  by apply sim_of_result, result_rel_eq.
Qed.

(** ** Admins *)
Lemma sim_insert_admin_realm a r :
  no_nul a = true → no_nul r = true →
  sim eq (pg_sql (pg_insert_admin_realm a r)) (sql (insert_admin_realm a r)).
Proof.
  intros Ha Hr. apply sim_insert; [by simpl; rewrite Ha, Hr|done|]. intros p d Hs. split_and!; [done| | |].
  - by rewrite (sim_admin_realms _ _ Hs).
  - f_equal; apply bool_decide_ext; [eapply same_view_is_Some, sim_admin, Hs|].
    eapply same_view_is_Some, sim_realm, Hs.
  - intros _ _. by apply sim_set_admin_realms.
Qed.
Lemma sim_insert_admin_realms a realms :
  no_nul a = true → forallb no_nul realms = true →
  sim eq (for_each (λ r, pg_sql (pg_insert_admin_realm a r)) realms)
         (for_each (λ r, sql (insert_admin_realm a r)) realms).
Proof.
  intros Ha Hr. apply sim_for_each. intros r Hin. apply sim_insert_admin_realm; [done|].
  rewrite forallb_forall in Hr. by apply Hr, list_elem_of_In.
Qed.
Lemma sim_create_admin a :
  forallb no_nul (admin_texts a ++ adm_realms a) = true →
  (∀ c, adm_digital_credentials a = Some c → jsonb_storable c) →
  sim eq (pg_create_admin a) (create_admin a).
Proof.
  rewrite forallb_app. intros [Ht Hr]%andb_true_iff Hj.
  assert (no_nul (adm_id a) = true) as Hid by by apply andb_true_iff in Ht as [? _].
  eapply sim_bind; [by apply sim_of_result, digital_credentials_sim|]. intros v t (Hv & Hview & Hok).
  eapply sim_bind; [|intros _ _ _; by apply sim_insert_admin_realms].
  apply sim_insert; [done|done|]. intros p d Hs. split_and!; [done| |done|].
  - apply bool_decide_ext. eapply same_view_none, sim_admin, Hs.
  - intros _ _. by apply sim_insert_admin.
Qed.
Lemma sim_update_admin a :
  forallb no_nul (admin_texts a ++ adm_realms a) = true →
  (∀ c, adm_digital_credentials a = Some c → jsonb_storable c) →
  sim eq (pg_update_admin a) (update_admin a).
Proof.
  rewrite forallb_app. intros [Ht Hr]%andb_true_iff Hj.
  assert (no_nul (adm_id a) = true) as Hid by by apply andb_true_iff in Ht as [? _].
  eapply sim_bind; [by apply sim_of_result, digital_credentials_sim|]. intros v t (Hv & Hview & Hok).
  eapply sim_bind; [|intros _ _ _; eapply sim_bind; [|intros _ _ _; by apply sim_insert_admin_realms]].
  - apply sim_execute; [done|done|]. intros p d Hs. by apply sim_alter_admin.
  - apply sim_execute; [by simpl; rewrite Hid|done|]. intros p d Hs. by apply sim_set_admin_realms.
Qed.
Lemma sim_delete_admin_op id : no_nul id = true → sim eq (pg_delete_admin id) (delete_admin id).
Proof.
  intros Ht. apply sim_execute; [by simpl; rewrite Ht|done|]. intros p d Hs.
  by apply (sim_set_admin_realms (filter (λ ar, ar.1 ≠ id))), sim_delete_admin.
Qed.

Lemma realms_of_admin_run id p d :
  pg_sim p d → no_nul id = true → pg_realms_of_admin id p = (Ok (select_admin_realms id d), p).
Proof.
  intros Hs Ht. unfold pg_realms_of_admin. rewrite pg_select_run by (simpl; by rewrite Ht).
  unfold gets, select_admin_realms. by rewrite (sim_admin_realms _ _ Hs).
Qed.
Lemma pg_get_admin_run id p d :
  pg_sim p d → no_nul id = true → (pg_get_admin id p).1 = (get_admin id d).1.
Proof.
  intros Hs Ht. unfold pg_get_admin, get_admin, bind. rewrite pg_select_run by (simpl; by rewrite Ht).
  unfold gets. pose proof (same_view_lookup _ _ _ _ id (sim_admin _ _ Hs)) as Hv.
  pose proof (sim_admin_ok _ _ Hs id) as Hok.
  destruct (pg_admin p !! id) as [v|], (db_admin d !! id) as [r|]; try done. injection Hv as Hv.
  rewrite (realms_of_admin_run id p d) by done. unfold of_result.
  by destruct (admin_rows id (select_admin_realms id d) v r Hv) as [-> _]; [apply Hok|].
Qed.
Lemma pg_get_admin_reads id : reads (pg_get_admin id).
Proof.
  apply reads_bind; [apply pg_select_reads|]. intros [row|]; [|apply reads_ret].
  apply reads_bind; [apply pg_select_reads|]. intros realms. apply reads_of_result.
Qed.
Lemma sim_get_admin id : no_nul id = true → sim eq (pg_get_admin id) (get_admin id).
Proof.
  intros Ht. apply sim_reads; [apply pg_get_admin_reads|apply get_admin_reads|].
  intros p d Hs. apply result_rel_eq. by apply pg_get_admin_run.
Qed.
Lemma sim_list_admins : sim (≡ₚ) pg_list_admins list_admins.
Proof.
  assert (∀ x : string * PgAdminRow, reads (let '(i, row) := x in
    let* realms := pg_realms_of_admin i in of_result (pg_row_to_admin i realms row))) as Hpg.
  { intros [i row]. apply reads_bind; [apply pg_select_reads|]. intros realms. apply reads_of_result. }
  apply sim_reads; [apply reads_bind; [apply reads_gets|]; intros rows; by apply reads_map_m
    |apply list_admins_reads|].
  intros p d Hs. unfold pg_list_admins, list_admins, bind at 1 3, gets at 1 2.
  rewrite !map_m_reads by (done || (intros [i row]; solve_reads)).
  eapply same_view_decode; [apply sim_admin, Hs| |apply pg_order_by_perm|apply order_by_perm].
  intros i v r Hrow Hv. unfold bind. rewrite (realms_of_admin_run i p d) by (done || by eapply sim_admin_ids).
  unfold of_result, gets. simpl. apply admin_rows; [done|]. by eapply sim_admin_ok.
Qed.
Lemma pg_select_admins (sel : PgAdminRow → bool) s v p d :
  pg_sim p d →
  (∀ w r, pg_admin_view w = admin_view r → is_Some (admin_view r) →
     (sel w = true ↔ admin_column s r = Some v)) →
  fst <$> filter (λ r, sel r.2 = true) (map_to_list (pg_admin p)) =
  fst <$> filter (λ r, admin_column s r.2 = Some v) (map_to_list (db_admin d)).
Proof.
  intros Hs Hsel. apply selected_ids.
  eapply Forall2_impl; [exact (same_view_rows _ _ _ _ (sim_admin _ _ Hs))|].
  intros [i w] [i' r] (Hi & Hw & Hin%elem_of_map_to_list). simpl in *. split; [done|].
  apply Hsel; [done|]. by eapply sim_admin_ok.
Qed.
(** The administrators of these ids. *)
Lemma sim_found_admins ids p d :
  pg_sim p d → (∀ i, i ∈ ids → no_nul i = true) →
  (map_m pg_get_admin ids p).1 = (map_m get_admin ids d).1.
Proof.
  intros Hs Hids. rewrite !map_m_reads by (apply pg_get_admin_reads || apply get_admin_reads).
  apply try_map_Forall2, Forall_Forall2_diag, Forall_forall. intros i Hi.
  by apply pg_get_admin_run; [|apply Hids].
Qed.
Lemma pg_admin_query_run s v texts js sel :
  no_nul v = true → s ≠ DigitalCredentials → pg_admin_query s v = Ok (texts, js, sel) →
  forallb no_nul texts = true ∧ js = [] ∧
  (s ≠ Saml → ∀ w r, pg_admin_view w = admin_view r → is_Some (admin_view r) →
     (sel w = true ↔ admin_column s r = Some v)).
Proof.
  intros Hv Hd. destruct s; try done; simpl; intros [= <- <- <-]; simpl; rewrite ?Hv;
    (split; [done|]); (split; [done|]); intros Hsaml; try done; intros w r Hw Hr;
    destruct (admin_columns w r Hw Hr) as (H1 & H2 & H3 & H4 & _); rewrite ?H1, ?H2, ?H3, ?H4;
    apply bool_decide_eq_true.
Qed.
Lemma sim_find_admins s v :
  no_nul v = true → s ≠ DigitalCredentials →
  sim (≡ₚ) (pg_find_admins_by_auth_scheme s v) (find_admins_by_auth_scheme s v).
Proof.
  intros Hv Hd. destruct (decide (s = Saml)) as [->|Hsaml]; [by apply sim_ret|].
  assert (is_ok (pg_admin_query s v) = true) as Hq by by destruct s.
  destruct (pg_admin_query s v) as [[[texts js] sel]|] eqn:Heq; [|done].
  destruct (pg_admin_query_run s v texts js sel Hv Hd Heq) as (Ht & -> & Hsel).
  intros p d Hs.
  set (ids := fst <$> filter (λ r, admin_column s r.2 = Some v) (map_to_list (db_admin d))).
  assert (find_admins_by_auth_scheme s v d = (let* admins := map_m get_admin ids in ret (omap id admins)) d)
    as -> by by destruct s.
  assert (pg_find_admins_by_auth_scheme s v p =
    (let* admins := map_m pg_get_admin ids in ret (omap id admins)) p) as ->.
  { assert (pg_find_admins_by_auth_scheme s v p =
      (let* query := of_result (pg_admin_query s v) in
       let '(texts, jsonb, selected) := query in
       pg_sql (pg_params texts jsonb) ;;;
       let* rows := gets (λ q, fst <$> filter (λ r, selected r.2 = true) (map_to_list (pg_admin q))) in
       let* admins := map_m pg_get_admin rows in
       ret (omap id admins)) p) as -> by by destruct s.
    rewrite Heq. unfold bind at 1 2 3, of_result, pg_sql, with_err, gets. rewrite pg_params_ok by done.
    cbn [map_err]. unfold ids. by rewrite (pg_select_admins sel s v p d Hs (Hsel Hsaml)). }
  assert (∀ i, i ∈ ids → no_nul i = true) as Hids.
  { intros i ([i' r] & -> & [_ Hin%elem_of_map_to_list]%list_elem_of_filter)%list_elem_of_fmap.
    by eapply sim_admin_ids. }
  pose proof (sim_found_admins ids p d Hs Hids) as Hm. unfold bind, ret.
  pose proof (reads_map_m pg_get_admin ids pg_get_admin_reads p) as Hp.
  pose proof (reads_map_m get_admin ids get_admin_reads d) as Hd'.
  destruct (map_m pg_get_admin ids p) as [r1 p'], (map_m get_admin ids d) as [r2 d']. simpl in *. subst.
  destruct r2; simpl; (split; [reflexivity|done]).
Qed.

(** ** TOTP *)
Lemma sim_generate_totp_secret secret r u :
  sim eq (pg_generate_totp_secret secret r u) (generate_totp_secret secret r u).
Proof. apply sim_pure. intros t _. by apply sim_ret. Qed.
Lemma totp_capable_rows v r :
  pg_admin_view v = admin_view r → is_Some (admin_view r) → pg_totp_capable v = totp_capable r.
Proof.
  intros Hv Hr. destruct (admin_columns v r Hv Hr) as (Hu & Hj & _).
  unfold pg_totp_capable, totp_capable. by rewrite Hu, Hj.
Qed.
Lemma set_totp_rows b secret url v r :
  pg_admin_view v = admin_view r → is_Some (admin_view r) →
  pg_admin_view (pg_set_totp b secret url v) = admin_view (set_totp (bool_i64 b) secret url r) ∧
  is_Some (admin_view (set_totp (bool_i64 b) secret url r)).
Proof.
  intros Hv Hr. unfold pg_set_totp, set_totp. rewrite (totp_capable_rows v r) by done.
  destruct (totp_capable r); [|done]. revert Hv Hr.
  unfold pg_admin_view, admin_view, pg_row_to_admin, row_to_admin.
  destruct v as [vu vj vf [vd|] vc vt vs vo], r as [ru rj rf [rd|] rc rt rs ro]; simpl;
    try destruct (from_value vd); try destruct (from_json rd); simpl; intros Hv [x Hx];
    try discriminate; injection Hv; intros; split; try (by eexists); destruct b; simpl; congruence.
Qed.
Lemma sim_enable_totp r u secret issuer :
  no_nul secret = true → no_nul u = true →
  (∀ t, from_secret secret (Some issuer) u None = Ok t → no_nul (totp_get_url t) = true) →
  sim eq (pg_enable_totp r u secret issuer) (enable_totp r u secret issuer).
Proof.
  intros Hs Hu Hurl. apply sim_pure. intros t Ht.
  assert (no_nul (totp_get_url t) = true) as Hl by (apply Hurl; by apply map_err_ok in Ht).
  apply sim_execute; [by simpl; rewrite Hs, Hl, Hu|done|]. intros p d Hsim.
  apply sim_alter_admin; [|done]. intros v row. apply (set_totp_rows true).
Qed.
Lemma sim_disable_totp r u : no_nul u = true → sim eq (pg_disable_totp r u) (disable_totp r u).
Proof.
  intros Hu. apply sim_execute; [by simpl; rewrite Hu|done|]. intros p d Hsim.
  apply sim_alter_admin; [|done]. intros v row. apply (set_totp_rows false).
Qed.
Lemma totp_rows u p d :
  pg_sim p d →
  match pg_select_totp_row u p, select_totp_row u d with
  | Some v, Some r => pa_totp_secret v = ar_totp_secret r ∧
                      bool_i64 <$> pa_totp_enabled v = ar_totp_enabled r
  | None, None => True
  | _, _ => False
  end.
Proof.
  intros Hs. unfold pg_select_totp_row, select_totp_row.
  pose proof (same_view_lookup _ _ _ _ u (sim_admin _ _ Hs)) as Hv. pose proof (sim_admin_ok _ _ Hs u) as Hok.
  destruct (pg_admin p !! u) as [v|], (db_admin d !! u) as [r|]; try done. injection Hv as Hv.
  specialize (Hok r eq_refl). rewrite (totp_capable_rows v r) by done.
  destruct (totp_capable r); [|done]. by destruct (admin_columns v r Hv Hok) as (_ & _ & _ & _ & ? & ?).
Qed.
Lemma sim_get_totp_secret r u p d :
  no_nul u = true → pg_sim p d →
  totp_answer (map_ok Some (col (sqlite_null_string "totp_secret")))
    (pg_get_totp_secret r u p).1 (get_totp_secret r u d).1 ∧
  (pg_get_totp_secret r u p).2 = p ∧ (get_totp_secret r u d).2 = d.
Proof.
  intros Hu Hs. unfold pg_get_totp_secret, get_totp_secret, bind.
  rewrite pg_select_run by (simpl; by rewrite Hu). unfold gets. pose proof (totp_rows u p d Hs) as Hrow.
  destruct (pg_select_totp_row u p) as [v|], (select_totp_row u d) as [row|]; try done; [|by split_and!; [left|..]].
  destruct Hrow as [Hsec _]. simpl. rewrite Hsec. unfold totp_answer.
  destruct (ar_totp_secret row); split_and!; auto.
Qed.
Lemma sim_is_totp_enabled r u p d :
  no_nul u = true → pg_sim p d →
  totp_answer (map_ok (λ v, Some (bool_decide (v ≠ 0%Z))) (col (sqlite_null_i64 "totp_enabled")))
    (pg_is_totp_enabled r u p).1 (is_totp_enabled r u d).1 ∧
  (pg_is_totp_enabled r u p).2 = p ∧ (is_totp_enabled r u d).2 = d.
Proof.
  intros Hu Hs. unfold pg_is_totp_enabled, is_totp_enabled, bind.
  rewrite pg_select_run by (simpl; by rewrite Hu). unfold gets. pose proof (totp_rows u p d Hs) as Hrow.
  destruct (pg_select_totp_row u p) as [v|], (select_totp_row u d) as [row|]; try done; [|by split_and!; [left|..]].
  destruct Hrow as [_ Hen]. simpl. rewrite <-Hen. unfold totp_answer.
  destruct (pa_totp_enabled v) as [[]|]; split_and!; auto.
Qed.

(** ** App tokens *)
Lemma sim_issue_app_token t :
  no_nul (tok_entity t) = true → in_i64 (tok_expiry t) →
  (0 ≤ tok_lease_duration_secs t < half_range)%Z →
  sim eq (pg_issue_app_token t) (Database.issue_app_token t).
Proof.
  intros He Hx Hl. apply sim_insert; [by simpl; rewrite He, policies_text|done|].
  intros p d Hs. split_and!; [done| |done|].
  - apply bool_decide_ext. eapply same_view_none, sim_app_tokens, Hs.
  - intros _ _. apply sim_set_app_tokens; [|  |done].
    + apply same_view_insert; [apply sim_app_tokens, Hs|done].
    + intros h row [[_ <-]|[_ Hrow]]%lookup_insert_Some; [done|]. by eapply sim_token_fits.
Qed.
Lemma token_lookup h p d : pg_sim p d →
  db_app_tokens d !! h = token_view <$> pg_app_tokens p !! h.
Proof.
  intros Hs. pose proof (same_view_lookup _ _ _ _ h (sim_app_tokens _ _ Hs)) as Hv.
  by rewrite Hv, option_fmap_id.
Qed.
Lemma sim_lookup_app_token now h : sim eq (pg_lookup_app_token now h) (lookup_app_token now h).
Proof.
  apply sim_gets. intros p d Hs. pose proof (sim_token_fits _ _ Hs h) as Hfits.
  rewrite (token_lookup h p d Hs) in *. destruct (pg_app_tokens p !! h) as [v|]; [|by apply sim_ret].
  simpl in *. destruct (Hfits _ eq_refl) as [Hx _]. simpl in Hx.
  case_decide; [|by apply sim_ret].
  assert (row_to_app_token h (token_view v) = Ok (pg_row_to_app_token h v)) as ->.
  { unfold row_to_app_token, column_i64. simpl. rewrite decide_True by done. simpl.
    unfold pg_row_to_app_token. by destruct (pt_renewable v). }
  intros p' d' Hs'. by split.
Qed.
Lemma sim_revoke_app_token h : sim eq (pg_revoke_app_token h) (revoke_app_token h).
Proof.
  apply sim_modify. intros p d Hs. apply sim_set_app_tokens; [| |done].
  - apply same_view_delete, sim_app_tokens, Hs.
  - intros i row [_ Hrow]%lookup_delete_Some. by eapply sim_token_fits.
Qed.
Lemma renewable_rows now v : pg_renewable_row now v ↔ renewable_row now (token_view v).
Proof. unfold pg_renewable_row, renewable_row. simpl. by destruct (pt_renewable v); simpl; naive_solver. Qed.
Lemma sim_renew_app_token now h :
  (0 ≤ now < half_range)%Z → sim eq (pg_renew_app_token now h) (renew_app_token now h).
Proof.
  intros Hnow p d Hs. pose proof (sim_token_fits _ _ Hs) as Hfits.
  rewrite renew_app_token_by_row. rewrite (token_lookup h p d Hs).
  unfold pg_renew_app_token, bind, gets, of_result, modify, throw, ret.
  destruct (pg_app_tokens p !! h) as [v|] eqn:Hv; [|done]. simpl.
  assert (db_app_tokens d !! h = Some (token_view v)) as Hrow by by rewrite (token_lookup h p d Hs), Hv.
  destruct (Hfits h _ Hrow) as [_ Hl]. simpl in Hl.
  assert (in_i64 (now + pt_lease_duration_secs v)) as Hsum
    by (unfold in_i64, i64_min, i64_max, half_range in *; lia).
  destruct (decide (pg_renewable_row now v)) as [Hr|Hr].
  - rewrite decide_True by by apply renewable_rows. unfold bigint_add. rewrite decide_True by done.
    simpl. split; [done|]. apply sim_set_app_tokens; [| |done].
    + apply map_eq. intros i. rewrite !lookup_fmap. pose proof (token_lookup i p d Hs) as Hi.
      destruct (decide (h = i)) as [<-|Hne].
      * by rewrite !lookup_alter_eq, Hv, Hrow.
      * rewrite !lookup_alter_ne by done. by rewrite Hi, option_fmap_id.
    + intros i row. rewrite lookup_alter_Some. intros [(<- & y & Hy & ->)|[_ Hi]]; [|by apply (Hfits i)].
      rewrite Hrow in Hy. injection Hy as <-. by split.
  - rewrite decide_False by by rewrite <-renewable_rows.
    destruct (pt_renewable v); simpl; [|done]. by case_bool_decide.
Qed.

(** ** AppRole *)
Lemma role_lookup n p d : pg_sim p d →
  db_approle_roles d !! n = role_view <$> pg_approle_roles p !! n.
Proof.
  intros Hs. pose proof (same_view_lookup _ _ _ _ n (sim_approle_roles _ _ Hs)) as Hv.
  by rewrite Hv, option_fmap_id.
Qed.
Lemma role_rows n v : row_to_approle n (role_view v) = pg_row_to_approle n v.
Proof. unfold row_to_approle, pg_row_to_approle. simpl. by destruct (po_bind_secret_id v). Qed.
Lemma sim_create_approle r :
  no_nul (role_name r) = true → no_nul (role_role_id r) = true →
  sim eq (pg_create_approle r) (create_approle r).
Proof.
  intros Hn Hr. apply sim_insert; [by simpl; rewrite Hn, Hr, policies_text|done|].
  intros p d Hs. split_and!; [done| |done|].
  - apply bool_decide_ext. split; intros H n row Hrow.
    + rewrite (role_lookup n p d Hs) in Hrow. destruct (pg_approle_roles p !! n) as [v|] eqn:Hv; [|done].
      injection Hrow as <-. apply (H n v Hv).
    + apply (H n (role_view row)). by rewrite (role_lookup n p d Hs), Hrow.
  - intros _ _. apply sim_set_roles; [|done]. by apply same_view_insert; [apply sim_approle_roles, Hs|].
Qed.
Lemma sim_get_approle_by_role_id r :
  no_nul r = true → sim eq (pg_get_approle_by_role_id r) (get_approle_by_role_id r).
Proof.
  intros Hr. apply sim_select_last; [by simpl; rewrite Hr|]. intros p d Hs.
  pose proof (same_view_rows _ _ _ _ (sim_approle_roles _ _ Hs)) as Hrows.
  induction Hrows as [|[n v] [n' row] l l' (Hn & Hv & _) _ IH]; [done|]. simpl in *. subst n'. subst row.
  rewrite !filter_cons. simpl. case_decide; [|exact IH]. by rewrite role_rows.
Qed.
Lemma sim_get_approle_by_name n :
  no_nul n = true → sim eq (pg_get_approle_by_name n) (get_approle_by_name n).
Proof.
  intros Hn. apply sim_select_last; [by simpl; rewrite Hn|]. intros p d Hs.
  rewrite (role_lookup n p d Hs). destruct (pg_approle_roles p !! n); simpl; [|done]. by rewrite role_rows.
Qed.
Lemma sim_delete_approle n : no_nul n = true → sim eq (pg_delete_approle n) (delete_approle n).
Proof.
  intros Hn. apply sim_execute; [by simpl; rewrite Hn|done|]. intros p d Hs.
  apply sim_set_secret_ids, sim_set_roles; [|done]. apply same_view_delete, sim_approle_roles, Hs.
Qed.
Lemma sim_list_approle_names : sim (≡ₚ) pg_list_approle_names list_approle_names.
Proof.
  apply sim_gets_ret. intros p d Hs. rewrite (same_view_dom _ _ _ _ (sim_approle_roles _ _ Hs)).
  rewrite pg_order_by_perm. symmetry. apply order_by_perm.
Qed.

(** ** Secret ids and Kubernetes roles *)
Lemma sim_create_secret_id s :
  no_nul (sid_accessor s) = true → no_nul (sid_role_name s) = true →
  sim eq (pg_create_secret_id s) (create_secret_id s).
Proof.
  intros Ha Hr. apply sim_insert; [by simpl; rewrite Ha, Hr|done|]. intros p d Hs. split_and!; [done| | |].
  - by rewrite (sim_app_secret_ids _ _ Hs).
  - apply bool_decide_ext. eapply same_view_is_Some, sim_approle_roles, Hs.
  - intros _ _. by apply sim_set_secret_ids.
Qed.
Lemma sim_consume_secret_id now r h :
  no_nul r = true → sim eq (pg_consume_secret_id now r h) (consume_secret_id now r h).
Proof.
  intros Hr. apply sim_select; [by simpl; rewrite Hr|]. intros p d Hs. rewrite (sim_app_secret_ids _ _ Hs).
  destruct (map_to_list _) as [|[a row] l]; [by apply sim_ret|].
  eapply sim_bind; [|intros _ _ _; by apply sim_ret].
  assert (∀ f, sim eq (modify (set_pg_app_secret_ids f)) (modify (set_app_secret_ids f))) as Hset
    by (intros f; apply sim_modify; intros p' d' Hs'; by apply sim_set_secret_ids).
  cbv zeta. destruct (decide _); [apply Hset|]. destruct (decide _); [apply Hset|by apply sim_ret].
Qed.
Lemma sim_destroy_secret_id r a :
  no_nul r = true → no_nul a = true → sim eq (pg_destroy_secret_id r a) (destroy_secret_id r a).
Proof.
  intros Hr Ha. apply sim_execute; [by simpl; rewrite Hr, Ha|done|]. intros p d Hs.
  by apply sim_set_secret_ids.
Qed.
Lemma sim_create_k8s_role r :
  forallb no_nul (db_op_texts (OpCreateK8sRole r)) = true → sim eq (pg_create_k8s_role r) (create_k8s_role r).
Proof.
  intros Ht. apply sim_execute; [exact Ht|done|]. intros p d Hs. by apply sim_set_k8s_roles.
Qed.
Lemma sim_get_k8s_role n : no_nul n = true → sim eq (pg_get_k8s_role n) (get_k8s_role n).
Proof.
  intros Hn. apply sim_select_last; [by simpl; rewrite Hn|]. intros p d Hs. by rewrite (sim_k8s_roles _ _ Hs).
Qed.
Lemma sim_delete_k8s_role n : no_nul n = true → sim eq (pg_delete_k8s_role n) (delete_k8s_role n).
Proof.
  intros Hn. apply sim_execute; [by simpl; rewrite Hn|done|]. intros p d Hs. by apply sim_set_k8s_roles.
Qed.
Lemma sim_list_k8s_role_names : sim (≡ₚ) pg_list_k8s_role_names list_k8s_role_names.
Proof.
  apply sim_gets_ret. intros p d Hs. rewrite (sim_k8s_roles _ _ Hs).
  rewrite pg_order_by_perm. symmetry. apply order_by_perm.
Qed.

(** ** Initialisation *)
Lemma sim_init salt :
  jsonb_storable (realm_auth_params app_realm) → sim eq (pg_init salt) (init salt).
Proof.
  intros Hj. apply sim_gets. intros p d Hs. rewrite (same_view_size _ _ _ _ (sim_realm _ _ Hs)).
  case_decide; [|by apply sim_ret]. unfold pg_initialize_db, initialize_db.
  eapply sim_bind; [by apply sim_get_realm|]. intros realm ? <-.
  eapply sim_bind; [case_decide; [by apply sim_create_realm|by apply sim_ret]|]. intros _ _ _.
  eapply sim_bind; [by apply sim_get_userpass|]. intros userpass ? <-.
  case_decide; [|by apply sim_ret]. apply sim_pure. intros hash Hhash.
  eapply sim_bind; [|intros _ _ _; by apply sim_create_admin].
  apply sim_create_userpass; [done|done|]. simpl. apply map_err_ok in Hhash.
  by eapply hash_password_utf8.
Qed.

(** ** All of them *)
Lemma sim_answers {A} (Q : A → A → Prop) (f : A → DbAnswer) (m : PgM A) (m' : DbM A) op :
  sim Q m m' → (∀ a b, Q a b → same_answer (f a) (f b)) →
  ∀ p d, pg_sim p d →
    same_result op (answers f m p).1 (answers f m' d).1 ∧
    pg_sim (answers f m p).2 (answers f m' d).2.
Proof.
  intros Hm Hf p d Hs.
  destruct (sim_bind pg_sim Q same_answer m m' (λ a, ret (f a)) (λ a, ret (f a)) Hm) with p d
    as [Hr Hs']; [|done|].
  - intros a b Hab. apply sim_ret. by apply Hf.
  - split; [left; exact Hr|exact Hs'].
Qed.
Lemma sim_eq_answers {A} (f : A → DbAnswer) (m : PgM A) (m' : DbM A) op :
  sim eq m m' → ∀ p d, pg_sim p d →
    same_result op (answers f m p).1 (answers f m' d).1 ∧
    pg_sim (answers f m p).2 (answers f m' d).2.
Proof. intros Hm. eapply sim_answers; [exact Hm|]. intros a ? <-. apply same_answer_refl. Qed.
Create HintDb pg_sim.
#[local] Hint Resolve sim_init sim_create_realm sim_get_realm sim_update_realm sim_delete_realm_op
  sim_list_realms sim_create_userpass sim_get_userpass sim_update_userpass
  sim_update_userpass_metadata sim_delete_userpass sim_delete_userpass_by_username
  sim_list_userpass_by_realm sim_list_all_userpass sim_validate_userpass sim_create_admin
  sim_get_admin sim_update_admin sim_delete_admin_op sim_list_admins sim_find_admins
  sim_generate_totp_secret sim_enable_totp sim_disable_totp sim_issue_app_token
  sim_lookup_app_token sim_renew_app_token sim_revoke_app_token sim_create_approle
  sim_get_approle_by_role_id sim_get_approle_by_name sim_delete_approle sim_list_approle_names
  sim_create_secret_id sim_consume_secret_id sim_destroy_secret_id sim_create_k8s_role
  sim_get_k8s_role sim_delete_k8s_role sim_list_k8s_role_names : pg_sim.
Lemma pg_step_sim op p d :
  db_op_ok op → pg_sim p d →
  same_result op (pg_op op p).1 (sqlite_op op d).1 ∧ pg_sim (pg_op op p).2 (sqlite_op op d).2.
Proof.
  intros [Ht Hop]. revert p d. destruct op; cbn [db_op_texts forallb] in Ht;
    rewrite ?andb_true_iff in Ht; destruct_and?; destruct_and? Hop;
    cbn [pg_op sqlite_op]; unfold done_;
    try (apply sim_eq_answers; solve [eauto with pg_sim]);
    try (eapply sim_answers; [solve [eauto with pg_sim]|done]); intros p d Hs; unfold answers, bind, ret.
  - destruct (sim_get_totp_secret realm username p d) as (Hr & Hp & Hd); [done|done|].
    destruct (pg_get_totp_secret realm username p) as [r p'], (get_totp_secret realm username d) as [r' d'].
    simpl in *. subst p' d'. destruct Hr as [->|[-> ->]].
    + destruct r'; (split; [left; simpl; reflexivity|done]).
    + destruct (sqlite_null_string "totp_secret") eqn:Hn; (split; [right; simpl; rewrite Hn; split; reflexivity|done]).
  - destruct (sim_is_totp_enabled realm username p d) as (Hr & Hp & Hd); [done|done|].
    destruct (pg_is_totp_enabled realm username p) as [r p'], (is_totp_enabled realm username d) as [r' d'].
    simpl in *. subst p' d'. destruct Hr as [->|[-> ->]].
    + destruct r'; (split; [left; simpl; reflexivity|done]).
    + destruct (sqlite_null_i64 "totp_enabled") eqn:Hn; (split; [right; simpl; rewrite Hn; split; reflexivity|done]).
Qed.
Lemma pg_run_sim ops p d :
  Forall db_op_ok ops → pg_sim p d →
  Forall3 same_result ops (run_db_ops pg_op ops p).1 (run_db_ops sqlite_op ops d).1.
Proof.
  revert p d. induction ops as [|op ops IH]; intros p d Hops Hs; [by constructor|].
  apply Forall_cons in Hops as [Hop Hops]. cbn [run_db_ops].
  destruct (pg_step_sim op p d Hop Hs) as [Hr Hs'].
  destruct (pg_op op p) as [r p'], (sqlite_op op d) as [r' d']. simpl in Hr, Hs'.
  specialize (IH p' d' Hops Hs').
  destruct (run_db_ops pg_op ops p'), (run_db_ops sqlite_op ops d'). by constructor.
Qed.
End simulation.

(** C13: the PostgreSQL credential store does what the SQLite one does.  Any sequence of operations
    of the trait, starting from an empty database, gets the same answers and errors from both,
    lists up to their order, when its texts hold no NUL byte, its realm ids are judged alike by
    the CHECK constraints of the two schemas, clocks and lease durations are below 2^62 seconds and
    administrators are not searched by digital credentials.  One answer differs: for an
    administrator whose TOTP columns are NULL, PostgreSQL answers that there is nothing, where
    SQLite decodes the NULL. *)
Theorem postgres_store_simulates_sqlite `{L : DbLibs, PL : PgLibs, !PgLaws} (ops : list DbOp) :
  Forall db_op_ok ops →
  Forall3 same_result ops (run_db_ops pg_op ops empty_pg_database).1
    (run_db_ops sqlite_op ops empty_database).1.
Proof. intros Hops. apply pg_run_sim; [done|apply pg_sim_empty]. Qed.

(** * Witness *)
Lemma bits_no_nul p : no_nul (bits_of_pos p) = true.
Proof.
  unfold no_nul. rewrite negb_true_iff. induction p as [p IH|p IH|]; simpl; [..|done]; by rewrite IH.
Qed.
#[local] Definition countable_value {A} `{Countable A} : SerdeValue A := {|
  to_value a := Ok (VString (bits_of_pos (encode a)));
  from_value v := match v with
                  | VString s => ok_or "invalid type" (pos_of_bits s ≫= decode)
                  | _ => Err "invalid type"
                  end;
|}.
Definition toy_pg_libs : PgLibs := {|
  value_auth_params := countable_value;
  value_string_map := countable_value;
  collation_le a b := bool_decide (String.length a ≤ String.length b);
|}.
#[local] Existing Instance toy_pg_libs.
Lemma countable_value_laws {A} `{Countable A} : @SerdeValueLaws A countable_value.
Proof.
  intros a. eexists. split; [done|]. simpl.
  by rewrite pos_of_bits_of_pos; simpl; rewrite decode_encode.
Qed.
#[local] Instance toy_pg_laws : PgLaws.
Proof.
  split; [apply toy_laws|apply countable_value_laws..| |]; intros ? t [= <-]; apply bits_no_nul.
Qed.
Definition toy_db_ops : list DbOp :=
  [OpInit "salt"; OpCreateRealm (mkRealm "r-1" RealmAuthParams_default 3600 60 0);
   OpCreateUserpass (mkUserPass "r-1" "alice" "hash" None false [] None);
   OpListUserpassByRealm "r-1"; OpFindAdmins UsernamePassword "admin"; OpIsTotpEnabled "master" "admin";
   OpDeleteRealm "r-1"; OpGetUserpass "r-1" "alice"].
Lemma postgres_store_simulates_sqlite_witness :
  Forall db_op_ok toy_db_ops ∧
  Forall3 same_result toy_db_ops (run_db_ops pg_op toy_db_ops empty_pg_database).1
    (run_db_ops sqlite_op toy_db_ops empty_database).1.
Proof.
  assert (Forall db_op_ok toy_db_ops) as Hops.
  { repeat (constructor; [split; [by vm_compute|]|]); try exact I.
    - intros v [= <-]. reflexivity.
    - split; [by vm_compute|]. intros v [= <-]. reflexivity.
    - by vm_compute.
    - discriminate.
    - constructor. }
  split; [exact Hops|]. exact (postgres_store_simulates_sqlite toy_db_ops Hops).
Defined.
