(* ===== verification/MyDatabaseSpec.v ===== *)
(** The credential store on MySQL does what the one on SQLite does, for every sequence of operations
    ([MyDatabaseFacts.v] has them one by one), as far as the driver decodes its columns. *)
From S2P Require Import Prelude RustStd Models Passwords Totp Database DatabaseFacts Toy SqlServers Simulation Keyed DbOps MyDatabase MySim MyDatabaseFacts.

(** * All the operations *)
Section simulation.
Context {L : DbLibs} {MY : MySql} {SV : MyServer} {LAWS : MyLaws} (names : string → Prop)
  {NM : MyNames names}.
Abbreviation sim := (simulates (E := AuthDbError) (my_sim names)).
Implicit Types (m : MyDatabase) (d : Database).

Definition my_same_answer (a b : DbAnswer) : Prop :=
  match a, b with
  | AnsAdmin o, AnsAdmin o' => option_Forall2 same_admin o o'
  | AnsAdmins l, AnsAdmins l' => same_admins l l'
  | _, _ => same_answer a b
  end.
(** What MySQL may answer besides: the schema is refused, a column is not decoded. *)
Definition my_answers (op : DbOp) (a b : Result DbAnswer AuthDbError) : Prop :=
  same_result_by my_same_answer op a b ∨
  match op with
  | OpInit _ => my_text_default = false ∧ a = Err (DbSql SchemaRefused)
  | OpGetRealm _ | OpListRealms | OpGetAdmin _ | OpListAdmins | OpFindAdmins _ _ =>
      ∃ e, a = Err (DbSql e) ∧ driver_error e
  | _ => False
  end.
(** A server that refuses the schema has no table of Kubernetes roles. *)
Definition k8s_role_op (op : DbOp) : bool :=
  match op with
  | OpCreateK8sRole _ | OpGetK8sRole _ | OpDeleteK8sRole _ | OpListK8sRoleNames => true
  | _ => false
  end.
Definition my_result (op : DbOp) (a b : Result DbAnswer AuthDbError) : Prop :=
  if k8s_role_op op && negb my_text_default then a = Err (DbSql NoSuchTable) else my_answers op a b.
Lemma my_same_answer_of a b : same_answer a b → my_same_answer a b.
Proof.
  assert (∀ a, same_admin a a) as Hrefl by by split.
  destruct a, b; simpl; try done.
  - intros [= ->]. destruct o0; by constructor.
  - intros Hl. exists l. split; [done|]. by apply Forall_Forall2_diag, Forall_true.
Qed.
Lemma my_step_reads {A B} (Q : A → B → Prop) (f : A → DbAnswer) (f' : B → DbAnswer) (x : MyM A) (y : DbM B)
    op m d :
  reads x → reads y → up_to_driver Q (x m).1 (y d).1 →
  (∀ a b, Q a b → my_same_answer (f a) (f' b)) →
  match op with
  | OpGetRealm _ | OpListRealms | OpGetAdmin _ | OpListAdmins | OpFindAdmins _ _ => True
  | _ => False
  end → my_sim names m d →
  my_answers op (answers f x m).1 (answers f' y d).1 ∧
  my_sim names (answers f x m).2 (answers f' y d).2.
Proof.
  intros Hx Hy Hxy HQ Hop Hs. unfold answers, bind, ret. pose proof (Hx m) as Hm. pose proof (Hy d) as Hd.
  destruct (x m) as [r m'], (y d) as [r' d']. simpl in *. subst m' d'.
  destruct Hxy as [Hr|(e & -> & He)].
  - destruct r, r'; try done; (split; [left; left; simpl|done]); auto.
  - split; [right; simpl; destruct op; try done; by exists e|by destruct r'].
Qed.
Lemma my_sim_answers {A} (Q : A → A → Prop) (f : A → DbAnswer) (x : MyM A) (y : DbM A) op :
  sim Q x y → (∀ a b, Q a b → same_answer (f a) (f b)) →
  ∀ m d, my_sim names m d →
    my_answers op (answers f x m).1 (answers f y d).1 ∧
    my_sim names (answers f x m).2 (answers f y d).2.
Proof.
  intros Hxy Hf m d Hs.
  destruct (sim_bind (my_sim names) Q my_same_answer x y (λ a, ret (f a)) (λ a, ret (f a)) Hxy) with m d
    as [Hr Hs']; [|done|].
  - intros a b Hab. apply sim_ret. by apply my_same_answer_of, Hf.
  - split; [left; left; exact Hr|exact Hs'].
Qed.
Lemma my_sim_eq_answers {A} (f : A → DbAnswer) (x : MyM A) (y : DbM A) op :
  sim eq x y → ∀ m d, my_sim names m d →
    my_answers op (answers f x m).1 (answers f y d).1 ∧
    my_sim names (answers f x m).2 (answers f y d).2.
Proof. intros H. eapply my_sim_answers; [exact H|]. intros a ? <-. apply same_answer_refl. Qed.
(** The operations whose conditions look at the state. *)
Lemma my_state_answers {A} (f : A → DbAnswer) (x : MyM A) (y : DbM A) op m d :
  result_rel eq (x m).1 (y d).1 ∧ my_sim names (x m).2 (y d).2 →
  my_answers op (answers f x m).1 (answers f y d).1 ∧
  my_sim names (answers f x m).2 (answers f y d).2.
Proof.
  intros [Hr Hs]. unfold answers, bind, ret. apply result_rel_eq in Hr.
  destruct (x m) as [r m'], (y d) as [r' d']. simpl in *. subst r'.
  destruct r; simpl; (split; [left; left; simpl|done]); [|done]. by apply my_same_answer_of, same_answer_refl.
Qed.
Lemma my_totp_step {A} (f : option A → DbAnswer) null (x : MyM (option A)) (y : DbM (option A)) op m d :
  reads x → reads y → totp_answer null (x m).1 (y d).1 → my_sim names m d →
  (∀ r, same_result_by my_same_answer op (Ok (f None)) r ↔
     result_rel my_same_answer (Ok (f None)) r ∨ r = map_ok f null) →
  my_answers op (answers f x m).1 (answers f y d).1 ∧
  my_sim names (answers f x m).2 (answers f y d).2.
Proof.
  intros Hx Hy Ha Hs Hnull. unfold answers, bind, ret. pose proof (Hx m) as Hm. pose proof (Hy d) as Hd.
  destruct (x m) as [r m'], (y d) as [r' d']. simpl in *. subst m' d'. destruct Ha as [->|[-> ->]].
  - destruct r'; simpl; (split; [left; left; simpl|done]); [|done]. by apply my_same_answer_of, same_answer_refl.
  - split; [left|by destruct null]. simpl. apply Hnull. right. by destruct null.
Qed.
Lemma names_of_admin a : Forall names (db_op_names (OpCreateAdmin a)) → admin_names names a.
Proof.
  assert (∀ o, Forall names (option_list o) → opt_all names o) as Ho.
  { intros [s|] Hs x; [|done]. intros [= <-]. by apply Forall_cons in Hs as [? _]. }
  cbn [db_op_names]. intros [Hid H]%Forall_cons. rewrite !Forall_app in H. destruct_and! H.
  split_and!; auto.
Qed.
Lemma my_get_admin_step id m d :
  names id → my_sim names m d →
  up_to_driver (option_Forall2 same_admin) (my_get_admin id m).1 (get_admin id d).1.
Proof. intros Hid Hs. by apply (my_sim_get_admin names). Qed.
Lemma my_list_reads : reads my_list_realms ∧ reads my_list_admins.
Proof.
  split; (apply reads_bind; [apply reads_gets|]; intros rows); [apply reads_of_result|].
  apply reads_map_m. intros [i row]. apply reads_bind; [apply reads_gets|]. intros realms.
  apply reads_of_result.
Qed.
Lemma my_find_reads s v : reads (my_find_admins_by_auth_scheme s v).
Proof.
  destruct s; try apply reads_ret;
    (apply reads_bind; [apply reads_of_result|]; intros sel;
     apply reads_bind; [apply reads_gets|]; intros rows;
     apply reads_bind; [apply reads_map_m, my_get_admin_reads|]; intros admins; apply reads_ret).
Qed.
Lemma my_get_realm_reads id : reads (my_get_realm id).
Proof. apply reads_bind; [apply reads_gets|]. intros row. apply reads_of_result. Qed.
Create HintDb my_sim.
#[local] Hint Resolve my_sim_create_realm my_sim_update_realm my_sim_delete_realm
  my_sim_create_userpass my_sim_get_userpass my_sim_update_userpass my_sim_update_userpass_metadata
  my_sim_delete_userpass my_sim_delete_userpass_by_username my_sim_list_userpass_by_realm
  my_sim_list_all_userpass my_sim_validate_userpass my_sim_create_admin my_sim_update_admin
  my_sim_delete_admin my_sim_generate_totp_secret my_sim_enable_totp my_sim_disable_totp
  my_sim_issue_app_token my_sim_lookup_app_token my_sim_revoke_app_token
  my_sim_get_approle_by_role_id my_sim_get_approle_by_name my_sim_delete_approle
  my_sim_list_approle_names my_sim_create_secret_id my_sim_destroy_secret_id my_sim_create_k8s_role
  my_sim_get_k8s_role my_sim_delete_k8s_role my_sim_list_k8s_role_names names_of_admin : my_sim.
Lemma my_no_k8s_step op m d :
  k8s_role_op op = true → my_text_default = false → my_sim names m d →
  (my_op op m).1 = Err (DbSql NoSuchTable) ∧ my_sim names (my_op op m).2 (sqlite_op op d).2.
Proof.
  intros Hop Hd Hs.
  assert (∀ A (f : A → DbAnswer) k, answers f (my_sql (let* table := k8s_table in k table)) m =
    (Err (DbSql NoSuchTable), m)) as Hmiss.
  { intros A f k. unfold answers, bind at 1. by erewrite k8s_table_missing. }
  destruct op; try done; cbn [my_op sqlite_op]; unfold done_, my_create_k8s_role,
    my_get_k8s_role, my_delete_k8s_role, my_list_k8s_role_names; rewrite Hmiss;
    (split; [done|]); try exact Hs; by apply my_no_k8s_roles.
Qed.
Lemma my_step_answers op m d :
  (k8s_role_op op = true → my_text_default = true) →
  Forall names (db_op_names op) → my_op_ok d op → my_sim names m d →
  my_answers op (my_op op m).1 (sqlite_op op d).1 ∧ my_sim names (my_op op m).2 (sqlite_op op d).2.
Proof.
  intros Hk8s Hn Hok Hs. pose proof my_list_reads as [Hr1 Hr2].
  destruct op; cbn [my_op sqlite_op k8s_role_op] in *; unfold done_;
    try (apply my_sim_eq_answers; [|exact Hs];
         first [solve [eauto with my_sim]
               |cbn [db_op_names] in Hn; rewrite ?Forall_cons in Hn; destruct_and? Hn;
                first [solve [eauto with my_sim]
                      |cbn [my_op_ok] in Hok; destruct_and? Hok; solve [eauto with my_sim]]]);
    try (eapply my_sim_answers; [|done|exact Hs]; cbn [db_op_names] in *;
         rewrite ?Forall_cons in Hn; destruct_and? Hn; solve [eauto with my_sim]).
  - destruct (my_sim_init names salt m d Hn Hok Hs) as [Hr Hs']. unfold answers, bind, ret.
    destruct (my_init salt m) as [r m'], (init salt d) as [r' d']. simpl in *.
    destruct Hr as [Hr|[Hd ->]]; [apply result_rel_eq in Hr; subst r'; destruct r|]; simpl;
      (split; [|by try destruct r']); [left; left; done|left; left; done|by right].
  - apply (my_step_reads eq _ _ _ _ _ _ _ (my_get_realm_reads _) (get_realm_reads _)); [..|done|done].
    + apply (my_sim_get_realm names); [|done]. by apply Forall_cons in Hn as [? _].
    + intros a ? <-. apply my_same_answer_of, same_answer_refl.
  - by apply (my_step_reads (≡ₚ) _ _ _ _ _ _ _ Hr1 list_realms_reads); [apply (my_sim_list_realms names)|..].
  - apply (my_step_reads (option_Forall2 same_admin) _ _ _ _ _ _ _ (my_get_admin_reads _)
      (get_admin_reads _)); [|done..].
    apply my_get_admin_step; [|done]. by apply Forall_cons in Hn as [? _].
  - by apply (my_step_reads same_admins _ _ _ _ _ _ _ Hr2 list_admins_reads); [apply (my_sim_list_admins names)|..].
  - apply (my_step_reads same_admins _ _ _ _ _ _ _ (my_find_reads _ _) (find_admins_reads _ _)); [|done..].
    apply (my_sim_find_admins names); [|done|done]. by apply Forall_cons in Hn as [? _].
  - apply Forall_cons in Hn as [Hn _].
    eapply my_totp_step; [apply reads_gets|solve_reads|by apply (my_sim_get_totp_secret names)|done|].
    intros r. unfold same_result_by. destruct (sqlite_null_string _); simpl; naive_solver.
  - apply Forall_cons in Hn as [Hn _].
    eapply my_totp_step; [apply reads_gets|solve_reads|by apply (my_sim_is_totp_enabled names)|done|].
    intros r. unfold same_result_by. destruct (sqlite_null_i64 _); simpl; naive_solver.
  - by apply my_state_answers, my_sim_renew_app_token.
  - cbn [db_op_names] in Hn. rewrite !Forall_cons in Hn. destruct Hn as (? & ? & _).
    by apply my_state_answers, my_sim_create_approle.
  - apply Forall_cons in Hn as [Hn _]. by apply my_state_answers, my_sim_consume_secret_id.
Qed.
Lemma my_step_sim op m d :
  Forall names (db_op_names op) → my_op_ok d op → my_sim names m d →
  my_result op (my_op op m).1 (sqlite_op op d).1 ∧ my_sim names (my_op op m).2 (sqlite_op op d).2.
Proof.
  intros Hn Hok Hs. unfold my_result. destruct (k8s_role_op op) eqn:Hop; simpl.
  - destruct my_text_default eqn:Hd; simpl.
    + by apply my_step_answers.
    + by apply my_no_k8s_step.
  - apply my_step_answers; [by rewrite Hop|done..].
Qed.
Lemma my_run_sim ops m d :
  my_ops_ok names ops d → my_sim names m d →
  Forall3 my_result ops (run_db_ops my_op ops m).1 (run_db_ops sqlite_op ops d).1.
Proof.
  revert m d. induction ops as [|op ops IH]; intros m d Hops Hs; [by constructor|].
  destruct Hops as (Hn & Hok & Hops). cbn [run_db_ops].
  destruct (my_step_sim op m d Hn Hok Hs) as [Hr Hs'].
  destruct (my_op op m) as [r m'], (sqlite_op op d) as [r' d']. simpl in Hr, Hs', Hops.
  specialize (IH m' d' Hops Hs').
  destruct (run_db_ops my_op ops m'), (run_db_ops sqlite_op ops d'). by constructor.
Qed.
End simulation.

(** C14: the MySQL credential store does what the SQLite one does, as far as its columns can be
    decoded.  For any set of names that the collation of the server tells apart and that fit their
    columns, any sequence of operations of the trait on such names, starting from an empty
    database, gets the same answers and errors from both, lists and the realms of an administrator
    up to their order.  Its values fit their columns, durations of realms are not negative, realm
    ids are judged alike by the CHECK constraints, administrators are not searched by digital
    credentials, role ids are not reused under another name, no two usable secret ids share a hash,
    clocks and lease durations are below 2^62 seconds.  The database starts with the tables that
    the schema statements leave.  A server that refuses the statement of the Kubernetes roles has no
    such table: every operation on them fails, and so does initialising it.  Two other answers may
    differ: reading realms or administrators through a driver that refuses a column, and TOTP
    columns that are NULL. *)
Theorem mysql_store_simulates_sqlite `{L : DbLibs, MY : MySql, SV : MyServer, !MyLaws}
    (names : string → Prop) `{!MyNames names} (ops : list DbOp) :
  my_ops_ok names ops empty_database →
  Forall3 my_result ops (run_db_ops my_op ops my_schema).1
    (run_db_ops sqlite_op ops empty_database).1.
Proof. intros Hops. by apply (my_run_sim names); [|apply my_sim_schema]. Qed.

(** * Witness *)

(** A server without strict mode, whose collation ignores case and which takes the schema or not;
    the driver decodes no unsigned column. *)
Definition toy_my : MySql := {|
  my_strict := false;
  collation_key := str_map (λ a, let n := nat_of_ascii a in
    if (65 <=? n) && (n <=? 90) then ascii_of_nat (n + 32) else a);
  from_utf8_error _ := "invalid utf-8 sequence";
|}.
Definition toy_my_server (takes_schema : bool) : MyServer := {|
  my_json_valid _ := true;
  my_json_text t := t;
  my_regexp _ id := bool_decide (id ≠ "");
  my_text_default := takes_schema;
  my_json_string _ t := Ok t;
  my_unsigned_i64 c _ := Err (ColumnDecode c);
  my_found_rows := true;
|}.
#[local] Existing Instance toy_my.
#[local] Instance toy_my_laws takes_schema : MyLaws (SV := toy_my_server takes_schema).
Proof.
  split; [apply toy_laws|..].
  - intros a t [= <-]. split; [done|]. by destruct (countable_serde_laws a) as (t' & [= <-] & ?).
  - intros a t [= <-]. split; [done|]. by destruct (countable_serde_laws a) as (t' & [= <-] & ?).
  - by intros c t t' [= <-].
  - done.
Qed.
(** Short lower-case names. *)
Definition toy_names (s : string) : Prop :=
  collation_key s = s ∧ varchar 255 s = Ok s ∧ text_column s = Ok s.
#[local] Instance toy_names_ok : MyNames toy_names.
Proof.
  split.
  - intros a b (Ha & _ & _) (Hb & _ & _). by rewrite Ha, Hb.
  - by intros a (_ & ? & _).
  - by intros a (_ & _ & ?).
Qed.
Definition toy_my_ops : list DbOp :=
  [OpInit "salt"; OpCreateUserpass (mkUserPass "master" "alice" "hash" None false [] None);
   OpListUserpassByRealm "master"; OpFindAdmins UsernamePassword "admin"; OpListRealms;
   OpIsTotpEnabled "master" "admin"; OpDeleteUserpass "master" "alice"; OpGetUserpass "master" "alice";
   OpCreateK8sRole (mkK8sRole "ci" "https://k8s" "*" "*" 60 None "[]"); OpListK8sRoleNames].
Lemma mysql_store_simulates_sqlite_witness :
  let answers (takes : bool) := (run_db_ops (my_op (SV := toy_my_server takes)) toy_my_ops
    (my_schema (SV := toy_my_server takes))).1 in
  let on_sqlite := (run_db_ops sqlite_op toy_my_ops empty_database).1 in
  Forall3 (my_result (SV := toy_my_server true)) toy_my_ops (answers true) on_sqlite ∧
  Forall3 (my_result (SV := toy_my_server false)) toy_my_ops (answers false) on_sqlite ∧
  last (answers true) = Some (Ok (AnsNames ["ci"])) ∧
  last (answers false) = Some (Err (DbSql NoSuchTable)).
Proof.
  intros answers on_sqlite.
  assert (json_fits ([] : list string)) as Hroles by by intros t [= <-].
  assert (∀ takes, my_ops_ok (SV := toy_my_server takes) toy_names toy_my_ops empty_database) as Hops.
  { intros takes. cbn [my_ops_ok toy_my_ops db_op_names my_op_ok].
    split_and!; try exact I; try discriminate;
      try (repeat (constructor; [by split_and!; vm_compute|]); constructor); try done.
    intros h [= <-]. by vm_compute. }
  split; [|split; [|split; vm_compute; reflexivity]].
  - exact (mysql_store_simulates_sqlite (SV := toy_my_server true) toy_names toy_my_ops (Hops true)).
  - exact (mysql_store_simulates_sqlite (SV := toy_my_server false) toy_names toy_my_ops (Hops false)).
Defined.
