(* ===== verification/AdminApi.v ===== *)
(** The administration endpoints ([server/src/server/endpoints]): the realm-claim
    authorisation rules ([mod.rs]), realms ([super_admins_endpoints.rs]), administrators
    ([admin_endpoints.rs]), credentials ([realms_endpoints.rs]) and TOTP enrolment
    ([totp_endpoints.rs]).

    A handler takes the [Admin] the [AdminAuth] middleware put in the request (if any), the
    path and body values, and runs on the credential store; its answer is an HTTP response or
    an [AuthError]. *)
From S2P Require Import Prelude RustStd Models ClaimPolicy Passwords Totp Database.

Abbreviation ApiM := (M Database AuthError).

(** The [saml] feature gate of the realm endpoints: [check_saml_params] has one body with the
    feature and one without; it may rewrite the realm's parameters, never its id. *)
Class SamlCheck := {
  check_saml_params : Realm → Result Realm AuthError;
  check_saml_params_id : ∀ r r', check_saml_params r = Ok r' → realm_id r' = realm_id r;
}.
(** [#[cfg(not(feature = "saml"))]] *)
Definition check_saml_params_disabled (realm : Realm) : Result Realm AuthError :=
  if decide (is_Some (rap_saml_params (realm_auth_params realm))) then
    Err (BadRequest "SAML is not enabled on this server (built without the `saml` feature)")
  else Ok realm.
Lemma check_saml_params_disabled_id r r' :
  check_saml_params_disabled r = Ok r' → realm_id r' = realm_id r.
Proof. unfold check_saml_params_disabled. case_decide; [done|]. by intros [= <-]. Qed.
Definition saml_disabled : SamlCheck :=
  {| check_saml_params := check_saml_params_disabled;
     check_saml_params_id := check_saml_params_disabled_id |}.

Definition admin_from_request (req : option Admin) : Result Admin AuthError :=
  ok_or (Session "No authenticated admin found in request") req.

Definition realm_in (realm_id : string) (l : list string) : bool := bool_decide (realm_id ∈ l).

(** [realm_manageable_given_claims] *)
Definition realm_manageable_given_claims (requester : Admin) (realm_id : string)
    (claimed_realms : gset string) : bool :=
  realm_in realm_id (adm_realms requester) ||
  (is_super_admin requester && negb (bool_decide (realm_id ∈ claimed_realms))).

(** [admins.iter().flat_map(|a| a.realms.iter().cloned()).collect::<HashSet<_>>()] *)
Definition claimed_realms (admins : list Admin) : gset string :=
  list_to_set (admins ≫= adm_realms).

Section api.
Context {L : DbLibs} {SC : SamlCheck}.

(** [?] on a [Database] call: [impl From<AuthDbError> for AuthError]. *)
Definition db {A} (m : DbM A) : ApiM A := with_err auth_error_of_db m.
(** [if !allowed { return Err(error) }] *)
Definition require (allowed : bool) (error : AuthError) : ApiM () :=
  if allowed then ret () else throw error.

(** ** Authorisation *)
Definition can_manage_realm (requester : Admin) (realm_id : string) : ApiM bool :=
  if realm_in realm_id (adm_realms requester) then ret true
  else if negb (is_super_admin requester) then ret false
  else
    let* admins := db list_admins in
    ret (negb (existsb (λ a, realm_in realm_id (adm_realms a)) admins)).

Fixpoint can_manage_all_realms (requester : Admin) (realms : list string) : ApiM bool :=
  match realms with
  | [] => ret true
  | r :: realms' =>
      let* allowed := can_manage_realm requester r in
      if negb allowed then ret false else can_manage_all_realms requester realms'
  end.
Definition can_manage_admin_realms (requester : Admin) (realms : list string) : ApiM bool :=
  match realms with
  | [] => ret (is_super_admin requester)
  | _ => can_manage_all_realms requester realms
  end.

Definition Created {B} (b : B) : HttpResponse B := mkResponse 201 b.
Definition HttpOk {B} (b : B) : HttpResponse B := mkResponse 200 b.
Definition NoContent : HttpResponse () := mkResponse 204 ().

(** ** Realms *)
Definition api_create_realm (req : option Admin) (realm : Realm) : ApiM (HttpResponse Realm) :=
  let* requester := of_result (admin_from_request req) in
  require (is_super_admin requester) (Forbidden "Only super admins can create realms") ;;;
  let* realm := of_result (check_saml_params realm) in
  db (create_realm realm) ;;;
  ret (Created realm).

Definition api_get_realm (req : option Admin) (realm_id : string) : ApiM (HttpResponse Realm) :=
  let* requester := of_result (admin_from_request req) in
  require (can_administer_realm requester realm_id)
    (Forbidden "Admin does not have permission to retrieve this realm") ;;;
  let* realm := db (get_realm realm_id) in
  match realm with
  | Some realm => ret (HttpOk realm)
  | None => throw (BadRequest ("Realm '" +:+ realm_id +:+ "' not found"))
  end.

Definition api_update_realm (req : option Admin) (id : string) (realm : Realm)
    : ApiM (HttpResponse Realm) :=
  let* requester := of_result (admin_from_request req) in
  let* allowed := can_manage_realm requester id in
  require allowed (Forbidden ("Only administrators of realm '" +:+ id +:+ "' can update it")) ;;;
  let realm := mkRealm id (realm_auth_params realm) (realm_session_max_age_seconds realm)
    (realm_session_max_stale_age_seconds realm) (realm_certificate_max_age_seconds realm) in
  let* realm := of_result (check_saml_params realm) in
  db (update_realm realm) ;;;
  ret (HttpOk realm).

Definition api_delete_realm (req : option Admin) (realm_id : string) : ApiM (HttpResponse ()) :=
  let* requester := of_result (admin_from_request req) in
  require (can_administer_realm requester realm_id)
    (Forbidden ("Only administrators of realm '" +:+ realm_id
      +:+ "' (or a super admin) can delete it")) ;;;
  db (delete_realm realm_id) ;;;
  ret NoContent.

Definition api_list_realms (req : option Admin) : ApiM (HttpResponse (list Realm)) :=
  let* requester := of_result (admin_from_request req) in
  let* realms := db list_realms in
  let visible :=
    if is_super_admin requester then realms
    else filter (λ r, can_administer_realm requester (realm_id r) = true) realms in
  ret (HttpOk visible).

(** ** Administrators *)
Definition create_admin_forbidden : AuthError := Forbidden
  ("Realm admins can only create admins that belong exclusively to their administered realms, "
   +:+ "and super admins can only do so for realms that have no admin of their own yet").
Definition not_found_admin (admin_id : string) : AuthError :=
  BadRequest ("Admin '" +:+ admin_id +:+ "' not found").
Definition foreign_admin (admin_id : string) : AuthError :=
  Forbidden ("Access denied: admin '" +:+ admin_id
    +:+ "' does not belong exclusively to your administered realm(s)").
Definition cannot_modify_admin (admin_id : string) : AuthError :=
  Forbidden ("Cannot modify admin '" +:+ admin_id
    +:+ "': it belongs to a realm you don't administer").

Definition api_create_admin (req : option Admin) (admin : Admin) : ApiM (HttpResponse Admin) :=
  let* requester := of_result (admin_from_request req) in
  let* allowed := can_manage_admin_realms requester (adm_realms admin) in
  require allowed create_admin_forbidden ;;;
  db (create_admin admin) ;;;
  ret (Created admin).

Definition find_admin (admin_id : string) : ApiM Admin :=
  let* target := db (get_admin admin_id) in
  of_result (ok_or (not_found_admin admin_id) target).

Definition api_get_admin (req : option Admin) (admin_id : string) : ApiM (HttpResponse Admin) :=
  let* requester := of_result (admin_from_request req) in
  let* target := find_admin admin_id in
  let* allowed := can_manage_admin_realms requester (adm_realms target) in
  require allowed (foreign_admin admin_id) ;;;
  ret (HttpOk target).

Definition api_update_admin (req : option Admin) (admin_id : string) (admin : Admin)
    : ApiM (HttpResponse Admin) :=
  let* requester := of_result (admin_from_request req) in
  let* target := find_admin admin_id in
  let* allowed := can_manage_admin_realms requester (adm_realms target) in
  require allowed (foreign_admin admin_id) ;;;
  let* allowed := can_manage_admin_realms requester (adm_realms admin) in
  require allowed (Forbidden "Realm admins can only assign admins to realms they administer") ;;;
  let admin := with_id admin_id admin in
  db (update_admin admin) ;;;
  ret (HttpOk admin).

Definition api_delete_admin (req : option Admin) (admin_id : string) : ApiM (HttpResponse ()) :=
  let* requester := of_result (admin_from_request req) in
  let* target := db (get_admin admin_id) in
  match target with
  | Some target =>
      let* allowed := can_manage_admin_realms requester (adm_realms target) in
      require allowed (foreign_admin admin_id)
  | None => require (is_super_admin requester) (not_found_admin admin_id)
  end ;;;
  db (delete_admin admin_id) ;;;
  match target ≫= adm_userpass with
  | Some username => db (delete_userpass_by_username username)
  | None => ret ()
  end ;;;
  ret NoContent.

Definition api_list_admins (req : option Admin) : ApiM (HttpResponse (list Admin)) :=
  let* requester := of_result (admin_from_request req) in
  require (is_super_admin requester) (Forbidden "Only super admins can list admins") ;;;
  let* admins := db list_admins in
  let claimed := claimed_realms admins in
  ret (HttpOk (filter (λ admin,
    match adm_realms admin with
    | [] => is_super_admin requester
    | realms => forallb (λ r, realm_manageable_given_claims requester r claimed) realms
    end = true) admins)).

Definition add_admin_to_realm (req : option Admin) (admin_id realm_id : string)
    : ApiM (HttpResponse Admin) :=
  let* requester := of_result (admin_from_request req) in
  let* allowed := can_manage_realm requester realm_id in
  require allowed (Forbidden ("Only administrators of realm '" +:+ realm_id
    +:+ "' can add admins to it")) ;;;
  let* admin := find_admin admin_id in
  match adm_realms admin with
  | [] => ret ()
  | realms =>
      let* allowed := can_manage_admin_realms requester realms in
      require allowed (cannot_modify_admin admin_id)
  end ;;;
  if realm_in realm_id (adm_realms admin) then ret (HttpOk admin)
  else
    let admin := with_realms (adm_realms admin ++ [realm_id]) admin in
    db (update_admin admin) ;;;
    ret (HttpOk admin).

Definition remove_admin_from_realm (req : option Admin) (admin_id realm_id : string)
    : ApiM (HttpResponse Admin) :=
  let* requester := of_result (admin_from_request req) in
  let* allowed := can_manage_realm requester realm_id in
  require allowed (Forbidden ("Only administrators of realm '" +:+ realm_id
    +:+ "' can remove admins from it")) ;;;
  let* admin := find_admin admin_id in
  let* allowed := can_manage_admin_realms requester (adm_realms admin) in
  require allowed (cannot_modify_admin admin_id) ;;;
  let before := length (adm_realms admin) in
  let admin := with_realms (filter (λ r, r ≠ realm_id) (adm_realms admin)) admin in
  if length (adm_realms admin) <? before then
    db (update_admin admin) ;;;
    ret (HttpOk admin)
  else ret (HttpOk admin).

(** ** Credentials *)
Definition manage_credentials (requester : Admin) (realm : string) : ApiM () :=
  let* allowed := can_manage_realm requester realm in
  require allowed (Forbidden ("Only administrators of realm '" +:+ realm
    +:+ "' can manage its credentials")).

(** [if let Some(extra_claims) = &userpass.extra_claims { ... }] *)
Definition check_extra_claims (extra_claims : option (gmap string Value)) : Result () AuthError :=
  match extra_claims with
  | Some extra_claims =>
      let? _ := reject_reserved_claim_names (map_to_list extra_claims).*1 in
      validate_extra_claims_size extra_claims
  | None => Ok ()
  end.

(** [userpass.password_input.take()], then [password_hash = h]. *)
Definition with_hash (h : string) (u : UserPass) : UserPass :=
  mkUserPass (up_realm u) (up_username u) h None (up_change_password u) (up_roles u)
    (up_extra_claims u).
Definition with_key (realm username : string) (u : UserPass) : UserPass :=
  mkUserPass realm username (up_password_hash u) (up_password_input u) (up_change_password u)
    (up_roles u) (up_extra_claims u).

(** The hash to store for a [password_input]; [salt] is the random salt. *)
Definition create_password_hash (salt : string) (input : option PasswordInput)
    : Result string AuthError :=
  match input with
  | Some (Plaintext plaintext) =>
      map_err (λ e, Unexpected ("Failed to hash password: " +:+ auth_error_to_string e))
        (hash_password_with_argon2 salt plaintext)
  | Some (Hashed hashed) => let? _ := validate_argon2_phc_string hashed in Ok hashed
  | None => Err (BadRequest "'password_input' must be provided")
  end.

Definition create_userpass_error (username realm_id : string) (e : AuthDbError) : AuthError :=
  match e with
  | DbConflict _ => Conflict ("credentials for '" +:+ username +:+ "' already exist in realm '"
      +:+ realm_id +:+ "' — use PUT to update them")
  | e => auth_error_of_db e
  end.

(** [if realm == ADMIN_REALM && let Some(mut admin) = get_admin(username) && stale(admin)
    { admin.userpass = link; update_admin(admin) }] *)
Definition relink_admin (realm username : string) (stale : Admin → bool) (link : option string)
    : ApiM () :=
  if decide (realm = ADMIN_REALM) then
    let* admin := db (get_admin username) in
    match admin with
    | Some admin =>
        if stale admin then db (update_admin (with_userpass link admin)) else ret ()
    | None => ret ()
    end
  else ret ().

Definition api_create_userpass (salt : string) (req : option Admin) (realm_id : string)
    (userpass : UserPass) : ApiM (HttpResponse UserPass) :=
  let* requester := of_result (admin_from_request req) in
  manage_credentials requester realm_id ;;;
  let userpass := with_key realm_id (up_username userpass) userpass in
  of_result (check_extra_claims (up_extra_claims userpass)) ;;;
  let* password_hash := of_result (create_password_hash salt (up_password_input userpass)) in
  let userpass := with_hash password_hash userpass in
  with_err (create_userpass_error (up_username userpass) realm_id) (create_userpass userpass) ;;;
  relink_admin realm_id (up_username userpass)
    (λ admin, bool_decide (adm_userpass admin ≠ Some (up_username userpass)))
    (Some (up_username userpass)) ;;;
  ret (Created (with_hash "" userpass)).

Definition api_get_userpass (req : option Admin) (realm username : string)
    : ApiM (HttpResponse UserPass) :=
  let* requester := of_result (admin_from_request req) in
  manage_credentials requester realm ;;;
  let* userpass := db (get_userpass realm username) in
  match userpass with
  | Some userpass => ret (HttpOk (with_hash "" userpass))
  | None => throw (BadRequest ("User password entry for '" +:+ username +:+ "' in realm '"
      +:+ realm +:+ "' not found"))
  end.

Definition api_update_userpass (salt : string) (req : option Admin) (realm username : string)
    (userpass : UserPass) : ApiM (HttpResponse UserPass) :=
  let* requester := of_result (admin_from_request req) in
  manage_credentials requester realm ;;;
  let userpass := with_key realm username userpass in
  of_result (check_extra_claims (up_extra_claims userpass)) ;;;
  match up_password_input userpass with
  | None =>
      match up_extra_claims userpass with
      | Some requested =>
          let* existing := db (get_userpass realm username) in
          let unchanged := match existing with
            | Some e => bool_decide (up_extra_claims e = Some requested)
            | None => false
            end in
          require unchanged (BadRequest ("extra_claims cannot be changed without also "
            +:+ "providing 'password_input' in the same request"))
      | None => ret ()
      end ;;;
      db (update_userpass_metadata realm username (up_change_password userpass)
            (up_roles userpass))
  | Some (Plaintext plaintext_password) =>
      let* password_hash := of_result (hash_password_with_argon2 salt plaintext_password) in
      db (update_userpass (with_hash password_hash userpass))
  | Some (Hashed hashed) =>
      of_result (validate_argon2_phc_string hashed) ;;;
      db (update_userpass (with_hash hashed userpass))
  end ;;;
  ret (HttpOk (with_hash "" userpass)).

Definition api_delete_userpass (req : option Admin) (realm username : string)
    : ApiM (HttpResponse ()) :=
  let* requester := of_result (admin_from_request req) in
  manage_credentials requester realm ;;;
  db (delete_userpass realm username) ;;;
  relink_admin realm username
    (λ admin, bool_decide (adm_userpass admin = Some username)) None ;;;
  ret NoContent.

Definition api_list_userpass_by_realm (req : option Admin) (realm_id : string)
    : ApiM (HttpResponse (list UserPass)) :=
  let* requester := of_result (admin_from_request req) in
  manage_credentials requester realm_id ;;;
  let* userpass_list := db (list_userpass_by_realm realm_id) in
  ret (HttpOk userpass_list).

Definition api_list_all_userpass (req : option Admin) : ApiM (HttpResponse (list UserPass)) :=
  let* requester := of_result (admin_from_request req) in
  require (is_super_admin requester) (Forbidden "Only super admins can list all credentials") ;;;
  let* userpass_list := db list_all_userpass in
  let* admins := db list_admins in
  let claimed := claimed_realms admins in
  ret (HttpOk (filter
    (λ entry, realm_manageable_given_claims requester (up_realm entry) claimed = true)
    userpass_list)).

(** ** TOTP enrolment *)
Definition manage_totp (requester : Admin) (realm_id : string) : ApiM () :=
  let* allowed := can_manage_realm requester realm_id in
  require allowed (Forbidden ("Only administrators of realm '" +:+ realm_id
    +:+ "' can manage its TOTP settings")).
Definition realm_totp_params (realm_id : string) : ApiM (option TotpParams) :=
  let* realm_record := db (get_realm realm_id) in
  let* realm_record := of_result (ok_or (BadRequest ("Realm '" +:+ realm_id
    +:+ "' not found")) realm_record) in
  of_result (transpose (realm_params_to_totp_params <$>
    rap_totp_params (realm_auth_params realm_record))).

(** [TotpGenerateResponse]: the Base32 secret and the [otpauth://] URL; [secret] is drawn by
    the library. *)
Definition totp_generate (secret : string) (req : option Admin) (realm_id username : string)
    (issuer : option string) : ApiM (HttpResponse (string * string)) :=
  let* requester := of_result (admin_from_request req) in
  manage_totp requester realm_id ;;;
  let issuer := default realm_id issuer in
  let* totp_params := realm_totp_params realm_id in
  let* totps := of_result (create_totp_secret secret issuer username totp_params) in
  ret (HttpOk (totps.2, totp_get_url totps.1)).

Definition totp_verify (now : Z) (req : option Admin) (realm_id username secret token : string)
    (issuer : option string) : ApiM (HttpResponse string) :=
  let* requester := of_result (admin_from_request req) in
  manage_totp requester realm_id ;;;
  let issuer := default realm_id issuer in
  let* totp_params := realm_totp_params realm_id in
  let* totps := of_result (from_secret secret (Some issuer) username totp_params) in
  let* valid := of_result (validate_token totps now token) in
  require valid (Forbidden "Invalid TOTP token; code did not match the provided secret") ;;;
  db (enable_totp realm_id username secret realm_id) ;;;
  ret (HttpOk "ok").

Definition totp_disable (req : option Admin) (realm_id username : string)
    : ApiM (HttpResponse ()) :=
  let* requester := of_result (admin_from_request req) in
  manage_totp requester realm_id ;;;
  db (disable_totp realm_id username) ;;;
  ret NoContent.
End api.
