(* ===== verification/AdminApiFacts.v ===== *)
(** Facts about the administration endpoints: what the authorisation checks compute, how the
    multi-statement administrator writes end, and which part of the store each handler can
    reach. *)
From S2P Require Import Prelude RustStd Models ClaimPolicy Passwords Totp Database DatabaseFacts DatabaseSpec AdminApi.

Section facts.
Context {L : DbLibs} {SC : SamlCheck} {LAWS : DbLaws}.

(** ** Listing administrators *)
Lemma row_to_admin_userpass id realms row a :
  row_to_admin id realms row = Ok a → adm_userpass a = ar_userpass row.
Proof. unfold row_to_admin. destruct (transpose _); [|done]. by intros [= <-]. Qed.
Lemma get_admin_row id row d :
  db_wf d → db_admin d !! id = Some row →
  ∃ a, get_admin id d = (Ok (Some a), d) ∧ adm_id a = id ∧
    adm_realms a = select_admin_realms id d ∧
    row_to_admin id (select_admin_realms id d) row = Ok a.
Proof.
  intros Hwf Hrow. pose proof (row_to_admin_ok d id row (select_admin_realms id d) Hwf Hrow) as Hok.
  unfold get_admin, bind, gets, of_result. rewrite Hrow.
  destruct (row_to_admin id _ row) as [a|] eqn:Ha; [|done]. exists a. split; [done|].
  unfold row_to_admin in Ha. destruct (transpose _); [|done]. by simplify_eq/=.
Qed.
Lemma get_admin_missing id d : db_admin d !! id = None → get_admin id d = (Ok None, d).
Proof. intros Hrow. unfold get_admin, bind, gets. by rewrite Hrow. Qed.
Lemma get_admin_inv id a d :
  db_wf d → get_admin id d = (Ok (Some a), d) →
  is_Some (db_admin d !! id) ∧ adm_id a = id ∧ adm_realms a = select_admin_realms id d.
Proof.
  intros Hwf Ha. destruct (db_admin d !! id) as [row|] eqn:Hrow.
  - destruct (get_admin_row id row d Hwf Hrow) as (a' & Ha' & ? & ? & _).
    split; [by eexists|]. by rewrite Ha' in Ha; simplify_eq.
  - rewrite get_admin_missing in Ha by done. done.
Qed.

Lemma list_admins_run d : db_wf d →
  ∃ l, list_admins d = (Ok l, d) ∧ Sorted String.le (adm_id <$> l) ∧ NoDup (adm_id <$> l) ∧
    ∀ a, a ∈ l ↔ get_admin (adm_id a) d = (Ok (Some a), d).
Proof.
  intros Hwf. pose (rows := order_by fst (map_to_list (db_admin d))).
  assert (Hrows : ∀ id row, (id, row) ∈ rows ↔ db_admin d !! id = Some row).
  { intros id row. unfold rows. by rewrite elem_of_order_by, elem_of_map_to_list. }
  destruct (try_map_is_ok (λ x, row_to_admin x.1 (select_admin_realms x.1 d) x.2) rows) as [l Hl].
  { intros [id row] Hin%Hrows. by eapply row_to_admin_ok. }
  assert (Hids : adm_id <$> l = fst <$> rows).
  { eapply try_map_fmap, Hl. intros [id row] y. unfold row_to_admin. simpl.
    destruct (transpose _); [|done]. by intros [= <-]. }
  exists l. split_and!.
  - unfold list_admins, bind at 1, gets at 1. fold rows. apply map_m_run.
    apply try_map_Ok in Hl. eapply Forall2_impl; [exact Hl|]. intros [id row] a Ha.
    unfold bind, gets, of_result. simpl in Ha. by rewrite Ha.
  - rewrite Hids, <-Sorted_key_le. apply order_by_sorted.
  - rewrite Hids. unfold rows. rewrite (order_by_perm fst). apply NoDup_fst_map_to_list.
  - intros a. rewrite (try_map_elem_of _ _ _ _ Hl). split.
    + intros ([id row] & Hin%Hrows & Ha). simpl in Ha.
      destruct (get_admin_row id row d Hwf Hin) as (a' & Hg & Hid & _ & Ha').
      assert (a' = a) as -> by congruence. by rewrite Hid.
    + intros Hg. destruct (get_admin_inv _ _ _ Hwf Hg) as [[row Hrow] _].
      exists (adm_id a, row). rewrite Hrows. split; [done|]. simpl.
      destruct (get_admin_row _ row d Hwf Hrow) as (a' & Hg' & _ & _ & Ha'). congruence.
Qed.

(** ** Authorisation *)
Definition claimed (x : string) (d : Database) : Prop := ∃ a, (a, x) ∈ db_admin_realms d.
Definition manageable (q : Admin) (x : string) (d : Database) : Prop :=
  x ∈ adm_realms q ∨ is_super_admin q = true ∧ ¬ claimed x d.

Lemma claimed_list x d (l : list Admin) :
  db_wf d → (∀ a, a ∈ l ↔ get_admin (adm_id a) d = (Ok (Some a), d)) →
  claimed x d ↔ ∃ a, a ∈ l ∧ x ∈ adm_realms a.
Proof.
  intros Hwf Hl. split.
  - intros [id Hin]. destruct (wf_admin_realms _ Hwf _ _ Hin) as [[row Hrow] _].
    destruct (get_admin_row id row d Hwf Hrow) as (a & Ha & Hid & Hr & _).
    exists a. rewrite Hl, Hid, Hr, elem_of_select_admin_realms. done.
  - intros (a & Ha & Hx). apply Hl in Ha. destruct (get_admin_inv _ _ _ Hwf Ha) as (_ & _ & Hr).
    exists (adm_id a). by rewrite <-elem_of_select_admin_realms, <-Hr.
Qed.

Lemma can_manage_realm_run q x d : db_wf d →
  ∃ b, can_manage_realm q x d = (Ok b, d) ∧ (b = true ↔ manageable q x d).
Proof.
  intros Hwf. unfold can_manage_realm, realm_in, manageable.
  case_bool_decide as Hin; [exists true; split; [done|tauto]|].
  destruct (is_super_admin q) eqn:Hs; [|exists false; split; [done|naive_solver]].
  destruct (list_admins_run d Hwf) as (l & Hl & _ & _ & Hmem).
  cbn [negb]. unfold db, bind, with_err. rewrite Hl. eexists. split; [done|].
  rewrite negb_true_iff, <-not_true_iff_false, existsb_exists, (claimed_list x d l) by done.
  setoid_rewrite bool_decide_eq_true. setoid_rewrite <-list_elem_of_In. naive_solver.
Qed.

Definition all_manageable (q : Admin) (l : list string) (d : Database) : Prop :=
  if l is [] then is_super_admin q = true else ∀ x, x ∈ l → manageable q x d.

Lemma can_manage_admin_realms_run q l d : db_wf d →
  ∃ b, can_manage_admin_realms q l d = (Ok b, d) ∧ (b = true ↔ all_manageable q l d).
Proof.
  intros Hwf. destruct l as [|x0 l0]; [by eexists|]. unfold can_manage_admin_realms, all_manageable.
  generalize (x0 :: l0). intros l. induction l as [|x l IH]; cbn [can_manage_all_realms].
  - exists true. split; [done|]. split; [|done]. by intros _ x ?%elem_of_nil.
  - destruct (can_manage_realm_run q x d Hwf) as (b & Hb & Hm). unfold bind. rewrite Hb.
    setoid_rewrite elem_of_cons. destruct b; simpl.
    + destruct IH as (b & -> & Hl). exists b. naive_solver.
    + exists false. split; [done|]. split; [done|]. intros Hall. apply Hm. auto.
Qed.

Lemma wp_require allowed e (Q : Result () AuthError → Database → Prop) d :
  (allowed = true → Q (Ok ()) d) → (allowed = false → Q (Err e) d) → wp (require allowed e) Q d.
Proof. intros Ht Hf. destruct allowed; [apply wp_ret|apply wp_throw]; auto. Qed.
Lemma wp_can_manage_realm q x (Q : Result bool AuthError → Database → Prop) d :
  db_wf d → (∀ b, (b = true ↔ manageable q x d) → Q (Ok b) d) → wp (can_manage_realm q x) Q d.
Proof.
  intros Hwf HQ. destruct (can_manage_realm_run q x d Hwf) as (b & Hb & Hm).
  unfold wp. rewrite Hb. by apply HQ.
Qed.
Lemma wp_can_manage_admin_realms q l (Q : Result bool AuthError → Database → Prop) d :
  db_wf d → (∀ b, (b = true ↔ all_manageable q l d) → Q (Ok b) d) →
  wp (can_manage_admin_realms q l) Q d.
Proof.
  intros Hwf HQ. destruct (can_manage_admin_realms_run q l d Hwf) as (b & Hb & Hm).
  unfold wp. rewrite Hb. by apply HQ.
Qed.
Lemma wp_db {A} (m : DbM A) (Q : Result A AuthError → Database → Prop) d :
  wp m (λ r d', Q (map_err auth_error_of_db r) d') d → wp (db m) Q d.
Proof. unfold db. by rewrite wp_with_err. Qed.
Lemma wp_get_admin id (Q : Result (option Admin) AuthDbError → Database → Prop) d :
  db_wf d →
  (db_admin d !! id = None → Q (Ok None) d) →
  (∀ a, is_Some (db_admin d !! id) → adm_id a = id → adm_realms a = select_admin_realms id d →
     Q (Ok (Some a)) d) →
  wp (get_admin id) Q d.
Proof.
  intros Hwf Hn Hs. unfold wp. destruct (db_admin d !! id) as [row|] eqn:Hrow.
  - destruct (get_admin_row id row d Hwf Hrow) as (a & -> & ? & ? & _). apply Hs; eauto.
  - rewrite get_admin_missing by done. auto.
Qed.
Lemma wp_find_admin id (Q : Result Admin AuthError → Database → Prop) d :
  db_wf d → (∀ e, Q (Err e) d) →
  (∀ a, is_Some (db_admin d !! id) → adm_id a = id → adm_realms a = select_admin_realms id d →
     Q (Ok a) d) →
  wp (find_admin id) Q d.
Proof.
  intros Hwf He Hs. unfold find_admin. rewrite wp_bind. apply wp_db.
  apply wp_get_admin; [done|intros _; apply He|]. intros a ???. by apply Hs.
Qed.

(** ** The part of the store that belongs to a realm *)
Definition realm_slice (r : string) (d : Database)
    : option RealmRow * gmap (string * string) UserpassRow * gset (string * string) :=
  (db_realm d !! r, filter (λ kv, kv.1.1 = r) (db_userpass d),
   filter (λ ar, ar.2 = r) (db_admin_realms d)).

Lemma realm_slice_intro r d d' :
  db_realm d' !! r = db_realm d !! r →
  (∀ u, db_userpass d' !! (r, u) = db_userpass d !! (r, u)) →
  (∀ a, (a, r) ∈ db_admin_realms d' ↔ (a, r) ∈ db_admin_realms d) →
  realm_slice r d' = realm_slice r d.
Proof.
  intros Hr Hu Ha. unfold realm_slice. f_equal; [f_equal; [done|]|].
  - apply map_eq. intros [r' u]. rewrite !map_lookup_filter. simpl.
    destruct (decide (r' = r)) as [->|Hne]; [by rewrite Hu|].
    destruct (db_userpass d' !! (r', u)), (db_userpass d !! (r', u)); simpl;
      rewrite ?option_guard_False by done; done.
  - apply set_eq. intros [a r']. rewrite !elem_of_filter. simpl.
    split; intros [-> ?]; split; by try apply Ha.
Qed.
Lemma realm_slice_userpass r d d' u :
  realm_slice r d' = realm_slice r d → db_userpass d' !! (r, u) = db_userpass d !! (r, u).
Proof.
  intros [= _ Hu _]. assert (H : ∀ m : gmap (string * string) UserpassRow,
    filter (λ kv, kv.1.1 = r) m !! (r, u) = m !! (r, u)).
  { intros m. rewrite map_lookup_filter. destruct (m !! (r, u)); simpl; [|done].
    by rewrite option_guard_True. }
  by rewrite <-(H (db_userpass d')), Hu, H.
Qed.
Lemma realm_slice_claimed r d d' :
  realm_slice r d' = realm_slice r d → claimed r d' ↔ claimed r d.
Proof.
  intros [= _ _ Ha]. unfold claimed. apply exist_proper. intros a.
  assert (H : ∀ X : gset (string * string), (a, r) ∈ X ↔ (a, r) ∈ filter (λ ar, ar.2 = r) X)
    by (intros X; rewrite elem_of_filter; simpl; tauto).
  by rewrite (H (db_admin_realms d')), Ha, <-H.
Qed.

Definition keeps (r : string) (d : Database) {A E} (_ : Result A E) (d' : Database) : Prop :=
  realm_slice r d' = realm_slice r d.

Lemma keeps_create_realm r x d :
  is_Some (db_realm d !! r) → wp (create_realm x) (keeps r d) d.
Proof.
  intros [row Hrow]. unfold create_realm. rewrite wp_bind, wp_of_result.
  destruct (serialize_auth_params x) as [t|]; [|done].
  rewrite wp_with_err, wp_sql_insert. destruct (realm_id_glob _); [|done].
  case_bool_decide as Hx; [|done]. apply realm_slice_intro; [|done|done]. simpl.
  by rewrite lookup_insert_ne by congruence.
Qed.
Lemma keeps_update_realm r x d :
  realm_id x ≠ r → wp (update_realm x) (keeps r d) d.
Proof.
  intros Hne. unfold update_realm. rewrite wp_bind, wp_of_result.
  destruct (serialize_auth_params x) as [t|]; [|done]. rewrite wp_modify.
  apply realm_slice_intro; [|done|done]. simpl. by rewrite lookup_alter_ne.
Qed.
Lemma keeps_delete_realm r x d : x ≠ r → wp (delete_realm x) (keeps r d) d.
Proof.
  intros Hne. apply realm_slice_intro; simpl.
  - by rewrite lookup_delete_ne.
  - intros u. rewrite map_lookup_filter. destruct (db_userpass d !! (r, u)); simpl; [|done].
    by rewrite option_guard_True.
  - intros a. rewrite elem_of_filter. simpl. naive_solver.
Qed.

Lemma keeps_create_userpass r u d : up_realm u ≠ r → wp (create_userpass u) (keeps r d) d.
Proof.
  intros Hne. destruct (serialize_userpass_ok u) as (rt & ct & Hr & Hc).
  apply wp_intro. intros res d'. rewrite (create_userpass_run u rt ct) by done.
  destruct (db_userpass d !! (up_realm u, up_username u)), (db_realm d !! up_realm u);
    intros [= <- <-]; try done.
  apply realm_slice_intro; [done| |done]. intros v. simpl. rewrite lookup_insert_ne; congruence.
Qed.
Lemma keeps_set_userpass r f d :
  (∀ m u, f m !! (r, u) = m !! (r, u)) → realm_slice r (set_userpass f d) = realm_slice r d.
Proof. intros Hf. apply realm_slice_intro; simpl; auto. Qed.
Lemma keeps_update_userpass r u d : up_realm u ≠ r → wp (update_userpass u) (keeps r d) d.
Proof.
  intros Hne. unfold update_userpass. rewrite !wp_bind, wp_of_result.
  destruct (serialize_roles _); [|done]. rewrite wp_bind, wp_of_result.
  destruct (serialize_extra_claims _); [|done]. rewrite wp_modify.
  apply keeps_set_userpass. intros m v. rewrite lookup_alter_ne; congruence.
Qed.
Lemma keeps_update_userpass_metadata r x u c l d :
  x ≠ r → wp (update_userpass_metadata x u c l) (keeps r d) d.
Proof.
  intros Hne. unfold update_userpass_metadata. rewrite !wp_bind, wp_of_result.
  destruct (serialize_roles _); [|done]. rewrite wp_modify.
  apply keeps_set_userpass. intros m v. rewrite lookup_alter_ne; congruence.
Qed.
Lemma keeps_delete_userpass r x u d : x ≠ r → wp (delete_userpass x u) (keeps r d) d.
Proof.
  intros Hne. apply keeps_set_userpass. intros m v. rewrite lookup_delete_ne; congruence.
Qed.
Lemma keeps_delete_userpass_by_username r u d :
  db_userpass d !! (r, u) = None → wp (delete_userpass_by_username u) (keeps r d) d.
Proof.
  intros Hn. apply realm_slice_intro; [done| |done]. intros v. simpl.
  rewrite map_lookup_filter. destruct (decide (v = u)) as [->|Hne]; [by rewrite Hn|].
  destruct (db_userpass d !! (r, v)); simpl; [|done]. by rewrite option_guard_True.
Qed.
Lemma keeps_set_admin r f d : realm_slice r (set_admin f d) = realm_slice r d.
Proof. by apply realm_slice_intro. Qed.

Lemma keeps_create_admin r a d : r ∉ adm_realms a → wp (create_admin a) (keeps r d) d.
Proof.
  intros Hr. destruct (serialize_digital_credentials_ok a) as [t Ht].
  apply wp_intro. intros res d'. rewrite (create_admin_run a t) by done.
  destruct (db_admin d !! adm_id a) as [row|]; [by intros [= <- <-]|].
  set (d1 := set_admin _ d).
  destruct (insert_admin_realms_run (adm_id a) (adm_realms a) d1)
    as (don & rest & Hsplit & _ & _ & -> & _); [unfold d1; simpl; by simplify_map_eq|].
  intros [= <- <-]. apply realm_slice_intro; [done..|]. intros b. simpl.
  rewrite elem_of_union, elem_of_list_to_set, list_elem_of_fmap. rewrite Hsplit in Hr. set_solver.
Qed.

(** Updating an existing administrator: its memberships end up being the ones listed before
    the first that cannot be inserted. *)
Lemma update_admin_run a d :
  is_Some (db_admin d !! adm_id a) →
  ∃ res d' don rest, update_admin a d = (res, d') ∧
    adm_realms a = don ++ rest ∧ NoDup don ∧
    db_realm d' = db_realm d ∧ db_userpass d' = db_userpass d ∧
    dom (db_admin d') = dom (db_admin d) ∧
    (∀ b x, (b, x) ∈ db_admin_realms d' ↔
       (b ≠ adm_id a ∧ (b, x) ∈ db_admin_realms d) ∨ (b = adm_id a ∧ x ∈ don)) ∧
    match rest with
    | [] => res = Ok ()
    | x :: _ => (x ∈ don ∨ db_realm d !! x = None) ∧ is_ok res = false
    end.
Proof.
  intros Hs. destruct (serialize_digital_credentials_ok a) as [t Ht].
  unfold update_admin, bind at 1, of_result. rewrite Ht. unfold bind, modify.
  set (d1 := set_admin_realms _ _).
  destruct (insert_admin_realms_run (adm_id a) (adm_realms a) d1)
    as (don & rest & Hsplit & Hnd & _ & -> & Hrest);
    [unfold d1; simpl; by rewrite lookup_alter_is_Some|].
  assert (Hno : ∀ x, (adm_id a, x) ∉ db_admin_realms d1)
    by (intros x; unfold d1; simpl; rewrite elem_of_filter; simpl; tauto).
  eexists _, _, don, rest. split_and!; [done|done|done|done|done| | |].
  - unfold d1. simpl. by rewrite dom_alter_L.
  - intros b x. unfold d1. simpl.
    rewrite elem_of_union, elem_of_list_to_set, list_elem_of_fmap, elem_of_filter. naive_solver.
  - destruct rest as [|x rest]; [done|]. split; [|done]. specialize (Hno x). naive_solver.
Qed.
Lemma keeps_update_admin r a d :
  is_Some (db_admin d !! adm_id a) → r ∉ adm_realms a →
  (adm_id a, r) ∉ db_admin_realms d → wp (update_admin a) (keeps r d) d.
Proof.
  intros Hs Hr Hin. apply wp_intro. intros res d' Hrun.
  destruct (update_admin_run a d Hs) as (res' & d'' & don & rest & Hrun' & Hsplit & _ & Hrl & Hu & _ & Hm & _).
  rewrite Hrun in Hrun'. simplify_eq.
  apply realm_slice_intro; [by rewrite Hrl|by rewrite Hu|]. intros b. rewrite Hm.
  rewrite Hsplit in Hr. destruct (decide (b = adm_id a)) as [->|]; [|tauto].
  rewrite elem_of_app in Hr. tauto.
Qed.
(** Writing back the memberships just read restores them. *)
Lemma update_admin_same_realms a d :
  db_wf d → is_Some (db_admin d !! adm_id a) → adm_realms a = select_admin_realms (adm_id a) d →
  ∃ d', update_admin a d = (Ok (), d') ∧ db_admin_realms d' = db_admin_realms d ∧
    db_realm d' = db_realm d ∧ db_userpass d' = db_userpass d.
Proof.
  intros Hwf Hs Hr.
  destruct (update_admin_run a d Hs) as (res & d' & don & rest & Hrun & Hsplit & _ & Hrl & Hu & _ & Hm & Hrest).
  assert (Hnd : NoDup (don ++ rest)) by (rewrite <-Hsplit, Hr; apply NoDup_select_admin_realms).
  assert (Hall : ∀ x, x ∈ don ++ rest ↔ (adm_id a, x) ∈ db_admin_realms d)
    by (intros x; by rewrite <-Hsplit, Hr, elem_of_select_admin_realms).
  destruct rest as [|x rest].
  - subst. rewrite app_nil_r in *. exists d'. split_and!; [done| |done|done].
    apply set_eq. intros [b x]. rewrite Hm, Hall. destruct (decide (b = adm_id a)); naive_solver.
  - exfalso. destruct Hrest as [[Hx|Hx] _].
    + apply NoDup_app in Hnd as (_ & Hd & _). apply (Hd x Hx), list_elem_of_here.
    + assert (Hin : (adm_id a, x) ∈ db_admin_realms d) by (apply Hall, elem_of_app; right; left).
      destruct (wf_admin_realms _ Hwf _ _ Hin) as [_ [row Hrow]]. congruence.
Qed.
Lemma keeps_relink_admin r realm username stale link d :
  db_wf d → wp (relink_admin realm username stale link) (keeps r d) d.
Proof.
  intros Hwf. unfold relink_admin. destruct (decide _); [|done].
  rewrite wp_bind. apply wp_db. apply wp_get_admin; [done|done|]. intros a Hs Hid Hr.
  simpl. destruct (stale a); [|done]. apply wp_db.
  destruct (update_admin_same_realms (with_userpass link a) d) as (d' & Hrun & Ha & Hrl & Hu);
    [done|simpl; by rewrite Hid|simpl; by rewrite Hid|].
  unfold wp. rewrite Hrun. unfold keeps. cbn [fst snd]. apply realm_slice_intro; [by rewrite Hrl|by rewrite Hu|by rewrite Ha].
Qed.
Lemma keeps_delete_admin r id d :
  (id, r) ∉ db_admin_realms d → wp (delete_admin id) (keeps r d) d.
Proof.
  intros Hin. apply realm_slice_intro; [done..|]. intros a. simpl.
  rewrite elem_of_filter. simpl. naive_solver.
Qed.
End facts.
