(* ===== verification/AdminApiSpec.v ===== *)
(** What the administration endpoints promise: who may change what ([AdminApi.v]). *)
From S2P Require Import Prelude RustStd Models ClaimPolicy Passwords Totp Database DatabaseFacts Toy DatabaseSpec AdminApi AdminApiFacts.

(** * Requests

    Every route of the [/realms], [/admins], credential and TOTP scopes, with the random and
    clock values its handler draws. *)
Inductive AdminRequest :=
  | PostRealm (realm : Realm)
  | GetRealm (id : string)
  | PutRealm (id : string) (realm : Realm)
  | DeleteRealm (id : string)
  | ListRealms
  | PostAdmin (admin : Admin)
  | GetAdmin (id : string)
  | PutAdmin (id : string) (admin : Admin)
  | DeleteAdmin (id : string)
  | ListAdmins
  | PutAdminRealm (admin_id realm_id : string)
  | DeleteAdminRealm (admin_id realm_id : string)
  | PostUserpass (salt realm : string) (userpass : UserPass)
  | GetUserpass (realm username : string)
  | PutUserpass (salt realm username : string) (userpass : UserPass)
  | DeleteUserpass (realm username : string)
  | ListUserpass (realm : string)
  | ListAllUserpass
  | PostTotpGenerate (secret realm username : string) (issuer : option string)
  | PostTotpVerify (now : Z) (realm username secret token : string) (issuer : option string)
  | DeleteTotp (realm username : string).

(** Handlers answer, the requests drop the answer. *)
Definition forget {A} (m : ApiM A) : ApiM () := m ;;; ret ().

(** Follow a handler to its writes. *)
Ltac api_step :=
  lazymatch goal with
  | |- ensures _ (db _) => unfold db; apply ensures_with_err
  | |- ensures _ (forget _) => unfold forget
  | |- ensures _ (let _ := _ in _) => cbv zeta
  | |- ensures _ (match ?x with _ => _ end) => destruct x eqn:?
  | _ => first [ solve [apply ensures_reads; [apply _|solve [eauto with reads]]] | ensures_step ]
  end.

Section requests.
Context {L : DbLibs} {SC : SamlCheck} {LAWS : DbLaws}.

Definition run_request (q : option Admin) (req : AdminRequest) : ApiM () :=
  match req with
  | PostRealm realm => forget (api_create_realm q realm)
  | GetRealm id => forget (api_get_realm q id)
  | PutRealm id realm => forget (api_update_realm q id realm)
  | DeleteRealm id => forget (api_delete_realm q id)
  | ListRealms => forget (api_list_realms q)
  | PostAdmin admin => forget (api_create_admin q admin)
  | GetAdmin id => forget (api_get_admin q id)
  | PutAdmin id admin => forget (api_update_admin q id admin)
  | DeleteAdmin id => forget (api_delete_admin q id)
  | ListAdmins => forget (api_list_admins q)
  | PutAdminRealm a r => forget (add_admin_to_realm q a r)
  | DeleteAdminRealm a r => forget (remove_admin_from_realm q a r)
  | PostUserpass salt realm u => forget (api_create_userpass salt q realm u)
  | GetUserpass realm username => forget (api_get_userpass q realm username)
  | PutUserpass salt realm username u => forget (api_update_userpass salt q realm username u)
  | DeleteUserpass realm username => forget (api_delete_userpass q realm username)
  | ListUserpass realm => forget (api_list_userpass_by_realm q realm)
  | ListAllUserpass => forget (api_list_all_userpass q)
  | PostTotpGenerate s r u i => forget (totp_generate s q r u i)
  | PostTotpVerify now r u s t i => forget (totp_verify now q r u s t i)
  | DeleteTotp r u => forget (totp_disable q r u)
  end.

(** A pre-computed hash arrives as a Rust string. *)
Definition input_utf8 (u : UserPass) : Prop :=
  match up_password_input u with Some (Hashed h) => utf8_valid h = true | _ => True end.
Definition request_utf8 (req : AdminRequest) : Prop :=
  match req with
  | PostUserpass _ _ u | PutUserpass _ _ _ u => input_utf8 u
  | _ => True
  end.

(** ** Requests keep the store well formed *)
Lemma can_manage_realm_reads q r : reads (can_manage_realm q r).
Proof. unfold can_manage_realm, db. solve_reads. Qed.
Lemma can_manage_admin_realms_reads q l : reads (can_manage_admin_realms q l).
Proof.
  destruct l as [|x0 l0]; [solve_reads|]. unfold can_manage_admin_realms.
  generalize (x0 :: l0). intros l. induction l as [|x l IH]; simpl; [solve_reads|].
  apply reads_bind; [apply can_manage_realm_reads|]. by intros [].
Qed.
Lemma require_reads b e : reads (require b e).
Proof. by destruct b. Qed.
Lemma manage_credentials_reads q r : reads (manage_credentials q r).
Proof. apply reads_bind; [apply can_manage_realm_reads|]. intros b. apply require_reads. Qed.
Lemma manage_totp_reads q r : reads (manage_totp q r).
Proof. apply reads_bind; [apply can_manage_realm_reads|]. intros b. apply require_reads. Qed.
Lemma find_admin_reads id : reads (find_admin id).
Proof. unfold find_admin, db. solve_reads. Qed.
Lemma realm_totp_params_reads r : reads (realm_totp_params r).
Proof. unfold realm_totp_params, db. solve_reads. Qed.

Lemma create_password_hash_utf8 salt u h :
  input_utf8 u → create_password_hash salt (up_password_input u) = Ok h → utf8_valid h = true.
Proof.
  unfold input_utf8, create_password_hash. destruct (up_password_input u) as [[p|p]|]; [| |done].
  - destruct (hash_password_with_argon2 salt p) eqn:Hh; [|done]. intros _ [= <-].
    by eapply hash_password_utf8.
  - intros Hu. destruct (validate_argon2_phc_string p); [|done]. by intros [= <-].
Qed.

#[local] Hint Resolve can_manage_realm_reads can_manage_admin_realms_reads require_reads
  manage_credentials_reads manage_totp_reads find_admin_reads realm_totp_params_reads : reads.

Lemma relink_admin_wf realm u stale link :
  ensures (preserve db_wf) (relink_admin realm u stale link).
Proof. unfold relink_admin. repeat api_step. apply update_admin_wf. Qed.

Lemma api_create_userpass_wf salt q realm u :
  input_utf8 u → ensures (preserve db_wf) (api_create_userpass salt q realm u).
Proof.
  intros Hutf. unfold api_create_userpass. repeat api_step.
  - apply create_userpass_wf. by eapply create_password_hash_utf8.
  - apply relink_admin_wf.
Qed.
Lemma api_update_userpass_wf salt q realm username u :
  input_utf8 u → ensures (preserve db_wf) (api_update_userpass salt q realm username u).
Proof.
  intros Hutf. unfold api_update_userpass. repeat api_step; auto with db_wf.
  - apply update_userpass_wf. by eapply hash_password_utf8.
  - apply update_userpass_wf. destruct u as [r0 u0 h0 [[|h]|] c0 l0 x0]; by simplify_eq/=.
Qed.

Lemma run_request_wf q req :
  request_utf8 req → ensures (preserve db_wf) (run_request q req).
Proof.
  intros Hutf. destruct req; simpl in *;
    unfold api_create_realm, api_get_realm, api_update_realm, api_delete_realm, api_list_realms,
      api_create_admin, api_get_admin, api_update_admin, api_delete_admin, api_list_admins,
      add_admin_to_realm, remove_admin_from_realm, api_get_userpass,
      api_delete_userpass, api_list_userpass_by_realm,
      api_list_all_userpass, totp_generate, totp_verify, totp_disable;
    repeat api_step;
    auto using relink_admin_wf, api_create_userpass_wf, api_update_userpass_wf with db_wf.
Qed.

(** ** What a request from outside a realm can reach *)
Definition outsider (r : string) (q : Admin) (req : AdminRequest) (d : Database) : Prop :=
  r ∉ adm_realms q ∧
  match req with
  | DeleteRealm id => id = r → is_super_admin q = false
  | DeleteAdmin id => ∀ row u, db_admin d !! id = Some row → ar_userpass row = Some u →
                      db_userpass d !! (r, u) = None
  | _ => True
  end.

Section isolation.
Context (r : string) (q : Admin) (d : Database).
Context (Hwf : db_wf d) (Hr : claimed r d) (Hq : r ∉ adm_realms q).

Lemma manageable_ne x : manageable q x d → x ≠ r.
Proof. intros [Hx|[_ Hx]] ->; tauto. Qed.
Lemma all_manageable_notin l : all_manageable q l d → r ∉ l.
Proof.
  destruct l as [|x l]; [intros _; apply not_elem_of_nil|]. intros Hall Hin.
  exact (manageable_ne r (Hall r Hin) eq_refl).
Qed.
Lemma claimed_exists : is_Some (db_realm d !! r).
Proof. destruct Hr as [a Ha]. by destruct (wf_admin_realms _ Hwf _ _ Ha). Qed.

Lemma keeps_refl {A E} (res : Result A E) : keeps r d res d.
Proof. done. Qed.
(** The write that ends a handler, whatever is answered after it. *)
Lemma keeps_db_bind {A B} (m : DbM A) (k : A → ApiM B) :
  wp m (keeps r d) d →
  (∀ a d', keeps r d (Ok a : Result A AuthError) d' → m d = (Ok a, d') →
     wp (k a) (keeps r d) d') →
  wp (bind (db m) k) (keeps r d) d.
Proof.
  intros Hm Hk. rewrite wp_bind. apply wp_db. revert Hm. unfold wp.
  destruct (m d) as [[a|e] d'] eqn:Hrun; simpl; [|done]. intros Hkeep. by apply Hk.
Qed.
Lemma keeps_reads {A} (m : ApiM A) : reads m → wp m (keeps r d) d.
Proof. intros Hm. apply reads_wp; [done|]. intros res _. apply keeps_refl. Qed.
Lemma keeps_of_result_bind {A B} (x : Result A AuthError) (k : A → ApiM B) :
  (∀ a, x = Ok a → wp (k a) (keeps r d) d) → wp (bind (of_result x) k) (keeps r d) d.
Proof. intros Hk. rewrite wp_bind, wp_of_result. destruct x; [by apply Hk|done]. Qed.
Lemma keeps_require_bind {B} b e (k : () → ApiM B) :
  (b = true → wp (k ()) (keeps r d) d) → wp (bind (require b e) k) (keeps r d) d.
Proof. intros Hk. rewrite wp_bind. by apply wp_require. Qed.
Lemma keeps_can_manage_bind {B} x (k : bool → ApiM B) :
  (∀ b, (b = true → x ≠ r) → wp (k b) (keeps r d) d) →
  wp (bind (can_manage_realm q x) k) (keeps r d) d.
Proof.
  intros Hk. rewrite wp_bind. apply wp_can_manage_realm; [done|]. intros b Hb.
  apply Hk. intros ->. by apply manageable_ne, Hb.
Qed.
Lemma keeps_can_manage_admin_bind {B} l (k : bool → ApiM B) :
  (∀ b, (b = true → r ∉ l) → wp (k b) (keeps r d) d) →
  wp (bind (can_manage_admin_realms q l) k) (keeps r d) d.
Proof.
  intros Hk. rewrite wp_bind. apply wp_can_manage_admin_realms; [done|]. intros b Hb.
  apply Hk. intros ->. by apply all_manageable_notin, Hb.
Qed.
Lemma keeps_find_admin_bind {B} id (k : Admin → ApiM B) :
  (∀ a, is_Some (db_admin d !! id) → adm_id a = id →
     (∀ x, x ∈ adm_realms a ↔ (id, x) ∈ db_admin_realms d) → wp (k a) (keeps r d) d) →
  wp (bind (find_admin id) k) (keeps r d) d.
Proof.
  intros Hk. rewrite wp_bind. apply wp_find_admin; [done|by intros e|].
  intros a Hs Hid Ha. apply Hk; [done..|]. intros x.
  by rewrite Ha, elem_of_select_admin_realms.
Qed.
Lemma keeps_manage_bind {B} x msg (k : () → ApiM B) :
  (x ≠ r → wp (k ()) (keeps r d) d) →
  wp (bind (let* allowed := can_manage_realm q x in require allowed msg) k) (keeps r d) d.
Proof.
  intros Hk. rewrite !wp_bind. apply wp_can_manage_realm; [done|]. intros b Hb.
  apply wp_require; [|done]. intros ->. by apply Hk, manageable_ne, Hb.
Qed.
Lemma keeps_forget {A} (m : ApiM A) : wp m (keeps r d) d → wp (forget m) (keeps r d) d.
Proof. intros Hm. unfold forget. rewrite wp_bind. eapply wp_mono; [exact Hm|]. by intros []. Qed.

(** Writes that touch only the [admin] columns. *)
Lemma keeps_enable_totp rr u sec i : wp (enable_totp rr u sec i) (keeps r d) d.
Proof.
  unfold enable_totp. rewrite wp_bind, wp_of_result. destruct (totp_err _); [|done].
  rewrite wp_modify. apply keeps_set_admin.
Qed.
Lemma keeps_disable_totp rr u : wp (disable_totp rr u) (keeps r d) d.
Proof. unfold disable_totp. rewrite wp_modify. apply keeps_set_admin. Qed.

Ltac api_open :=
  apply keeps_of_result_bind; intros ? [= <-].
Ltac api_end := intros ? ? Hkeep _; first [exact Hkeep | rewrite wp_bind; exact Hkeep].

Lemma keeps_api_create_realm x : wp (api_create_realm (Some q) x) (keeps r d) d.
Proof.
  unfold api_create_realm. api_open. apply keeps_require_bind. intros _.
  apply keeps_of_result_bind. intros y _. apply keeps_db_bind; [|api_end].
  apply keeps_create_realm, claimed_exists.
Qed.
Lemma keeps_api_update_realm id x : wp (api_update_realm (Some q) id x) (keeps r d) d.
Proof.
  unfold api_update_realm. api_open. apply keeps_can_manage_bind. intros b Hb.
  apply keeps_require_bind. intros Hb'. apply keeps_of_result_bind. intros y Hy.
  apply check_saml_params_id in Hy. apply keeps_db_bind; [|api_end].
  apply keeps_update_realm. rewrite Hy. simpl. auto.
Qed.
Lemma keeps_api_delete_realm id :
  (id = r → is_super_admin q = false) → wp (api_delete_realm (Some q) id) (keeps r d) d.
Proof.
  intros Hid. unfold api_delete_realm. api_open. apply keeps_require_bind. intros Hcan.
  apply keeps_db_bind; [|api_end]. apply keeps_delete_realm. intros ->.
  unfold can_administer_realm in Hcan. unfold is_super_admin in Hid.
  apply orb_true_iff in Hcan as [Hcan|Hcan]; [by rewrite Hid in Hcan|].
  by apply bool_decide_eq_true in Hcan.
Qed.
Lemma keeps_api_create_admin a : wp (api_create_admin (Some q) a) (keeps r d) d.
Proof.
  unfold api_create_admin. api_open. apply keeps_can_manage_admin_bind. intros b Hb.
  apply keeps_require_bind. intros Hb'. apply keeps_db_bind; [|api_end].
  apply keeps_create_admin. auto.
Qed.
Lemma keeps_api_update_admin id a : wp (api_update_admin (Some q) id a) (keeps r d) d.
Proof.
  unfold api_update_admin. api_open. apply keeps_find_admin_bind. intros t Hs Hid Ht.
  apply keeps_can_manage_admin_bind. intros b Hb. apply keeps_require_bind. intros Hb'.
  apply keeps_can_manage_admin_bind. intros c Hc. apply keeps_require_bind. intros Hc'.
  apply keeps_db_bind; [|api_end]. apply keeps_update_admin; simpl; [done|auto|].
  rewrite <-Ht. auto.
Qed.
Lemma keeps_api_delete_admin id :
  (∀ row u, db_admin d !! id = Some row → ar_userpass row = Some u →
     db_userpass d !! (r, u) = None) →
  wp (api_delete_admin (Some q) id) (keeps r d) d.
Proof.
  intros Hcascade. unfold api_delete_admin. api_open.
  rewrite wp_bind. apply wp_db. destruct (db_admin d !! id) as [row|] eqn:Hrow.
  - destruct (get_admin_row id row d Hwf Hrow) as (a & Hg & Hid & Hrl & Ha).
    unfold wp at 1. rewrite Hg. simpl.
    pose proof (row_to_admin_userpass _ _ _ _ Ha) as Hup.
    rewrite !wp_bind. apply wp_can_manage_admin_realms; [done|]. intros b Hb.
    apply wp_require; [|done]. intros Hb'.
    apply keeps_db_bind.
    { apply keeps_delete_admin. rewrite <-elem_of_select_admin_realms, <-Hrl.
      apply all_manageable_notin, Hb, Hb'. }
    intros [] d' Hk Hrun. rewrite wp_bind. cbn [mbind option_bind]. rewrite Hup.
    destruct (ar_userpass row) as [u|] eqn:Hu; [|done].
    apply wp_db. eapply wp_mono; [apply keeps_delete_userpass_by_username|].
    { rewrite (realm_slice_userpass _ _ _ _ Hk). by eapply Hcascade. }
    intros res d'' Hk'. assert (realm_slice r d'' = realm_slice r d) by (unfold keeps in *; congruence).
    by destruct res.
  - unfold wp at 1. rewrite get_admin_missing by done. simpl.
    apply keeps_require_bind. intros _. apply keeps_db_bind; [|api_end].
    apply keeps_delete_admin. intros Hin.
    destruct (wf_admin_realms _ Hwf _ _ Hin) as [[? ?] _]. congruence.
Qed.
Lemma keeps_add_admin_to_realm id x : wp (add_admin_to_realm (Some q) id x) (keeps r d) d.
Proof.
  unfold add_admin_to_realm. api_open. apply keeps_can_manage_bind. intros b Hb.
  apply keeps_require_bind. intros Hb'. apply keeps_find_admin_bind. intros t Hs Hid Ht.
  assert (Hend : r ∉ adm_realms t → wp (if realm_in x (adm_realms t) then ret (HttpOk t)
    else let admin := with_realms (adm_realms t ++ [x]) t in
         db (update_admin admin) ;;; ret (HttpOk admin)) (keeps r d) d).
  { intros Hnot. destruct (realm_in x (adm_realms t)); [done|].
    apply keeps_db_bind; [|api_end]. apply keeps_update_admin; simpl.
    - by rewrite Hid.
    - rewrite elem_of_app, list_elem_of_singleton. intros [?| ->]; [done|by apply Hb].
    - by rewrite Hid, <-Ht. }
  destruct (adm_realms t) as [|x0 l0] eqn:Hl.
  - rewrite wp_bind, wp_ret. apply Hend, not_elem_of_nil.
  - rewrite !wp_bind. apply wp_can_manage_admin_realms; [done|]. intros c Hc.
    apply wp_require; [|done]. intros Hc'. apply Hend, all_manageable_notin, Hc, Hc'.
Qed.
Lemma keeps_remove_admin_from_realm id x :
  wp (remove_admin_from_realm (Some q) id x) (keeps r d) d.
Proof.
  unfold remove_admin_from_realm. api_open. apply keeps_can_manage_bind. intros b Hb.
  apply keeps_require_bind. intros Hb'. apply keeps_find_admin_bind. intros t Hs Hid Ht.
  apply keeps_can_manage_admin_bind. intros c Hc. apply keeps_require_bind. intros Hc'.
  cbv zeta. destruct (_ <? _); [|done]. apply keeps_db_bind; [|api_end].
  apply keeps_update_admin; simpl.
  - by rewrite Hid.
  - rewrite list_elem_of_filter. intros [_ ?]. by apply Hc.
  - rewrite Hid, <-Ht. auto.
Qed.

(** The relinking after a credential write. *)
Lemma keeps_then_relink {B} d' realm u stale link (k : () → ApiM B) :
  db_wf d' → realm_slice r d' = realm_slice r d →
  reads (k ()) →
  wp (bind (relink_admin realm u stale link) k) (keeps r d) d'.
Proof.
  intros Hwf' Hk Hkr. rewrite wp_bind. eapply wp_mono; [by apply (keeps_relink_admin r)|].
  unfold keeps. intros res d'' Hk'. assert (Heq : realm_slice r d'' = realm_slice r d) by congruence.
  destruct res as [[]|e]; [|done].
  by apply reads_wp.
Qed.
Lemma keeps_api_create_userpass salt realm u :
  input_utf8 u → wp (api_create_userpass salt (Some q) realm u) (keeps r d) d.
Proof.
  intros Hutf. unfold api_create_userpass. api_open. apply keeps_manage_bind. intros Hne.
  cbv zeta. apply keeps_of_result_bind. intros _ _. apply keeps_of_result_bind. intros h Hh.
  rewrite wp_bind, wp_with_err.
  pose proof (keeps_create_userpass r (with_hash h (with_key realm (up_username u) u)) d Hne) as Hk.
  assert (Hwf' : db_wf (create_userpass (with_hash h (with_key realm (up_username u) u)) d).2).
  { apply create_userpass_wf; [|done]. by eapply create_password_hash_utf8. }
  revert Hk Hwf'. unfold wp at 1 2. destruct (create_userpass _ d) as [[[]|e] d']; [|done].
  cbn [fst snd map_err]. intros Hk Hwf'. by apply keeps_then_relink.
Qed.
Lemma keeps_api_update_userpass salt realm username u :
  wp (api_update_userpass salt (Some q) realm username u) (keeps r d) d.
Proof.
  unfold api_update_userpass. api_open. apply keeps_manage_bind. intros Hne.
  cbv zeta. apply keeps_of_result_bind. intros _ _. rewrite wp_bind.
  assert (Hend : ∀ A (m : ApiM A), wp m (keeps r d) d →
    wp m (λ x d', match x with
                  | Ok _ => wp (ret (HttpOk (with_hash "" (with_key realm username u)))
                      : ApiM (HttpResponse UserPass)) (keeps r d) d'
                  | Err e => keeps r d (Err e : Result (HttpResponse UserPass) AuthError) d'
                  end) d).
  { intros A m Hm. eapply wp_mono; [exact Hm|]. by intros [] d'. }
  simpl up_password_input. destruct (up_password_input u) as [[p|h]|]; apply Hend.
  - apply keeps_of_result_bind. intros h _. apply wp_db. by apply keeps_update_userpass.
  - apply keeps_of_result_bind. intros _ _. apply wp_db. by apply keeps_update_userpass.
  - rewrite wp_bind. simpl up_extra_claims.
    assert (Hmd : wp (db (update_userpass_metadata realm username
        (up_change_password (with_key realm username u)) (up_roles (with_key realm username u))))
      (keeps r d) d) by (apply wp_db; by apply keeps_update_userpass_metadata).
    destruct (up_extra_claims u) as [c|]; [|done].
    rewrite wp_bind. apply wp_db, reads_wp; [apply get_userpass_reads|].
    intros [e|e] _; [|done]. simpl. apply wp_require; [done|done].
Qed.
Lemma keeps_api_delete_userpass realm username :
  wp (api_delete_userpass (Some q) realm username) (keeps r d) d.
Proof.
  unfold api_delete_userpass. api_open. apply keeps_manage_bind. intros Hne.
  apply keeps_db_bind; [by apply keeps_delete_userpass|]. intros [] d' Hk Hrun.
  apply keeps_then_relink; [|done|apply reads_ret].
  assert (d' = (delete_userpass realm username d).2) as -> by by rewrite Hrun.
  by apply delete_userpass_wf.
Qed.
Lemma keeps_totp_verify now realm u s t i :
  wp (totp_verify now (Some q) realm u s t i) (keeps r d) d.
Proof.
  unfold totp_verify. api_open. apply keeps_manage_bind. intros _. cbv zeta.
  rewrite wp_bind. apply reads_wp; [apply realm_totp_params_reads|]. intros [ps|e] _; [|done].
  apply keeps_of_result_bind. intros tt_ _. apply keeps_of_result_bind. intros v _.
  apply keeps_require_bind. intros _. apply keeps_db_bind; [apply keeps_enable_totp|api_end].
Qed.
Lemma keeps_totp_disable realm u : wp (totp_disable (Some q) realm u) (keeps r d) d.
Proof.
  unfold totp_disable. api_open. apply keeps_manage_bind. intros _.
  apply keeps_db_bind; [apply keeps_disable_totp|api_end].
Qed.

Lemma keeps_run_request req :
  request_utf8 req → outsider r q req d → wp (run_request (Some q) req) (keeps r d) d.
Proof.
  intros Hutf [_ Hreq].
  destruct req; simpl in *; apply keeps_forget;
    auto using keeps_api_create_realm, keeps_api_update_realm, keeps_api_delete_realm,
      keeps_api_create_admin, keeps_api_update_admin, keeps_api_delete_admin,
      keeps_add_admin_to_realm, keeps_remove_admin_from_realm, keeps_api_create_userpass,
      keeps_api_update_userpass, keeps_api_delete_userpass, keeps_totp_verify,
      keeps_totp_disable.
  all: apply keeps_reads;
    unfold api_get_realm, api_list_realms, api_get_admin, api_list_admins, api_get_userpass,
      api_list_userpass_by_realm, api_list_all_userpass, totp_generate, db;
    solve_reads.
Qed.
End isolation.
End requests.

(** * Realm isolation *)

(** One request by an administrator who is not a member of [r]. *)
Inductive outside_step `{L : DbLibs} `{SC : SamlCheck} (r : string) : Database → Database → Prop :=
  outside_request q req d :
    request_utf8 req → outsider r q req d → outside_step r d (run_request (Some q) req d).2.

(** C2: a realm that has an administrator of its own is out of reach of everyone else.  After
    any sequence of administration requests by administrators, super administrators included,
    that are not members of the realm, its settings, its credentials and its membership are
    exactly what they were.  The two requests excluded are the deletion of the whole realm by
    a super administrator, and the deletion of an administrator whose [userpass] names a user
    of the realm. *)
Theorem realm_isolation `{L : DbLibs} `{SC : SamlCheck} `{!DbLaws} (r : string) (d d' : Database) :
  db_wf d → claimed r d → rtc (outside_step r) d d' →
  claimed r d' ∧
  db_realm d' !! r = db_realm d !! r ∧
  (∀ u, db_userpass d' !! (r, u) = db_userpass d !! (r, u)) ∧
  (∀ a, (a, r) ∈ db_admin_realms d' ↔ (a, r) ∈ db_admin_realms d).
Proof.
  intros Hwf Hr Hsteps.
  assert (realm_slice r d' = realm_slice r d ∧ db_wf d') as [Hk _].
  { revert Hwf Hr. induction Hsteps as [d|d1 d2 d3 [q req d Hutf Hout] _ IH]; intros Hwf Hr; [done|].
    pose proof (keeps_run_request r q d Hwf Hr (proj1 Hout) req Hutf Hout) as Hk.
    destruct IH as [Hk' Hwf'].
    - by apply (run_request_wf (Some q) req Hutf).
    - by apply (realm_slice_claimed r _ d).
    - split; [|done]. by rewrite Hk'. }
  split_and!.
  - by apply (realm_slice_claimed r d' d).
  - by injection Hk.
  - intros u. by apply realm_slice_userpass.
  - intros a. injection Hk as _ _ Ha.
    assert (Hf : ∀ X : gset (string * string), (a, r) ∈ X ↔ (a, r) ∈ filter (λ ar, ar.2 = r) X)
      by (intros X; rewrite elem_of_filter; simpl; tauto).
    by rewrite (Hf (db_admin_realms d')), Ha, <-Hf.
Qed.
#[local] Existing Instance saml_disabled.
Lemma realm_isolation_witness :
  let q := mkAdmin "alice" ["a"] None None None None None None None None in
  db_wf toy_db ∧ claimed "_" toy_db ∧
  (∀ u, db_userpass (run_request (Some q) (DeleteUserpass "_" "admin") toy_db).2 !! ("_", u) =
        db_userpass toy_db !! ("_", u)).
Proof.
  intros q.
  assert (db_wf toy_db) as Hwf by apply reachable_db_wf, toy_db_reachable.
  assert (claimed "_" toy_db) as Hc by (exists "admin"; by apply (bool_decide_unpack _); vm_compute).
  split_and!; [done..|]. intros u.
  eapply (realm_isolation "_" toy_db); [done..|]. apply rtc_once.
  apply outside_request; [done|]. split; [|done]. apply (bool_decide_unpack _). by vm_compute.
Defined.

(** Every administration endpoint refuses a request without an authenticated administrator,
    and leaves the store as it was. *)
Theorem unauthenticated_requests_refused `{L : DbLibs} `{SC : SamlCheck} (req : AdminRequest)
    (d : Database) :
  run_request None req d =
    (Err (Session "No authenticated admin found in request"), d).
Proof. by destruct req. Qed.

(** The batch rule used to filter lists agrees with the database-backed rule: given the
    realms claimed by the administrators the store lists, it allows exactly what
    [can_manage_realm] allows, which is membership, or being a super administrator of a realm
    that has no administrator. *)
Theorem realm_manageable_given_claims_correct `{L : DbLibs} `{!DbLaws} (d : Database) (q : Admin)
    (x : string) :
  db_wf d →
  ∃ admins, list_admins d = (Ok admins, d) ∧
    can_manage_realm q x d = (Ok (realm_manageable_given_claims q x (claimed_realms admins)), d) ∧
    (realm_manageable_given_claims q x (claimed_realms admins) = true ↔
       x ∈ adm_realms q ∨ (ADMIN_REALM ∈ adm_realms q ∧ ¬ ∃ a, (a, x) ∈ db_admin_realms d)).
Proof.
  intros Hwf. destruct (list_admins_run d Hwf) as (l & Hl & _ & _ & Hmem).
  destruct (can_manage_realm_run q x d Hwf) as (b & Hb & Hm). exists l.
  assert (Hiff : realm_manageable_given_claims q x (claimed_realms l) = true ↔ manageable q x d).
  { unfold realm_manageable_given_claims, realm_in, manageable.
    rewrite orb_true_iff, andb_true_iff, negb_true_iff, <-not_true_iff_false, !bool_decide_eq_true.
    unfold claimed_realms. rewrite elem_of_list_to_set, list_elem_of_bind.
    rewrite (claimed_list x d l) by done. naive_solver. }
  split_and!; [done| |].
  - rewrite Hb. do 2 f_equal. apply eq_bool_prop_intro. rewrite !Is_true_true. by rewrite Hm, Hiff.
  - rewrite Hiff. unfold manageable, is_super_admin, claimed. by rewrite bool_decide_eq_true.
Qed.
Lemma realm_manageable_given_claims_correct_witness :
  db_wf toy_db ∧ ∃ admins, list_admins toy_db = (Ok admins, toy_db).
Proof.
  assert (db_wf toy_db) as Hwf by apply reachable_db_wf, toy_db_reachable. split; [done|].
  destruct (realm_manageable_given_claims_correct toy_db app_admin "a" Hwf) as (l & Hl & _).
  by exists l.
Defined.

(** * Administrators and credentials *)

(** A concrete store: a second realm ["b"] with its own administrator and a user ["victim"],
    and an administrator of realm ["a"] only. *)
Definition two_realms_db : Database :=
  let step {A} (m : DbM A) (d : Database) : Database := (m d).2 in
  let realm id := mkRealm id RealmAuthParams_default 60 60 60 in
  let admin id realms u := mkAdmin id realms u None None None None None None None in
  let user r u := mkUserPass r u "hash" None false [] None in
  step (create_admin (admin "mallory" ["a"] (Some "victim")))
  (step (create_admin (admin "alice" ["a"] None))
  (step (create_admin (admin "bob" ["b"] None))
  (step (create_userpass (user "b" "victim"))
  (step (create_realm (realm "b"))
  (step (create_realm (realm "a")) toy_db))))).
Definition alice : Admin := mkAdmin "alice" ["a"] None None None None None None None None.
Lemma two_realms_db_reachable : reachable_db two_realms_db.
Proof.
  unfold two_realms_db.
  do 3 (eapply rtc_r; [|apply step_create_admin]).
  eapply rtc_r; [|by apply step_create_userpass].
  do 2 (eapply rtc_r; [|apply step_create_realm]).
  apply toy_db_reachable.
Qed.
Lemma two_realms_db_wf : db_wf two_realms_db.
Proof. apply reachable_db_wf, two_realms_db_reachable. Qed.

(** Deleting an administrator the requester may manage removes it with its memberships and
    deletes the credentials of its [userpass] name in every realm, whoever administers that
    realm; no other administrator, membership or credential changes. *)
Theorem delete_admin_cascades_everywhere `{L : DbLibs} `{!DbLaws} (d : Database) (q a : Admin)
    (id : string) :
  db_wf d → get_admin id d = (Ok (Some a), d) → all_manageable q (adm_realms a) d →
  ∃ d', api_delete_admin (Some q) id d = (Ok NoContent, d') ∧
    (∀ i, db_admin d' !! i = if decide (i = id) then None else db_admin d !! i) ∧
    (∀ i r, (i, r) ∈ db_admin_realms d' ↔ (i, r) ∈ db_admin_realms d ∧ i ≠ id) ∧
    (∀ r u, db_userpass d' !! (r, u) =
       if decide (adm_userpass a = Some u) then None else db_userpass d !! (r, u)) ∧
    db_realm d' = db_realm d.
Proof.
  intros Hwf Ha Hm. destruct (can_manage_admin_realms_run q (adm_realms a) d Hwf) as (b & Hb & Hiff).
  assert (b = true) as -> by by apply Hiff.
  unfold api_delete_admin, db, bind, with_err, of_result, admin_from_request. simpl.
  rewrite Ha. simpl. rewrite Hb. simpl.
  destruct (adm_userpass a) as [u|] eqn:Hu; (eexists; split; [done|]; simpl; split_and!; [| | |done]).
  all: try by (intros i; case_decide; subst; by simplify_map_eq).
  all: try by (intros i r; rewrite elem_of_filter; simpl; tauto).
  - intros r v. rewrite map_lookup_filter. case_decide as Hv.
    + destruct (db_userpass d !! (r, v)); simpl; [|done]. rewrite option_guard_False; naive_solver.
    + destruct (db_userpass d !! (r, v)); simpl; [|done]. rewrite option_guard_True; naive_solver.
  - intros r v. first [done|by case_decide].
Qed.
Lemma delete_admin_cascades_everywhere_witness :
  claimed "b" two_realms_db ∧ "b" ∉ adm_realms alice ∧ is_super_admin alice = false ∧
  is_Some (db_userpass two_realms_db !! ("b", "victim")) ∧
  ∃ d', api_delete_admin (Some alice) "mallory" two_realms_db = (Ok NoContent, d') ∧
    db_userpass d' !! ("b", "victim") = None.
Proof.
  split_and!; [exists "bob"; by apply (bool_decide_unpack _); vm_compute
    |apply (bool_decide_unpack _); by vm_compute|done|eexists; by vm_compute|].
  destruct (delete_admin_cascades_everywhere two_realms_db alice
    (mkAdmin "mallory" ["a"] (Some "victim") None None None None None None None) "mallory")
    as (d' & Hrun & _ & _ & Hu & _).
  - apply two_realms_db_wf.
  - by vm_compute.
  - intros x ->%list_elem_of_singleton. left. apply (bool_decide_unpack _); by vm_compute.
  - exists d'. split; [exact Hrun|]. by rewrite Hu.
Defined.

(** Disabling TOTP through a realm one may manage clears the second factor of the
    administrator of that name whatever realm that administrator belongs to: the realm in the
    path is authorised but never used to select the row. *)
Theorem totp_disable_ignores_realm `{L : DbLibs} `{!DbLaws} (d : Database) (q : Admin)
    (realm username : string) :
  db_wf d → manageable q realm d →
  ∃ d', totp_disable (Some q) realm username d = (Ok NoContent, d') ∧
    (∀ row, db_admin d !! username = Some row →
       is_Some (ar_userpass row) ∨ is_Some (ar_jwt row) →
       ∃ row', db_admin d' !! username = Some row' ∧
         ar_totp_enabled row' = Some 0%Z ∧ ar_totp_secret row' = None ∧
         ar_totp_auth_url row' = None) ∧
    (∀ i, i ≠ username → db_admin d' !! i = db_admin d !! i) ∧
    db_realm d' = db_realm d ∧ db_userpass d' = db_userpass d ∧
    db_admin_realms d' = db_admin_realms d.
Proof.
  intros Hwf Hm. destruct (can_manage_realm_run q realm d Hwf) as (b & Hb & Hiff).
  assert (b = true) as -> by by apply Hiff.
  eexists. unfold totp_disable, manage_totp, db, bind, with_err, of_result, admin_from_request.
  simpl. rewrite Hb. simpl. split_and!; [done| | |done..]; simpl.
  - intros row Hrow Hcap. rewrite lookup_alter_eq, Hrow. simpl. eexists. split; [done|].
    unfold set_totp, totp_capable. rewrite (proj2 (orb_true_iff _ _)); [done|].
    by rewrite !bool_decide_eq_true.
  - intros i Hi. by rewrite lookup_alter_ne.
Qed.
Lemma totp_disable_ignores_realm_witness :
  is_super_admin alice = false ∧ ("admin", "a") ∉ db_admin_realms two_realms_db ∧
  ∃ d', totp_disable (Some alice) "a" "admin" two_realms_db = (Ok NoContent, d') ∧
    ∃ row', db_admin d' !! "admin" = Some row' ∧ ar_totp_enabled row' = Some 0%Z.
Proof.
  split_and!; [done|apply (bool_decide_unpack _); by vm_compute|].
  destruct (totp_disable_ignores_realm two_realms_db alice "a" "admin" two_realms_db_wf)
    as (d' & Hrun & Hrow & _).
  - left. apply (bool_decide_unpack _); by vm_compute.
  - exists d'. split; [exact Hrun|].
    assert (Hadm : ∃ row, db_admin two_realms_db !! "admin" = Some row ∧ is_Some (ar_userpass row)).
    { eexists. split; [by vm_compute|by eexists]. }
    destruct Hadm as (row & Hr & Hc).
    destruct (Hrow row Hr (or_introl Hc)) as (row' & H1 & H2 & _). exists row'. exact (conj H1 H2).
Defined.
