(* ===== verification/CredentialSpec.v ===== *)
(** What updating a credential promises: [PUT /realms/{realm}/userpass/{username}]
    ([AdminApi.api_update_userpass]). *)
From S2P Require Import Prelude RustStd Models ClaimPolicy Passwords Totp Database DatabaseFacts Toy DatabaseSpec AdminApi AdminApiFacts AdminApiSpec.

Section put.
Context {L : DbLibs} {LAWS : DbLaws}.

(** The password and extra claims of the entry after an update of [row] to [row']. *)
Definition secrets_updated (u : UserPass) (row row' : UserpassRow) : Prop :=
  match up_password_input u with
  | None => ur_password row' = ur_password row ∧ ur_extra_claims row' = ur_extra_claims row
  | Some input =>
      deserialize_extra_claims (up_username u) (ur_extra_claims row') = Ok (up_extra_claims u) ∧
      match input with
      | Plaintext p => verify_password_argon2 (ur_password row') p = Ok ()
      | Hashed h => ur_password row' = h ∧ validate_argon2_phc_string h = Ok ()
      end
  end.
Definition row_updated (u : UserPass) (row row' : UserpassRow) : Prop :=
  ur_change_password row' = up_change_password u ∧
  deserialize_roles (up_username u) (ur_roles row') = Ok (up_roles u) ∧
  secrets_updated u row row'.
(** The outcome of a request on the entry [k]. *)
Definition put_outcome {A} (k : string * string) (u : UserPass) (d : Database)
    (r : Result A AuthError) (d' : Database) : Prop :=
  match r with
  | Err _ => d' = d
  | Ok _ => ∃ f, d' = set_userpass (alter f k) d ∧ ∀ row, row_updated u row (f row)
  end.

Lemma deserialize_serialized_roles name roles rt :
  serialize_roles roles = Ok rt → deserialize_roles name rt = Ok roles.
Proof.
  unfold serialize_roles, deserialize_roles.
  destruct (serde_roundtrip roles) as (t & -> & Hf). intros [= <-]. by rewrite Hf.
Qed.
Lemma deserialize_serialized_claims name claims ct :
  serialize_extra_claims claims = Ok ct → deserialize_extra_claims name ct = Ok claims.
Proof.
  unfold serialize_extra_claims, deserialize_extra_claims. destruct claims as [c|]; simpl.
  - destruct (serde_roundtrip c) as (t & -> & Hf). intros [= <-]. simpl. by rewrite Hf.
  - by intros [= <-].
Qed.
Lemma put_with_hash u h input d :
  up_password_input u = Some input →
  match input with
  | Plaintext p => verify_password_argon2 h p = Ok ()
  | Hashed h' => h = h' ∧ validate_argon2_phc_string h' = Ok ()
  end →
  wp (db (update_userpass (with_hash h u))) (put_outcome (up_realm u, up_username u) u d) d.
Proof.
  intros Hin Hh. destruct (serialize_userpass_ok u) as (rt & ct & Hr & Hc).
  apply wp_db. unfold update_userpass. simpl. rewrite Hr, Hc. wp_steps. simpl.
  eexists. split; [done|]. intros row. split; [done|].
  split; [by eapply deserialize_serialized_roles|]. unfold secrets_updated. rewrite Hin.
  split; [by eapply deserialize_serialized_claims|done].
Qed.
Lemma put_metadata u d :
  up_password_input u = None →
  wp (db (update_userpass_metadata (up_realm u) (up_username u) (up_change_password u) (up_roles u)))
    (put_outcome (up_realm u, up_username u) u d) d.
Proof.
  intros Hin. destruct (serialize_userpass_ok u) as (rt & ct & Hr & _).
  apply wp_db. unfold update_userpass_metadata. rewrite Hr. wp_steps. simpl.
  eexists. split; [done|]. intros row. split; [done|].
  split; [by eapply deserialize_serialized_roles|]. unfold secrets_updated. by rewrite Hin.
Qed.
Lemma api_update_userpass_wp salt q realm username u d :
  db_wf d →
  wp (api_update_userpass salt (Some q) realm username u)
    (λ r d', (is_ok r = true → manageable q realm d) ∧
             put_outcome (realm, username) (with_key realm username u) d r d') d.
Proof.
  intros Hwf. unfold api_update_userpass. simpl admin_from_request. rewrite wp_bind, wp_of_result.
  unfold manage_credentials. rewrite !wp_bind. apply wp_can_manage_realm; [done|]. intros b Hb.
  apply wp_require; [|done]. intros ->. assert (manageable q realm d) as Hm by by apply Hb.
  cbv zeta. set (u' := with_key realm username u). rewrite wp_bind, wp_of_result.
  destruct (check_extra_claims _) as [[]|e]; [|done]. rewrite wp_bind.
  assert (Hend : ∀ m : ApiM (), wp m (put_outcome (realm, username) u' d) d →
    wp m (λ x d', match x with
                  | Ok _ => wp (ret (HttpOk (with_hash "" u')) : ApiM (HttpResponse UserPass))
                      (λ r d', (is_ok r = true → manageable q realm d) ∧
                               put_outcome (realm, username) u' d r d') d'
                  | Err e => (is_ok (Err e : Result (HttpResponse UserPass) AuthError) = true →
                      manageable q realm d) ∧ put_outcome (realm, username) u' d
                        (Err e : Result (HttpResponse UserPass) AuthError) d'
                  end) d).
  { intros m Hw. eapply wp_mono; [exact Hw|]. by intros [] d'. }
  destruct (up_password_input u') as [[p|h]|] eqn:Hin; apply Hend.
  - rewrite wp_bind, wp_of_result.
    destruct (hash_password_with_argon2 salt p) as [h|e] eqn:Hh; [|done].
    apply (put_with_hash u' h _ d Hin). by eapply verify_hash_ok.
  - rewrite wp_bind, wp_of_result.
    destruct (validate_argon2_phc_string h) as [[]|e] eqn:Hh; [|done].
    by apply (put_with_hash u' h _ d Hin).
  - rewrite wp_bind. destruct (up_extra_claims u') as [c|]; [|by apply (put_metadata u')].
    rewrite wp_bind. apply wp_db, reads_wp; [apply get_userpass_reads|].
    intros [e|e] _; [|done]. simpl. apply wp_require; [|done]. intros _. by apply (put_metadata u').
Qed.
End put.

(** updating a credential never creates one.  A refused request changes nothing; an accepted
    one comes from an administrator who may manage the realm and rewrites the addressed entry
    alone, if it exists.  The entry then has the requested roles and flag; with a new password
    it has the requested extra claims and the password verifies (or the given Argon2 hash is
    stored), and without one its password and extra claims stay exactly as they were. *)
Theorem put_userpass_outcome `{L : DbLibs} `{!DbLaws} (d d' : Database) (q : Admin)
    (salt realm username : string) (u : UserPass) (r : Result (HttpResponse UserPass) AuthError) :
  db_wf d → api_update_userpass salt (Some q) realm username u d = (r, d') →
  (is_ok r = false → d' = d) ∧
  (is_ok r = true → manageable q realm d) ∧
  (db_userpass d !! (realm, username) = None → d' = d) ∧
  (∀ k, k ≠ (realm, username) → db_userpass d' !! k = db_userpass d !! k) ∧
  d' = set_userpass (λ _, db_userpass d') d ∧
  (∀ row, is_ok r = true → db_userpass d !! (realm, username) = Some row →
     ∃ row', db_userpass d' !! (realm, username) = Some row' ∧
       row_updated (with_key realm username u) row row').
Proof.
  intros Hwf Hrun. pose proof (api_update_userpass_wp salt q realm username u d Hwf) as Hw.
  unfold wp in Hw. rewrite Hrun in Hw. destruct Hw as [Hm Hput]. simpl in *.
  destruct r as [resp|e]; simpl in Hput.
  - destruct Hput as (f & -> & Hf). split_and!; [done|done| | |done|].
    + intros Hnone. destruct d. unfold set_userpass. simpl in *. f_equal.
      apply map_eq. intros k. destruct (decide (k = (realm, username))) as [->|Hk].
      * by rewrite lookup_alter_eq, Hnone.
      * by rewrite lookup_alter_ne.
    + intros k Hk. simpl. by rewrite lookup_alter_ne.
    + intros row _ Hrow. simpl. rewrite lookup_alter_eq, Hrow. simpl. by eexists.
  - subst d'. split_and!; try done. by destruct d.
Qed.
Lemma put_userpass_outcome_witness :
  let u := mkUserPass "" "" "" (Some (Plaintext "new")) false ["dev"] None in
  ∃ r d', api_update_userpass "salt" (Some alice) "a" "nobody" u two_realms_db = (r, d') ∧
    db_userpass two_realms_db !! ("a", "nobody") = None ∧ is_ok r = true ∧ d' = two_realms_db.
Proof.
  intros u.
  destruct (api_update_userpass "salt" (Some alice) "a" "nobody" u two_realms_db) as [r d'] eqn:Hrun.
  assert (Hnone : db_userpass two_realms_db !! ("a", "nobody") = None)
    by (apply (bool_decide_unpack _); by vm_compute).
  assert (Hok : is_ok r = true).
  { transitivity (is_ok (api_update_userpass "salt" (Some alice) "a" "nobody" u two_realms_db).1);
      [by rewrite Hrun|by vm_compute]. }
  exists r, d'. split; [reflexivity|]. split; [exact Hnone|]. split; [exact Hok|].
  destruct (put_userpass_outcome two_realms_db d' alice "salt" "a" "nobody" u r
    two_realms_db_wf Hrun) as (_ & _ & Hmiss & _).
  exact (Hmiss Hnone).
Defined.
