(* ===== verification/AppAuth.v ===== *)
(** Application authentication ([server/src/server/endpoints/{approle,kubernetes,auth_token}.rs],
    [issue_app_token] of [endpoints/mod.rs] and [middleware/app_token_extract.rs]): app tokens
    with their issue, lookup, renewal and revocation, AppRole roles and secret ids, and
    Kubernetes service-account logins.

    Random values (32 token bytes, UUIDs) and clock readings are arguments, in the order the
    code draws them.  SHA-256, Base64, [jsonwebtoken] and the JWKS fetch are parameters. *)
From S2P Require Import Prelude RustStd Models Jwt Passwords Totp Database AdminApi.

(** * Wire types ([client/src/dto/app_auth.rs]) *)
Record AppRoleLoginRequest := mkAppRoleLoginRequest {
  alr_role_id : string;
  alr_secret_id : option string;
}.
Record AppRoleRoleRequest := mkAppRoleRoleRequest {
  arr_secret_id_ttl : Z;
  arr_token_ttl : Z;
  arr_token_policies : list string;
  arr_bind_secret_id : bool;
}.
Record AppRoleSecretIdRequest := mkAppRoleSecretIdRequest { asr_ttl : Z; asr_num_uses : Z }.
Record AppRoleSecretIdData := mkAppRoleSecretIdData {
  asd_secret_id : string;
  asd_secret_id_accessor : string;
}.
Record AppRoleRoleConfigData := mkAppRoleRoleConfigData {
  arc_role_id : string;
  arc_token_ttl : Z;
  arc_secret_id_ttl : Z;
  arc_bind_secret_id : bool;
  arc_token_policies : list string;
}.
Record K8sLoginRequest := mkK8sLoginRequest { klr_role : string; klr_jwt : string }.
Record K8sRoleRequest := mkK8sRoleRequest {
  krq_jwks_url : string;
  krq_bound_service_account_names : list string;
  krq_bound_service_account_namespaces : list string;
  krq_token_ttl : Z;
  krq_expected_issuer : option string;
  krq_bound_audiences : list string;
}.
Record K8sRoleConfigData := mkK8sRoleConfigData {
  krc_jwks_url : string;
  krc_bound_service_account_names : list string;
  krc_bound_service_account_namespaces : list string;
  krc_token_ttl : Z;
  krc_expected_issuer : option string;
  krc_bound_audiences : list string;
}.
Record AppAuthData := mkAppAuthData {
  aa_client_token : string;
  aa_renewable : bool;
  aa_lease_duration : Z;
  aa_policies : list string;
  aa_metadata : list (string * string);
}.
Record AppTokenData := mkAppTokenData {
  atd_id : string;
  atd_entity_id : string;
  atd_policies : list string;
  atd_renewable : bool;
  atd_ttl : Z;
  atd_creation_time : Z;
}.

(** * Libraries *)
Record K8sClaims := mkK8sClaims { k8sc_sub : option string; k8sc_iss : option string }.

Class AppLibs := {
  #[global] json_approle_login :: Serde AppRoleLoginRequest;
  #[global] json_k8s_login :: Serde K8sLoginRequest;
  #[global] app_jwt :: JwtLibs;
  sha256 : string → string;
  base64url_no_pad : string → string;
  (** [jsonwebtoken::decode::<K8sClaims>] at the given Unix time *)
  decode_k8s : Z → string → DecodingKey → Validation → option K8sClaims;
}.

Section app_auth.
Context {L : DbLibs} {AL : AppLibs}.

(** * Tokens *)

(** [issue_app_token]: [raw_bytes] are the random bytes, [now] the clock. *)
Definition issue_app_token (raw_bytes : string) (now : Z) (entity : string)
    (policies : list string) (lease_duration_secs : Z) (renewable : bool) : ApiM string :=
  let token_str := "hvs." +:+ base64url_no_pad raw_bytes in
  let token_hash := sha256 token_str in
  let expiry := if decide (lease_duration_secs > 0)%Z then i64_add now lease_duration_secs
                else 0%Z in
  let record := mkAppToken token_hash entity policies expiry renewable lease_duration_secs now in
  db (Database.issue_app_token record) ;;;
  ret token_str.

(** ** [AppTokenExtract] *)
Record AppTokenClaims := mkAppTokenClaims {
  atc_entity : string;
  atc_policies : list string;
  atc_renewable : bool;
  atc_ttl : Z;
  atc_token_hash : string;
}.

(** [if token.expiry == 0 { lease } else { (token.expiry - now).max(0) }] *)
Definition remaining_ttl (now : Z) (token : AppToken) : Z :=
  if decide (tok_expiry token = 0%Z) then tok_lease_duration_secs token
  else Z.max (i64_sub (tok_expiry token) now) 0.

Definition claims_from_db (now : Z) (token : AppToken) : AppTokenClaims :=
  mkAppTokenClaims (tok_entity token) (tok_policies token) (tok_renewable token)
    (remaining_ttl now token) (tok_token_hash token).

(** The [X-Vault-Token] header is [Some raw] when present and valid text. *)
Definition extract_app_token_hash (header : option string) : option string := sha256 <$> header.

(** What the client receives: the errors of the middleware, a plain-text internal error, or
    the body of the service behind it. *)
Inductive TokenBody (B : Type) :=
  | TokenErrors (errors : list string)
  | TokenInternal (text : string)
  | Served (body : B).
#[global] Arguments TokenErrors {B}.
#[global] Arguments TokenInternal {B}.
#[global] Arguments Served {B}.

Definition map_body {B C} (f : B → C) (r : HttpResponse B) : HttpResponse C :=
  mkResponse (http_status r) (f (http_body r)).

(** [now1] is read by the lookup, [now2] by [from_db]. *)
Definition app_token_extract {B} (now1 now2 : Z) (header : option string)
    (service : option AppTokenClaims → ApiM (HttpResponse B)) : ApiM (HttpResponse (TokenBody B)) :=
  match extract_app_token_hash header with
  | None =>
      let err := Forbidden "missing X-Vault-Token header" in
      ret (mkResponse 403 (TokenErrors [auth_error_to_string err]))
  | Some token_hash => λ d,
      match lookup_app_token now1 token_hash d with
      | (Ok (Some token), d) =>
          (let* res := service (Some (claims_from_db now2 token)) in
           ret (map_body Served res)) d
      | (Ok None, d) => (Ok (mkResponse 403 (TokenErrors ["permission denied"])), d)
      | (Err _, d) => (Ok (mkResponse 500 (TokenInternal "authentication service error")), d)
      end
  end.

(** ** Self-service *)
Definition token_claims (req : option AppTokenClaims) : Result AppTokenClaims AuthError :=
  ok_or (Session "missing app token claims") req.

Definition auth_token_lookup_self (now1 now2 : Z) (header : option string)
    (req : option AppTokenClaims) : ApiM (HttpResponse AppTokenData) :=
  let* claims := of_result (token_claims req) in
  let* token := db (lookup_app_token now1 (atc_token_hash claims)) in
  let* token := of_result (ok_or (Session "token not found") token) in
  let raw_token := default "" header in
  let ttl := remaining_ttl now2 token in
  ret (HttpOk (mkAppTokenData raw_token (tok_entity token) (tok_policies token)
    (tok_renewable token) ttl (tok_created_at token))).

Definition auth_token_renew_self (now1 now2 now3 : Z) (header : option string)
    (req : option AppTokenClaims) : ApiM (HttpResponse AppAuthData) :=
  let* claims := of_result (token_claims req) in
  with_err (λ e, Forbidden (db_error_to_string e)) (renew_app_token now1 (atc_token_hash claims)) ;;;
  let* token := db (lookup_app_token now2 (atc_token_hash claims)) in
  let* token := of_result (ok_or (Generic "token vanished after renew") token) in
  let ttl := remaining_ttl now3 token in
  let raw_token := default "" header in
  ret (HttpOk (mkAppAuthData raw_token (tok_renewable token) ttl (tok_policies token) [])).

Definition auth_token_revoke_self (req : option AppTokenClaims) : ApiM (HttpResponse ()) :=
  let* claims := of_result (token_claims req) in
  db (revoke_app_token (atc_token_hash claims)) ;;;
  ret NoContent.

(** * AppRole *)
Definition invalid_approle_login : AuthError := Forbidden "invalid role_id or secret_id".
Definition role_not_found (name : string) : AuthError :=
  BadRequest ("role '" +:+ name +:+ "' not found").

(** [now1] is read by [consume_secret_id], [now2] by [issue_app_token]. *)
Definition approle_login (now1 now2 : Z) (raw_bytes body : string)
    : ApiM (HttpResponse AppAuthData) :=
  let* payload := of_result (map_err (λ e, BadRequest ("invalid AppRole login body: " +:+ e))
                    (from_json body)) in
  let* role := db (get_approle_by_role_id (alr_role_id payload)) in
  let* role := of_result (ok_or invalid_approle_login role) in
  (if role_bind_secret_id role then
     let raw_secret_id := default "" (alr_secret_id payload) in
     require (bool_decide (raw_secret_id ≠ ""))
       (BadRequest "secret_id is required when bind_secret_id is true") ;;;
     let* accessor := db (consume_secret_id now1 (role_name role) (sha256 raw_secret_id)) in
     let* _ := of_result (ok_or invalid_approle_login accessor) in
     ret ()
   else ret ()) ;;;
  let* token := issue_app_token raw_bytes now2 (role_name role) (role_token_policies role)
                  (role_token_ttl_secs role) true in
  ret (HttpOk (mkAppAuthData token true (role_token_ttl_secs role) (role_token_policies role)
    [("role_name", role_name role)])).

Definition approle_create_role (uuid name : string) (payload : AppRoleRoleRequest)
    : ApiM (HttpResponse ()) :=
  require (bool_decide (0 ≤ arr_secret_id_ttl payload ∧ 0 ≤ arr_token_ttl payload)%Z)
    (BadRequest "secret_id_ttl and token_ttl must be >= 0 (0 = non-expiring)") ;;;
  let* existing := db (get_approle_by_name name) in
  let role_id := default uuid (role_role_id <$> existing) in
  db (create_approle (mkAppRole name role_id (arr_secret_id_ttl payload) (arr_token_ttl payload)
        (arr_bind_secret_id payload) (arr_token_policies payload))) ;;;
  ret NoContent.

Definition find_role (name : string) : ApiM AppRole :=
  let* role := db (get_approle_by_name name) in
  of_result (ok_or (role_not_found name) role).

Definition approle_get_role (name : string) : ApiM (HttpResponse AppRoleRoleConfigData) :=
  let* role := find_role name in
  ret (HttpOk (mkAppRoleRoleConfigData (role_role_id role) (role_token_ttl_secs role)
    (role_secret_id_ttl_secs role) (role_bind_secret_id role) (role_token_policies role))).

Definition approle_get_role_id (name : string) : ApiM (HttpResponse string) :=
  let* role := find_role name in
  ret (HttpOk (role_role_id role)).

(** [uuid1] is the secret id, [uuid2] its accessor. *)
Definition approle_generate_secret_id (uuid1 uuid2 : string) (now : Z) (name : string)
    (payload : AppRoleSecretIdRequest) : ApiM (HttpResponse AppRoleSecretIdData) :=
  let* role := find_role name in
  let raw_secret_id := uuid1 in
  let accessor := uuid2 in
  let ttl_secs := if decide (asr_ttl payload > 0)%Z then asr_ttl payload
                  else role_secret_id_ttl_secs role in
  let expiry := if decide (ttl_secs > 0)%Z then i64_add now ttl_secs else 0%Z in
  let num_uses := if decide (asr_num_uses payload > 0)%Z then asr_num_uses payload
                  else (-1)%Z in
  db (create_secret_id (mkAppSecretId accessor (sha256 raw_secret_id) name expiry num_uses)) ;;;
  ret (HttpOk (mkAppRoleSecretIdData raw_secret_id accessor)).

Definition approle_destroy_secret_id (name secret_id_accessor : string) : ApiM (HttpResponse ()) :=
  db (destroy_secret_id name secret_id_accessor) ;;;
  ret NoContent.

Definition approle_delete_role (name : string) : ApiM (HttpResponse ()) :=
  db (delete_approle name) ;;;
  ret NoContent.

Definition approle_list_roles : ApiM (HttpResponse (list string)) :=
  let* keys := db list_approle_names in
  ret (HttpOk keys).

(** * Kubernetes *)
Definition K8S_LOGIN_GENERIC_ERR : string := "invalid Kubernetes login credentials".
Definition k8s_login_refused : AuthError := Forbidden K8S_LOGIN_GENERIC_ERR.

(** [parse_k8s_sub] *)
Definition parse_k8s_sub (sub : string) : Result (string * string) string :=
  match splitn 4 ":" sub with
  | [a; b; ns; name] =>
      if decide (a = "system" ∧ b = "serviceaccount") then Ok (ns, name)
      else Err ("unexpected sub format: '" +:+ sub +:+ "'")
  | _ => Err ("unexpected sub format: '" +:+ sub +:+ "'")
  end.

Definition ALLOWED_K8S_ALGORITHMS : list JwtAlgorithm := [RS256; RS384; RS512; ES256; ES384].

Definition build_validation (alg : JwtAlgorithm) (expected_issuer : option string)
    (bound_audiences : list string) : Validation :=
  let validation := Validation_new alg in
  mkValidation alg (val_leeway validation) true true
    (match bound_audiences with [] => false | _ => val_validate_aud validation end)
    ["exp"]
    (match bound_audiences with [] => None | auds => Some auds end)
    ((λ iss, [iss]) <$> expected_issuer).

(** A JSON key through [from_str::<Jwk>] and [DecodingKey::from_jwk]; failures are skipped. *)
Definition decoding_key_of_json (key_value : Value) : option DecodingKey :=
  jwk ← jwk_of_json key_value;
  match decoding_key_of_jwk jwk with Ok key => Some key | Err _ => None end.

(** The first candidate key that decodes the token. *)
Fixpoint first_verified (now : Z) (token : string) (validation : Validation) (keys : list Value)
    : Result K8sClaims string :=
  match keys with
  | [] => Err "JWT validation failed: no key in JWKS could verify the signature"
  | key_value :: keys' =>
      match decoding_key_of_json key_value with
      | None => first_verified now token validation keys'
      | Some decoding_key =>
          match decode_k8s now token decoding_key validation with
          | Some claims => Ok claims
          | None => first_verified now token validation keys'
          end
      end
  end.

Definition candidate_keys (header_kid : option string) (keys : list Value) : list Value :=
  let matching := filter (λ k, match header_kid with
                               | Some kid => bool_decide (json_str_field "kid" k = Some kid)
                               | None => true
                               end = true) keys in
  match matching with [] => keys | _ => matching end.

Definition validate_k8s_jwt (now : Z) (token : string) (jwks : list Value)
    (expected_issuer : option string) (bound_audiences : list string) : Result K8sClaims string :=
  let? header := map_err (λ e, "invalid JWT header: " +:+ e) (decode_header token) in
  let alg := jh_alg header in
  if decide (alg ∉ ALLOWED_K8S_ALGORITHMS) then
    Err ("unsupported JWT algorithm '" +:+ jwt_algorithm_debug alg
      +:+ "': only asymmetric algorithms (RS256/RS384/RS512/ES256/ES384) are accepted")
  else
    first_verified now token (build_validation alg expected_issuer bound_audiences)
      (candidate_keys (jh_kid header) jwks).

(** [bound.iter().any(|s| s == "*") || bound.contains(x)] *)
Definition bound_allows (bound : list string) (x : string) : bool :=
  bool_decide ("*" ∈ bound) || bool_decide (x ∈ bound).

(** Stored JSON lists fail closed. *)
Definition stored_list (what text : string) : Result (list string) AuthError :=
  map_err (λ _, Generic ("role has corrupt " +:+ what +:+ " data")) (from_json text).

(** [fetch] is the outcome of [fetch_jwks] for a URL, [now1] the time at which the JWT is
    validated and [now2] the reading of [issue_app_token]. *)
Definition k8s_login (now1 now2 : Z) (raw_bytes : string)
    (fetch : string → Result (list Value) string) (body : string)
    : ApiM (HttpResponse AppAuthData) :=
  let* payload := of_result (map_err (λ e, BadRequest ("invalid Kubernetes login body: " +:+ e))
                    (from_json body)) in
  let* role := db (get_k8s_role (klr_role payload)) in
  let* role := of_result (ok_or k8s_login_refused role) in
  let* jwks := of_result (map_err (λ _, Generic "JWKS fetch failed; check server logs")
                 (fetch (k8s_jwks_url role))) in
  let* bound_audiences := of_result (stored_list "bound_audiences" (k8s_bound_audiences role)) in
  let* claims := of_result (map_err (λ _, k8s_login_refused)
    (validate_k8s_jwt now1 (klr_jwt payload) jwks (k8s_expected_issuer role) bound_audiences)) in
  let* subject := of_result (map_err (λ _, k8s_login_refused)
    (parse_k8s_sub (default "" (k8sc_sub claims)))) in
  let ns := subject.1 in
  let sa_name := subject.2 in
  let* bound_names := of_result (stored_list "bound_sa_names" (k8s_bound_sa_names role)) in
  require (bound_allows bound_names sa_name) k8s_login_refused ;;;
  let* bound_namespaces :=
    of_result (stored_list "bound_sa_namespaces" (k8s_bound_sa_namespaces role)) in
  require (bound_allows bound_namespaces ns) k8s_login_refused ;;;
  let entity := ns +:+ "/" +:+ sa_name in
  let* token := issue_app_token raw_bytes now2 entity [] (k8s_token_ttl_secs role) true in
  ret (HttpOk (mkAppAuthData token true (k8s_token_ttl_secs role) []
    [("role", klr_role payload); ("service_account_name", sa_name);
     ("service_account_namespace", ns)])).

(** [is_private_ip], with the tests of [core::net] written out. *)
Definition is_private_ip (ip : IpAddr) : bool :=
  match ip with
  | V4 a b c d =>
      bool_decide (a = 127)%Z ||
      (bool_decide (a = 10)%Z || bool_decide (a = 172 ∧ 16 ≤ b ≤ 31)%Z
       || bool_decide (a = 192 ∧ b = 168)%Z) ||
      bool_decide (a = 169 ∧ b = 254)%Z ||
      bool_decide (a = 0 ∧ b = 0 ∧ c = 0 ∧ d = 0)%Z
  | V6 g =>
      bool_decide (g = [0; 0; 0; 0; 0; 0; 0; 1]%Z) ||
      match g with g0 :: _ => bool_decide (Z.land g0 65024 = 64512)%Z | [] => false end ||
      bool_decide (g = [0; 0; 0; 0; 0; 0; 0; 0]%Z)
  end.

(** The host part the SSRF check looks at. *)
Definition jwks_url_host (jwks_url : string) : option string :=
  h ← head (str_split "/" (trim_start_matches "https://" jwks_url));
  Some (match rsplit_once ":" h with Some (host, _) => host | None => h end).
Definition jwks_url_is_private (jwks_url : string) : bool :=
  match jwks_url_host jwks_url ≫= parse_ip with
  | Some ip => is_private_ip ip
  | None => false
  end.

Definition effective_bound (l : list string) : list string :=
  match l with [] => ["*"] | l => l end.

Definition k8s_create_role (name : string) (payload : K8sRoleRequest) : ApiM (HttpResponse ()) :=
  require (starts_with "https://" (krq_jwks_url payload))
    (BadRequest "jwks_url must use the https:// scheme") ;;;
  require (negb (jwks_url_is_private (krq_jwks_url payload)))
    (BadRequest "jwks_url must not point to a private or loopback IP address") ;;;
  require (bool_decide (0 ≤ krq_token_ttl payload)%Z)
    (BadRequest "token_ttl must be >= 0 (0 = non-expiring)") ;;;
  let* bound_sa_names := of_result (map_err
    (λ e, BadRequest ("invalid bound_service_account_names: " +:+ e))
    (to_json (effective_bound (krq_bound_service_account_names payload)))) in
  let* bound_sa_namespaces := of_result (map_err
    (λ e, BadRequest ("invalid bound_service_account_namespaces: " +:+ e))
    (to_json (effective_bound (krq_bound_service_account_namespaces payload)))) in
  let* bound_audiences := of_result (map_err
    (λ e, BadRequest ("invalid bound_audiences: " +:+ e))
    (to_json (krq_bound_audiences payload))) in
  db (create_k8s_role (mkK8sRole name (krq_jwks_url payload) bound_sa_names bound_sa_namespaces
        (krq_token_ttl payload) (krq_expected_issuer payload) bound_audiences)) ;;;
  ret NoContent.

Definition k8s_delete_role (name : string) : ApiM (HttpResponse ()) :=
  db (delete_k8s_role name) ;;;
  ret NoContent.

Definition k8s_list_roles : ApiM (HttpResponse (list string)) :=
  let* keys := db list_k8s_role_names in
  ret (HttpOk keys).

Definition k8s_get_role (name : string) : ApiM (HttpResponse K8sRoleConfigData) :=
  let* role := db (get_k8s_role name) in
  let* role := of_result (ok_or (role_not_found name) role) in
  let* names := of_result (stored_list "bound_sa_names" (k8s_bound_sa_names role)) in
  let* namespaces := of_result (stored_list "bound_sa_namespaces" (k8s_bound_sa_namespaces role)) in
  let* audiences := of_result (stored_list "bound_audiences" (k8s_bound_audiences role)) in
  ret (HttpOk (mkK8sRoleConfigData (k8s_jwks_url role) names namespaces
    (k8s_token_ttl_secs role) (k8s_expected_issuer role) audiences)).
End app_auth.
