(* ===== verification/AppAuthSpec.v ===== *)
(** What application authentication promises ([AppAuth.v]). *)
From S2P Require Import Prelude RustStd Models Jwt Passwords Totp Database DatabaseFacts Toy AdminApi AdminApiFacts AppAuth.

(** * Concrete libraries for the witnesses *)
#[export] Instance AppRoleLoginRequest_eq_dec : EqDecision AppRoleLoginRequest.
Proof. solve_decision. Defined.
#[export] Program Instance AppRoleLoginRequest_countable : Countable AppRoleLoginRequest :=
  inj_countable' (λ p, (alr_role_id p, alr_secret_id p)) (λ '(a, b), mkAppRoleLoginRequest a b) _.
Next Obligation. by intros []. Qed.
#[export] Instance K8sLoginRequest_eq_dec : EqDecision K8sLoginRequest.
Proof. solve_decision. Defined.
#[export] Program Instance K8sLoginRequest_countable : Countable K8sLoginRequest :=
  inj_countable' (λ p, (klr_role p, klr_jwt p)) (λ '(a, b), mkK8sLoginRequest a b) _.
Next Obligation. by intros []. Qed.
Definition toy_app_libs : AppLibs := {|
  json_approle_login := countable_serde;
  json_k8s_login := countable_serde;
  app_jwt := toy_jwt_libs;
  sha256 s := "#" +:+ s;
  base64url_no_pad s := s;
  decode_k8s now token key v :=
    if decide (key = "good") then Some (mkK8sClaims (Some token) None) else None;
|}.

Section tokens.
Context {L : DbLibs} {AL : AppLibs} {LAWS : DbLaws}.

Lemma policies_roundtrip l : from_json_or_default (to_json_or_empty l) = l.
Proof.
  unfold from_json_or_default, to_json_or_empty.
  destruct (serde_roundtrip l) as (t & -> & Hf). by rewrite Hf.
Qed.
Lemma bool_i64_roundtrip b : bool_decide (bool_i64 b ≠ 0%Z) = b.
Proof. by destruct b. Qed.

Lemma db_issue_app_token_run t d :
  Database.issue_app_token t d =
    match db_app_tokens d !! tok_token_hash t with
    | Some _ => (Err (DbSql UniqueViolation), d)
    | None => (Ok (), set_app_tokens <[tok_token_hash t := mkAppTokenRow (tok_entity t)
        (to_json_or_empty (tok_policies t)) (tok_expiry t) (bool_i64 (tok_renewable t))
        (tok_lease_duration_secs t) (tok_created_at t)]> d)
    end.
Proof.
  unfold Database.issue_app_token, sql, with_err, sql_insert. simpl.
  by destruct (db_app_tokens d !! tok_token_hash t).
Qed.

(** The tokens a lookup at [t] accepts. *)
Lemma lookup_app_token_run t h d :
  lookup_app_token t h d =
    match db_app_tokens d !! h with
    | Some row => if decide (tr_expiry row = 0%Z ∨ (tr_expiry row > t)%Z)
                  then (map_ok Some (row_to_app_token h row), d) else (Ok None, d)
    | None => (Ok None, d)
    end.
Proof.
  unfold lookup_app_token, bind, gets. destruct (db_app_tokens d !! h); [|done].
  by case_decide.
Qed.

Definition revoked_or_expired (t : Z) (h : string) (d : Database) : Prop :=
  ∀ row, db_app_tokens d !! h = Some row → tr_expiry row ≠ 0%Z ∧ (tr_expiry row ≤ t)%Z.

Lemma lookup_app_token_None t h d :
  revoked_or_expired t h d → lookup_app_token t h d = (Ok None, d).
Proof.
  intros Hd. rewrite lookup_app_token_run. destruct (db_app_tokens d !! h) as [row|] eqn:Hrow; [|done].
  destruct (Hd row Hrow). rewrite decide_False by lia. done.
Qed.

Lemma alter_id_at {V} (f : V → V) (m : gmap string V) h :
  (∀ v, m !! h = Some v → f v = v) → alter f h m = m.
Proof.
  intros Hf. apply map_eq. intros i. destruct (decide (h = i)) as [<-|Hne].
  - rewrite lookup_alter_eq. destruct (m !! h) as [v|] eqn:Hv; simpl; [by rewrite Hf|done].
  - by rewrite lookup_alter_ne.
Qed.
Lemma set_app_tokens_id f d : f (db_app_tokens d) = db_app_tokens d → set_app_tokens f d = d.
Proof. intros Hf. destruct d. unfold set_app_tokens. simpl in *. by rewrite Hf. Qed.

Lemma renew_app_token_run now h d :
  renew_app_token now h d =
    match db_app_tokens d !! h with
    | Some row =>
        if decide (renewable_row now row) then
          (Ok (), set_app_tokens <[h := extend_row now row]> d)
        else if decide (tr_renewable row = 1%Z ∧ tr_expiry row = 0%Z) then (Ok (), d)
        else (Err (DbUnexpected "token not found, expired, or not renewable"), d)
    | None => (Err (DbUnexpected "token not found, expired, or not renewable"), d)
    end.
Proof.
  unfold renew_app_token, bind, gets, modify. set (f := λ row, if decide _ then _ else row).
  assert (Hset : (∀ row, db_app_tokens d !! h = Some row → ¬ renewable_row now row) →
    set_app_tokens (alter f h) d = d).
  { intros Hno. apply set_app_tokens_id, alter_id_at. intros row Hrow. unfold f.
    by rewrite decide_False by auto. }
  destruct (db_app_tokens d !! h) as [row|] eqn:Hrow.
  - destruct (decide (renewable_row now row)) as [Hren|Hren]; cbn [decide_rel].
    + simpl. unfold ret. f_equal. destruct d; unfold set_app_tokens; simpl in *. f_equal.
      apply map_eq. intros i. destruct (decide (h = i)) as [<-|Hne].
      * rewrite lookup_alter_eq, lookup_insert_eq, Hrow. unfold f. simpl. by rewrite decide_True.
      * by rewrite lookup_alter_ne, lookup_insert_ne.
    + rewrite Hset by (intros ? [= <-]; done). rewrite (decide_True (P := 0 = 0)) by done. cbv beta. rewrite Hrow.
      destruct (decide (tr_renewable row = 1%Z)) as [H1|H1], (decide (tr_expiry row = 0%Z)) as [H2|H2];
        rewrite ?(bool_decide_eq_true_2 _ H1), ?(bool_decide_eq_false_2 _ H1),
          ?(bool_decide_eq_true_2 _ H2), ?(bool_decide_eq_false_2 _ H2); simpl;
        case_decide; done || tauto.
  - rewrite Hset by done. rewrite (decide_True (P := 0 = 0)) by done. cbv beta. by rewrite Hrow.
Qed.
End tokens.

(** * Token lifetimes *)

(** a token that was issued is found by a later lookup exactly while it lives, for ever when
    its lease is not positive and otherwise until issue time plus lease, with the entity and
    policies it was issued with.  A lease so long that the sum overflows [i64] gives a token
    that is dead from the start. *)
Theorem issued_token_validity `{L : DbLibs} `{AL : AppLibs} `{!DbLaws} (d d' : Database)
    (raw_bytes entity tok : string) (policies : list string) (now lease t : Z) (renewable : bool) :
  in_i64 now → in_i64 lease → (0 ≤ now)%Z → (0 ≤ t)%Z →
  issue_app_token raw_bytes now entity policies lease renewable d = (Ok tok, d') →
  lookup_app_token t (sha256 tok) d' =
    (Ok (if decide (lease ≤ 0 ∨ (now + lease ≤ i64_max ∧ t < now + lease))%Z
         then Some (mkAppToken (sha256 tok) entity policies
                      (if decide (lease > 0)%Z then now + lease else 0)%Z renewable lease now)
         else None), d').
Proof.
  unfold issue_app_token, db, bind at 1, with_err. intros Hnow Hlease H0 Ht.
  rewrite db_issue_app_token_run. simpl. destruct (db_app_tokens d !! _); [done|].
  simpl. intros [= <- <-]. rewrite lookup_app_token_run. simpl. rewrite lookup_insert_eq. simpl.
  unfold row_to_app_token. simpl. rewrite policies_roundtrip, bool_i64_roundtrip.
  unfold column_i64, in_i64, i64_min, i64_max in *.
  destruct (decide (lease > 0)%Z) as [Hpos|Hpos].
  - destruct (decide (now + lease ≤ 2 ^ 63 - 1)%Z) as [Hle|Hgt].
    + rewrite i64_add_id by (unfold in_i64, i64_min, i64_max; lia).
      destruct (decide (now + lease = 0 ∨ now + lease > t)%Z).
      * rewrite (decide_True (P := (lease ≤ 0 ∨ _)%Z)) by lia. rewrite decide_True by lia. done.
      * rewrite decide_False by lia. done.
    + assert (Hwrap : i64_add now lease = (now + lease - 2 ^ 64)%Z).
      { unfold i64_add, wrap_i64.
        rewrite <-(Z.mod_unique (now + lease + 2 ^ 63) (2 ^ 64) 1 (now + lease - 2 ^ 63)); lia. }
      rewrite Hwrap, decide_False by lia. by rewrite decide_False by lia.
  - rewrite decide_True by lia. rewrite (decide_True (P := (lease ≤ 0 ∨ _)%Z)) by lia.
    by rewrite decide_True by lia.
Qed.
Lemma issued_token_validity_witness :
  let _ := toy_app_libs in
  ∃ d', issue_app_token "abc" 100 "app" ["p"] 60 true empty_database = (Ok "hvs.abc", d') ∧
    lookup_app_token 160 (sha256 "hvs.abc") d' = (Ok None, d').
Proof.
  intros AL. destruct (issue_app_token "abc" 100 "app" ["p"] 60 true empty_database)
    as [r d'] eqn:Hrun.
  assert (r = Ok "hvs.abc") as ->.
  { change r with (r, d').1. rewrite <-Hrun. by vm_compute. }
  exists d'. split; [done|].
  by rewrite (issued_token_validity empty_database d' "abc" "app" "hvs.abc" ["p"] 100 60 160 true)
    by (by vm_compute).
Defined.

(** Later token operations, none of which issues this very token again. *)
Inductive token_step `{L : DbLibs} (t : Z) (h : string) : Database → Database → Prop :=
  | tstep_renew now h' d : (t ≤ now)%Z → token_step t h d (renew_app_token now h' d).2
  | tstep_revoke h' d : token_step t h d (revoke_app_token h' d).2
  | tstep_issue tok d : tok_token_hash tok ≠ h → token_step t h d (Database.issue_app_token tok d).2.

Lemma dead_token_steps `{L : DbLibs} (t : Z) (h : string) (d d' : Database) :
  revoked_or_expired t h d → rtc (token_step t h) d d' → revoked_or_expired t h d'.
Proof.
  intros Hdead Hsteps. induction Hsteps as [|d1 d2 d3 Hs _ IH]; [done|]. apply IH. clear IH d3.
  destruct Hs as [now h' d Hnow|h' d|tok d Hne]; intros row.
  - rewrite renew_app_token_run. destruct (db_app_tokens d !! h') as [row'|] eqn:Hrow'; [|apply Hdead].
    repeat case_decide; simpl; try apply Hdead.
    destruct (decide (h' = h)) as [->|Hne]; [|rewrite lookup_insert_ne by done; apply Hdead].
    destruct (Hdead _ Hrow'). destruct H as (_ & _ & ?). lia.
  - simpl. intros [_ Hrow]%lookup_delete_Some. by apply Hdead.
  - rewrite db_issue_app_token_run. destruct (db_app_tokens d !! _); [apply Hdead|].
    simpl. rewrite lookup_insert_ne by done. apply Hdead.
Qed.

(** C28: a token that has expired or been revoked stays dead.  Whatever tokens are issued,
    renewed (this one included) or revoked from then on, no lookup finds it again. *)
Theorem dead_token_stays_dead `{L : DbLibs} (t t' : Z) (h : string) (d d' : Database) :
  revoked_or_expired t h d → rtc (token_step t h) d d' → (t ≤ t')%Z →
  lookup_app_token t' h d' = (Ok None, d').
Proof.
  intros Hdead Hsteps Ht'. apply lookup_app_token_None. intros row Hrow.
  destruct (dead_token_steps t h d d' Hdead Hsteps row Hrow). lia.
Qed.
Lemma dead_token_stays_dead_witness :
  let d := (revoke_app_token "h" empty_database).2 in
  revoked_or_expired 5 "h" d ∧
  lookup_app_token 9 "h" (renew_app_token 7 "h" d).2 = (Ok None, (renew_app_token 7 "h" d).2).
Proof.
  intros d. assert (revoked_or_expired 5 "h" d) as Hd by by intros row.
  split; [done|]. apply (dead_token_stays_dead 5 9 "h" d); [done| |lia].
  apply rtc_once, tstep_renew. lia.
Defined.

(** Renewing moves the expiry of a live renewable token to the clock plus its lease,
    accepts a renewable token that never expires without touching it, and refuses every other
    token leaving the store as it was. *)
Theorem renew_app_token_outcome `{L : DbLibs} (now : Z) (h : string) (d : Database) :
  let '(res, d') := renew_app_token now h d in
  match db_app_tokens d !! h with
  | Some row =>
      if decide (tr_renewable row = 1 ∧ tr_expiry row > 0 ∧ tr_expiry row > now)%Z then
        res = Ok () ∧ db_app_tokens d' !! h = Some (extend_row now row) ∧
        (∀ t, (now ≤ t)%Z → in_i64 (now + tr_lease_duration_secs row) → (0 ≤ now)%Z →
           (t < now + tr_lease_duration_secs row)%Z →
           ∃ token, lookup_app_token t h d' = (Ok (Some token), d') ∧
             tok_expiry token = (now + tr_lease_duration_secs row)%Z)
      else d' = d ∧ (res = Ok () ↔ tr_renewable row = 1%Z ∧ tr_expiry row = 0%Z)
  | None => d' = d ∧ res = Err (DbUnexpected "token not found, expired, or not renewable")
  end.
Proof.
  rewrite renew_app_token_run. destruct (db_app_tokens d !! h) as [row|] eqn:Hrow; [|done].
  unfold renewable_row. case_decide as Hren.
  - split_and!; [done|simpl; apply lookup_insert_eq|]. intros t Ht Hin H0 Hlt.
    rewrite lookup_app_token_run. simpl. rewrite lookup_insert_eq, decide_True by (simpl; lia).
    unfold row_to_app_token, column_i64. simpl. rewrite decide_True by done. by eexists.
  - case_decide; naive_solver.
Qed.

(** * Secret ids *)

Section secret_ids.
Context {L : DbLibs}.

(** Consuming a secret id at a list of clock readings, one login after the other. *)
Fixpoint consume_all (nows : list Z) (role_name hash : string) (d : Database)
    : list (Result (option string) AuthDbError) * Database :=
  match nows with
  | [] => ([], d)
  | now :: nows' =>
      let '(r, d1) := consume_secret_id now role_name hash d in
      let '(rs, d2) := consume_all nows' role_name hash d1 in (r :: rs, d2)
  end.

(** [acc] is the only row of [role] with the hash. *)
Definition only_secret (role hash acc : string) (d : Database) : Prop :=
  ∀ acc' row, db_app_secret_ids d !! acc' = Some row →
    sr_role_name row = role → sr_secret_id_hash row = hash → acc' = acc.

Lemma usable_rows now role hash acc d :
  only_secret role hash acc d →
  map_to_list (filter (λ r, usable_secret_id role hash now r.2) (db_app_secret_ids d)) =
    match db_app_secret_ids d !! acc with
    | Some row => if decide (usable_secret_id role hash now row) then [(acc, row)] else []
    | None => []
    end.
Proof.
  intros Honly. set (l := map_to_list _).
  assert (Hl : ∀ a row, (a, row) ∈ l ↔
    a = acc ∧ db_app_secret_ids d !! acc = Some row ∧ usable_secret_id role hash now row).
  { intros a row. unfold l. rewrite elem_of_map_to_list, map_lookup_filter_Some. simpl. split.
    - intros [Hrow Hu]. destruct Hu as (H1 & H2 & H3).
      pose proof (Honly _ _ Hrow H1 H2) as ->. unfold usable_secret_id. auto.
    - intros (-> & ? & ?). auto. }
  assert (Hnd : NoDup l) by apply NoDup_map_to_list.
  assert (Hempty : (∀ a row, (a, row) ∉ l) → l = []).
  { intros Hno. destruct l as [|[a row] l']; [done|]. exfalso. eapply Hno, list_elem_of_here. }
  destruct (db_app_secret_ids d !! acc) as [row|] eqn:Hrow.
  - case_decide as Hu.
    + apply NoDup_singleton_eq; [done|]. intros [a x]. rewrite Hl. naive_solver.
    + apply Hempty. intros a x Hin%Hl. naive_solver.
  - apply Hempty. intros a x Hin%Hl. naive_solver.
Qed.

Lemma consume_secret_id_run now role hash acc d :
  only_secret role hash acc d →
  consume_secret_id now role hash d =
    match db_app_secret_ids d !! acc with
    | Some row =>
        if decide (usable_secret_id role hash now row) then
          (Ok (Some acc),
           if decide (sr_num_uses_remaining row = 1)%Z then set_app_secret_ids (delete acc) d
           else if decide (sr_num_uses_remaining row > 1)%Z then
             set_app_secret_ids (alter decrement_uses acc) d
           else d)
        else (Ok None, d)
    | None => (Ok None, d)
    end.
Proof.
  intros Honly. unfold consume_secret_id, bind at 1, gets at 1. rewrite (usable_rows _ _ _ acc) by done.
  destruct (db_app_secret_ids d !! acc) as [row|]; [|done].
  destruct (decide (usable_secret_id role hash now row)); [|done].
  unfold bind. by repeat case_decide.
Qed.
Lemma consume_secret_id_only now role hash acc d :
  only_secret role hash acc d → only_secret role hash acc (consume_secret_id now role hash d).2.
Proof.
  intros Honly. rewrite (consume_secret_id_run _ _ _ acc) by done.
  destruct (db_app_secret_ids d !! acc) as [row|] eqn:Hrow; [|done].
  repeat case_decide; try done; intros a x; simpl.
  - intros [_ Hx]%lookup_delete_Some. by apply Honly.
  - destruct (decide (acc = a)) as [<-|Hne]; [done|]. rewrite lookup_alter_ne by done. apply Honly.
Qed.

(** Once the row is gone every later login is refused. *)
Lemma consume_all_gone nows role hash acc d :
  only_secret role hash acc d → db_app_secret_ids d !! acc = None →
  (consume_all nows role hash d).1 = replicate (length nows) (Ok None).
Proof.
  intros Honly Hgone. induction nows as [|now nows IH]; simpl; [done|].
  rewrite (consume_secret_id_run _ _ _ acc), Hgone by done.
  destruct (consume_all nows role hash d) as [rs d2]. simpl in *. by rewrite IH.
Qed.

Lemma consume_all_limited nows role hash acc n d row :
  only_secret role hash acc d → db_app_secret_ids d !! acc = Some row →
  sr_num_uses_remaining row = Z.of_nat (S n) →
  Forall (λ now, usable_secret_id role hash now row) nows →
  (consume_all nows role hash d).1 =
    replicate (length nows `min` S n) (Ok (Some acc)) ++ replicate (length nows - S n) (Ok None).
Proof.
  intros Honly Hrow Hn Hnows. revert n d row Honly Hrow Hn Hnows.
  induction nows as [|now nows IH]; intros n d row Honly Hrow Hn Hnows; [done|].
  apply Forall_cons in Hnows as [Hnow Hnows].
  pose proof (consume_secret_id_only now _ _ _ _ Honly) as Honly'. cbn [consume_all].
  rewrite (consume_secret_id_run _ _ _ acc), Hrow, decide_True in Honly' |- * by done.
  simpl in Honly'. destruct n as [|n].
  - rewrite decide_True in Honly' |- * by lia.
    assert (Hgone := consume_all_gone nows role hash acc _ Honly').
    destruct (consume_all nows _ _ _) as [rs d2]. simpl in *.
    rewrite Hgone by apply lookup_delete_eq.
    by destruct (length nows).
  - rewrite decide_False, decide_True in Honly' |- * by lia.
    specialize (IH n _ (decrement_uses row) Honly').
    destruct (consume_all nows _ _ _) as [rs d2]. simpl in *.
    rewrite IH; [done| |lia|].
    + by rewrite lookup_alter_eq, Hrow.
    + by eapply Forall_impl.
Qed.
Lemma consume_all_unlimited nows role hash acc d row :
  only_secret role hash acc d → db_app_secret_ids d !! acc = Some row →
  (sr_num_uses_remaining row ≤ 0)%Z →
  Forall (λ now, usable_secret_id role hash now row) nows →
  consume_all nows role hash d = (replicate (length nows) (Ok (Some acc)), d).
Proof.
  intros Honly Hrow Hn. induction 1 as [|now nows Hnow _ IH]; [done|]. simpl.
  rewrite (consume_secret_id_run _ _ _ acc), Hrow, decide_True by done.
  rewrite !decide_False by lia. by rewrite IH.
Qed.
End secret_ids.

(** A secret id admits exactly as many logins as it was created for.  Presented any number
    of times before it expires, the first [num_uses] presentations succeed and all others are
    refused; without a positive limit every presentation succeeds. *)
Theorem secret_id_use_count `{L : DbLibs} (d d' : Database) (s : AppSecretId) (nows : list Z) :
  create_secret_id s d = (Ok (), d') →
  only_secret (sid_role_name s) (sid_secret_id_hash s) (sid_accessor s) d →
  Forall (λ now, sid_expiry s = 0 ∨ now < sid_expiry s)%Z nows →
  (consume_all nows (sid_role_name s) (sid_secret_id_hash s) d').1 =
    if decide (sid_num_uses_remaining s ≤ 0)%Z
    then replicate (length nows) (Ok (Some (sid_accessor s)))
    else replicate (length nows `min` Z.to_nat (sid_num_uses_remaining s)) (Ok (Some (sid_accessor s)))
         ++ replicate (length nows - Z.to_nat (sid_num_uses_remaining s)) (Ok None).
Proof.
  unfold create_secret_id, sql, with_err, sql_insert. simpl.
  destruct (db_app_secret_ids d !! sid_accessor s); [done|]. simpl.
  destruct (bool_decide _); [|done]. intros [= <-] Honly Hnows.
  set (row := mkSecretIdRow _ _ _ _). set (d1 := set_app_secret_ids _ d).
  assert (Hrow : db_app_secret_ids d1 !! sid_accessor s = Some row) by apply lookup_insert_eq.
  assert (Honly1 : only_secret (sid_role_name s) (sid_secret_id_hash s) (sid_accessor s) d1).
  { intros a x. unfold d1. simpl. intros [[<- _]|[_ Hx]]%lookup_insert_Some; [done|by apply Honly]. }
  assert (Husable : Forall (λ now, usable_secret_id (sid_role_name s) (sid_secret_id_hash s) now row) nows).
  { eapply Forall_impl; [exact Hnows|]. intros now Hnow. split_and!; [done|done|].
    unfold row. simpl in *. destruct Hnow; [left|right]; simpl; lia. }
  case_decide as Hn.
  - by rewrite (consume_all_unlimited _ _ _ (sid_accessor s) _ row).
  - destruct (Z.to_nat (sid_num_uses_remaining s)) as [|n] eqn:Hz; [lia|].
    apply (consume_all_limited _ _ _ _ n _ row); [done|done| |done]. unfold row. simpl. lia.
Qed.
Lemma secret_id_use_count_witness :
  let role := mkAppRole "r" "id" 0 60 true [] in
  let s := mkAppSecretId "acc" "h" "r" 0 2 in
  let d := (create_approle role empty_database).2 in
  ∃ d', create_secret_id s d = (Ok (), d') ∧
    (consume_all [1; 2; 3]%Z "r" "h" d').1 = [Ok (Some "acc"); Ok (Some "acc"); Ok None].
Proof.
  intros role s d. exists (create_secret_id s d).2.
  assert (create_secret_id s d = (Ok (), (create_secret_id s d).2)) as Hc by by vm_compute.
  split; [exact Hc|].
  apply (secret_id_use_count d _ s [1; 2; 3]%Z Hc).
  - intros a row Hrow. vm_compute in Hrow. done.
  - repeat constructor.
Defined.

(** * AppRole *)

Section approle.
Context {L : DbLibs} {AL : AppLibs} {LAWS : DbLaws}.

(** What an issued token looks like in the store. *)
Definition token_stored (tok entity : string) (policies : list string) (lease now : Z)
    (d : Database) : Prop :=
  ∃ row, db_app_tokens d !! sha256 tok = Some row ∧ tr_entity row = entity ∧
    from_json_or_default (tr_policies row) = policies ∧ tr_lease_duration_secs row = lease ∧
    tr_created_at row = now.

Lemma create_approle_run r d :
  (∀ n row, db_approle_roles d !! n = Some row → or_role_id row = role_role_id r → n = role_name r) →
  create_approle r d = (Ok (), set_approle_roles <[role_name r := approle_row r]> d).
Proof.
  intros Hfresh. unfold create_approle, sql, with_err, sql_insert.
  rewrite (bool_decide_eq_true_2 (map_Forall _ _)); [done|]. intros n row. apply Hfresh.
Qed.

Lemma wp_issue_app_token raw now entity pol lease ren (Q : Result string AuthError → Database → Prop) d :
  (∀ e, Q (Err e) d) →
  (∀ d', let tok := "hvs." +:+ base64url_no_pad raw in
     token_stored tok entity pol lease now d' →
     db_app_secret_ids d' = db_app_secret_ids d → Q (Ok tok) d') →
  wp (issue_app_token raw now entity pol lease ren) Q d.
Proof.
  intros He Hok. unfold issue_app_token. rewrite wp_bind. apply wp_db. unfold wp.
  rewrite db_issue_app_token_run. simpl. destruct (db_app_tokens d !! _); [apply He|].
  apply Hok; [|done]. eexists. simpl. rewrite lookup_insert_eq. split; [done|].
  simpl. by rewrite policies_roundtrip.
Qed.
Lemma wp_get_approle_by_role_id id (Q : Result (option AppRole) AuthDbError → Database → Prop) d :
  Q (Ok None) d →
  (∀ name row, db_approle_roles d !! name = Some row → or_role_id row = id →
     Q (Ok (Some (row_to_approle name row))) d) →
  wp (get_approle_by_role_id id) Q d.
Proof.
  intros Hn Hs. unfold get_approle_by_role_id. rewrite wp_gets.
  destruct (filter _ _) as [|[name row] l] eqn:Hrows; [done|].
  assert (Hin : (name, row) ∈ (name, row) :: l) by apply list_elem_of_here.
  rewrite <-Hrows in Hin. apply list_elem_of_filter in Hin as [Hid Hrow%elem_of_map_to_list].
  by apply Hs.
Qed.
Lemma wp_consume_secret_id now role h (Q : Result (option string) AuthDbError → Database → Prop) d :
  (∀ d', Q (Ok None) d') →
  (∀ acc row d', db_app_secret_ids d !! acc = Some row → usable_secret_id role h now row →
     Q (Ok (Some acc)) d') →
  wp (consume_secret_id now role h) Q d.
Proof.
  intros Hn Hs. unfold consume_secret_id. rewrite wp_bind, wp_gets.
  destruct (map_to_list _) as [|[acc row] l] eqn:Hrows; [apply Hn|].
  assert (Hin : (acc, row) ∈ (acc, row) :: l) by apply list_elem_of_here.
  rewrite <-Hrows in Hin. apply elem_of_map_to_list, map_lookup_filter_Some in Hin as [Hrow Hu].
  rewrite wp_bind. repeat case_decide; rewrite ?wp_modify, ?wp_ret; by eapply Hs.
Qed.
End approle.

(** C27: an AppRole login that succeeds was for an existing role; if the role binds secret ids
    the caller presented a non-empty secret whose hash is an unexpired secret id of that very
    role; and the token handed out is stored under its hash with the role's name, policies and
    lease. *)
Theorem approle_login_sound `{L : DbLibs} `{AL : AppLibs} `{!DbLaws} (d d' : Database)
    (now1 now2 : Z) (raw_bytes body : string) (resp : HttpResponse AppAuthData) :
  approle_login now1 now2 raw_bytes body d = (Ok resp, d') →
  ∃ payload name row,
    from_json body = Ok payload ∧ db_approle_roles d !! name = Some row ∧
    or_role_id row = alr_role_id payload ∧
    (or_bind_secret_id row ≠ 0%Z →
       ∃ secret acc srow, alr_secret_id payload = Some secret ∧ secret ≠ "" ∧
         db_app_secret_ids d !! acc = Some srow ∧
         usable_secret_id name (sha256 secret) now1 srow) ∧
    token_stored (aa_client_token (http_body resp)) name
      (from_json_or_default (or_token_policies row)) (or_token_ttl_secs row) now2 d'.
Proof.
  intros Hrun. pattern resp, d'. eapply wp_ok; [exact Hrun|]. clear Hrun d' resp.
  unfold approle_login. rewrite wp_bind, wp_of_result.
  destruct (from_json body) as [payload|e] eqn:Hbody; [|done]. simpl.
  rewrite wp_bind. apply wp_db. apply wp_get_approle_by_role_id; [done|].
  intros name row Hrow Hid. simpl. rewrite wp_bind, wp_of_result. simpl.
  rewrite wp_bind. eapply (wp_mono _ (λ r _, match r with
    | Ok _ => or_bind_secret_id row ≠ 0%Z → ∃ secret acc srow,
        alr_secret_id payload = Some secret ∧ secret ≠ "" ∧
        db_app_secret_ids d !! acc = Some srow ∧ usable_secret_id name (sha256 secret) now1 srow
    | Err _ => True end)).
  - case_bool_decide as Hbind; [|by rewrite wp_ret].
    rewrite wp_bind. apply wp_require; [|done]. intros Hne%bool_decide_eq_true.
    rewrite wp_bind. apply wp_db. apply wp_consume_secret_id; [done|].
    intros acc srow d1 Hsrow Hus. simpl. rewrite wp_bind, wp_of_result. simpl. intros _.
    destruct (alr_secret_id payload) as [secret|]; [|done]. exists secret, acc, srow. done.
  - intros [[]|e] d1 Hs; [|done]. rewrite wp_bind. apply wp_issue_app_token; [done|].
    intros d' tok Hst _. rewrite wp_ret. exists payload, name, row. done.
Qed.
Definition toy_login_body : string :=
  match @to_json AppRoleLoginRequest countable_serde (mkAppRoleLoginRequest "id" None) with
  | Ok s => s
  | Err _ => ""
  end.
Lemma approle_login_sound_witness :
  let AL := toy_app_libs in
  let d := (create_approle (mkAppRole "r" "id" 0 60 false ["p"]) empty_database).2 in
  ∃ resp d', approle_login 1 1 "abc" toy_login_body d = (Ok resp, d') ∧
    ∃ entity policies lease, token_stored (aa_client_token (http_body resp)) entity policies lease 1 d'.
Proof.
  intros AL d. destruct (approle_login 1 1 "abc" toy_login_body d) as [[resp|e] d'] eqn:Hrun;
    [|vm_compute in Hrun; discriminate].
  exists resp, d'. split; [done|].
  destruct (approle_login_sound d d' 1 1 "abc" toy_login_body resp Hrun)
    as (payload & name & row & _ & _ & _ & _ & Hst). eauto.
Defined.

(** The role id of an AppRole role is stable.  Once a role exists, configuring it again
    keeps its role id whatever fresh id was drawn, replaces the rest of its configuration,
    leaves its secret ids usable and touches no other role; two roles never share an id. *)
Theorem approle_role_id_stable `{L : DbLibs} `{AL : AppLibs} `{!DbLaws} (d : Database)
    (uuid name : string) (row : AppRoleRow) (payload : AppRoleRoleRequest) :
  db_wf d → db_approle_roles d !! name = Some row →
  (0 ≤ arr_secret_id_ttl payload)%Z → (0 ≤ arr_token_ttl payload)%Z →
  ∃ d', approle_create_role uuid name payload d = (Ok NoContent, d') ∧
    approle_get_role name d' = (Ok (HttpOk (mkAppRoleRoleConfigData (or_role_id row)
      (arr_token_ttl payload) (arr_secret_id_ttl payload) (arr_bind_secret_id payload)
      (arr_token_policies payload))), d') ∧
    db_app_secret_ids d' = db_app_secret_ids d ∧
    (∀ n, n ≠ name → db_approle_roles d' !! n = db_approle_roles d !! n) ∧
    (∀ n row', db_approle_roles d' !! n = Some row' → or_role_id row' = or_role_id row → n = name).
Proof.
  intros Hwf Hrow H1 H2. unfold approle_create_role, require.
  rewrite bool_decide_eq_true_2 by done.
  unfold get_approle_by_name, db, bind, ret, with_err, gets. simpl. rewrite Hrow. simpl.
  rewrite create_approle_run.
  - eexists. split; [done|]. split_and!; [|done| |].
    + unfold approle_get_role, find_role, get_approle_by_name, db, bind, with_err, gets. simpl.
      rewrite lookup_insert_eq. simpl. unfold row_to_approle. simpl.
      by rewrite policies_roundtrip, bool_i64_roundtrip.
    + intros n Hn. simpl. by rewrite lookup_insert_ne.
    + intros n row'. simpl. intros [[<- _]|[Hne Hn]]%lookup_insert_Some; [done|]. intros Heq.
      by eapply (wf_role_ids _ Hwf).
  - intros n row' Hn Heq. by eapply (wf_role_ids _ Hwf).
Qed.
Lemma approle_role_id_stable_witness :
  let AL := toy_app_libs in
  let d := (create_approle (mkAppRole "r" "id" 0 60 false ["p"]) empty_database).2 in
  let payload := mkAppRoleRoleRequest 0 30 [] true in
  db_wf d ∧ ∃ d', approle_create_role "fresh" "r" payload d = (Ok NoContent, d') ∧
    approle_get_role "r" d' = (Ok (HttpOk (mkAppRoleRoleConfigData "id" 30 0 true [])), d').
Proof.
  intros AL d payload.
  assert (db_wf d) as Hwf by apply create_approle_wf, empty_database_wf.
  split; [done|].
  assert (db_approle_roles d !! "r" = Some (approle_row (mkAppRole "r" "id" 0 60 false ["p"])))
    as Hrow by by vm_compute.
  destruct (approle_role_id_stable d "fresh" "r" _ payload Hwf Hrow ltac:(done) ltac:(done))
    as (d' & Hc & Hg & _).
  exists d'. split; [exact Hc|exact Hg].
Defined.
