(* ===== verification/K8sSpec.v ===== *)
(** What the Kubernetes logins promise ([AppAuth.v]): subjects, the conditions of a successful
    login, the uniform refusal, role configuration and the reach of the JWKS address check. *)
From S2P Require Import Prelude RustStd Models Jwt Passwords Totp Database DatabaseFacts Toy AdminApi AdminApiFacts AppAuth AppAuthSpec.
From stdpp Require Import pretty.

(** * Subjects *)
Lemma parse_sub_spec (sub ns name : string) :
  parse_k8s_sub sub = Ok (ns, name) ↔
  sub = "system:serviceaccount:" +:+ ns +:+ ":" +:+ name ∧ has_byte ":" ns = false.
Proof.
  unfold parse_k8s_sub. split.
  - simpl. destruct (split_once ":" sub) as [[a r1]|] eqn:H1; [|done].
    destruct (split_once ":" r1) as [[b r2]|] eqn:H2; [|done].
    destruct (split_once ":" r2) as [[n' nm]|] eqn:H3; [|done].
    case_decide as Hab; [|done]. destruct Hab as [-> ->]. intros [= <- <-].
    apply split_once_spec in H1 as [-> _], H2 as [-> _], H3 as [-> Hns]. done.
  - intros [-> Hns].
    assert (H3 : split_once ":" (ns +:+ ":" +:+ name) = Some (ns, name))
      by by apply split_once_spec.
    change ("system:serviceaccount:" +:+ ns +:+ ":" +:+ name) with
      ("system" +:+ ":" +:+ ("serviceaccount" +:+ ":" +:+ (ns +:+ ":" +:+ name))).
    rewrite (splitn_more _ 2 _ "system" ("serviceaccount" +:+ ":" +:+ (ns +:+ ":" +:+ name)))
      by done.
    rewrite (splitn_more _ 1 _ "serviceaccount" (ns +:+ ":" +:+ name)) by done.
    rewrite (splitn_more _ 0 _ ns name) by done. done.
Qed.

(** A Kubernetes subject is accepted exactly when it has the form
    [system:serviceaccount:namespace:name] with no colon in the namespace, and the parts are
    read back unchanged; so two service accounts never
    share a subject. *)
Theorem parse_k8s_sub_exact (sub : string) :
  match parse_k8s_sub sub with
  | Ok (ns, name) =>
      sub = "system:serviceaccount:" +:+ ns +:+ ":" +:+ name ∧ has_byte ":" ns = false
  | Err _ => ¬ ∃ ns name,
      sub = "system:serviceaccount:" +:+ ns +:+ ":" +:+ name ∧ has_byte ":" ns = false
  end.
Proof.
  destruct (parse_k8s_sub sub) as [[ns name]|e] eqn:Hsub; [by apply parse_sub_spec|].
  intros (ns & name & H%parse_sub_spec). congruence.
Qed.

(** * Signature verification *)
Section verification.
Context {AL : AppLibs}.

Lemma first_verified_sound now token v keys claims :
  first_verified now token v keys = Ok claims →
  ∃ k key, k ∈ keys ∧ decoding_key_of_json k = Some key ∧ decode_k8s now token key v = Some claims.
Proof.
  induction keys as [|k keys IH]; [done|]. simpl. setoid_rewrite elem_of_cons.
  destruct (decoding_key_of_json k) as [key|] eqn:Hkey; [|naive_solver].
  destruct (decode_k8s now token key v) eqn:Hdec; [|naive_solver].
  intros [= <-]. exists k, key. auto.
Qed.
Lemma first_verified_complete now token v keys k key claims :
  k ∈ keys → decoding_key_of_json k = Some key → decode_k8s now token key v = Some claims →
  is_ok (first_verified now token v keys) = true.
Proof.
  intros Hin Hkey Hdec. induction keys as [|k' keys IH]; [by apply elem_of_nil in Hin|]. simpl.
  apply elem_of_cons in Hin as [<-|Hin]; [by rewrite Hkey, Hdec|].
  repeat case_match; first [done|by apply IH].
Qed.
Lemma candidate_keys_elem kid keys k :
  k ∈ candidate_keys (Some kid) keys →
  k ∈ keys ∧ (json_str_field "kid" k = Some kid ∨
              ∀ k', k' ∈ keys → json_str_field "kid" k' ≠ Some kid).
Proof.
  unfold candidate_keys. destruct (filter _ keys) as [|m l] eqn:Hf.
  - intros Hk. split; [done|]. right. intros k' Hk' Hkid.
    apply (not_elem_of_nil k'). rewrite <-Hf. apply list_elem_of_filter.
    split; [by apply bool_decide_eq_true|done].
  - rewrite <-Hf. intros [Hk Hin]%list_elem_of_filter. split; [done|]. left.
    by apply bool_decide_eq_true in Hk.
Qed.
Lemma candidate_keys_subset kid keys k : k ∈ candidate_keys kid keys → k ∈ keys.
Proof.
  unfold candidate_keys. destruct (filter _ keys) as [|m l] eqn:Hf; [done|].
  rewrite <-Hf. by intros [_ Hin]%list_elem_of_filter.
Qed.
Lemma bound_allows_spec bound x : bound_allows bound x = true ↔ "*" ∈ bound ∨ x ∈ bound.
Proof. unfold bound_allows. by rewrite orb_true_iff, !bool_decide_eq_true. Qed.
End verification.

(** * Logging in *)
Section login.
Context {L : DbLibs} {AL : AppLibs} {LAWS : DbLaws}.

Lemma wp_get_k8s_role name (Q : Result (option K8sRole) AuthDbError → Database → Prop) d :
  wp (get_k8s_role name) Q d ↔ Q (Ok (row_to_k8s_role name <$> db_k8s_roles d !! name)) d.
Proof. done. Qed.
Lemma validate_k8s_jwt_sound now token jwks iss auds claims :
  validate_k8s_jwt now token jwks iss auds = Ok claims →
  ∃ header k key, decode_header token = Ok header ∧ jh_alg header ∈ ALLOWED_K8S_ALGORITHMS ∧
    k ∈ candidate_keys (jh_kid header) jwks ∧ decoding_key_of_json k = Some key ∧
    decode_k8s now token key (build_validation (jh_alg header) iss auds) = Some claims.
Proof.
  unfold validate_k8s_jwt. destruct (decode_header token) as [header|e]; [|done]. simpl.
  case_decide as Halg; [done|]. intros (k & key & ? & ? & ?)%first_verified_sound.
  exists header, k, key. split_and!; try done.
Qed.

(** The verified part of a login: who the caller is. *)
Definition k8s_identity (now : Z) (fetch : string → Result (list Value) string) (jwt : string)
    (row : K8sRoleRow) (ns name : string) : Prop :=
  ∃ jwks audiences header k key claims,
    fetch (kr_jwks_url row) = Ok jwks ∧ from_json (kr_bound_audiences row) = Ok audiences ∧
    decode_header jwt = Ok header ∧ jh_alg header ∈ ALLOWED_K8S_ALGORITHMS ∧
    k ∈ candidate_keys (jh_kid header) jwks ∧ decoding_key_of_json k = Some key ∧
    decode_k8s now jwt key
      (build_validation (jh_alg header) (kr_expected_issuer row) audiences) = Some claims ∧
    k8sc_sub claims = Some ("system:serviceaccount:" +:+ ns +:+ ":" +:+ name) ∧
    has_byte ":" ns = false.
(** The allow-lists of a role admit the service account. *)
Definition k8s_admits (row : K8sRoleRow) (ns name : string) : Prop :=
  ∃ names namespaces, from_json (kr_bound_sa_names row) = Ok names ∧
    from_json (kr_bound_sa_namespaces row) = Ok namespaces ∧
    ("*" ∈ names ∨ name ∈ names) ∧ ("*" ∈ namespaces ∨ ns ∈ namespaces).
End login.

(** C26: a Kubernetes login that succeeds was for a configured role; a key of the role's own
    JWKS verified the JWT under one of the allowed asymmetric algorithms with the role's issuer
    and audiences and with [exp] required; the subject is a service account that both
    allow-lists admit; and the token handed out is stored for exactly that service account,
    without policies and with the role's lease. *)
Theorem k8s_login_sound `{L : DbLibs} `{AL : AppLibs} `{!DbLaws} (d d' : Database)
    (now1 now2 : Z) (raw_bytes body : string) (fetch : string → Result (list Value) string)
    (resp : HttpResponse AppAuthData) :
  k8s_login now1 now2 raw_bytes fetch body d = (Ok resp, d') →
  ∃ payload row ns name,
    from_json body = Ok payload ∧ db_k8s_roles d !! klr_role payload = Some row ∧
    k8s_identity now1 fetch (klr_jwt payload) row ns name ∧ k8s_admits row ns name ∧
    token_stored (aa_client_token (http_body resp)) (ns +:+ "/" +:+ name) []
      (kr_token_ttl_secs row) now2 d'.
Proof.
  intros Hrun. pattern resp, d'. eapply wp_ok; [exact Hrun|]. clear Hrun d' resp.
  unfold k8s_login. rewrite wp_bind, wp_of_result.
  destruct (from_json body) as [payload|e] eqn:Hbody; [|done]. simpl.
  rewrite wp_bind. apply wp_db. rewrite wp_get_k8s_role. simpl.
  destruct (db_k8s_roles d !! klr_role payload) as [row|] eqn:Hrow; [|done].
  simpl. rewrite wp_bind, wp_of_result. simpl. rewrite wp_bind, wp_of_result.
  destruct (fetch (kr_jwks_url row)) as [jwks|e] eqn:Hfetch; [|done]. simpl.
  rewrite wp_bind, wp_of_result. unfold stored_list.
  destruct (from_json (kr_bound_audiences row)) as [auds|e] eqn:Haud; [|done]. simpl.
  rewrite wp_bind, wp_of_result. destruct (validate_k8s_jwt _ _ _ _ _) as [claims|e] eqn:Hval; [|done].
  apply validate_k8s_jwt_sound in Hval as (header & k & key & Hh & Halg & Hk & Hkey & Hdec). simpl.
  rewrite wp_bind, wp_of_result. destruct (parse_k8s_sub _) as [[ns name]|e] eqn:Hsub; [|done].
  assert (Hsub' : k8sc_sub claims = Some ("system:serviceaccount:" +:+ ns +:+ ":" +:+ name) ∧
    has_byte ":" ns = false).
  { destruct (k8sc_sub claims) as [sub|]; [|done]. simpl in Hsub.
    apply parse_sub_spec in Hsub as [-> ?]. done. }
  destruct Hsub' as [Hsub1 Hsub2]. simpl. rewrite wp_bind, wp_of_result.
  destruct (from_json (kr_bound_sa_names row)) as [names|e] eqn:Hnames; [|done]. simpl.
  rewrite wp_bind. apply wp_require; [|done]. intros Hn%bound_allows_spec.
  rewrite wp_bind, wp_of_result.
  destruct (from_json (kr_bound_sa_namespaces row)) as [nss|e] eqn:Hnss; [|done]. simpl.
  rewrite wp_bind. apply wp_require; [|done]. intros Hs%bound_allows_spec.
  rewrite wp_bind. apply wp_issue_app_token; [done|]. intros d' tok Hst _. rewrite wp_ret.
  exists payload, row, ns, name. split_and!; try done.
  - exists jwks, auds, header, k, key, claims. done.
  - exists names, nss. done.
Qed.
Definition toy_k8s_body (role jwt : string) : string :=
  match @to_json K8sLoginRequest countable_serde (mkK8sLoginRequest role jwt) with
  | Ok s => s
  | Err _ => ""
  end.
Definition toy_fetch (url : string) : Result (list Value) string :=
  if decide (url = "https://k8s/jwks") then Ok [VNull; VString "good"] else Err "unreachable".
Definition toy_k8s_role : K8sRoleRequest :=
  mkK8sRoleRequest "https://k8s/jwks" ["app"] [] 60 None [].
Definition toy_k8s_db (AL : AppLibs) : Database :=
  (k8s_create_role "r" toy_k8s_role empty_database).2.
Lemma k8s_login_sound_witness :
  let AL := toy_app_libs in
  let body := toy_k8s_body "r" "system:serviceaccount:ns:app" in
  ∃ resp d', k8s_login 1 2 "abc" toy_fetch body (toy_k8s_db AL) = (Ok resp, d') ∧
    ∃ row ns name, token_stored (aa_client_token (http_body resp)) (ns +:+ "/" +:+ name) []
      (kr_token_ttl_secs row) 2 d'.
Proof.
  intros AL body. destruct (k8s_login 1 2 "abc" toy_fetch body (toy_k8s_db AL))
    as [[resp|e] d'] eqn:Hrun; [|vm_compute in Hrun; discriminate].
  exists resp, d'. split; [done|].
  destruct (k8s_login_sound (toy_k8s_db AL) d' 1 2 "abc" body toy_fetch resp Hrun)
    as (payload & row & ns & name & _ & _ & _ & _ & Hst). eauto.
Defined.

(** The refusals of a Kubernetes login are uniform.  For a role whose stored lists parse
    and whose JWKS can be fetched, a well-formed login whose token is fresh either succeeds or
    gets the very answer that an unknown role gets, with the store untouched.  (A JWKS that
    cannot be fetched or a corrupt role is answered differently.) *)
Theorem k8s_login_uniform_refusal `{L : DbLibs} `{AL : AppLibs} (d : Database)
    (now1 now2 : Z) (raw_bytes body : string) (fetch : string → Result (list Value) string)
    (payload : K8sLoginRequest) :
  from_json body = Ok payload →
  match db_k8s_roles d !! klr_role payload with
  | None => k8s_login now1 now2 raw_bytes fetch body d = (Err k8s_login_refused, d)
  | Some row =>
      is_ok (fetch (kr_jwks_url row)) = true →
      Forall (λ text, is_ok (from_json (A := list string) text) = true)
        [kr_bound_audiences row; kr_bound_sa_names row; kr_bound_sa_namespaces row] →
      db_app_tokens d !! sha256 ("hvs." +:+ base64url_no_pad raw_bytes) = None →
      let '(res, d') := k8s_login now1 now2 raw_bytes fetch body d in
      is_ok res = true ∨ res = Err k8s_login_refused ∧ d' = d
  end.
Proof.
  intros Hbody. unfold k8s_login, get_k8s_role, db, bind, of_result, with_err, gets.
  rewrite Hbody. simpl. destruct (db_k8s_roles d !! klr_role payload) as [row|]; [|done]. simpl.
  destruct (fetch (kr_jwks_url row)) as [jwks|e]; [|done]. intros _. simpl.
  rewrite !Forall_cons. intros (Haud & Hn & Hns & _). unfold stored_list.
  destruct (from_json (kr_bound_audiences row)) as [auds|]; [|done]. simpl. intros Hfresh.
  destruct (validate_k8s_jwt _ _ _ _ _) as [claims|]; simpl; [|auto].
  destruct (parse_k8s_sub _) as [[ns name]|]; simpl; [|auto].
  destruct (from_json (kr_bound_sa_names row)) as [names|]; [|done]. simpl.
  destruct (bound_allows names name); simpl; [|auto].
  destruct (from_json (kr_bound_sa_namespaces row)) as [nss|]; [|done]. simpl.
  destruct (bound_allows nss ns); simpl; [|auto].
  unfold issue_app_token, db, bind, with_err. rewrite db_issue_app_token_run. simpl.
  rewrite Hfresh. simpl. auto.
Qed.
Lemma k8s_login_uniform_refusal_witness :
  let AL := toy_app_libs in
  let body := toy_k8s_body "r" "system:serviceaccount:ns:other" in
  let '(res, d') := k8s_login 1 2 "abc" toy_fetch body (toy_k8s_db AL) in
  is_ok res = true ∨ res = Err k8s_login_refused ∧ d' = toy_k8s_db AL.
Proof.
  intros AL body.
  assert (from_json body = Ok (mkK8sLoginRequest "r" "system:serviceaccount:ns:other")) as Hbody
    by by vm_compute.
  pose proof (k8s_login_uniform_refusal (toy_k8s_db AL) 1 2 "abc" body toy_fetch _ Hbody) as H.
  cbn [klr_role] in H. destruct (db_k8s_roles (toy_k8s_db AL) !! "r") as [row|] eqn:Hrow;
    [|vm_compute in Hrow; discriminate].
  vm_compute in Hrow. injection Hrow as <-.
  apply H; [by vm_compute|repeat constructor; by vm_compute|by vm_compute].
Defined.

(** * The JWKS address check *)
Lemma trim_https c t :
  c ≠ "h"%char → trim_start_matches "https://" ("https://" +:+ String c t) = String c t.
Proof. intros Hc. unfold trim_start_matches. simpl. by rewrite decide_False. Qed.

(** The decimal digits of a byte, as a dotted quad writes them. *)
Definition octet (n : Z) : string := pretty n.
Definition in_octet (n : Z) : Prop := (0 ≤ n < 256)%Z.
Definition dotted (a b c d : Z) : string :=
  octet a +:+ String "." (octet b +:+ String "." (octet c +:+ String "." (octet d))).

Record octet_facts (n : Z) : Prop := {
  octet_no_slash : has_byte "/" (octet n) = false;
  octet_no_colon : has_byte ":" (octet n) = false;
  octet_read : read_number 10 3 false 255 (octet n) = Some (n, "");
  octet_read_dot : ∀ r, read_number 10 3 false 255 (octet n +:+ String "." r) = Some (n, String "." r);
  octet_first : ∃ c t, octet n = String c t ∧ c ≠ "h"%char;
}.
Lemma octets_ok n : in_octet n → octet_facts n.
Proof.
  intros Hn. assert (Hin : n ∈ seqZ 0 256) by (apply elem_of_seqZ; unfold in_octet in Hn; lia).
  vm_compute in Hin. clear Hn.
  repeat (apply elem_of_cons in Hin as [->|Hin];
    [split; [by vm_compute|by vm_compute|by vm_compute|intros r; by vm_compute|
       eexists _, _; split; [by vm_compute|done]]|]).
  by apply elem_of_nil in Hin.
Qed.
Lemma dotted_parse a b c d :
  in_octet a → in_octet b → in_octet c → in_octet d →
  parse_ip (dotted a b c d) = Some (V4 a b c d).
Proof.
  intros Ha%octets_ok Hb%octets_ok Hc%octets_ok Hd%octets_ok. unfold parse_ip, read_ipv4, dotted.
  rewrite (octet_read_dot a) by done. simpl.
  rewrite (octet_read_dot b) by done. simpl. rewrite (octet_read_dot c) by done. simpl.
  by rewrite (octet_read d).
Qed.
Lemma dotted_no_byte x a b c d :
  has_byte x (octet a) = false → has_byte x (octet b) = false → has_byte x (octet c) = false →
  has_byte x (octet d) = false → x ≠ "."%char → has_byte x (dotted a b c d) = false.
Proof.
  intros Ha Hb Hc Hd Hx. unfold dotted.
  repeat (rewrite has_byte_app; simpl). rewrite Ha, Hb, Hc, Hd.
  by rewrite bool_decide_eq_false_2 by congruence.
Qed.

(** What may follow the host of an [https] URL: an optional port and an optional path. *)
Definition port_suffix (s : string) : Prop :=
  s = "" ∨ ∃ port, s = String ":" port ∧ has_byte ":" port = false ∧ has_byte "/" port = false.
Definition path_suffix (s : string) : Prop := s = "" ∨ ∃ rest, s = String "/" rest.


Lemma jwks_url_host_plain host port path :
  (∃ c t, host = String c t ∧ c ≠ "h"%char) →
  has_byte ":" host = false → has_byte "/" host = false → port_suffix port → path_suffix path →
  jwks_url_host ("https://" +:+ host +:+ port +:+ path) = Some host.
Proof.
  intros (c & t & Hct & Hc) Hcol Hsl Hport Hpath. unfold jwks_url_host.
  assert (host +:+ port +:+ path = String c (t +:+ port +:+ path)) as Heq by by rewrite Hct.
  rewrite Heq, trim_https, <-Heq, string_app_assoc by done. clear c t Hct Hc Heq.
  assert (Hauth : has_byte "/" (host +:+ port) = false).
  { rewrite has_byte_app, Hsl. by destruct Hport as [->|(p & -> & _ & Hp)]. }
  assert (head (str_split "/" ((host +:+ port) +:+ path)) = Some (host +:+ port)) as ->.
  { destruct Hpath as [->|[rest ->]].
    - rewrite string_app_nil_r. by rewrite str_split_whole.
    - by apply str_split_head. }
  simpl. destruct Hport as [->|(p & -> & Hp & _)].
  - by rewrite string_app_nil_r, rsplit_once_None.
  - by rewrite rsplit_once_last.
Qed.

(** The address check is exact on dotted quads: with any port and path, a JWKS URL whose
    host is in a loopback, private, link-local or unspecified range is refused before anything
    is stored, and any other dotted quad passes the check. *)
Theorem jwks_dotted_quad_check `{L : DbLibs} (store : Database) (name : string)
    (payload : K8sRoleRequest) (a b c d : Z) (port path : string) :
  Forall in_octet [a; b; c; d] → port_suffix port → path_suffix path →
  krq_jwks_url payload = "https://" +:+ dotted a b c d +:+ port +:+ path →
  (k8s_create_role name payload store =
     (Err (BadRequest "jwks_url must not point to a private or loopback IP address"), store)) ↔
  (a = 0 ∧ b = 0 ∧ c = 0 ∧ d = 0 ∨ a = 10 ∨ a = 127 ∨ a = 169 ∧ b = 254 ∨
   a = 172 ∧ 16 ≤ b ≤ 31 ∨ a = 192 ∧ b = 168)%Z.
Proof.
  rewrite !Forall_cons. intros (Ha & Hb & Hc & Hd & _) Hport Hpath Hurl.
  assert (Hpriv : jwks_url_is_private (krq_jwks_url payload) = is_private_ip (V4 a b c d)).
  { unfold jwks_url_is_private. rewrite Hurl, jwks_url_host_plain; [| | | |done|done].
    - simpl. by rewrite dotted_parse.
    - destruct (octet_first _ (octets_ok a Ha)) as (x & t & Hx & Hxh).
      unfold dotted. rewrite Hx. by eexists _, _.
    - apply dotted_no_byte; [by apply octet_no_colon, octets_ok..|discriminate].
    - apply dotted_no_byte; [by apply octet_no_slash, octets_ok..|discriminate]. }
  assert (Hs : starts_with "https://" (krq_jwks_url payload) = true)
    by by rewrite Hurl, starts_with_app.
  unfold k8s_create_role. rewrite Hs, Hpriv. unfold require at 1 2, bind at 1 2, ret at 1.
  set (q := is_private_ip (V4 a b c d)).
  assert (Hq : q = true ↔ (a = 0 ∧ b = 0 ∧ c = 0 ∧ d = 0 ∨ a = 10 ∨ a = 127 ∨ a = 169 ∧ b = 254 ∨
     a = 172 ∧ 16 ≤ b ≤ 31 ∨ a = 192 ∧ b = 168)%Z).
  { unfold q, is_private_ip. rewrite !orb_true_iff, !bool_decide_eq_true. lia. }
  rewrite <-Hq. destruct q; simpl; [done|]. split; [|done].
  unfold require, bind. case_bool_decide; simpl; [|done].
  unfold of_result. destruct (to_json _); simpl; [|done].
  destruct (to_json _); simpl; [|done]. by destruct (to_json _).
Qed.
Lemma jwks_dotted_quad_check_witness :
  let payload := mkK8sRoleRequest "https://169.254.169.254:8080/jwks" [] [] 60 None [] in
  k8s_create_role "r" payload empty_database =
    (Err (BadRequest "jwks_url must not point to a private or loopback IP address"), empty_database).
Proof.
  intros payload.
  apply (jwks_dotted_quad_check empty_database "r" payload 169 254 169 254 ":8080" "/jwks").
  - repeat constructor; by vm_compute.
  - right. exists "8080". by vm_compute.
  - right. by exists "jwks".
  - by vm_compute.
  - lia.
Defined.

Lemma jwks_bracket_not_private t : jwks_url_is_private ("https://[" +:+ t) = false.
Proof.
  unfold jwks_url_is_private, jwks_url_host.
  change ("https://[" +:+ t) with ("https://" +:+ String "[" t). rewrite trim_https by done.
  assert (∃ x, head (str_split "/" (String "[" t)) = Some (String "[" x)) as [x ->].
  { unfold str_split. change (String.length (String "[" t)) with (S (String.length t)). simpl.
    destruct (split_once "/" t) as [[l r]|]; simpl; eauto. }
  simpl. by destruct (rsplit_once ":" x) as [[l r]|].
Qed.

(** The address check does not see IPv6 literals in a URL, which are bracketed: whatever
    follows the opening bracket, the loopback, unique-local and unspecified addresses included,
    the role is stored with that URL when its lifetime is not negative. *)
Theorem bracketed_ipv6_jwks_accepted `{L : DbLibs} `{!DbLaws} (store : Database) (name rest : string)
    (payload : K8sRoleRequest) :
  krq_jwks_url payload = "https://[" +:+ rest → (0 ≤ krq_token_ttl payload)%Z →
  ∃ store', k8s_create_role name payload store = (Ok NoContent, store') ∧
    kr_jwks_url <$> db_k8s_roles store' !! name = Some ("https://[" +:+ rest).
Proof.
  intros Hurl Httl. unfold k8s_create_role. rewrite Hurl, jwks_bracket_not_private.
  change ("https://[" +:+ rest) with ("https://" +:+ String "[" rest) at 1.
  rewrite starts_with_app, bool_decide_eq_true_2 by done.
  unfold require, bind, ret, of_result. simpl.
  destruct (serde_roundtrip (effective_bound (krq_bound_service_account_names payload))) as (t1 & -> & _).
  destruct (serde_roundtrip (effective_bound (krq_bound_service_account_namespaces payload))) as (t2 & -> & _).
  destruct (serde_roundtrip (krq_bound_audiences payload)) as (t3 & -> & _). simpl.
  eexists. split; [done|]. simpl. by rewrite lookup_insert_eq.
Qed.
Lemma bracketed_ipv6_jwks_accepted_witness :
  let payload := mkK8sRoleRequest "https://[::1]/jwks" [] [] 60 None [] in
  ∃ store', k8s_create_role "r" payload empty_database = (Ok NoContent, store') ∧
    kr_jwks_url <$> db_k8s_roles store' !! "r" = Some "https://[::1]/jwks".
Proof.
  intros payload.
  apply (bracketed_ipv6_jwks_accepted empty_database "r" "::1]/jwks" payload); [by vm_compute|done].
Defined.

(** What a role was configured with is what it reports and enforces: after a successful
    configuration the role reads back its URL, lifetime, issuer and audiences, and its
    allow-lists with the wildcard in place of an empty list, so no configuration denies every
    service account; no other role is touched. *)
Theorem k8s_role_roundtrip `{L : DbLibs} `{!DbLaws} (d d' : Database) (name : string)
    (payload : K8sRoleRequest) (resp : HttpResponse ()) :
  k8s_create_role name payload d = (Ok resp, d') →
  (0 ≤ krq_token_ttl payload)%Z ∧
  k8s_get_role name d' = (Ok (HttpOk (mkK8sRoleConfigData (krq_jwks_url payload)
    (effective_bound (krq_bound_service_account_names payload))
    (effective_bound (krq_bound_service_account_namespaces payload))
    (krq_token_ttl payload) (krq_expected_issuer payload) (krq_bound_audiences payload))), d') ∧
  (∃ row, db_k8s_roles d' !! name = Some row ∧ ∃ ns sa, k8s_admits row ns sa) ∧
  (∀ n, n ≠ name → db_k8s_roles d' !! n = db_k8s_roles d !! n).
Proof.
  unfold k8s_create_role, require, bind, ret, of_result, throw, db, with_err, create_k8s_role, modify.
  destruct (starts_with _ _); [|done]. destruct (negb _); [|done]. case_bool_decide as Httl; [|done].
  destruct (serde_roundtrip (effective_bound (krq_bound_service_account_names payload))) as (t1 & -> & H1).
  destruct (serde_roundtrip (effective_bound (krq_bound_service_account_namespaces payload))) as (t2 & -> & H2).
  destruct (serde_roundtrip (krq_bound_audiences payload)) as (t3 & -> & H3). simpl.
  intros [= <- <-]. split; [done|]. split_and!.
  - unfold k8s_get_role, get_k8s_role, db, with_err, bind, gets, of_result, stored_list. simpl.
    rewrite lookup_insert_eq. simpl. by rewrite H1, H2, H3.
  - eexists. split; [apply lookup_insert_eq|].
    assert (Hb : ∀ l, ∃ x, "*" ∈ effective_bound l ∨ x ∈ effective_bound l).
    { intros [|x l]; [by exists ""; left; left|]. exists x. right. left. }
    destruct (Hb (krq_bound_service_account_namespaces payload)) as [ns Hns].
    destruct (Hb (krq_bound_service_account_names payload)) as [sa Hsa].
    exists ns, sa. eexists _, _. simpl. done.
  - intros n Hn. simpl. by rewrite lookup_insert_ne.
Qed.
Lemma k8s_role_roundtrip_witness :
  ∃ resp d', k8s_create_role "r" toy_k8s_role empty_database = (Ok resp, d') ∧
    ∃ row, db_k8s_roles d' !! "r" = Some row ∧ ∃ ns sa, k8s_admits row ns sa.
Proof.
  destruct (k8s_create_role "r" toy_k8s_role empty_database) as [[resp|e] d'] eqn:Hrun;
    [|vm_compute in Hrun; discriminate].
  exists resp, d'. split; [done|].
  destruct (k8s_role_roundtrip empty_database d' "r" toy_k8s_role resp Hrun) as (_ & _ & Hrow & _).
  exact Hrow.
Defined.
