(* ===== verification/TokenSpec.v ===== *)
(** App tokens through the [X-Vault-Token] middleware ([AppAuth.v]): self-service on a live
    token, and the refusal of missing, revoked and expired ones. *)
From S2P Require Import Prelude RustStd Models Jwt Passwords Totp Database DatabaseFacts Toy AdminApi AdminApiFacts AppAuth AppAuthSpec.

Section middleware.
Context {L : DbLibs} {AL : AppLibs}.

(** A live row is what a lookup returns, decoded. *)
Lemma lookup_live t h d row :
  db_app_tokens d !! h = Some row → (tr_expiry row = 0 ∨ t < tr_expiry row)%Z →
  lookup_app_token t h d = (map_ok Some (row_to_app_token h row), d).
Proof. intros Hrow Ht. rewrite lookup_app_token_run, Hrow, decide_True by lia. done. Qed.

Lemma app_token_extract_dead {B} t1 t2 raw (service : option AppTokenClaims → ApiM (HttpResponse B)) d :
  revoked_or_expired t1 (sha256 raw) d →
  app_token_extract t1 t2 (Some raw) service d =
    (Ok (mkResponse 403 (TokenErrors ["permission denied"])), d).
Proof. intros Hd. unfold app_token_extract. simpl. by rewrite lookup_app_token_None. Qed.
Lemma issued_row raw_bytes now entity policies lease renewable tok d d' :
  issue_app_token raw_bytes now entity policies lease renewable d = (Ok tok, d') →
  db_app_tokens d' !! sha256 tok = Some (mkAppTokenRow entity (to_json_or_empty policies)
    (if decide (lease > 0)%Z then i64_add now lease else 0%Z) (bool_i64 renewable) lease now).
Proof.
  unfold issue_app_token, db, bind at 1, with_err. rewrite db_issue_app_token_run. simpl.
  destruct (db_app_tokens d !! _); [done|]. simpl. intros [= <- <-]. simpl.
  by rewrite lookup_insert_eq.
Qed.
Lemma row_to_app_token_run h row :
  in_i64 (tr_expiry row) →
  row_to_app_token h row = Ok (mkAppToken h (tr_entity row) (from_json_or_default (tr_policies row))
    (tr_expiry row) (bool_decide (tr_renewable row ≠ 0%Z)) (tr_lease_duration_secs row)
    (tr_created_at row)).
Proof. intros Hin. unfold row_to_app_token, column_i64. by rewrite decide_True. Qed.
Lemma remaining_ttl_run now tok :
  in_i64 now → (0 ≤ now)%Z → (0 < tok_expiry tok)%Z → in_i64 (tok_expiry tok) →
  remaining_ttl now tok = Z.max (tok_expiry tok - now) 0.
Proof.
  intros Hn H0 He Hi. unfold remaining_ttl. rewrite decide_False by lia.
  rewrite i64_sub_id; [done|]. unfold in_i64, i64_min, i64_max in *. lia.
Qed.
Lemma app_token_extract_live {B} t1 t2 raw row
    (service : option AppTokenClaims → ApiM (HttpResponse B)) d :
  db_app_tokens d !! sha256 raw = Some row → (tr_expiry row = 0 ∨ t1 < tr_expiry row)%Z →
  in_i64 (tr_expiry row) →
  app_token_extract t1 t2 (Some raw) service d =
    (let* res := service (Some (mkAppTokenClaims (tr_entity row)
       (from_json_or_default (tr_policies row)) (bool_decide (tr_renewable row ≠ 0%Z))
       (remaining_ttl t2 (mkAppToken (sha256 raw) (tr_entity row)
          (from_json_or_default (tr_policies row)) (tr_expiry row)
          (bool_decide (tr_renewable row ≠ 0%Z)) (tr_lease_duration_secs row) (tr_created_at row)))
       (sha256 raw))) in ret (map_body Served res)) d.
Proof.
  intros Hrow Ht Hin. unfold app_token_extract. simpl. rewrite (lookup_live t1 _ _ row) by done.
  by rewrite row_to_app_token_run.
Qed.
Lemma revoked_or_expired_mono t t' h d :
  (t ≤ t')%Z → revoked_or_expired t h d → revoked_or_expired t' h d.
Proof. intros Ht Hd row Hrow. destruct (Hd row Hrow). lia. Qed.
End middleware.

(** Revocation is final.  After a token revoked itself, no request that presents it runs
    the service behind the middleware: each is answered 403 and changes nothing, whatever
    tokens were issued, renewed or revoked meanwhile; nor does a request without a token. *)
Theorem revoked_token_refused `{L : DbLibs} `{AL : AppLibs} (n1 n2 t t1 t2 : Z) (raw : string)
    (d d1 d2 : Database) (resp : HttpResponse (TokenBody ())) (B : Type)
    (service : option AppTokenClaims → ApiM (HttpResponse B)) :
  app_token_extract n1 n2 (Some raw) auth_token_revoke_self d = (Ok resp, d1) →
  http_status resp = 204%Z →
  rtc (token_step t (sha256 raw)) d1 d2 → (t ≤ t1)%Z →
  app_token_extract t1 t2 (Some raw) service d2 =
    (Ok (mkResponse 403 (TokenErrors ["permission denied"])), d2) ∧
  ∃ errors, app_token_extract t1 t2 None service d2 = (Ok (mkResponse 403 (TokenErrors errors)), d2).
Proof.
  intros Hrev Hstatus Hsteps Ht. split; [|by eexists]. apply app_token_extract_dead.
  eapply revoked_or_expired_mono, dead_token_steps, Hsteps; [done|].
  revert Hrev. unfold app_token_extract. simpl. rewrite lookup_app_token_run.
  destruct (db_app_tokens d !! sha256 raw) as [row|] eqn:Hrow.
  - case_decide; [|by intros [= <- _]]. destruct (row_to_app_token _ _) as [tok|e] eqn:Htok;
      [|by intros [= <- _]]. simpl.
    unfold row_to_app_token in Htok. destruct (column_i64 _); [|done].
    injection Htok as <-. intros [= _ <-] row'. simpl. by rewrite lookup_delete_eq.
  - by intros [= <- _].
Qed.

(** What a token may do for itself.  A token issued with a positive lease, presented before
    it expires, learns through the middleware its entity, policies and exactly the time it has
    left; if it is renewable, renewing it answers the whole lease counted from the renewal, and
    the new expiry is what later lookups use; if not, renewal is refused and nothing changes. *)
Theorem token_self_service `{L : DbLibs} `{AL : AppLibs} `{!DbLaws} (d d' : Database)
    (raw_bytes entity tok : string) (policies : list string) (now lease t1 t2 t3 t4 t5 : Z)
    (renewable : bool) :
  (0 ≤ now ≤ t1)%Z → (t1 ≤ t2 ≤ t3)%Z → (t3 ≤ t4 ≤ t5)%Z → (0 < lease)%Z →
  (t3 < now + lease)%Z → (t4 < t3 + lease)%Z → (t5 + lease ≤ i64_max)%Z →
  issue_app_token raw_bytes now entity policies lease renewable d = (Ok tok, d') →
  app_token_extract t1 t2 (Some tok) (auth_token_lookup_self t3 t4 (Some tok)) d' =
    (Ok (mkResponse 200 (Served (mkAppTokenData tok entity policies renewable
       (Z.max (now + lease - t4) 0) now))), d') ∧
  let renewal := app_token_extract t1 t2 (Some tok) (auth_token_renew_self t3 t4 t5 (Some tok)) d' in
  if renewable then
    renewal.1 = Ok (mkResponse 200 (Served (mkAppAuthData tok true (Z.max (t3 + lease - t5) 0)
                  policies []))) ∧
    tr_expiry <$> db_app_tokens renewal.2 !! sha256 tok = Some (t3 + lease)%Z
  else is_ok renewal.1 = false ∧ renewal.2 = d'.
Proof.
  intros Hn H12 H45 Hl He He' Hmax Hissue. pose proof (issued_row _ _ _ _ _ _ _ _ _ Hissue) as Hrow.
  assert (Hin : in_i64 (now + lease)) by (unfold in_i64, i64_min, i64_max in *; lia).
  rewrite decide_True, i64_add_id in Hrow by (done || lia).
  set (row := mkAppTokenRow _ _ _ _ _ _) in Hrow.
  rewrite !(app_token_extract_live t1 t2 tok row) by (done || (simpl; lia)). split.
  - unfold auth_token_lookup_self, token_claims, db, bind at 1 2 3, with_err, of_result. simpl.
    rewrite (lookup_live t3 _ _ row), row_to_app_token_run by (done || (simpl; lia)). simpl.
    unfold bind, ret, map_body, HttpOk. simpl. rewrite remaining_ttl_run by
      (simpl; done || lia || (unfold in_i64, i64_min, i64_max in *; lia)).
    simpl. by rewrite policies_roundtrip, bool_i64_roundtrip.
  - cbv zeta. unfold auth_token_renew_self, token_claims, db, with_err, of_result, bind. simpl.
    rewrite renew_app_token_run, Hrow. destruct renewable.
    + rewrite decide_True by (split_and!; simpl; lia). simpl. set (d2 := set_app_tokens _ d').
      assert (Hrow2 : db_app_tokens d2 !! sha256 tok = Some (extend_row t3 row)) by apply lookup_insert_eq.
      assert (Hin2 : in_i64 (t3 + lease)) by (unfold in_i64, i64_min, i64_max in *; lia).
      rewrite (lookup_live t4 _ _ (extend_row t3 row)), row_to_app_token_run by (done || (simpl; lia)).
      simpl. unfold ret, map_body, HttpOk. simpl.
      split; [|by rewrite lookup_insert_eq].
      rewrite remaining_ttl_run by
        (simpl; done || lia || (unfold in_i64, i64_min, i64_max in *; lia)).
      simpl. by rewrite policies_roundtrip.
    + rewrite decide_False by (intros (? & _); done). by rewrite decide_False by (intros (? & _); done).
Qed.
Definition toy_issued (AL : AppLibs) : Database :=
  (issue_app_token "abc" 100 "app" ["p"] 60 true empty_database).2.
Lemma revoked_token_refused_witness :
  let AL := toy_app_libs in
  ∃ resp d1, app_token_extract 110 110 (Some "hvs.abc") auth_token_revoke_self (toy_issued AL)
    = (Ok resp, d1) ∧
    app_token_extract 120 120 (Some "hvs.abc") (auth_token_lookup_self 120 120 (Some "hvs.abc")) d1 =
      (Ok (mkResponse 403 (TokenErrors ["permission denied"])), d1).
Proof.
  intros AL.
  destruct (app_token_extract 110 110 (Some "hvs.abc") auth_token_revoke_self (toy_issued AL))
    as [[resp|e] d1] eqn:Hrun; [|vm_compute in Hrun; discriminate].
  exists resp, d1. split; [done|].
  assert (http_status resp = 204%Z) as Hst.
  { pose proof (f_equal (λ x, match x.1 with Ok r => http_status r | Err _ => 0%Z end) Hrun) as H.
    simpl in H. rewrite <-H. by vm_compute. }
  apply (revoked_token_refused 110 110 110 120 120 "hvs.abc" (toy_issued AL) d1 d1 resp _ _ Hrun Hst);
    [apply rtc_refl|lia].
Defined.
Lemma token_self_service_witness :
  let AL := toy_app_libs in
  app_token_extract 110 110 (Some "hvs.abc") (auth_token_lookup_self 110 112 (Some "hvs.abc"))
      (toy_issued AL) =
    (Ok (mkResponse 200 (Served (mkAppTokenData "hvs.abc" "app" ["p"] true 48 100))), toy_issued AL).
Proof.
  intros AL.
  assert (issue_app_token "abc" 100 "app" ["p"] 60 true empty_database = (Ok "hvs.abc", toy_issued AL))
    as Hissue by by vm_compute.
  destruct (token_self_service empty_database (toy_issued AL) "abc" "app" "hvs.abc" ["p"] 100 60
    110 110 110 112 113 true ltac:(lia) ltac:(lia) ltac:(lia) ltac:(lia) ltac:(lia) ltac:(lia)
    ltac:(by vm_compute) Hissue) as [H _].
  exact H.
Defined.
