(* ===== verification/Sessions.v ===== *)
(** Sessions ([server/src/session]): the [SessionStore] interface ([session_store.rs]), its
    SQLite implementation ([impls/sqlite.rs]), one round of the stale-session collector
    ([impls/stale_session_collector.rs]) and the [/sessions] endpoints
    ([server/endpoints/sessions_endpoints.rs]).

    [now] is the clock reading of the operation.  The sums inside SQL text are SQLite's and are
    not wrapped; those in Rust are [i64] sums.  A list of ids or clients is taken to stay within
    SQLite's limit on bound variables. *)
From S2P Require Import Prelude RustStd Models Passwords Totp Database AdminApi.

(** * The interface ([trait SessionStore]) *)
Class SessionStore (S : Type) := {
  ss_upsert_session : Z → string → Realm → AuthenticatedClientScheme → string → M S AuthError ();
  ss_get_session : Z → string → M S AuthError (option SessionData);
  ss_get_sessions_for_clients :
    Z → string → list AuthenticatedClientScheme → M S AuthError (list SessionData);
  ss_delete_sessions : list string → M S AuthError ();
  ss_delete_expired_sessions : Z → M S AuthError ();
  ss_delete_sessions_for_realm : string → M S AuthError ();
}.

(** * SQLite *)
Record SessionRow := mkSessionRow {
  sn_realm_id : string;
  sn_username : string;
  sn_auth_scheme : string;
  sn_cookie_string : string;
  sn_stale_at : Z;
  sn_max_stale_age_seconds : Z;
  sn_max_age_seconds : Z;
  sn_created_at : Z;
}.
(** The [session] table, by its primary key. *)
Abbreviation SessionTable := (gmap string SessionRow).
Abbreviation SessionM := (M SessionTable AuthError).

Definition row_to_session (session_id : string) (row : SessionRow) : SessionData :=
  mkSessionData session_id (sn_realm_id row) (sn_username row) (sn_auth_scheme row)
    (sn_cookie_string row) (sn_max_stale_age_seconds row) (sn_max_age_seconds row)
    (sn_created_at row).
Definition set_stale_at (stale_at : Z) (row : SessionRow) : SessionRow :=
  mkSessionRow (sn_realm_id row) (sn_username row) (sn_auth_scheme row) (sn_cookie_string row)
    stale_at (sn_max_stale_age_seconds row) (sn_max_age_seconds row) (sn_created_at row).

Section sqlite.
Context {SX : Sqlx}.

Definition upsert_session (now : Z) (session_id : string) (realm : Realm)
    (authenticated_client : AuthenticatedClientScheme) (session_value : string) : SessionM () := λ s,
  let stale_at := i64_add now (realm_session_max_stale_age_seconds realm) in
  let auth_scheme_str := auth_scheme_json (acs_auth_scheme authenticated_client) in
  match s !! session_id with
  | Some _ => (Err (Generic ("Failed to insert session: " +:+ sqlx_to_string UniqueViolation)), s)
  | None => (Ok (), <[session_id := mkSessionRow (realm_id realm) (acs_username authenticated_client)
      auth_scheme_str session_value stale_at (realm_session_max_stale_age_seconds realm)
      (realm_session_max_age_seconds realm) now]> s)
  end.

Definition get_session (now : Z) (session_id : string) : SessionM (option SessionData) :=
  let* row := gets (λ s : SessionTable, s !! session_id) in
  match row with
  | Some row =>
      if decide (now > sn_stale_at row ∨ now > i64_add (sn_created_at row) (sn_max_age_seconds row))%Z
      then
        modify (delete session_id) ;;;
        ret None
      else
        let absolute_expiry := i64_add (sn_created_at row) (sn_max_age_seconds row) in
        let time_until_absolute_expiry := i64_sub absolute_expiry now in
        let stale_duration := Z.min (sn_max_stale_age_seconds row) time_until_absolute_expiry in
        let new_stale_at := i64_add now stale_duration in
        modify (alter (set_stale_at new_stale_at) session_id) ;;;
        ret (Some (row_to_session session_id row))
  | None => ret None
  end.

(** [(username = ? AND auth_scheme = ?) OR ...] *)
Definition owned_by (clients : list AuthenticatedClientScheme) (row : SessionRow) : Prop :=
  Exists (λ c, sn_username row = acs_username c ∧
               sn_auth_scheme row = auth_scheme_json (acs_auth_scheme c)) clients.
#[export] Instance owned_by_dec clients row : Decision (owned_by clients row).
Proof. unfold owned_by. apply _. Defined.

(** The query has no [ORDER BY]: the order of the answer is the table's. *)
Definition get_sessions_for_clients (now : Z) (realm_id : string)
    (authenticated_users : list AuthenticatedClientScheme) : SessionM (list SessionData) :=
  match authenticated_users with
  | [] => ret []
  | _ =>
      gets (λ s, (λ r, row_to_session r.1 r.2) <$> filter (λ r,
        sn_realm_id r.2 = realm_id ∧ (sn_stale_at r.2 > now)%Z ∧
        (sn_created_at r.2 + sn_max_age_seconds r.2 > now)%Z ∧
        owned_by authenticated_users r.2) (map_to_list s))
  end.

Definition delete_sessions (session_ids : list string) : SessionM () :=
  match session_ids with
  | [] => ret ()
  | _ => modify (filter (λ kv, kv.1 ∉ session_ids))
  end.

Definition delete_expired_sessions (now : Z) : SessionM () :=
  modify (filter (λ kv, ¬ (sn_stale_at kv.2 ≤ now ∨
                           sn_created_at kv.2 + sn_max_age_seconds kv.2 ≤ now)%Z)).

Definition delete_sessions_for_realm (realm_id : string) : SessionM () :=
  modify (filter (λ kv, sn_realm_id kv.2 ≠ realm_id)).

#[export] Instance sqlite_session_store : SessionStore SessionTable := {|
  ss_upsert_session := upsert_session;
  ss_get_session := get_session;
  ss_get_sessions_for_clients := get_sessions_for_clients;
  ss_delete_sessions := delete_sessions;
  ss_delete_expired_sessions := delete_expired_sessions;
  ss_delete_sessions_for_realm := delete_sessions_for_realm;
|}.
End sqlite.

(** * Endpoints *)
Inductive SessionsAction := LogoutOtherSessions | LogoutAllSessions.
Record UpsertSessionRequest := mkUpsertSessionRequest {
  usr_session_id : string;
  usr_realm : Realm;
  usr_authenticated_client : AuthenticatedClientScheme;
  usr_session_value : string;
}.
Record GetSessionRequest := mkGetSessionRequest {
  gsr_authenticated_clients : list AuthenticatedClientScheme;
  gsr_sessions_action : option SessionsAction;
}.

Section endpoints.
Context {S : Type} {ST : SessionStore S}.
Abbreviation ApiS := (M S AuthError).

Definition api_upsert_session (now : Z) (payload : UpsertSessionRequest) : ApiS (HttpResponse ()) :=
  ss_upsert_session now (usr_session_id payload) (usr_realm payload)
    (usr_authenticated_client payload) (usr_session_value payload) ;;;
  ret NoContent.

Definition get_session_by_id (now : Z) (session_id : string)
    : ApiS (HttpResponse (option SessionData)) :=
  let* session_data := ss_get_session now session_id in
  ret (HttpOk session_data).

(** The logout step: [now2] is the reading of the listing query. *)
Definition sessions_to_logout (action : SessionsAction) (session_id : string)
    (existing_sessions : list SessionData) : list string :=
  match action with
  | LogoutOtherSessions =>
      filter (λ id, id ≠ session_id) (sd_session_id <$> existing_sessions)
  | LogoutAllSessions =>
      elements (list_to_set (session_id :: (sd_session_id <$> existing_sessions)) : gset string)
  end.
Definition api_get_session (now1 now2 : Z) (session_id : string) (payload : GetSessionRequest)
    : ApiS (HttpResponse SessionData) :=
  let* session_data := ss_get_session now1 session_id in
  let* session_data := of_result (ok_or SessionNotFound session_data) in
  match gsr_sessions_action payload with
  | Some action =>
      let* existing_sessions := ss_get_sessions_for_clients now2 (sd_realm_id session_data)
                                  (gsr_authenticated_clients payload) in
      ss_delete_sessions (sessions_to_logout action session_id existing_sessions)
  | None => ret ()
  end ;;;
  ret (HttpOk session_data).

Definition api_get_sessions_for_clients (now : Z) (realm_id : string)
    (clients : list AuthenticatedClientScheme) : ApiS (HttpResponse (list string)) :=
  let* sessions := ss_get_sessions_for_clients now realm_id clients in
  ret (HttpOk (sd_session_id <$> sessions)).

Definition api_delete_sessions (session_ids : list string) : ApiS (HttpResponse ()) :=
  ss_delete_sessions session_ids ;;;
  ret NoContent.

Definition api_delete_expired_sessions (now : Z) : ApiS (HttpResponse ()) :=
  ss_delete_expired_sessions now ;;;
  ret NoContent.

Definition api_delete_sessions_for_realm (realm_id : string) : ApiS (HttpResponse ()) :=
  ss_delete_sessions_for_realm realm_id ;;;
  ret NoContent.

(** One tick of the collector: an error is logged and the loop goes on. *)
Definition collector_tick (now : Z) : ApiS () := λ s,
  let '(_, s') := ss_delete_expired_sessions now s in (Ok (), s').
End endpoints.
