(* ===== verification/SessionSpec.v ===== *)
(** What the session store promises ([Sessions.v]): an abstract store in which a session
    remembers its last access, and the refinement of it by the SQLite tables; sessions that are
    over stay over; bulk logout. *)
From S2P Require Import Prelude RustStd Models Passwords Totp Database Toy AdminApi Sessions.

(** * The abstract store

    A session is alive at [now] while neither its absolute lifetime nor its idle time is
    exceeded; every successful read is an access. *)
Record SpecSession := mkSpecSession { ssn_data : SessionData; ssn_last_access : Z }.
Definition absolute_expiry (d : SessionData) : Z := sd_created_at d + sd_max_age_seconds d.
Definition expiry (x : SpecSession) : Z :=
  Z.min (ssn_last_access x + sd_max_stale_age_seconds (ssn_data x)) (absolute_expiry (ssn_data x)).
Definition alive (now : Z) (x : SpecSession) : Prop := (now ≤ expiry x)%Z.
(** Listing and purging use the strict comparison. *)
Definition strictly_alive (now : Z) (x : SpecSession) : Prop := (now < expiry x)%Z.
#[export] Instance alive_dec now x : Decision (alive now x).
Proof. unfold alive. apply _. Defined.
#[export] Instance strictly_alive_dec now x : Decision (strictly_alive now x).
Proof. unfold strictly_alive. apply _. Defined.

Abbreviation SpecStore := (gmap string SpecSession).

Inductive SessionOp :=
  | OpUpsert (now : Z) (session_id : string) (realm : Realm)
      (client : AuthenticatedClientScheme) (session_value : string)
  | OpGet (now : Z) (session_id : string)
  | OpList (now : Z) (realm_id : string) (clients : list AuthenticatedClientScheme)
  | OpDelete (session_ids : list string)
  | OpDeleteExpired (now : Z)
  | OpDeleteRealm (realm_id : string).
Inductive SessionAnswer :=
  | AnsDone (ok : bool)
  | AnsFound (data : option SessionData)
  | AnsList (sessions : gset SessionData)
  | AnsFailed.

Definition new_session (now : Z) (session_id : string) (realm : Realm)
    (client : AuthenticatedClientScheme) (session_value : string) : SessionData :=
  mkSessionData session_id (realm_id realm) (acs_username client)
    (auth_scheme_json (acs_auth_scheme client)) session_value
    (realm_session_max_stale_age_seconds realm) (realm_session_max_age_seconds realm) now.
Definition is_client (realm_id : string) (clients : list AuthenticatedClientScheme)
    (d : SessionData) : Prop :=
  sd_realm_id d = realm_id ∧
  Exists (λ c, sd_username d = acs_username c ∧
               sd_auth_scheme d = auth_scheme_json (acs_auth_scheme c)) clients.
#[export] Instance is_client_dec r cs d : Decision (is_client r cs d).
Proof. unfold is_client. apply _. Defined.

Definition spec_step (op : SessionOp) (a : SpecStore) : SessionAnswer * SpecStore :=
  match op with
  | OpUpsert now id realm client value =>
      match a !! id with
      | Some _ => (AnsDone false, a)
      | None => (AnsDone true, <[id := mkSpecSession (new_session now id realm client value) now]> a)
      end
  | OpGet now id =>
      match a !! id with
      | Some x => if decide (alive now x) then
                    (AnsFound (Some (ssn_data x)), <[id := mkSpecSession (ssn_data x) now]> a)
                  else (AnsFound None, delete id a)
      | None => (AnsFound None, a)
      end
  | OpList now realm clients =>
      (AnsList (list_to_set (ssn_data <$> filter (λ x, is_client realm clients (ssn_data x) ∧
         strictly_alive now x) (map_to_list a).*2)), a)
  | OpDelete ids => (AnsDone true, filter (λ kv, kv.1 ∉ ids) a)
  | OpDeleteExpired now => (AnsDone true, filter (λ kv, strictly_alive now kv.2) a)
  | OpDeleteRealm realm => (AnsDone true, filter (λ kv, sd_realm_id (ssn_data kv.2) ≠ realm) a)
  end.

(** * The SQLite store, operation by operation *)
Section sqlite.
Context {SX : Sqlx}.

Definition answer {A} (f : A → SessionAnswer) (r : Result A AuthError * SessionTable)
    : SessionAnswer * SessionTable :=
  (match r.1 with Ok a => f a | Err _ => AnsFailed end, r.2).
Definition sqlite_step (op : SessionOp) (s : SessionTable) : SessionAnswer * SessionTable :=
  match op with
  | OpUpsert now id realm client value =>
      let r := ss_upsert_session now id realm client value s in
      (AnsDone (is_ok r.1), r.2)
  | OpGet now id => answer AnsFound (ss_get_session now id s)
  | OpList now realm clients =>
      answer (λ l, AnsList (list_to_set l)) (ss_get_sessions_for_clients now realm clients s)
  | OpDelete ids => answer (λ _, AnsDone true) (ss_delete_sessions ids s)
  | OpDeleteExpired now => answer (λ _, AnsDone true) (ss_delete_expired_sessions now s)
  | OpDeleteRealm realm => answer (λ _, AnsDone true) (ss_delete_sessions_for_realm realm s)
  end.
End sqlite.

Fixpoint run_ops {S} (step : SessionOp → S → SessionAnswer * S) (ops : list SessionOp) (s : S)
    : list SessionAnswer * S :=
  match ops with
  | [] => ([], s)
  | op :: ops' => let '(x, s1) := step op s in let '(xs, s2) := run_ops step ops' s1 in (x :: xs, s2)
  end.

(** Realistic clocks and lifetimes: no sum leaves [i64]. *)
Definition op_in_range (op : SessionOp) : Prop :=
  match op with
  | OpUpsert now _ realm _ _ =>
      (0 ≤ now ∧ 0 ≤ realm_session_max_stale_age_seconds realm ∧
       0 ≤ realm_session_max_age_seconds realm ∧
       now + realm_session_max_stale_age_seconds realm ≤ i64_max ∧
       now + realm_session_max_age_seconds realm ≤ i64_max)%Z
  | OpGet now _ => (0 ≤ now ≤ i64_max)%Z
  | _ => True
  end.

Section refinement.
Context {SX : Sqlx}.

(** A row and an abstract session describe the same session. *)
Record row_matches (id : string) (row : SessionRow) (x : SpecSession) : Prop := {
  rm_data : ssn_data x = row_to_session id row;
  rm_expiry : Z.min (sn_stale_at row) (sn_created_at row + sn_max_age_seconds row) = expiry x;
  rm_range : (0 ≤ sn_created_at row ∧ 0 ≤ sn_max_age_seconds row ∧
              0 ≤ sn_max_stale_age_seconds row ∧
              sn_created_at row + sn_max_age_seconds row ≤ i64_max)%Z;
}.
Definition refines (s : SessionTable) (a : SpecStore) : Prop :=
  ∀ id, match s !! id, a !! id with
        | Some row, Some x => row_matches id row x
        | None, None => True
        | _, _ => False
        end.

Lemma row_matches_alive id row x now :
  row_matches id row x →
  (now > sn_stale_at row ∨ now > i64_add (sn_created_at row) (sn_max_age_seconds row))%Z ↔
  ¬ alive now x.
Proof.
  intros Hm. destruct (rm_range _ _ _ Hm) as (H1 & H2 & _ & H3).
  rewrite i64_add_id by (unfold in_i64, i64_min; lia).
  unfold alive. rewrite <-(rm_expiry _ _ _ Hm). lia.
Qed.
Lemma row_matches_strictly_alive id row x now :
  row_matches id row x →
  (sn_stale_at row ≤ now ∨ sn_created_at row + sn_max_age_seconds row ≤ now)%Z ↔
  ¬ strictly_alive now x.
Proof.
  intros Hm. unfold strictly_alive. rewrite <-(rm_expiry _ _ _ Hm). lia.
Qed.
Lemma row_matches_touch id row x now :
  row_matches id row x → alive now x → (0 ≤ now ≤ i64_max)%Z →
  row_matches id (set_stale_at (i64_add now (Z.min (sn_max_stale_age_seconds row)
      (i64_sub (i64_add (sn_created_at row) (sn_max_age_seconds row)) now))) row)
    (mkSpecSession (ssn_data x) now).
Proof.
  intros Hm Ha Hnow. destruct (rm_range _ _ _ Hm) as (H1 & H2 & H3 & H4).
  unfold alive in Ha. rewrite <-(rm_expiry _ _ _ Hm) in Ha.
  rewrite (i64_add_id (sn_created_at row)) by (unfold in_i64, i64_min; lia).
  rewrite i64_sub_id by (unfold in_i64, i64_min, i64_max in *; lia).
  rewrite i64_add_id by (unfold in_i64, i64_min, i64_max in *; lia).
  split; [by rewrite (rm_data _ _ _ Hm)| |done]. simpl. unfold expiry, absolute_expiry.
  simpl. rewrite (rm_data _ _ _ Hm). simpl. lia.
Qed.

Lemma refines_filter s a (P : string * SessionRow → Prop) (Q : string * SpecSession → Prop)
    `{!∀ x, Decision (P x), !∀ x, Decision (Q x)} :
  refines s a → (∀ id row x, row_matches id row x → P (id, row) ↔ Q (id, x)) →
  refines (filter P s) (filter Q a).
Proof.
  intros Hr HPQ id. specialize (Hr id). rewrite !map_lookup_filter.
  destruct (s !! id) as [row|], (a !! id) as [x|]; try done. simpl.
  pose proof (HPQ _ _ _ Hr) as Hiff. destruct (decide (P (id, row))) as [HP|HP].
  - rewrite !option_guard_True by tauto. done.
  - rewrite !option_guard_False by tauto. done.
Qed.
Lemma refines_insert s a id row x :
  refines s a → row_matches id row x → refines (<[id := row]> s) (<[id := x]> a).
Proof.
  intros Hr Hm i. destruct (decide (id = i)) as [<-|Hne]; [by rewrite !lookup_insert_eq|].
  rewrite !lookup_insert_ne by done. apply Hr.
Qed.
Lemma refines_delete s a id : refines s a → refines (delete id s) (delete id a).
Proof.
  intros Hr i. destruct (decide (id = i)) as [<-|Hne]; [by rewrite !lookup_delete_eq|].
  rewrite !lookup_delete_ne by done. apply Hr.
Qed.
Lemma alter_some {V} (f : V → V) (m : gmap string V) k v :
  m !! k = Some v → alter f k m = <[k := f v]> m.
Proof.
  intros Hk. apply map_eq. intros i. destruct (decide (k = i)) as [<-|Hne].
  - by rewrite lookup_alter_eq, lookup_insert_eq, Hk.
  - by rewrite lookup_alter_ne, lookup_insert_ne.
Qed.

Lemma refines_lookup s a id : refines s a →
  (s !! id = None ∧ a !! id = None) ∨
  ∃ row x, s !! id = Some row ∧ a !! id = Some x ∧ row_matches id row x.
Proof.
  intros Hr. specialize (Hr id). destruct (s !! id) as [row|], (a !! id) as [x|]; try done; [right|left]; eauto.
Qed.
Lemma elem_of_listing now realm clients s l d :
  get_sessions_for_clients now realm clients s = (Ok l, s) →
  d ∈ l ↔ ∃ id row, s !! id = Some row ∧ d = row_to_session id row ∧ is_client realm clients d ∧
    (sn_stale_at row > now)%Z ∧ (sn_created_at row + sn_max_age_seconds row > now)%Z.
Proof.
  unfold get_sessions_for_clients. intros Hl.
  assert (d ∈ l ↔ d ∈ (λ r, row_to_session r.1 r.2) <$> filter (λ r,
        sn_realm_id r.2 = realm ∧ (sn_stale_at r.2 > now)%Z ∧
        (sn_created_at r.2 + sn_max_age_seconds r.2 > now)%Z ∧
        owned_by clients r.2) (map_to_list s)) as ->.
  { destruct clients as [|c cs]; injection Hl as <-; [|done].
    split; [by intros ?%elem_of_nil|].
    intros (r & _ & [(_ & _ & _ & Hno) _]%list_elem_of_filter)%list_elem_of_fmap.
    by apply Exists_nil in Hno. }
  rewrite list_elem_of_fmap. setoid_rewrite list_elem_of_filter. split.
  - intros ([id row] & -> & (H1 & H2 & H3 & H4) & Hin%elem_of_map_to_list). exists id, row. done.
  - intros (id & row & Hrow & -> & [H1 H4] & H2 & H3). exists (id, row).
    rewrite elem_of_map_to_list. done.
Qed.
Lemma get_sessions_for_clients_ok now realm clients s :
  ∃ l, get_sessions_for_clients now realm clients s = (Ok l, s).
Proof. destruct clients; by eexists. Qed.

Lemma sqlite_step_refines op s a :
  op_in_range op → refines s a →
  (sqlite_step op s).1 = (spec_step op a).1 ∧ refines (sqlite_step op s).2 (spec_step op a).2.
Proof.
  intros Hop Hr. destruct op as [now id realm client value|now id|now realm clients|ids|now|realm]; simpl in *.
  - unfold upsert_session.
    destruct (refines_lookup s a id Hr) as [[-> ->]|(row & x & -> & -> & _)]; [|done].
    split; [done|]. apply refines_insert; [done|]. split; simpl; [done| |lia].
    rewrite i64_add_id by (unfold in_i64, i64_min, i64_max in *; lia). done.
  - unfold get_session, answer, bind, gets, modify, ret.
    destruct (refines_lookup s a id Hr) as [[-> ->]|(row & x & Hrow & -> & Hm)]; [done|].
    rewrite Hrow. destruct (decide (alive now x)) as [Ha|Ha].
    + rewrite decide_False by (rewrite row_matches_alive by done; tauto). simpl.
      rewrite (rm_data _ _ _ Hm). split; [done|]. rewrite (alter_some _ _ _ row) by done.
      apply refines_insert; [done|]. by rewrite <-(rm_data _ _ _ Hm); apply row_matches_touch.
    + rewrite decide_True by (by rewrite row_matches_alive by done). simpl.
      split; [done|]. by apply refines_delete.
  - destruct (get_sessions_for_clients_ok now realm clients s) as [l Hl].
    unfold answer. rewrite Hl. simpl. split; [|done]. f_equal. apply set_eq. intros d.
    rewrite !elem_of_list_to_set, (elem_of_listing _ _ _ _ _ _ Hl), list_elem_of_fmap.
    setoid_rewrite list_elem_of_filter. setoid_rewrite list_elem_of_fmap. split.
    + intros (id & row & Hrow & -> & Hc & H1 & H2).
      destruct (refines_lookup s a id Hr) as [[H _]|(row' & x & H & Hx & Hm)]; [congruence|].
      assert (row' = row) as -> by congruence. exists x. rewrite (rm_data _ _ _ Hm).
      split_and!; [done|done| |].
      * unfold strictly_alive. rewrite <-(rm_expiry _ _ _ Hm). lia.
      * exists (id, x). by rewrite elem_of_map_to_list.
    + intros (x & -> & [Hc Hs] & [id x'] & -> & Hx%elem_of_map_to_list). simpl in *.
      destruct (refines_lookup s a id Hr) as [[_ H]|(row & y & Hrow & H & Hm)]; [congruence|].
      assert (y = x') as -> by congruence. exists id, row. rewrite (rm_data _ _ _ Hm) in Hc |- *.
      unfold strictly_alive in Hs. rewrite <-(rm_expiry _ _ _ Hm) in Hs. split_and!; try done; lia.
  - unfold delete_sessions, answer. destruct ids as [|i ids]; simpl; (split; [done|]).
    + rewrite map_filter_id by (intros ???; apply not_elem_of_nil). done.
    + apply refines_filter; [done|]. done.
  - unfold delete_expired_sessions, answer. simpl. split; [done|]. apply refines_filter; [done|].
    intros id row x Hm. simpl. rewrite (row_matches_strictly_alive id row x) by done.
    destruct (decide (strictly_alive now x)); tauto.
  - unfold delete_sessions_for_realm, answer. simpl. split; [done|]. apply refines_filter; [done|].
    intros id row x Hm. simpl. by rewrite (rm_data _ _ _ Hm).
Qed.
Lemma sqlite_run_spec ops :
  Forall op_in_range ops → (run_ops sqlite_step ops ∅).1 = (run_ops spec_step ops ∅).1.
Proof.
  assert (refines (∅ : SessionTable) (∅ : SpecStore)) as Hr by (intros id; by rewrite !lookup_empty).
  revert Hr. generalize (∅ : SessionTable), (∅ : SpecStore).
  induction ops as [|op ops IH]; intros s a Hr Hops; [done|].
  apply Forall_cons in Hops as [Hop Hops].
  destruct (sqlite_step_refines op s a Hop Hr) as [Heq Hr']. cbn [run_ops].
  destruct (sqlite_step op s) as [x s1], (spec_step op a) as [y a1]. simpl in *. subst y.
  specialize (IH s1 a1 Hr' Hops).
  destruct (run_ops sqlite_step ops s1), (run_ops spec_step ops a1). simpl in *. by rewrite IH.
Qed.
End refinement.

(** C6: the SQLite session store implements the abstract store, in which a session is over when
    its absolute lifetime or its idle time is exceeded: any sequence of operations with
    realistic clocks and lifetimes gets the same answers from both, starting empty. *)
Theorem sqlite_sessions_refine_spec `{SX : Sqlx} (ops : list SessionOp) :
  Forall op_in_range ops →
  (run_ops sqlite_step ops ∅).1 = (run_ops spec_step ops ∅).1.
Proof. apply sqlite_run_spec. Qed.
Definition toy_realm : Realm := mkRealm "r" RealmAuthParams_default 3600 60 0.
Definition toy_client : AuthenticatedClientScheme := mkClient "alice" UsernamePassword.
Lemma sqlite_sessions_refine_spec_witness :
  let ops := [OpUpsert 10 "a" toy_realm toy_client "c"; OpGet 70 "a"; OpGet 131 "a"; OpGet 131 "a"] in
  Forall op_in_range ops ∧
  (run_ops (sqlite_step (SX := toy_sqlx)) ops ∅).1 =
    [AnsDone true; AnsFound (Some (new_session 10 "a" toy_realm toy_client "c")); AnsFound None;
     AnsFound None].
Proof.
  intros ops. assert (Forall op_in_range ops) as Hops by (repeat constructor; by vm_compute).
  split; [exact Hops|]. rewrite (sqlite_sessions_refine_spec ops Hops). by vm_compute.
Defined.

(** * Sessions that are over *)

(** The session is gone, or its idle time or absolute lifetime is exceeded at [t]. *)
Definition over (t : Z) (id : string) (s : SessionTable) : Prop :=
  ∀ row, s !! id = Some row →
    (sn_stale_at row < t ∨ i64_add (sn_created_at row) (sn_max_age_seconds row) < t)%Z.
(** Operations at [t] or later that do not create this very session. *)
Definition op_after (t : Z) (id : string) (op : SessionOp) : Prop :=
  match op with
  | OpUpsert _ id' _ _ _ => id' ≠ id
  | OpGet now _ => (t ≤ now)%Z
  | _ => True
  end.

Section over.
Context {SX : Sqlx}.

Lemma over_subseteq t id s s' : s' ⊆ s → over t id s → over t id s'.
Proof. intros Hsub Ho row Hrow. apply Ho. by eapply lookup_weaken. Qed.
Lemma delete_sessions_run ids s : delete_sessions ids s = (Ok (), filter (λ kv, kv.1 ∉ ids) s).
Proof.
  destruct ids as [|i ids]; [|done]. unfold delete_sessions, ret.
  by rewrite map_filter_id by (intros ???; apply not_elem_of_nil).
Qed.
Lemma over_step t id op s :
  over t id s → op_after t id op → over t id (sqlite_step op s).2.
Proof.
  intros Ho Hop. destruct op as [now id' realm client value|now id'|now realm clients|ids|now|realm];
    simpl in *.
  - unfold upsert_session. destruct (s !! id') as [r|]; [done|]. simpl. intros row.
    rewrite lookup_insert_ne by done. apply Ho.
  - unfold get_session, bind, gets, modify, ret.
    destruct (s !! id') as [r|] eqn:Hr; [|done]. case_decide as Hd; simpl.
    + eapply over_subseteq, Ho. apply delete_subseteq.
    + destruct (decide (id' = id)) as [->|Hne].
      * exfalso. apply Hd. destruct (Ho _ Hr); lia.
      * intros row. rewrite lookup_alter_ne by done. apply Ho.
  - destruct (get_sessions_for_clients_ok now realm clients s) as [l Hl]. by rewrite Hl.
  - rewrite delete_sessions_run. simpl. eapply over_subseteq, Ho. apply map_filter_subseteq.
  - eapply over_subseteq, Ho. apply map_filter_subseteq.
  - eapply over_subseteq, Ho. apply map_filter_subseteq.
Qed.
Lemma over_get t t' id s : over t id s → (t ≤ t')%Z → (get_session t' id s).1 = Ok None.
Proof.
  intros Ho Ht. unfold get_session, bind, gets, modify, ret.
  destruct (s !! id) as [r|] eqn:Hr; [|done]. rewrite decide_True; [done|].
  destruct (Ho _ Hr); lia.
Qed.
Lemma run_ops_over t id ops s :
  over t id s → Forall (op_after t id) ops → over t id (run_ops sqlite_step ops s).2.
Proof.
  intros Ho Hops. revert s Ho. induction Hops as [|op ops Hop _ IH]; intros s Ho; [done|].
  cbn [run_ops]. pose proof (over_step t id op s Ho Hop) as Ho1.
  destruct (sqlite_step op s) as [x s1]. specialize (IH s1 Ho1).
  by destruct (run_ops sqlite_step ops s1).
Qed.
End over.

(** C7: a session that was deleted, or whose idle time or absolute lifetime is exceeded, is over
    for good: whatever is read, created, listed, purged or deleted later, a read of it finds
    nothing unless that very session was created anew. *)
Theorem session_over_stays_over `{SX : Sqlx} (t t' : Z) (id : string) (s : SessionTable)
    (ops : list SessionOp) :
  over t id s → Forall (op_after t id) ops → (t ≤ t')%Z →
  (get_session t' id (run_ops sqlite_step ops s).2).1 = Ok None.
Proof. intros Ho Hops Ht. eapply over_get; [|done]. by apply run_ops_over. Qed.
Lemma session_over_stays_over_witness :
  let SX := toy_sqlx in
  let s := (upsert_session 10 "a" toy_realm toy_client "c" ∅).2 in
  over 71 "a" s ∧ (get_session 200 "a" (run_ops sqlite_step [OpGet 80 "b"] s).2).1 = Ok None.
Proof.
  intros SX s. assert (over 71 "a" s) as Ho.
  { intros row Hrow. vm_compute in Hrow. injection Hrow as <-. left. by vm_compute. }
  split; [exact Ho|]. apply (session_over_stays_over 71 200 "a" s [OpGet 80 "b"] Ho); [|lia].
  repeat constructor; simpl; lia.
Defined.

(** * Bulk logout *)
Section logout.
Context {SX : Sqlx}.

Lemma get_session_found t id s d s1 :
  get_session t id s = (Ok (Some d), s1) →
  ∃ row stale, s !! id = Some row ∧ d = row_to_session id row ∧
    s1 = <[id := set_stale_at stale row]> s.
Proof.
  unfold get_session, bind, gets, modify, ret. destruct (s !! id) as [row|] eqn:Hrow; [|done].
  case_decide; [done|]. intros [= <- <-]. exists row. eexists. split; [done|]. split; [done|].
  by rewrite (alter_some _ _ _ row).
Qed.
Lemma sessions_to_logout_elem action id l x :
  x ∈ sessions_to_logout action id l ↔
  match action with
  | LogoutOtherSessions => x ≠ id ∧ x ∈ sd_session_id <$> l
  | LogoutAllSessions => x = id ∨ x ∈ sd_session_id <$> l
  end.
Proof.
  destruct action; simpl.
  - by rewrite list_elem_of_filter.
  - by rewrite elem_of_elements, elem_of_union, elem_of_singleton, elem_of_list_to_set.
Qed.
End logout.

(** Bulk logout does what it says.  Once the request is answered, listing the named clients
    of the session's realm shows no session, except the session itself when only the others
    were to be logged out; the session itself is kept in that case and gone otherwise; and the
    sessions of other clients and other realms are as they were. *)
Theorem bulk_logout `{SX : Sqlx} (t1 t2 t : Z) (id : string) (payload : GetSessionRequest)
    (action : SessionsAction) (s s' : SessionTable) (resp : HttpResponse SessionData)
    (l : list SessionData) :
  gsr_sessions_action payload = Some action →
  api_get_session t1 t2 id payload s = (Ok resp, s') → (t2 ≤ t)%Z →
  get_sessions_for_clients t (sd_realm_id (http_body resp)) (gsr_authenticated_clients payload) s'
    = (Ok l, s') →
  (∀ d, d ∈ l → action = LogoutOtherSessions ∧ sd_session_id d = id) ∧
  (is_Some (s' !! id) ↔ action = LogoutOtherSessions) ∧
  (∀ i row, i ≠ id → s !! i = Some row →
     ¬ is_client (sd_realm_id (http_body resp)) (gsr_authenticated_clients payload)
         (row_to_session i row) → s' !! i = Some row).
Proof.
  intros Hact. unfold api_get_session, bind. simpl.
  destruct (get_session t1 id s) as [[[d0|]|e] s1] eqn:Hget; try done. simpl. rewrite Hact.
  apply get_session_found in Hget as (row0 & stale & Hrow0 & -> & ->).
  set (s1 := <[id := _]> s). set (realm := sd_realm_id _). set (clients := gsr_authenticated_clients payload).
  destruct (get_sessions_for_clients_ok t2 realm clients s1) as [l2 Hl2]. rewrite Hl2.
  rewrite delete_sessions_run. intros [= <- <-] Ht Hl. simpl in Hl.
  set (ids := sessions_to_logout action id l2) in *. split_and!.
  - intros d Hd. rewrite (elem_of_listing _ _ _ _ _ _ Hl) in Hd.
    destruct Hd as (i & row & [Hrow Hi]%map_lookup_filter_Some & -> & Hc & H1 & H2). simpl in *.
    assert (Hin : i ∈ sd_session_id <$> l2).
    { apply list_elem_of_fmap. exists (row_to_session i row). split; [done|].
      rewrite (elem_of_listing _ _ _ _ _ _ Hl2). exists i, row. split_and!; done || lia. }
    unfold ids in Hi. rewrite sessions_to_logout_elem in Hi. destruct action; [|tauto].
    destruct (decide (i = id)); tauto.
  - assert (is_Some (filter (λ kv : string * SessionRow, kv.1 ∉ ids) s1 !! id) ↔ id ∉ ids) as ->.
    { rewrite map_lookup_filter. unfold s1. rewrite lookup_insert_eq. simpl.
      destruct (decide (id ∉ ids)).
      - rewrite option_guard_True by done. naive_solver.
      - rewrite option_guard_False by done. split; [by intros []|done]. }
    unfold ids. rewrite sessions_to_logout_elem. destruct action; naive_solver.
  - intros i row Hi Hrow Hc. apply map_lookup_filter_Some. unfold s1.
    rewrite lookup_insert_ne by done. split; [done|]. simpl. unfold ids.
    rewrite sessions_to_logout_elem.
    assert (Hno : i ∉ sd_session_id <$> l2).
    { intros (d & Hid & Hd)%list_elem_of_fmap. rewrite (elem_of_listing _ _ _ _ _ _ Hl2) in Hd.
      destruct Hd as (i' & row' & Hrow' & -> & Hc' & _). simpl in Hid. subst i'.
      unfold s1 in Hrow'. rewrite lookup_insert_ne in Hrow' by done.
      assert (row' = row) as -> by congruence. by apply Hc. }
    destruct action; tauto.
Qed.
Lemma bulk_logout_witness :
  let SX := toy_sqlx in
  let s := (upsert_session 12 "b" toy_realm toy_client "c2"
             (upsert_session 10 "a" toy_realm toy_client "c1" ∅).2).2 in
  let payload := mkGetSessionRequest [toy_client] (Some LogoutOtherSessions) in
  ∃ resp s', api_get_session 20 20 "a" payload s = (Ok resp, s') ∧
    (is_Some (s' !! "a") ↔ LogoutOtherSessions = LogoutOtherSessions).
Proof.
  intros SX s payload. destruct (api_get_session 20 20 "a" payload s) as [[resp|e] s'] eqn:Hrun;
    [|vm_compute in Hrun; discriminate].
  exists resp, s'. split; [done|].
  destruct (get_sessions_for_clients_ok 20 (sd_realm_id (http_body resp)) [toy_client] s') as [l Hl].
  destruct (bulk_logout 20 20 20 "a" payload LogoutOtherSessions s s' resp l eq_refl Hrun
    ltac:(lia) Hl) as (_ & H & _).
  exact H.
Defined.
