(* ===== verification/Jwks.v ===== *)
(** The JWKS cache ([server/src/middleware/jwt/jwks.rs]): per realm, the key sets downloaded
    from its URIs, refreshed on demand and dropped by a periodic clean-up.

    Times are nanoseconds since the epoch ([DateTime<Utc>]).  A download is the parameter
    [http_get]: the outcome of the request for a URI, JSON parsing included.  [RwLock] guards
    are taken and released around each access to the map, except in [remove_stale_entries],
    whose read guard lives to the end of the function: there the lock is part of the state. *)
From S2P Require Import Prelude RustStd Models Jwt.

Definition seconds (z : Z) : Z := z * 1000000000.
Definition SMALLEST_REFRESH_INTERVAL : Z := 60.
Definition JWKS_CACHE_RETENTION_INTERVAL : Z := 24 * 3600.

Abbreviation JwkSet := (list Jwk).

Section data.
Context {JL : JwtLibs}.

Record RealmJWKS := mkRealmJWKS {
  rj_realm_id : string;
  rj_uris : list string;
  rj_jwks : gmap string JwkSet;
  rj_last_update : option Z;
  rj_smallest_refresh_interval : option Z;
}.
End data.
(** [realm_jwks: RwLock<HashMap<String, RealmJWKS>>] *)
Abbreviation JwksManager := (gmap string RealmJWKS).

Section jwks.
Context {JL : JwtLibs}.

Definition JwksM (A : Type) : Type := M JwksManager AuthError A.

(** [jwks.keys.iter().find(|jwk| jwk.common.key_id == Some(kid))] *)
Fixpoint find_key (kid : string) (keys : JwkSet) : option Jwk :=
  match keys with
  | [] => None
  | jwk :: keys' => if decide (jwk_key_id jwk = Some kid) then Some jwk else find_key kid keys'
  end.
(** [RealmJWKS::find_jwk]; the sets are visited in the order of the map. *)
Fixpoint find_in_sets (kid : string) (sets : list JwkSet) : option Jwk :=
  match sets with
  | [] => None
  | keys :: sets' => match find_key kid keys with
                     | Some jwk => Some jwk
                     | None => find_in_sets kid sets'
                     end
  end.
Definition find_jwk_in_realm (realm : RealmJWKS) (kid : string) : option Jwk :=
  find_in_sets kid (map_to_list (rj_jwks realm)).*2.

Definition is_refresh_allowed (now : Z) (realm : RealmJWKS) : bool :=
  match rj_last_update realm with
  | None => true
  | Some lu => bool_decide
      (lu + seconds (default SMALLEST_REFRESH_INTERVAL (rj_smallest_refresh_interval realm)) < now)%Z
  end.

(** ** Downloads *)
Definition parse_jwks (http_get : string → Result Value AuthError) (jwks_uri : string)
    : Result (string * JwkSet) AuthError :=
  let? json_value := http_get jwks_uri in
  let? keys := ok_or (JWKS ("JSON key 'keys' not found in JWKS at " +:+ jwks_uri))
                 (json_get "keys" json_value) in
  let jwks := match keys with VArray array => omap jwk_of_json array | _ => [] end in
  match jwks with
  | [] => Err (JWKS ("No valid JWK found in JWKS at `" +:+ jwks_uri +:+ "`"))
  | _ => Ok (jwks_uri, jwks)
  end.

(** Failed downloads are dropped; of equal URIs the last one counts. *)
Definition fetch_all (http_get : string → Result Value AuthError) (uris : list string)
    : gmap string JwkSet :=
  foldl (λ m uri, match parse_jwks http_get uri with
                  | Ok (uri, jwks) => <[uri := jwks]> m
                  | Err _ => m
                  end) ∅ uris.

(** ** The manager *)
Definition set_jwks (now : Z) (realm_id : string) (new_jwks : gmap string JwkSet) : JwksM () := λ m,
  match m !! realm_id with
  | None => (Err (JWKS ("Realm `" +:+ realm_id +:+ "`, is not configured for JWKS refresh")), m)
  | Some realm_jwks => (Ok (), <[realm_id := mkRealmJWKS (rj_realm_id realm_jwks)
      (rj_uris realm_jwks) new_jwks (Some now) (rj_smallest_refresh_interval realm_jwks)]> m)
  end.

(** [JwksManager::find_jwk]: [now1] decides whether to refresh, [now2] stamps the refresh.  The
    second search is on the realm that was cloned before the refresh. *)
Definition find_jwk (now1 now2 : Z) (http_get : string → Result Value AuthError)
    (realm_id kid : string) : JwksM (option Jwk) :=
  let* realm := gets (λ m : JwksManager, m !! realm_id) in
  let* realm := of_result (ok_or (JWKS ("Realm `" +:+ realm_id +:+ "` not found")) realm) in
  match find_jwk_in_realm realm kid with
  | Some jwk => ret (Some jwk)
  | None =>
      if is_refresh_allowed now1 realm then
        let refreshed_jwks := fetch_all http_get (rj_uris realm) in
        set_jwks now2 realm_id refreshed_jwks ;;;
        ret (find_jwk_in_realm realm kid)
      else ret None
  end.

Definition upsert_realm (now : Z) (http_get : string → Result Value AuthError) (realm_id : string)
    (uris : list string) (smallest_refresh_interval : option Z) : JwksM () :=
  let jwks := fetch_all http_get uris in
  modify (<[realm_id := mkRealmJWKS realm_id uris jwks (Some now) smallest_refresh_interval]>).

Definition has_realm (realm_id : string) : JwksM bool :=
  gets (λ m : JwksManager, bool_decide (is_Some (m !! realm_id))).

(** ** Clean-up

    The lock as the thread at work has it: the read guards it holds, and the map behind.  [None] is
    a call that does not return: [RwLock::write] by a thread that holds the lock is documented to
    panic or to block. *)
Record RwLock := mkRwLock { rw_guards : nat; rw_map : JwksManager }.
Definition LockedM (A : Type) : Type := RwLock → option (A * RwLock).
Definition locked_bind {A B} (m : LockedM A) (k : A → LockedM B) : LockedM B := λ l,
  match m l with Some (a, l') => k a l' | None => None end.
Definition locked_ret {A} (a : A) : LockedM A := λ l, Some (a, l).

Definition rw_read : LockedM JwksManager := λ l,
  Some (rw_map l, mkRwLock (S (rw_guards l)) (rw_map l)).
Definition drop_read_guard : LockedM () := λ l,
  Some ((), mkRwLock (pred (rw_guards l)) (rw_map l)).
(** [write()], an access to the map, and the end of the guard. *)
Definition rw_write {A} (access : JwksM A) : LockedM (Result A AuthError) := λ l,
  match rw_guards l with
  | 0 => let '(r, m) := access (rw_map l) in Some (r, mkRwLock 0 m)
  | S _ => None
  end.

Definition remove_realm (realm_id : string) : LockedM (Result () AuthError) :=
  rw_write (λ m : JwksManager,
    match m !! realm_id with
    | Some _ => (Ok (), delete realm_id m)
    | None => (Err (JWKS ("Realm `" +:+ realm_id +:+ "` not found")), m)
    end).

Definition is_stale (now : Z) (realm : RealmJWKS) : bool :=
  match rj_last_update realm with
  | Some last_update => bool_decide (last_update + seconds JWKS_CACHE_RETENTION_INTERVAL < now)%Z
  | None => false
  end.
(** The loop; what [remove_realm] answers is ignored. *)
Fixpoint remove_stale (now : Z) (realms : list RealmJWKS) : LockedM () :=
  match realms with
  | [] => locked_ret ()
  | realm :: realms' =>
      if is_stale now realm then
        locked_bind (remove_realm (rj_realm_id realm)) (λ _, remove_stale now realms')
      else remove_stale now realms'
  end.
(** [values().cloned()] borrows from the guard, which is dropped at the end of the function. *)
Definition remove_stale_entries (now : Z) : LockedM (Result () AuthError) :=
  locked_bind rw_read (λ realm_jwks,
  locked_bind (remove_stale now (map_to_list realm_jwks).*2) (λ _,
  locked_bind drop_read_guard (λ _,
  locked_ret (Ok ())))).
End jwks.
