(* ===== verification/SessionToken.v ===== *)
(** Session tokens and cookies ([server/src/session/{jwt,cookies}.rs]).

    [jsonwebtoken::encode] and [decode], the [cookie] crate's text format and SHA-256 are
    parameters; [TokenLaws] says what the server relies on. *)
From S2P Require Import Prelude RustStd Models ClaimPolicy Jwt.

Record SessionCookie := mkCookie {
  ck_name : string;
  ck_value : string;
  ck_secure : bool;
  ck_http_only : bool;
  ck_same_site_strict : bool;
  ck_path : option string;
  ck_max_age : option Z;
}.

Class TokenLibs := {
  #[global] token_jwt :: JwtLibs;
  EncodingKey : Type;
  encode_claims : JwtAlgorithm → EncodingKey → ClientClaims → Result string string;
  encode_certificate : JwtAlgorithm → EncodingKey → CertificateClaims → Result string string;
  (** [decode::<ClientClaims>] at the given Unix time *)
  decode_claims : Z → string → DecodingKey → Validation → Result ClientClaims string;
  cookie_to_string : SessionCookie → string;
  (** [Cookie::from_str], of which the value is used *)
  cookie_from_str : string → Result string string;
  (** [hex::encode(Sha256::digest(bytes))] *)
  sha256_hex : string → string;
}.

Section tokens.
Context {TL : TokenLibs}.

Record JwtTokenConfig := mkJwtTokenConfig {
  jtc_algorithm : JwtAlgorithm;
  jtc_encoding_key : EncodingKey;
  jtc_decoding_key : DecodingKey;
}.

(** The claims of a session; [now] is the clock in seconds. *)
Definition session_claims (now : Z) (subject : string) (auth_scheme : AuthScheme)
    (realm_id : string) (roles : list string) (extra_claims : gmap string Value)
    (expiration_seconds : Z) : ClientClaims :=
  mkClientClaims
    (mkRegisteredClaims (rc_iss RegisteredClaims_default) (Some subject)
       (rc_aud RegisteredClaims_default) (Some (i64_add now expiration_seconds))
       (rc_nbf RegisteredClaims_default) (Some now) (rc_jti RegisteredClaims_default))
    (mkAuthorizationClaims (match roles with [] => None | _ => Some roles end))
    (mkAuthPrivateClaims (Some auth_scheme) (Some realm_id))
    extra_claims.
Definition issue_token (now : Z) (subject : string) (auth_scheme : AuthScheme) (realm_id : string)
    (roles : list string) (extra_claims : gmap string Value) (jwt_config : JwtTokenConfig)
    (expiration_seconds : Z) : Result string AuthError :=
  map_err (λ e, Unexpected ("Failed to issue token: " +:+ e))
    (encode_claims (jtc_algorithm jwt_config) (jtc_encoding_key jwt_config)
       (session_claims now subject auth_scheme realm_id roles extra_claims expiration_seconds)).

(** [session::validate_token] *)
Definition session_validation (algorithm : JwtAlgorithm) : Validation :=
  let validation := Validation_new algorithm in
  mkValidation algorithm 1 true (val_validate_nbf validation) (val_validate_aud validation)
    (val_required_spec_claims validation) (val_aud validation) (val_iss validation).
Definition validate_session_token (now : Z) (token : string) (algorithm : JwtAlgorithm)
    (decoding_key : DecodingKey) : Result ClientClaims AuthError :=
  map_err (λ e, Unexpected ("Failed to validate token: " +:+ e))
    (decode_claims now token decoding_key (session_validation algorithm)).

Definition COOKIE_NAME : string := "_ea_".
Definition session_id_from_cookie_value (cookie_value : string) : Result string AuthError :=
  Ok (sha256_hex cookie_value).
(** The jar holds just this cookie, so its delta is the cookie. *)
Definition build_cookie (value : string) (max_age_seconds : Z) (is_https : bool)
    : Result SessionCookie AuthError :=
  Ok (mkCookie COOKIE_NAME value is_https true true (Some "/") (Some max_age_seconds)).
End tokens.

(** The claims survive the round trip through the token until a second after they expire, if no
    extra claim shadows a typed one; the token survives the round trip through the cookie
    text. *)
Class TokenLaws `{TL : TokenLibs} (config : JwtTokenConfig) : Prop := {
  token_roundtrip : ∀ now claims token exp,
    encode_claims (jtc_algorithm config) (jtc_encoding_key config) claims = Ok token →
    (∀ k, k ∈ dom (cc_extra claims) → k ∉ reserved_claim_names) →
    rc_exp (cc_registered claims) = Some exp → rc_nbf (cc_registered claims) = None →
    rc_aud (cc_registered claims) = None → (0 ≤ exp)%Z → (now ≤ exp + 1)%Z →
    decode_claims now token (jtc_decoding_key config) (session_validation (jtc_algorithm config))
      = Ok claims;
  token_expired : ∀ now claims token exp,
    encode_claims (jtc_algorithm config) (jtc_encoding_key config) claims = Ok token →
    rc_exp (cc_registered claims) = Some exp → (exp + 1 < now)%Z →
    is_ok (decode_claims now token (jtc_decoding_key config)
             (session_validation (jtc_algorithm config))) = false;
  cookie_roundtrip : ∀ claims token max_age is_https cookie,
    encode_claims (jtc_algorithm config) (jtc_encoding_key config) claims = Ok token →
    build_cookie token max_age is_https = Ok cookie →
    cookie_from_str (cookie_to_string cookie) = Ok token;
}.
