(* ===== verification/Middleware.v ===== *)
(** The request pipeline ([server/src/middleware]): realm selection ([extract_realm.rs],
    [inject_admin_realm.rs]), HTTP Basic ([username_password.rs]) and bearer tokens
    ([jwt/{jwt_middleware,client_claim}.rs]), the fallback ([ensure_auth.rs]), session cookies
    ([cookie_auth.rs]), administrators ([admin_auth.rs]) and the login rate limit
    ([login_rate_limit.rs]).

    A service maps the request's extensions to a computation on the server state; a middleware
    wraps a service.  The credential store, the JWKS cache and the session store are three
    parts of the state, the last one behind the [SessionStore] interface. *)
From S2P Require Import Prelude RustStd Models Jwt Passwords Totp Database AdminApi AppAuth Sessions SessionToken Jwks.

(** * Requests *)
Record Request := mkRequest {
  rq_query_string : string;
  (** The [Authorization] header, when it is visible ASCII text *)
  rq_authorization : option string;
  (** The value of the session cookie *)
  rq_cookie : option string;
}.
Record Extensions := mkExtensions {
  ext_realm : option Realm;
  ext_client : option AuthenticatedClientScheme;
  ext_claims : option ClientClaims;
  ext_admin : option Admin;
  ext_app_token : option AppTokenClaims;
}.
Definition no_extensions : Extensions := mkExtensions None None None None None.
Definition insert_realm r e :=
  mkExtensions (Some r) (ext_client e) (ext_claims e) (ext_admin e) (ext_app_token e).
Definition insert_client c e :=
  mkExtensions (ext_realm e) (Some c) (ext_claims e) (ext_admin e) (ext_app_token e).
Definition insert_claims c e :=
  mkExtensions (ext_realm e) (ext_client e) (Some c) (ext_admin e) (ext_app_token e).
Definition insert_admin a e :=
  mkExtensions (ext_realm e) (ext_client e) (ext_claims e) (Some a) (ext_app_token e).
Definition insert_app_token t e :=
  mkExtensions (ext_realm e) (ext_client e) (ext_claims e) (ext_admin e) (Some t).

(** An error becomes a response: an [AuthError], or an actix error with a status and a text. *)
Inductive HttpError :=
  | AuthErr (e : AuthError)
  | StatusErr (status : Z) (text : string).
(** The body of the service, or a plain text of a middleware. *)
Inductive Reply (B : Type) :=
  | Answer (body : B)
  | Text (text : string).
Arguments Answer {B} body.
Arguments Text {B} text.

(** * Parsing *)

(** The value of the first [realm=...] parameter, as it is in the query. *)
Fixpoint find_realm_param (params : list string) : option string :=
  match params with
  | [] => None
  | param :: params' =>
      match split_once "=" param with
      | Some (key, value) => if decide (key = "realm") then Some value else find_realm_param params'
      | None => find_realm_param params'
      end
  end.
Definition realm_param (query_string : string) : option string :=
  find_realm_param (str_split "&" query_string).

Class Base64 := { base64_decode : string → option string }.

(** [extract_basic_auth_credentials] *)
Definition extract_basic_auth_credentials `{Base64} (authorization : option string)
    : option (string * string) :=
  auth_str ← authorization;
  if negb (starts_with "basic " (str_map ascii_lower auth_str)) then None
  else
    let encoded_credentials := trim_ascii (str_drop 6 auth_str) in
    decoded ← base64_decode encoded_credentials;
    credentials_str ← from_utf8 decoded;
    credentials ← split_once ":" credentials_str;
    if decide (credentials.1 = "") then None else Some credentials.

Section middleware.
Context {S : Type} {ST : SessionStore S} {L : DbLibs} {TL : TokenLibs} {B64 : Base64}.

(** * The server state *)
Record Server := mkServer {
  srv_db : Database;
  srv_jwks : JwksManager;
  srv_sessions : S;
}.
Definition SrvM (E A : Type) : Type := M Server E A.

Definition on_db {E A} (m : M Database E A) : SrvM E A := λ s,
  let '(r, d) := m (srv_db s) in (r, mkServer d (srv_jwks s) (srv_sessions s)).
Definition on_jwks {E A} (m : M JwksManager E A) : SrvM E A := λ s,
  let '(r, j) := m (srv_jwks s) in (r, mkServer (srv_db s) j (srv_sessions s)).
Definition on_sessions {E A} (m : M S E A) : SrvM E A := λ s,
  let '(r, x) := m (srv_sessions s) in (r, mkServer (srv_db s) (srv_jwks s) x).

Definition Service (B : Type) : Type := Extensions → SrvM HttpError (HttpResponse (Reply B)).
(** [?] on an [AuthError] inside the pipeline *)
Definition auth {A} (m : SrvM AuthError A) : SrvM HttpError A := with_err AuthErr m.
Definition handler {B} (m : SrvM AuthError (HttpResponse B)) : SrvM HttpError (HttpResponse (Reply B)) :=
  let* r := auth m in ret (mkResponse (http_status r) (Answer (http_body r))).
Definition into_response {B} (status : Z) (text : string) : SrvM HttpError (HttpResponse (Reply B)) :=
  ret (mkResponse status (Text text)).

(** * Realm selection *)
Definition db_failure : HttpError := StatusErr 500 "Authentication service error".
Definition process_realm (realm_id : string) (not_found : string) : SrvM HttpError Realm :=
  let* realm := with_err (λ _, db_failure) (on_db (get_realm realm_id)) in
  of_result (ok_or (StatusErr 401 not_found) realm).

Definition extract_realm {B} (req : Request) (service : Service B) : Service B := λ ext,
  match realm_param (rq_query_string req) with
  | Some realm =>
      let* realm := process_realm realm "Invalid authentication realm" in
      service (insert_realm realm ext)
  | None => service ext
  end.
Definition inject_admin_realm {B} (service : Service B) : Service B := λ ext,
  let* realm := process_realm ADMIN_REALM "Admin realm not found" in
  service (insert_realm realm ext).

(** * Authentication *)
Definition username_password {B} (req : Request) (service : Service B) : Service B := λ ext,
  match ext_client ext with
  | Some _ => service ext
  | None =>
      match extract_basic_auth_credentials (rq_authorization req), ext_realm ext with
      | None, _ | Some _, None => service ext
      | Some (username, password), Some realm =>
          match rap_username_password_params (realm_auth_params realm) with
          | None => service ext
          | Some params =>
              let authenticated := insert_client (mkClient username UsernamePassword) ext in
              λ s, match on_db (validate_userpass (realm_id realm) username password) s with
                   | (Ok true, s) =>
                       if upp_allow_expired_passwords params then service authenticated s
                       else into_response 403 "Password expired" s
                   | (Ok false, s) => service authenticated s
                   | (Err _, s) => into_response 401 "Authentication service error" s
                   end
          end
      end
  end.

(** ** Bearer tokens *)

(** [decode_bearer_header]; [now] validates the token, [now1] and [now2] are those of
    [Jwks.find_jwk]. *)
Definition bearer_validation (alg : JwtAlgorithm) (idp_params : IdpParams) : Validation :=
  let validation := Validation_new alg in
  mkValidation alg (val_leeway validation) true (val_validate_nbf validation)
    (val_validate_aud validation) ["sub"]
    (match idp_jwt_audience idp_params with
     | Some jwt_audience => Some [jwt_audience]
     | None => val_aud validation
     end)
    (Some [idp_jwt_issuer_uri idp_params]).
Definition decode_bearer_header (now now1 now2 : Z) (http_get : string → Result Value AuthError)
    (realm_id : string) (idp_params : IdpParams) (token : string) : JwksM ClientClaims :=
  let* header := of_result (map_err (λ e, JWT ("Failed to decode token header: " +:+ e))
                   (decode_header token)) in
  let* kid := of_result (ok_or (JWT "No 'kid' claim present in token") (jh_kid header)) in
  let* jwk := find_jwk now1 now2 http_get realm_id kid in
  let* jwk := of_result (ok_or (JWT ("Realm: " +:+ realm_id +:+ ": specified kid `" +:+ kid
                +:+ "` not found in JWKS set")) jwk) in
  let* decoding_key := of_result (map_err
    (λ e, JWT ("Failed to create decoding key from JWK: " +:+ e)) (decoding_key_of_jwk jwk)) in
  of_result (map_err (λ e, JWT ("Cannot validate token: " +:+ e))
    (decode_claims now token decoding_key (bearer_validation (jh_alg header) idp_params))).

(** The configurations are tried in order; [jwt_log_errors] are the errors so far. *)
Fixpoint try_idps (now now1 now2 : Z) (http_get : string → Result Value AuthError)
    (realm_id token : string) (jwt_log_errors : list AuthError) (idps : list IdpParams)
    : JwksM ClientClaims := λ j,
  match idps with
  | [] => (Err (JWT ("All JWT configurations failed to validate the token: "
                      +:+ jwt_errors_debug jwt_log_errors)), j)
  | idp_params :: idps' =>
      match decode_bearer_header now now1 now2 http_get realm_id idp_params token j with
      | (Ok client_claim, j) => (Ok client_claim, j)
      | (Err error, j) =>
          try_idps now now1 now2 http_get realm_id token (jwt_log_errors ++ [error]) idps' j
      end
  end.
Definition try_client_claims_from_token (now now1 now2 : Z)
    (http_get : string → Result Value AuthError) (realm_id : string) (params : JwtParams)
    (authorization_header : string) : JwksM ClientClaims :=
  match splitn 2 " " authorization_header with
  | [scheme; token] =>
      if decide (scheme = "Bearer") then
        if decide (token = "") then throw (JWT "token is empty")
        else try_idps now now1 now2 http_get realm_id token [] (jp_idp_params params)
      else throw (JWT "Bad authorization header content (expected 'Bearer <token>')")
  | _ => throw (JWT "Bad authorization header content (expected 'Bearer <token>')")
  end.
Definition handle_jwt (now now1 now2 : Z) (http_get : string → Result Value AuthError)
    (realm_id : string) (params : JwtParams) (req : Request) : JwksM AuthenticatedClientScheme :=
  let authorization_header := default "" (rq_authorization req) in
  let* user_claim :=
    try_client_claims_from_token now now1 now2 http_get realm_id params authorization_header in
  of_result (match rc_sub (cc_registered user_claim) with
             | Some sub => Ok (mkClient sub Jwt)
             | None => Err (JWT "No subject in JWT")
             end).
Definition ensure_realm_jwks_is_managed (now : Z) (http_get : string → Result Value AuthError)
    (realm_id : string) (jwt_params : JwtParams) : JwksM () :=
  let* managed := has_realm realm_id in
  if managed then ret ()
  else upsert_realm now http_get realm_id (idp_jwks_uri <$> jp_idp_params jwt_params)
         (jp_smallest_refresh_interval_seconds jwt_params).

(** The clock of a request: seconds, and nanoseconds for the JWKS cache. *)
Record Clock := mkClock { clk_secs : Z; clk_nanos : Z }.

Definition jwt_auth {B} (clock : Clock) (http_get : string → Result Value AuthError)
    (req : Request) (service : Service B) : Service B := λ ext,
  match ext_client ext, ext_realm ext with
  | Some _, _ | None, None => service ext
  | None, Some realm =>
      match rap_jwt_params (realm_auth_params realm) with
      | None => service ext
      | Some jwt_params =>
          auth (on_jwks (ensure_realm_jwks_is_managed (clk_nanos clock) http_get (realm_id realm)
                           jwt_params)) ;;;
          λ s, match on_jwks (handle_jwt (clk_secs clock) (clk_nanos clock) (clk_nanos clock)
                                http_get (realm_id realm) jwt_params req) s with
               | (Ok auth_claim, s) => service (insert_client auth_claim ext) s
               | (Err _, s) => service ext s
               end
      end
  end.

Definition ensure_auth {B} (auth_is_configured : bool) (default_username : option string)
    (service : Service B) : Service B := λ ext,
  match ext_client ext with
  | Some _ => service ext
  | None =>
      if auth_is_configured then into_response 401 "No authentication provided."
      else match default_username with
           | Some username => service (insert_client (mkClient username UsernamePassword) ext)
           | None => service ext
           end
  end.

(** [allowed] is the verdict of the token bucket of the peer. *)
Definition login_rate_limit {B} (allowed : bool) (service : Service B) : Service B := λ ext,
  if allowed then service ext
  else into_response 429 "Rate limit exceeded — please slow down.".

(** * Sessions and administrators *)
Definition cookie_auth {B} (now : Z) (jwt_token_config : JwtTokenConfig) (req : Request)
    (service : Service B) : Service B := λ ext,
  let* cookie := auth (of_result (ok_or (Session "No session cookie found") (rq_cookie req))) in
  let* session_id := auth (of_result (session_id_from_cookie_value cookie)) in
  let* session_data := auth (on_sessions (ss_get_session now session_id)) in
  let* session_data := auth (of_result (ok_or (Session "Invalid session cookie") session_data)) in
  let* cookie_value := auth (of_result (map_err
    (λ e, Unexpected ("Failed parsing the session cookie from the store: " +:+ e))
    (cookie_from_str (sd_cookie_string session_data)))) in
  let* client_claims := auth (of_result (validate_session_token now cookie_value
    (jtc_algorithm jwt_token_config) (jtc_decoding_key jwt_token_config))) in
  service (insert_claims client_claims ext).

Definition find_session_admin (claims : option ClientClaims) : SrvM AuthError Admin :=
  let* client_claims := of_result (ok_or
    (Session "No client claims found in request extensions for AdminAuth middleware") claims) in
  let* auth_scheme := of_result (ok_or (Session "No auth scheme found in token claims")
                        (apc_auth_scheme (cc_private client_claims))) in
  let* value := of_result (ok_or (Session "No subject (username) found in token claims")
                  (rc_sub (cc_registered client_claims))) in
  let* admins := with_err (λ e, Unexpected ("Failed to query admin by auth scheme and value: "
                   +:+ db_error_to_string e)) (on_db (find_admins_by_auth_scheme auth_scheme value)) in
  of_result (ok_or (Session "No admin found for the given auth scheme and value") (head admins)).
Definition admin_auth {B} (service : Service B) : Service B := λ ext,
  let* admin := auth (find_session_admin (ext_claims ext)) in
  service (insert_admin admin ext).
End middleware.
Arguments Server S : clear implicits.
Arguments Server S {_}.
