(* ===== verification/Login.v ===== *)
(** The client endpoints ([server/src/server/endpoints/client_endpoints.rs]): login, whoami and
    certify, and the pipelines they and the administration endpoints are mounted behind
    ([server/src/server/auth_verifier.rs]).  The last [wrap] of a scope runs first. *)
From S2P Require Import Prelude RustStd Models ClaimPolicy Jwt Passwords Totp Database AdminApi Sessions SessionToken Jwks Middleware.

Record ServerConfig `{TL : TokenLibs} := mkServerConfig {
  cfg_jwt : JwtTokenConfig;
  cfg_certificate : option JwtTokenConfig;
  cfg_is_https : bool;
}.
Arguments mkServerConfig {TL} cfg_jwt cfg_certificate cfg_is_https.

(** The body of a login response, with the cookie it sets. *)
Inductive LoginBody :=
  | LoginResult (result : AuthenticationResult) (set_cookie : option SessionCookie)
  | LoginText (text : string).

Section login.
Context {S : Type} {ST : SessionStore S} {L : DbLibs} {TL : TokenLibs} {B64 : Base64}.

Abbreviation LoginM := (SrvM (S := S)).

(** * Login *)
Definition check_totp (now : Z) (realm : Realm) (username : string) (secret code : string)
    : LoginM AuthError bool :=
  let* totp_params := of_result (transpose (realm_params_to_totp_params <$>
                        rap_totp_params (realm_auth_params realm))) in
  let* totps := of_result (from_secret secret None username totp_params) in
  of_result (validate_token totps now code).

Definition login_claims (realm_id : string) (client : AuthenticatedClientScheme)
    : LoginM AuthError (list string * gmap string Value) :=
  if decide (acs_auth_scheme client = UsernamePassword) then
    let* up := on_db (db (get_userpass realm_id (acs_username client))) in
    match up with
    | Some up => ret (up_roles up, default ∅ (up_extra_claims up))
    | None => ret ([], ∅)
    end
  else ret ([], ∅).

(** The session of an authenticated client; [now] issues the token, [now'] stamps the session. *)
Definition open_session (now now' : Z) (config : ServerConfig) (realm : Realm)
    (client : AuthenticatedClientScheme) : LoginM AuthError (HttpResponse LoginBody) :=
  let* claims := login_claims (realm_id realm) client in
  let* token := of_result (issue_token now (acs_username client) (acs_auth_scheme client)
    (realm_id realm) claims.1 claims.2 (cfg_jwt config) (realm_session_max_age_seconds realm)) in
  let* cookie := of_result (build_cookie token (realm_session_max_age_seconds realm)
                   (cfg_is_https config)) in
  let* session_id := of_result (session_id_from_cookie_value (ck_value cookie)) in
  let cookie_string := cookie_to_string cookie in
  on_sessions (ss_upsert_session now' session_id realm client cookie_string) ;;;
  ret (HttpOk (LoginResult (mkAuthenticationResult Authenticated (Some session_id)) (Some cookie))).

Definition session_err {A} (what : string) (m : DbM A) : LoginM AuthError A :=
  on_db (with_err (λ e, Session (what +:+ ": " +:+ db_error_to_string e)) m).

(** [now] checks the TOTP code. *)
Definition login (now now1 now2 : Z) (config : ServerConfig) (ext : Extensions)
    (login_request : LoginRequest) : LoginM AuthError (HttpResponse LoginBody) :=
  let* realm := of_result (ok_or (Session "no realm found in request") (ext_realm ext)) in
  let* client := of_result (ok_or (Session "no authenticated client found in request")
                   (ext_client ext)) in
  let* totp_enabled := session_err "Failed to check TOTP status"
                         (is_totp_enabled (realm_id realm) (acs_username client)) in
  if default false totp_enabled then
    match lr_totp_code login_request with
    | None => ret (HttpOk (LoginResult (mkAuthenticationResult TotpRequired None) None))
    | Some code =>
        let* secret := session_err "Failed to retrieve TOTP secret"
                         (get_totp_secret (realm_id realm) (acs_username client)) in
        let* secret := of_result (ok_or (Session "TOTP is enabled but no secret is stored") secret) in
        let* valid := check_totp now realm (acs_username client) secret code in
        if valid then open_session now1 now2 config realm client
        else ret (mkResponse 401 (LoginText "Invalid TOTP code"))
    end
  else open_session now1 now2 config realm client.

(** * whoami and certify *)
Definition whoami (ext : Extensions) : LoginM AuthError (HttpResponse ClientClaims) :=
  let* user_claims := of_result (ok_or (Session "no user claims found in request")
                        (ext_claims ext)) in
  ret (HttpOk user_claims).

Record CertifyRequest := mkCertifyRequest {
  cr_verification_key : string;
  cr_claims : list string;
  cr_exclude_sub : bool;
}.
Definition MAX_VERIFICATION_KEY_LEN : nat := 8192.

Definition require_s (b : bool) (e : AuthError) : LoginM AuthError () := if b then ret () else throw e.

(** The claims both requested and present in the session. *)
Definition selected_claims (requested : list string) (extra : gmap string Value)
    : gmap string Value :=
  filter (λ kv, kv.1 ∈ requested) extra.

Definition certify (now : Z) (config : ServerConfig) (ext : Extensions) (body : CertifyRequest)
    : LoginM AuthError (HttpResponse string) :=
  let verification_key := trim (cr_verification_key body) in
  require_s (bool_decide (verification_key ≠ "")) (BadRequest "verification_key must not be empty") ;;;
  require_s (String.length verification_key <=? MAX_VERIFICATION_KEY_LEN)
    (BadRequest "verification_key must not exceed 8192 bytes") ;;;
  require_s (starts_with "-----BEGIN " verification_key && str_contains "-----END " verification_key)
    (BadRequest "verification_key must be a PEM-encoded key or certificate") ;;;
  of_result (reject_reserved_claim_names (cr_claims body)) ;;;
  let* cert_jwt_config := of_result (ok_or
    (Config "certificate signing is not configured on this server") (cfg_certificate config)) in
  let* claims := of_result (ok_or (Session "no user claims found in request") (ext_claims ext)) in
  let* sub := of_result (ok_or (Session "no subject in session claims")
                (rc_sub (cc_registered claims))) in
  let* auth_scheme := of_result (ok_or (Session "no auth scheme in session claims")
                        (apc_auth_scheme (cc_private claims))) in
  let* realm_id := of_result (ok_or (Session "no realm ID in session claims")
                     (apc_realm_id (cc_private claims))) in
  let* realm := on_db (db (get_realm realm_id)) in
  let* realm := of_result (ok_or (Session ("realm '" +:+ realm_id +:+ "' no longer exists")) realm) in
  let extra := selected_claims (cr_claims body) (cc_extra claims) in
  require_s (negb (cr_exclude_sub body && bool_decide (extra = ∅)))
    (BadRequest ("exclude_sub requires at least one requested claim in 'claims' to actually be "
      +:+ "present in the session — a certificate cannot be both anonymous and empty")) ;;;
  let cert_claims := mkCertificateClaims realm_id (if cr_exclude_sub body then None else Some sub)
    auth_scheme verification_key now (i64_add now (realm_certificate_max_age_seconds realm)) extra in
  let* certificate := of_result (map_err (λ e, Unexpected ("Failed to issue certificate: " +:+ e))
    (encode_certificate ES256 (jtc_encoding_key cert_jwt_config) cert_claims)) in
  ret (HttpOk certificate).

(** * Scopes *)

(** [POST /login] *)
Definition login_scope (clock : Clock) (http_get : string → Result Value AuthError)
    (default_username : option string) (allowed : bool) (config : ServerConfig) (req : Request)
    (login_request : LoginRequest) : LoginM HttpError (HttpResponse (Reply LoginBody)) :=
  let service := λ ext,
    handler (login (clk_secs clock) (clk_secs clock) (clk_secs clock) config ext login_request) in
  login_rate_limit allowed
    (extract_realm req
      (username_password req
        (jwt_auth clock http_get req
          (ensure_auth true default_username service)))) no_extensions.

(** [GET /whoami] and [POST /certify] *)
Definition whoami_scope (now : Z) (config : ServerConfig) (req : Request)
    : LoginM HttpError (HttpResponse (Reply ClientClaims)) :=
  extract_realm req (cookie_auth now (cfg_jwt config) req (λ ext, handler (whoami ext))) no_extensions.
Definition certify_scope (now : Z) (config : ServerConfig) (req : Request) (body : CertifyRequest)
    : LoginM HttpError (HttpResponse (Reply string)) :=
  cookie_auth now (cfg_jwt config) req (λ ext, handler (certify now config ext body)) no_extensions.

(** [/admins] and [/admins/realms]: a handler of the administration endpoints behind the
    session cookie and the administrator it stands for; [/realms] selects the realm from the
    query instead. *)
Definition admins_scope {B} (now : Z) (config : ServerConfig) (req : Request)
    (api : option Admin → ApiM (HttpResponse B)) : LoginM HttpError (HttpResponse (Reply B)) :=
  inject_admin_realm (cookie_auth now (cfg_jwt config) req
    (admin_auth (λ ext, handler (on_db (api (ext_admin ext)))))) no_extensions.
Definition realms_scope {B} (now : Z) (config : ServerConfig) (req : Request)
    (api : option Admin → ApiM (HttpResponse B)) : LoginM HttpError (HttpResponse (Reply B)) :=
  extract_realm req (cookie_auth now (cfg_jwt config) req
    (admin_auth (λ ext, handler (on_db (api (ext_admin ext)))))) no_extensions.
End login.
