(* ===== verification/ToyLogin.v ===== *)
(** Concrete token, cookie and Base64 libraries for the witnesses, and a server with a realm of
    its own: a token is its key followed by the claims, a cookie is its value, Base64 is the
    identity and a digest only marks its argument. *)
From S2P Require Import Prelude RustStd Models ClaimPolicy Jwt Passwords Totp Database DatabaseFacts Toy AdminApi Sessions SessionToken Jwks Middleware Login.

Definition scheme_code (s : AuthScheme) : nat :=
  match s with
  | UsernamePassword => 0 | Jwt => 1 | Fido2 => 2 | DigitalCredentials => 3
  | ClientCertificate => 4 | Saml => 5
  end.
Definition scheme_of_code (n : nat) : AuthScheme :=
  match n with
  | 0 => UsernamePassword | 1 => Jwt | 2 => Fido2 | 3 => DigitalCredentials
  | 4 => ClientCertificate | _ => Saml
  end.
#[export] Program Instance AuthScheme_countable : Countable AuthScheme :=
  inj_countable' scheme_code scheme_of_code _.
Next Obligation. by intros []. Qed.

Abbreviation claims_tuple :=
  ((option string * option string * (option (list string) * option Z)) *
   (option Z * option Z * (option string * option (list string))) *
   (option AuthScheme * option string * gmap string Value))%type.
Definition claims_to_tuple (c : ClientClaims) : claims_tuple :=
  let r := cc_registered c in
  (rc_iss r, rc_sub r, (rc_aud r, rc_exp r),
   (rc_nbf r, rc_iat r, (rc_jti r, ac_roles (cc_authorization c))),
   (apc_auth_scheme (cc_private c), apc_realm_id (cc_private c), cc_extra c)).
Definition claims_of_tuple (t : claims_tuple) : ClientClaims :=
  let '(iss, sub, (aud, exp), (nbf, iat, (jti, roles)), (scheme, realm, extra)) := t in
  mkClientClaims (mkRegisteredClaims iss sub aud exp nbf iat jti) (mkAuthorizationClaims roles)
    (mkAuthPrivateClaims scheme realm) extra.
Lemma claims_of_to_tuple c : claims_of_tuple (claims_to_tuple c) = c.
Proof. by destruct c as [[] [] [] ?]. Qed.

Definition toy_encode (key : string) (c : ClientClaims) : string :=
  key +:+ bits_of_pos (encode (claims_to_tuple c)).
Definition toy_decode (now : Z) (token key : string) (v : Validation) : Result ClientClaims string :=
  match s ← strip_prefix key token; p ← pos_of_bits s; decode p with
  | None => Err "InvalidToken"
  | Some t =>
      let c := claims_of_tuple t in
      match rc_exp (cc_registered c) with
      | Some exp => if decide (exp + val_leeway v < now)%Z then Err "ExpiredSignature" else Ok c
      | None => Err "MissingRequiredClaim"
      end
  end.
Lemma toy_decode_encode now key c v :
  toy_decode now (toy_encode key c) key v =
  match rc_exp (cc_registered c) with
  | Some exp => if decide (exp + val_leeway v < now)%Z then Err "ExpiredSignature" else Ok c
  | None => Err "MissingRequiredClaim"
  end.
Proof.
  unfold toy_decode, toy_encode. rewrite (proj2 (strip_prefix_Some _ _ _) eq_refl). cbn [mbind option_bind].
  rewrite pos_of_bits_of_pos. cbn [mbind option_bind]. rewrite decode_encode. cbn zeta.
  by rewrite claims_of_to_tuple.
Qed.

#[export] Instance toy_token_libs : TokenLibs := {|
  token_jwt := toy_jwt_libs;
  EncodingKey := string;
  encode_claims _ key c := Ok (toy_encode key c);
  encode_certificate _ key _ := Ok key;
  decode_claims now token key v := toy_decode now token key v;
  cookie_to_string c := ck_value c;
  cookie_from_str s := Ok s;
  sha256_hex s := "#" +:+ s;
|}.
#[export] Instance toy_base64 : Base64 := {| base64_decode s := Some s |}.
Definition toy_token_config : JwtTokenConfig := mkJwtTokenConfig ES256 "key." "key.".
#[export] Instance toy_token_laws : TokenLaws toy_token_config.
Proof.
  split.
  - intros now c token exp [= <-] _ He _ _ _ Hle. simpl. rewrite toy_decode_encode, He.
    rewrite decide_False; [done|]. simpl. lia.
  - intros now c token exp [= <-] He Hlt. simpl. rewrite toy_decode_encode, He.
    by rewrite decide_True.
  - by intros c token max_age is_https cookie [= <-] [= <-].
Qed.

(** A realm ["r"] with password login and its administrator ["alice"], who gives it a credential
    named like the server's first administrator. *)
Definition toy_login_realm : Realm :=
  mkRealm "r" (mkRealmAuthParams None (Some (mkUsernamePasswordParams false)) None None)
    3600 600 60.
Definition toy_alice : Admin := mkAdmin "alice" ["r"] None None None None None None None None.
Definition toy_login_db : Database :=
  let d := (create_admin toy_alice ((create_realm toy_login_realm toy_db).2)).2 in
  (api_create_userpass "salt" (Some toy_alice) "r"
    (mkUserPass "r" "admin" "" (Some (Plaintext "pw")) false [] None) d).2.
Definition toy_server : Server SessionTable := mkServer toy_login_db ∅ ∅.
Definition toy_config : ServerConfig := mkServerConfig toy_token_config None true.

(** Mallory's login to realm ["r"] at time 100. *)
Definition toy_clock : Clock := mkClock 100 100.
Definition toy_no_http (_ : string) : Result Value AuthError := Err (Unexpected "no network").
Definition toy_login_request : Request := mkRequest "realm=r" (Some "Basic admin:pw") None.
Definition toy_login_client : AuthenticatedClientScheme := mkClient "admin" UsernamePassword.
Definition toy_login_ext : Extensions :=
  mkExtensions (Some toy_login_realm) (Some toy_login_client) None None None.
Definition toy_login := login 100 100 100 toy_config toy_login_ext (mkLoginRequest None) toy_server.
Definition sets_cookie (body : LoginBody) : bool :=
  match body with LoginResult _ (Some _) => true | _ => false end.
Definition logged_in (r : Result (HttpResponse LoginBody) AuthError) : bool :=
  match r with Ok resp => sets_cookie (http_body resp) | Err _ => false end.
Lemma toy_login_ok : ∃ resp s' result cookie,
  toy_login = (Ok resp, s') ∧ http_body resp = LoginResult result (Some cookie).
Proof.
  assert (logged_in toy_login.1 = true) as H by by vm_compute.
  destruct toy_login as [[[st [result [cookie|]|]]|] s']; try done. by eexists _, s', result, cookie.
Qed.
Definition toy_present (cookie : SessionCookie) : Request := mkRequest "" None (Some (ck_value cookie)).
