(* ===== verification/JwksSpec.v ===== *)
(** What the JWKS cache promises ([Jwks.v]) under the bearer middleware ([Middleware.v]). *)
From S2P Require Import Prelude RustStd Models Jwt Passwords Totp Database DatabaseFacts Toy AdminApi Sessions SessionToken Jwks Middleware Login ToyLogin.

Section jwks.
Context {JL : JwtLibs}.

(** * Downloads *)
Lemma parse_jwks_uri http_get uri uri' keys :
  parse_jwks http_get uri = Ok (uri', keys) → uri' = uri.
Proof.
  unfold parse_jwks. destruct (http_get uri) as [v|]; [|done]. simpl.
  destruct (json_get "keys" v) as [k|]; [|done]. simpl.
  by destruct k as [| | | |a|]; try done; destruct (omap jwk_of_json a); [|intros [= ->]].
Qed.
Lemma fetch_all_lookup http_get uris uri keys :
  fetch_all http_get uris !! uri = Some keys ↔
  uri ∈ uris ∧ parse_jwks http_get uri = Ok (uri, keys).
Proof.
  unfold fetch_all.
  assert (Hgen : ∀ acc : gmap string (list Jwk),
    foldl (λ (m : gmap string (list Jwk)) uri, match parse_jwks http_get uri with
                    | Ok (uri, jwks) => <[uri := jwks]> m
                    | Err _ => m
                    end) acc uris !! uri = Some keys ↔
    uri ∈ uris ∧ parse_jwks http_get uri = Ok (uri, keys) ∨
    ¬ (uri ∈ uris ∧ is_ok (parse_jwks http_get uri) = true) ∧ acc !! uri = Some keys).
  { induction uris as [|u uris IH]; intros acc; simpl.
    - rewrite elem_of_nil. tauto.
    - rewrite IH, elem_of_cons. destruct (parse_jwks http_get u) as [[u' k]|e] eqn:Hu.
      + pose proof (parse_jwks_uri _ _ _ _ Hu) as ->. destruct (decide (u = uri)) as [->|Hne].
        * rewrite Hu, lookup_insert_eq. simpl. destruct (decide (uri ∈ uris)); naive_solver.
        * rewrite lookup_insert_ne by done. naive_solver.
      + destruct (decide (u = uri)) as [->|Hne]; [|naive_solver]. rewrite Hu. simpl.
        naive_solver. }
  rewrite Hgen, lookup_empty. naive_solver.
Qed.

(** * Searching a realm's sets *)
(** A key of a cached set of the realm. *)
Lemma find_key_Some kid keys jwk :
  find_key kid keys = Some jwk → jwk ∈ keys ∧ jwk_key_id jwk = Some kid.
Proof.
  induction keys as [|k keys IH]; [done|]. simpl. rewrite elem_of_cons.
  case_decide; [intros [= ->]; auto|]. intros H'%IH. naive_solver.
Qed.
Definition cached_key (j : JwksManager) (realm_id kid : string) (jwk : Jwk) : Prop :=
  ∃ entry uri keys, j !! realm_id = Some entry ∧ rj_jwks entry !! uri = Some keys ∧
    jwk ∈ keys ∧ jwk_key_id jwk = Some kid.
Lemma find_jwk_in_realm_Some entry kid jwk :
  find_jwk_in_realm entry kid = Some jwk →
  ∃ uri keys, rj_jwks entry !! uri = Some keys ∧ jwk ∈ keys ∧ jwk_key_id jwk = Some kid.
Proof.
  unfold find_jwk_in_realm.
  assert (Hsub : ∀ keys, keys ∈ (map_to_list (rj_jwks entry)).*2 → ∃ uri, rj_jwks entry !! uri = Some keys).
  { intros keys ([uri keys'] & -> & Hin%elem_of_map_to_list)%list_elem_of_fmap. by exists uri. }
  revert Hsub. generalize ((map_to_list (rj_jwks entry)).*2). intros sets.
  induction sets as [|keys sets IH]; intros Hsub; [done|]. simpl.
  destruct (find_key kid keys) as [k|] eqn:Hk.
  - intros [= <-]. apply find_key_Some in Hk as [? ?].
    destruct (Hsub keys) as [uri Huri]; [apply list_elem_of_here|]. by exists uri, keys.
  - apply IH. intros ks Hks. apply Hsub. by right.
Qed.
Lemma find_jwk_found now1 now2 http_get rid kid j jwk j' :
  find_jwk now1 now2 http_get rid kid j = (Ok (Some jwk), j') → cached_key j rid kid jwk.
Proof.
  unfold find_jwk, bind, gets, of_result. destruct (j !! rid) as [entry|] eqn:He; [|done]. simpl.
  assert (Hc : find_jwk_in_realm entry kid = Some jwk → cached_key j rid kid jwk).
  { intros (uri & keys & H)%find_jwk_in_realm_Some. exists entry, uri, keys. tauto. }
  destruct (find_jwk_in_realm entry kid) as [k|]; [by intros [= <-]; apply Hc|].
  destruct (is_refresh_allowed now1 entry); [|done]. unfold set_jwks. by rewrite He.
Qed.

Lemma find_key_exists kid keys jwk :
  jwk ∈ keys → jwk_key_id jwk = Some kid → is_Some (find_key kid keys).
Proof.
  intros Hin Hk. induction Hin as [|? k keys _ IH]; simpl; case_decide; naive_solver.
Qed.
Lemma find_in_sets_exists kid sets keys :
  keys ∈ sets → is_Some (find_key kid keys) → is_Some (find_in_sets kid sets).
Proof.
  intros Hin [j Hj]. induction Hin as [|? ks sets _ IH]; simpl; [by rewrite Hj|].
  destruct (find_key kid ks); [done|auto].
Qed.
Lemma find_jwk_in_realm_exists realm kid uri keys jwk :
  rj_jwks realm !! uri = Some keys → jwk ∈ keys → jwk_key_id jwk = Some kid →
  is_Some (find_jwk_in_realm realm kid).
Proof.
  intros Hu Hin Hk. eapply find_in_sets_exists; [|by eapply find_key_exists].
  apply list_elem_of_fmap. exists (uri, keys). by rewrite elem_of_map_to_list.
Qed.
End jwks.

(** * Refreshes *)

(** One of the URIs answers with a set that has the key. *)
Definition published `{JL : JwtLibs} (http_get : string → Result Value AuthError)
    (uris : list string) (kid : string) : Prop :=
  ∃ uri keys jwk, uri ∈ uris ∧ parse_jwks http_get uri = Ok (uri, keys) ∧ jwk ∈ keys ∧
    jwk_key_id jwk = Some kid.

Section refresh.
Context {JL : JwtLibs}.
Lemma fetched_published http_get realm kid :
  rj_jwks realm = fetch_all http_get (rj_uris realm) →
  is_Some (find_jwk_in_realm realm kid) ↔ published http_get (rj_uris realm) kid.
Proof.
  intros Hf. split.
  - intros [jwk (uri & keys & Hl & Hin & Hk)%find_jwk_in_realm_Some].
    rewrite Hf in Hl. apply fetch_all_lookup in Hl as [Hu Hp]. by exists uri, keys, jwk.
  - intros (uri & keys & jwk & Hu & Hp & Hin & Hk). eapply find_jwk_in_realm_exists; [|done..].
    rewrite Hf. by apply fetch_all_lookup.
Qed.

(** What [find_jwk] does to the cache: nothing, or new sets for the realm. *)
Lemma find_jwk_cache now1 now2 http_get rid kid (m m' : JwksManager) r :
  find_jwk now1 now2 http_get rid kid m = (r, m') →
  m' = m ∨ ∃ realm, m !! rid = Some realm ∧
    m' = <[rid := mkRealmJWKS (rj_realm_id realm) (rj_uris realm)
            (fetch_all http_get (rj_uris realm)) (Some now2) (rj_smallest_refresh_interval realm)]> m.
Proof.
  unfold find_jwk, bind, gets, of_result. destruct (m !! rid) as [realm|] eqn:Hr; simpl.
  - destruct (find_jwk_in_realm realm kid); [intros [= _ <-]; auto|].
    destruct (is_refresh_allowed now1 realm); [|intros [= _ <-]; auto].
    unfold set_jwks. rewrite Hr. intros [= _ <-]. right. by exists realm.
  - intros [= _ <-]. auto.
Qed.

(** The key sets a realm's keys can be taken from during a request: those the cache has for it,
    else those its parameters name, and what the same URIs answer if they are asked again. *)
Definition realm_keys (http_get : string → Result Value AuthError) (j : JwksManager)
    (rid : string) (uris : list string) (keys : list Jwk) : Prop :=
  match j !! rid with
  | Some entry => ∃ uri, rj_jwks entry !! uri = Some keys ∨
                         uri ∈ rj_uris entry ∧ parse_jwks http_get uri = Ok (uri, keys)
  | None => ∃ uri, uri ∈ uris ∧ parse_jwks http_get uri = Ok (uri, keys)
  end.
Definition realm_key (http_get : string → Result Value AuthError) (j : JwksManager)
    (rid : string) (uris : list string) (kid : string) (jwk : Jwk) : Prop :=
  ∃ keys, realm_keys http_get j rid uris keys ∧ jwk ∈ keys ∧ jwk_key_id jwk = Some kid.
(** The cache has the realm, with key sets and sources in [P] only. *)
Definition keys_within (http_get : string → Result Value AuthError) (rid : string)
    (P : list Jwk → Prop) (j : JwksManager) : Prop :=
  ∃ entry, j !! rid = Some entry ∧
    (∀ uri keys, rj_jwks entry !! uri = Some keys → P keys) ∧
    (∀ uri keys, uri ∈ rj_uris entry → parse_jwks http_get uri = Ok (uri, keys) → P keys).
Lemma find_jwk_within now1 now2 http_get rid kid P (j j' : JwksManager) r :
  find_jwk now1 now2 http_get rid kid j = (r, j') →
  keys_within http_get rid P j → keys_within http_get rid P j'.
Proof.
  intros [->|(realm & Hr & ->)]%find_jwk_cache (e & He & Hc & Hp); [by exists e|]. simplify_eq.
  eexists. rewrite lookup_insert_eq. split; [done|]. split; [|done].
  intros uri keys [Hu Hk]%fetch_all_lookup. by eapply Hp.
Qed.
Lemma within_key http_get rid P (j : JwksManager) kid jwk :
  keys_within http_get rid P j → cached_key j rid kid jwk →
  ∃ keys, P keys ∧ jwk ∈ keys ∧ jwk_key_id jwk = Some kid.
Proof.
  intros (e & He & Hc & _) (e' & uri & keys & He' & Hk & Hin & Hid). simplify_eq.
  exists keys. split; [|done]. by eapply Hc.
Qed.
End refresh.

(** C39: a request for a key that is not cached is refused even when the refresh it triggers brings
    the key: the key is found by the next request.  The refresh replaces the realm's cache by
    exactly what its URIs publish now (a failed download leaves nothing of the keys cached
    before), and no refresh is tried again before the realm's interval has passed; other realms
    are untouched. *)
Theorem refresh_replaces_cache `{JL : JwtLibs} (now1 now2 : Z)
    (http_get : string → Result Value AuthError) (rid kid : string) (m m' : JwksManager)
    (r : Result (option Jwk) AuthError) (realm : RealmJWKS) :
  m !! rid = Some realm → find_jwk_in_realm realm kid = None →
  is_refresh_allowed now1 realm = true →
  find_jwk now1 now2 http_get rid kid m = (r, m') →
  r = Ok None ∧
  (∃ realm', m' !! rid = Some realm' ∧ rj_uris realm' = rj_uris realm ∧
    (∀ k, is_Some (find_jwk_in_realm realm' k) ↔ published http_get (rj_uris realm) k) ∧
    (∀ t, (t ≤ now2 + seconds (default SMALLEST_REFRESH_INTERVAL
                                 (rj_smallest_refresh_interval realm)))%Z →
       is_refresh_allowed t realm' = false)) ∧
  (∀ i, i ≠ rid → m' !! i = m !! i).
Proof.
  intros Hr Hmiss Hallowed. unfold find_jwk, bind, gets, of_result. rewrite Hr. simpl.
  rewrite Hmiss, Hallowed. unfold set_jwks. rewrite Hr. intros [= <- <-]. split; [done|].
  split; [|by intros i Hi; rewrite lookup_insert_ne].
  eexists. rewrite lookup_insert_eq. split_and!; [done..| |].
  - intros k. by apply (fetched_published http_get (mkRealmJWKS _ _ _ _ _)).
  - intros t Ht. unfold is_refresh_allowed. simpl. apply bool_decide_eq_false. lia.
Qed.
(** The identity provider rotates its key from ["old"] to ["new"]. *)
Definition toy_keys (kid : string) (_ : string) : Result Value AuthError :=
  Ok (VObject [("keys", VArray [VString kid])]).
Definition toy_jwks (t : Z) : gmap string (RealmJWKS (JL := toy_jwt_libs)) :=
  (upsert_realm t (toy_keys "old") "r" ["https://idp"] None ∅).2.
Lemma refresh_replaces_cache_witness :
  let JL := toy_jwt_libs in
  let now := seconds 100 in
  ∃ m', find_jwk now now (toy_keys "new") "r" "new" (toy_jwks 0) = (Ok None, m') ∧
    ∃ realm', m' !! "r" = Some realm' ∧ is_refresh_allowed (seconds 160) realm' = false.
Proof.
  intros JL now. destruct (find_jwk now now (toy_keys "new") "r" "new" (toy_jwks 0)) as [r m'] eqn:Hrun.
  set (realm := mkRealmJWKS "r" ["https://idp"] (fetch_all (toy_keys "old") ["https://idp"])
    (Some 0%Z) None).
  assert (Hr : toy_jwks 0 !! "r" = Some realm) by by apply lookup_insert_eq.
  assert (Hmiss : find_jwk_in_realm realm "new" = None) by by vm_compute.
  assert (Hal : is_refresh_allowed now realm = true) by by vm_compute.
  destruct (refresh_replaces_cache now now (toy_keys "new") "r" "new" (toy_jwks 0) m' r realm
    Hr Hmiss Hal Hrun) as (-> & (realm' & Hr' & _ & _ & Hno) & _).
  exists m'. split; [reflexivity|]. exists realm'. split; [exact Hr'|].
  apply Hno. by vm_compute.
Defined.

(** * Clean-up *)
Section cleanup.
Context {JL : JwtLibs}.
Lemma remove_stale_run now realms guards (m : JwksManager) :
  remove_stale now realms (mkRwLock (S guards) m) =
    if decide (Exists (λ e, is_stale now e = true) realms) then None
    else Some ((), mkRwLock (S guards) m).
Proof.
  induction realms as [|e realms IH]; [done|]. simpl. destruct (is_stale now e) eqn:He.
  - rewrite decide_True; [done|]. by left.
  - rewrite IH. apply decide_ext. rewrite Exists_cons. split; [by right|]. by intros [?|?]; [congruence|].
Qed.
Lemma cleanup_run now guards (m : JwksManager) :
  remove_stale_entries now (mkRwLock guards m) =
    if decide (map_Exists (λ _ realm, is_stale now realm = true) m) then None
    else Some (Ok (), mkRwLock guards m).
Proof.
  unfold remove_stale_entries, locked_bind. simpl. rewrite remove_stale_run.
  assert (Exists (λ e, is_stale now e = true) (map_to_list m).*2 ↔
    map_Exists (λ _ realm, is_stale now realm = true) m) as Hex.
  { rewrite Exists_exists. setoid_rewrite list_elem_of_fmap. split.
    - intros (e & ([i e'] & -> & Hin%elem_of_map_to_list) & Hs). by exists i, e'.
    - intros (i & e & Hin & Hs). exists e. split; [|done]. exists (i, e). by rewrite elem_of_map_to_list. }
  rewrite (decide_ext _ _ _ _ Hex). by destruct (decide _).
Qed.
End cleanup.

(** The clean-up of the cache never removes anything.  A caller that holds no guard gets an answer
    exactly when no entry is past the retention period, and finds the cache and the lock as they
    were; otherwise the call does not return, since it asks for the write lock on top of its own
    read guard. *)
Theorem cleanup_never_removes `{JL : JwtLibs} (now : Z) (m : JwksManager) :
  match remove_stale_entries now (mkRwLock 0 m) with
  | Some (r, l) => r = Ok () ∧ l = mkRwLock 0 m ∧
      ∀ rid realm, m !! rid = Some realm → is_stale now realm = false
  | None => ∃ rid realm, m !! rid = Some realm ∧ is_stale now realm = true
  end.
Proof.
  rewrite cleanup_run. case_decide as Hd; [done|]. split_and!; [done..|]. intros rid realm Hr.
  destruct (is_stale now realm) eqn:Hs; [|done]. destruct Hd. by exists rid, realm.
Qed.

(** * The life of a cache *)

(** What changes the cache after the server has started: a bearer request of a realm with its
    parameters of the moment, and the clean-up. *)
Inductive jwks_step `{TL : TokenLibs} : JwksManager → JwksManager → Prop :=
  | step_ensure now http_get rid params r m m' :
      ensure_realm_jwks_is_managed now http_get rid params m = (r, m') → jwks_step m m'
  | step_handle now now1 now2 http_get rid params req r m m' :
      handle_jwt now now1 now2 http_get rid params req m = (r, m') → jwks_step m m'
  | step_cleanup now r m l : remove_stale_entries now (mkRwLock 0 m) = Some (r, l) → jwks_step m (rw_map l).

(** The realm is cached with these URIs and this interval. *)
Definition cached_with `{JL : JwtLibs} (rid : string) (uris : list string) (interval : option Z)
    (m : JwksManager) : Prop :=
  ∃ e, m !! rid = Some e ∧ rj_uris e = uris ∧ rj_smallest_refresh_interval e = interval.

Section life.
Context {TL : TokenLibs}.
Lemma find_jwk_cached_with now1 now2 http_get r kid rid uris interval (m m' : JwksManager) x :
  find_jwk now1 now2 http_get r kid m = (x, m') →
  cached_with rid uris interval m → cached_with rid uris interval m'.
Proof.
  intros [->|(realm & Hr & ->)]%find_jwk_cache (e & He & Hu & Hi); [by exists e|].
  destruct (decide (r = rid)) as [->|Hne].
  - eexists. rewrite lookup_insert_eq. split; [done|]. by simplify_eq.
  - exists e. by rewrite lookup_insert_ne by done.
Qed.
Lemma try_idps_cached_with now now1 now2 http_get r token errors idps rid uris interval (m m' : JwksManager) x :
  try_idps now now1 now2 http_get r token errors idps m = (x, m') →
  cached_with rid uris interval m → cached_with rid uris interval m'.
Proof.
  revert errors m. induction idps as [|idp idps IH]; intros errors m; simpl; [by intros [= _ <-]|].
  destruct (decode_bearer_header _ _ _ _ _ _ _ _) as [y m1] eqn:Hd. intros Hx Hc.
  assert (cached_with rid uris interval m1) as Hc1.
  { unfold decode_bearer_header, bind, of_result in Hd.
    destruct (map_err _ (decode_header token)) as [h|]; [|by injection Hd as _ <-].
    destruct (ok_or _ (jh_kid h)) as [kid|]; [|by injection Hd as _ <-].
    destruct (find_jwk _ _ _ _ _ _) as [z m2] eqn:Hf.
    pose proof (find_jwk_cached_with _ _ _ _ _ _ _ _ _ _ _ Hf Hc) as H2.
    destruct z as [[jwk|]|]; simpl in Hd; [|by injection Hd as _ <-..].
    destruct (decoding_key_of_jwk jwk); simpl in Hd; by injection Hd as _ <-. }
  destruct y as [c|e]; [by injection Hx as _ <-|]. by apply (IH (errors ++ [e]) m1).
Qed.
Lemma step_cached_with rid uris interval m m' :
  jwks_step m m' → cached_with rid uris interval m → cached_with rid uris interval m'.
Proof.
  destruct 1 as [now http_get r params x m m' H|now now1 now2 http_get r params req x m m' H
    |now x m l H]; intros Hc.
  - unfold ensure_realm_jwks_is_managed, has_realm, bind, gets in H.
    case_bool_decide as Hm; [by injection H as _ <-|]. injection H as _ <-.
    destruct Hc as (e & He & Hu & Hi). exists e. rewrite lookup_insert_ne; [done|].
    intros ->. apply Hm. by exists e.
  - unfold handle_jwt, try_client_claims_from_token, bind, of_result, throw in H.
    destruct (splitn _ _ _) as [|s [|t [|]]]; try by injection H as _ <-.
    case_decide as Hb; [|by injection H as _ <-]. case_decide as He; [by injection H as _ <-|].
    destruct (try_idps _ _ _ _ _ _ _ _ _) as [y m1] eqn:Ht.
    pose proof (try_idps_cached_with _ _ _ _ _ _ _ _ _ _ _ _ _ _ Ht Hc) as Hc1.
    by destruct y; injection H as _ <-.
  - rewrite cleanup_run in H. case_decide; [done|]. by injection H as _ <-.
Qed.
End life.

(** The key set URIs of a realm are frozen by its first bearer request.  Whatever requests
    follow, with whatever parameters its configuration has by then, and however often the
    clean-up runs, keys go on being looked for at the URIs of that first request, at the
    interval of that first request. *)
Theorem realm_uris_frozen `{TL : TokenLibs} (now : Z) (http_get : string → Result Value AuthError)
    (rid : string) (params : JwtParams) (m m1 m2 : JwksManager) (r : Result () AuthError) :
  m !! rid = None → ensure_realm_jwks_is_managed now http_get rid params m = (r, m1) →
  rtc jwks_step m1 m2 →
  cached_with rid (idp_jwks_uri <$> jp_idp_params params)
    (jp_smallest_refresh_interval_seconds params) m2.
Proof.
  intros Hno He Hsteps.
  assert (cached_with rid (idp_jwks_uri <$> jp_idp_params params)
    (jp_smallest_refresh_interval_seconds params) m1) as Hc.
  { unfold ensure_realm_jwks_is_managed, has_realm, bind, gets in He.
    rewrite bool_decide_eq_false_2 in He by (rewrite Hno; apply is_Some_None).
    injection He as _ <-. eexists. by rewrite lookup_insert_eq. }
  clear He Hno. induction Hsteps as [|m1 m2 m3 Hs _ IH]; [done|].
  apply IH. by eapply step_cached_with.
Qed.
Lemma realm_uris_frozen_witness :
  let TL := toy_token_libs in
  let params uri := mkJwtParams [mkIdpParams "https://idp" uri None] None in
  let m1 := (ensure_realm_jwks_is_managed 0 (toy_keys "old") "r" (params "https://old") ∅).2 in
  let m2 := (ensure_realm_jwks_is_managed 1 (toy_keys "new") "r" (params "https://new") m1).2 in
  ∃ e, m2 !! "r" = Some e ∧ rj_uris e = ["https://old"].
Proof.
  intros TL params m1 m2.
  destruct (ensure_realm_jwks_is_managed 0 (toy_keys "old") "r" (params "https://old") ∅)
    as [r m1'] eqn:H1.
  destruct (ensure_realm_jwks_is_managed 1 (toy_keys "new") "r" (params "https://new") m1)
    as [r2 m2'] eqn:H2.
  assert (Hno : (∅ : JwksManager) !! "r" = None) by apply lookup_empty.
  assert (Hsteps : rtc jwks_step m1' m2').
  { apply rtc_once. apply (step_ensure 1 (toy_keys "new") "r" (params "https://new") r2).
    unfold m1 in H2. exact H2. }
  destruct (realm_uris_frozen 0 (toy_keys "old") "r" (params "https://old") ∅ m1' m2' r
    Hno H1 Hsteps) as (e & He & Hu & _).
  exists e. split; [unfold m2; simpl; exact He|exact Hu].
Defined.
