(* ===== verification/LoginSpec.v ===== *)
(** What login and sessions promise ([Middleware.v], [Login.v]): a login that succeeds was
    authenticated; its cookie stands for the same client as long as the session lives; and
    which administrator a session stands for. *)
From S2P Require Import Prelude RustStd Models ClaimPolicy Jwt Passwords Totp Database DatabaseFacts Toy AdminApi AdminApiFacts Sessions SessionSpec SessionToken Jwks JwksSpec Middleware Login ToyLogin.

(** * The session store as login sees it *)
Definition session_in_range (now : Z) (realm : Realm) : Prop :=
  op_in_range (OpUpsert now "" realm (mkClient "" UsernamePassword) "").
(** A new session is found for as long as neither of its lifetimes has passed. *)
Class SessionStoreLaws (S : Type) `{ST : SessionStore S} : Prop :=
  upsert_then_get : ∀ now id realm client value s s' t,
    session_in_range now realm →
    ss_upsert_session now id realm client value s = (Ok (), s') →
    (now ≤ t ≤ now + Z.min (realm_session_max_stale_age_seconds realm)
                           (realm_session_max_age_seconds realm))%Z →
    ∃ s'', ss_get_session t id s' = (Ok (Some (new_session now id realm client value)), s'').
#[export] Instance sqlite_session_laws `{SX : Sqlx} : SessionStoreLaws SessionTable.
Proof.
  intros now id realm client value s s' t Hr. unfold session_in_range in Hr. simpl in *. unfold upsert_session.
  destruct (s !! id); [done|]. intros [= <-] Ht.
  unfold get_session, bind, gets, modify, ret. rewrite lookup_insert_eq. simpl.
  rewrite decide_False; [by eexists|].
  rewrite !i64_add_id by (unfold in_i64, i64_min, i64_max in *; lia). lia.
Qed.

(** * Middlewares: what holds when the service behind them answers *)
Section served.
Context {S : Type} {ST : SessionStore S} {L : DbLibs} {TL : TokenLibs} {B64 : Base64}.
Implicit Types s : Server S.

Definition served {B} (m : SrvM HttpError (HttpResponse (Reply B))) s (body : B) s' : Prop :=
  ∃ status, m s = (Ok (mkResponse status (Answer body)), s').

Lemma on_db_reads {E A} (m : M Database E A) s :
  reads m → on_db m s = ((m (srv_db s)).1, s).
Proof.
  intros Hm. unfold on_db. specialize (Hm (srv_db s)). destruct (m (srv_db s)) as [r d].
  simpl in *. subst. by destruct s.
Qed.
Lemma served_text {B} status text s (b : B) s' : ¬ served (into_response status text) s b s'.
Proof. by intros [st H]. Qed.
Lemma rate_limit_served {B} allowed (service : Service B) ext s b s' :
  served (login_rate_limit allowed service ext) s b s' → allowed = true ∧ served (service ext) s b s'.
Proof. destruct allowed; [done|]. by intros H%served_text. Qed.
Lemma ensure_auth_served {B} dflt (service : Service B) ext s b s' :
  served (ensure_auth true dflt service ext) s b s' →
  ∃ client, ext_client ext = Some client ∧ served (service ext) s b s'.
Proof.
  unfold ensure_auth. destruct (ext_client ext) as [c|]; [by eauto|]. by intros H%served_text.
Qed.

Lemma process_realm_run rid text s :
  process_realm rid text s =
    (match (get_realm rid (srv_db s)).1 with
     | Ok (Some realm) => Ok realm
     | Ok None => Err (StatusErr 401 text)
     | Err _ => Err db_failure
     end, s).
Proof.
  unfold process_realm, bind, with_err. rewrite on_db_reads by apply get_realm_reads.
  by destruct (get_realm rid (srv_db s)).1 as [[r|]|e].
Qed.
Lemma extract_realm_served {B} req (service : Service B) ext s b s' :
  served (extract_realm req service ext) s b s' →
  ∃ ext', served (service ext') s b s' ∧
    match realm_param (rq_query_string req) with
    | None => ext' = ext
    | Some rid => ∃ realm, get_realm rid (srv_db s) = (Ok (Some realm), srv_db s) ∧
                           ext' = insert_realm realm ext
    end.
Proof.
  unfold extract_realm. destruct (realm_param _) as [rid|]; [|by eauto].
  intros [st H]. unfold bind in H. rewrite process_realm_run in H.
  pose proof (get_realm_reads rid (srv_db s)) as Hr.
  destruct (get_realm rid (srv_db s)) as [[[realm|]|e] d] eqn:Hg; simpl in *; try done. subst d.
  exists (insert_realm realm ext). split; [by exists st|]. by exists realm.
Qed.

(** The credential was checked against the realm's own entry. *)
Definition basic_authenticated (req : Request) (realm : Realm) (s : Server S) (username : string)
    : Prop :=
  ∃ password params change_password,
    extract_basic_auth_credentials (rq_authorization req) = Some (username, password) ∧
    rap_username_password_params (realm_auth_params realm) = Some params ∧
    (validate_userpass (realm_id realm) username password (srv_db s)).1 = Ok change_password ∧
    (change_password = true → upp_allow_expired_passwords params = true).
Lemma username_password_served {B} req (service : Service B) ext s b s' :
  served (username_password req service ext) s b s' →
  ∃ ext', served (service ext') s b s' ∧
    (ext' = ext ∨ ∃ realm username, ext_realm ext = Some realm ∧
       basic_authenticated req realm s username ∧
       ext' = insert_client (mkClient username UsernamePassword) ext).
Proof.
  unfold username_password. destruct (ext_client ext); [by eauto|].
  destruct (extract_basic_auth_credentials _) as [[u p]|] eqn:Hbasic; [|by eauto].
  destruct (ext_realm ext) as [realm|]; [|by eauto].
  destruct (rap_username_password_params _) as [params|] eqn:Hparams; [|by eauto].
  intros [st H]. rewrite on_db_reads in H by apply validate_userpass_reads.
  destruct (validate_userpass (realm_id realm) u p (srv_db s)).1 as [[]|e] eqn:Hv.
  - destruct (upp_allow_expired_passwords params) eqn:Hexp; [|done].
    eexists. split; [by exists st|]. right. exists realm, u. split; [done|].
    split; [|done]. by exists p, params, true.
  - eexists. split; [by exists st|]. right. exists realm, u. split; [done|].
    split; [|done]. by exists p, params, false.
  - done.
Qed.

(** The bearer token was verified, for one of the realm's providers, by a key that the server has
    for this realm in its cache [j], or that a URI of the realm answers during the request. *)
Definition bearer_authenticated (clock : Clock) (http_get : string → Result Value AuthError)
    (req : Request) (j : JwksManager) (realm : Realm) (username : string) : Prop :=
  ∃ params idp token header kid jwk key claims,
    rap_jwt_params (realm_auth_params realm) = Some params ∧ idp ∈ jp_idp_params params ∧
    splitn 2 " " (default "" (rq_authorization req)) = ["Bearer"; token] ∧
    decode_header token = Ok header ∧ jh_kid header = Some kid ∧
    realm_key http_get j (realm_id realm) (idp_jwks_uri <$> jp_idp_params params) kid jwk ∧
    decoding_key_of_jwk jwk = Ok key ∧
    decode_claims (clk_secs clock) token key (bearer_validation (jh_alg header) idp) = Ok claims ∧
    rc_sub (cc_registered claims) = Some username.

Lemma decode_bearer_header_cache now now1 now2 http_get rid idp token j r j' P :
  decode_bearer_header now now1 now2 http_get rid idp token j = (r, j') →
  keys_within http_get rid P j → keys_within http_get rid P j'.
Proof.
  unfold decode_bearer_header, bind, of_result.
  destruct (map_err _ (decode_header token)); [|by intros [= _ <-]]. destruct (ok_or _ _); [|by intros [= _ <-]].
  destruct (find_jwk _ _ _ _ _ _) as [x j1] eqn:Hj. intros H Hw.
  apply (find_jwk_within _ _ _ _ _ _ _ _ _ Hj) in Hw.
  destruct x as [[jwk|]|]; simpl in H; [|by injection H as _ <-..].
  destruct (map_err _ (decoding_key_of_jwk jwk)); by injection H as _ <-.
Qed.
Lemma decode_bearer_header_Ok now now1 now2 http_get rid idp token j claims j' :
  decode_bearer_header now now1 now2 http_get rid idp token j = (Ok claims, j') →
  ∃ header kid jwk key, decode_header token = Ok header ∧ jh_kid header = Some kid ∧
    cached_key j rid kid jwk ∧ decoding_key_of_jwk jwk = Ok key ∧
    decode_claims now token key (bearer_validation (jh_alg header) idp) = Ok claims.
Proof.
  unfold decode_bearer_header, bind, of_result.
  destruct (decode_header token) as [header|e]; [|done]. simpl.
  destruct (jh_kid header) as [kid|] eqn:Hkid; [|done]. simpl.
  destruct (find_jwk _ _ _ _ _ _) as [[[jwk|]|e] j1] eqn:Hj; try done. simpl.
  apply find_jwk_found in Hj. destruct (decoding_key_of_jwk jwk) as [key|e] eqn:Hkey; [|done]. simpl.
  destruct (decode_claims _ _ _ _) as [c|e] eqn:Hc; [|done]. simpl. intros [= <- <-].
  exists header, kid, jwk, key. done.
Qed.
Lemma try_idps_Ok now now1 now2 http_get rid token errors idps j claims j' P :
  try_idps now now1 now2 http_get rid token errors idps j = (Ok claims, j') →
  keys_within http_get rid P j →
  ∃ idp header kid jwk keys key, idp ∈ idps ∧ decode_header token = Ok header ∧
    jh_kid header = Some kid ∧ P keys ∧ jwk ∈ keys ∧ jwk_key_id jwk = Some kid ∧
    decoding_key_of_jwk jwk = Ok key ∧
    decode_claims now token key (bearer_validation (jh_alg header) idp) = Ok claims.
Proof.
  revert errors j. induction idps as [|idp idps IH]; intros errors j; [done|]. cbn [try_idps].
  setoid_rewrite elem_of_cons.
  destruct (decode_bearer_header _ _ _ _ _ _ _ _) as [[c|e] j1] eqn:Hd; intros Hrun Hw.
  - injection Hrun as <- <-. apply decode_bearer_header_Ok in Hd as (header & kid & jwk & key & ? & ? & Hk & ?).
    destruct (within_key _ _ _ _ _ _ Hw Hk) as (keys & ? & ? & ?).
    exists idp, header, kid, jwk, keys, key. tauto.
  - apply (decode_bearer_header_cache _ _ _ _ _ _ _ _ _ _ _ Hd) in Hw.
    destruct (IH _ _ Hrun Hw) as (idp' & header & kid & jwk & keys & key & H).
    exists idp', header, kid, jwk, keys, key. tauto.
Qed.
Lemma ensure_realm_within now http_get rid params (j j' : JwksManager) r :
  ensure_realm_jwks_is_managed now http_get rid params j = (r, j') →
  keys_within http_get rid (realm_keys http_get j rid (idp_jwks_uri <$> jp_idp_params params)) j'.
Proof.
  unfold ensure_realm_jwks_is_managed, has_realm, bind, gets, realm_keys.
  case_bool_decide as Hm; intros [= _ <-].
  - destruct Hm as [entry Hentry]. rewrite Hentry. exists entry.
    split_and!; [done|by intros uri keys H; exists uri; left|by intros uri keys Hu H; exists uri; right].
  - apply eq_None_not_Some in Hm. rewrite Hm. eexists. rewrite lookup_insert_eq. split; [done|].
    simpl. split; intros uri keys; [intros H%fetch_all_lookup|intros Hu H]; by exists uri.
Qed.
Lemma handle_jwt_Ok clock http_get realm params req j j0 client j' :
  rap_jwt_params (realm_auth_params realm) = Some params →
  keys_within http_get (realm_id realm)
    (realm_keys http_get j (realm_id realm) (idp_jwks_uri <$> jp_idp_params params)) j0 →
  handle_jwt (clk_secs clock) (clk_nanos clock) (clk_nanos clock) http_get (realm_id realm) params
    req j0 = (Ok client, j') →
  bearer_authenticated clock http_get req j realm (acs_username client) ∧
  acs_auth_scheme client = Jwt.
Proof.
  intros Hp Hw. unfold handle_jwt, try_client_claims_from_token, bind, of_result, throw.
  destruct (splitn 2 " " _) as [|scheme [|token [|x l]]] eqn:Hsplit; try done.
  destruct (decide (scheme = "Bearer")) as [->|]; [|done]. destruct (decide (token = "")); [done|].
  destruct (try_idps _ _ _ _ _ _ _ _ _) as [[claims|e] j1] eqn:Ht; [|done].
  destruct (try_idps_Ok _ _ _ _ _ _ _ _ _ _ _ _ Ht Hw) as (idp & header & kid & jwk & keys & key & H').
  destruct (rc_sub (cc_registered claims)) as [sub|] eqn:Hsub; [|done].
  intros [= <- <-]. split; [|done]. exists params, idp, token, header, kid, jwk, key, claims.
  destruct H' as (? & ? & ? & ? & ? & ? & ? & ?). split_and!; try done. by exists keys.
Qed.
Lemma jwt_auth_served {B} clock http_get req (service : Service B) ext s b s' :
  served (jwt_auth clock http_get req service ext) s b s' →
  ∃ ext' j, served (service ext') (mkServer (srv_db s) j (srv_sessions s)) b s' ∧
    (ext' = ext ∨ ∃ realm client, ext_realm ext = Some realm ∧
       bearer_authenticated clock http_get req (srv_jwks s) realm (acs_username client) ∧
       acs_auth_scheme client = Jwt ∧ ext' = insert_client client ext).
Proof.
  assert (Hs : s = mkServer (srv_db s) (srv_jwks s) (srv_sessions s)) by by destruct s.
  unfold jwt_auth. destruct (ext_client ext) as [c|].
  { intros H. exists ext, (srv_jwks s). rewrite <-Hs. auto. }
  destruct (ext_realm ext) as [realm|].
  2: { intros H. exists ext, (srv_jwks s). rewrite <-Hs. auto. }
  destruct (rap_jwt_params (realm_auth_params realm)) as [params|] eqn:Hp.
  2: { intros H. exists ext, (srv_jwks s). rewrite <-Hs. auto. }
  intros [st H]. unfold bind, auth, with_err, on_jwks in H.
  destruct (ensure_realm_jwks_is_managed _ _ _ _ _) as [[[]|e] j0] eqn:He; [|done]. simpl in H.
  apply ensure_realm_within in He.
  destruct (handle_jwt _ _ _ _ _ _ _ _) as [[client|e] j1] eqn:Hh.
  - apply (handle_jwt_Ok _ _ _ _ _ (srv_jwks s)) in Hh as [Hb Hj]; [|done..].
    exists (insert_client client ext), j1. split; [by exists st|]. right. exists realm, client. done.
  - exists ext, j1. split; [by exists st|]. auto.
Qed.
End served.

(** * The login handler *)
Section login.
Context {S : Type} {ST : SessionStore S} {L : DbLibs} {TL : TokenLibs} {B64 : Base64}.
Implicit Types s : Server S.

(** The second factor of the administrator record with the client's user name as its id. *)
Definition second_factor (now : Z) (realm : Realm) (username : string) (request : LoginRequest)
    (s : Server S) : Prop :=
  (is_totp_enabled (realm_id realm) username (srv_db s)).1 = Ok (Some true) →
  ∃ code secret, lr_totp_code request = Some code ∧
    (get_totp_secret (realm_id realm) username (srv_db s)).1 = Ok (Some secret) ∧
    (check_totp now realm username secret code s).1 = Ok true.

Lemma check_totp_reads now realm username secret code :
  reads (check_totp (S := S) now realm username secret code).
Proof. unfold check_totp. solve_reads. Qed.
Lemma session_err_run {A} what (m : DbM A) s :
  reads m → session_err (S := S) what m s =
    (map_err (λ e, Session (what +:+ ": " +:+ db_error_to_string e)) (m (srv_db s)).1, s).
Proof.
  intros Hm. unfold session_err. rewrite on_db_reads by by apply reads_with_err.
  unfold with_err. by destruct (m (srv_db s)).
Qed.
Lemma login_cookie now now1 now2 config ext request s resp s' result cookie :
  login now now1 now2 config ext request s = (Ok resp, s') →
  http_body resp = LoginResult result (Some cookie) →
  ∃ realm client, ext_realm ext = Some realm ∧ ext_client ext = Some client ∧
    second_factor now realm (acs_username client) request s ∧
    open_session now1 now2 config realm client s = (Ok resp, s').
Proof.
  unfold login, second_factor. unfold bind at 1 2 3, of_result at 1 2.
  destruct (ext_realm ext) as [realm|]; [|done]. destruct (ext_client ext) as [client|]; [|done].
  simpl. rewrite session_err_run by apply is_totp_enabled_reads.
  destruct (is_totp_enabled _ _ _).1 as [totp|e] eqn:Htotp; [|done]. simpl.
  destruct (default false totp) eqn:Hdef.
  - destruct (lr_totp_code request) as [code|]; [|by intros [= <- _]].
    unfold bind at 1 2 3, of_result at 1. rewrite session_err_run by apply get_totp_secret_reads.
    destruct (get_totp_secret _ _ _).1 as [[secret|]|e] eqn:Hsecret; try done. simpl.
    pose proof (check_totp_reads now realm (acs_username client) secret code s) as Hr.
    destruct (check_totp _ _ _ _ _ s) as [[[]|e] s1] eqn:Hc; simpl in Hr; subst s1; [|by intros [= <- _]|done].
    intros Ho _. exists realm, client. split_and!; try done. intros _. exists code, secret.
    by rewrite Hc.
  - intros Ho _. exists realm, client. split_and!; try done. intros H.
    rewrite Htotp in H. by simplify_eq/=.
Qed.

(** What a new session is. *)
Definition opened (now now' : Z) (config : ServerConfig) (realm : Realm)
    (client : AuthenticatedClientScheme) (s : Server S) (result : AuthenticationResult)
    (cookie : SessionCookie) (s' : Server S) : Prop :=
  ∃ claims x,
    login_claims (realm_id realm) client s = (Ok claims, s) ∧
    issue_token now (acs_username client) (acs_auth_scheme client) (realm_id realm)
      claims.1 claims.2 (cfg_jwt config) (realm_session_max_age_seconds realm)
      = Ok (ck_value cookie) ∧
    build_cookie (ck_value cookie) (realm_session_max_age_seconds realm) (cfg_is_https config)
      = Ok cookie ∧
    result = mkAuthenticationResult Authenticated (Some (sha256_hex (ck_value cookie))) ∧
    ss_upsert_session now' (sha256_hex (ck_value cookie)) realm client (cookie_to_string cookie)
      (srv_sessions s) = (Ok (), x) ∧
    s' = mkServer (srv_db s) (srv_jwks s) x.
Lemma login_claims_reads rid client : reads (login_claims (S := S) rid client).
Proof.
  unfold login_claims. case_decide; [|apply reads_ret]. apply reads_bind.
  - intros s. rewrite on_db_reads; [done|]. unfold db. eauto with reads.
  - intros [up|]; apply reads_ret.
Qed.
Lemma open_session_run now now' config realm client s resp s' :
  open_session now now' config realm client s = (Ok resp, s') →
  ∃ result cookie, resp = HttpOk (LoginResult result (Some cookie)) ∧
    opened now now' config realm client s result cookie s'.
Proof.
  unfold open_session. unfold bind at 1.
  pose proof (login_claims_reads (realm_id realm) client s) as Hr.
  destruct (login_claims _ _ s) as [[claims|e] s1] eqn:Hc; [|done]. simpl in Hr. subst s1.
  unfold bind at 1, of_result at 1.
  destruct (issue_token _ _ _ _ _ _ _ _) as [token|e] eqn:Ht; [|done].
  unfold bind at 1, of_result at 1. unfold build_cookie at 1. set (cookie := mkCookie _ _ _ _ _ _ _).
  unfold bind, of_result, session_id_from_cookie_value, on_sessions, ret.
  destruct (ss_upsert_session _ _ _ _ _ _) as [[[]|e] x] eqn:Hu; [|done].
  intros [= <- <-]. eexists _, cookie. split; [done|].
  exists claims, x. done.
Qed.
End login.

(** C4: a login that sets a session cookie was authenticated.  The realm named in the query
    exists; either the HTTP Basic credential is that realm's own and the realm allows it, or
    the bearer token was verified for one of the realm's providers by a key of that realm: one that
    the server's own cache holds under the id of the realm, or that one of the realm's URIs
    answers during the request; and if the
    administrator record of that name has TOTP enabled, the code was checked against its stored
    secret.  The session id is the digest of the cookie, and only the session store and the key
    cache may have changed. *)
Theorem login_sound {S : Type} `{ST : SessionStore S} `{L : DbLibs} `{TL : TokenLibs} `{B64 : Base64}
    (clock : Clock) (http_get : string → Result Value AuthError) (default_username : option string)
    (allowed : bool) (config : ServerConfig) (req : Request) (request : LoginRequest)
    (s s' : Server S) (resp : HttpResponse (Reply LoginBody)) (result : AuthenticationResult)
    (cookie : SessionCookie) :
  login_scope clock http_get default_username allowed config req request s = (Ok resp, s') →
  http_body resp = Answer (LoginResult result (Some cookie)) →
  ∃ rid realm client,
    realm_param (rq_query_string req) = Some rid ∧
    get_realm rid (srv_db s) = (Ok (Some realm), srv_db s) ∧
    (acs_auth_scheme client = UsernamePassword ∧ basic_authenticated req realm s (acs_username client) ∨
     acs_auth_scheme client = Jwt ∧
       bearer_authenticated clock http_get req (srv_jwks s) realm (acs_username client)) ∧
    second_factor (clk_secs clock) realm (acs_username client) request s ∧
    result = mkAuthenticationResult Authenticated (Some (sha256_hex (ck_value cookie))) ∧
    srv_db s' = srv_db s.
Proof.
  intros Hrun Hbody.
  assert (served (login_scope clock http_get default_username allowed config req request) s
    (LoginResult result (Some cookie)) s') as H.
  { destruct resp as [st b]. simpl in Hbody. subst b. by exists st. }
  clear Hrun Hbody resp. unfold login_scope in H.
  apply rate_limit_served in H as [_ H].
  apply extract_realm_served in H as (ext1 & H & Hext1).
  apply username_password_served in H as (ext2 & H & Hext2).
  apply jwt_auth_served in H as (ext3 & j & H & Hext3).
  apply ensure_auth_served in H as (client & Hclient & [st H]).
  unfold handler, bind, auth, with_err in H.
  destruct (login _ _ _ _ _ _ _) as [[r|e] s1] eqn:Hlogin; [|done]. simpl in H.
  injection H as _ Hb <-. unfold ret in *.
  destruct (login_cookie _ _ _ _ _ _ _ _ _ _ _ Hlogin Hb) as (realm & client' & Hr & Hc & Hsf & Ho).
  assert (client' = client) as -> by congruence. clear Hc.
  apply open_session_run in Ho as (result' & cookie' & -> & Hop). simpl in Hb.
  injection Hb as -> ->. destruct Hop as (claims & x & _ & _ & _ & Hres & _ & ->).
  assert (Hsf' : second_factor (clk_secs clock) realm (acs_username client) request s).
  { intros Ht. apply Hsf in Ht as (code & secret & ? & ? & Hck). exists code, secret.
    split_and!; [done|done|]. revert Hck. unfold check_totp, bind, of_result.
    destruct (transpose _); [|done]. by destruct (from_secret _ _ _ _). }
  destruct (realm_param _) as [rid|].
  - destruct Hext1 as (realm1 & Hget & ->). exists rid, realm1, client.
    destruct Hext2 as [->|(r2 & u2 & H2 & Hb2 & ->)], Hext3 as [->|(r3 & c3 & H3 & Hb3 & Hj3 & ->)];
      simpl in *; simplify_eq; auto 10.
  - subst ext1. destruct Hext2 as [->|(r2 & u2 & H2 & Hb2 & ->)]; [|done].
    destruct Hext3 as [->|(r3 & c3 & H3 & Hb3 & Hj3 & ->)]; done.
Qed.
Lemma toy_login_scope_ok :
  let run := login_scope toy_clock toy_no_http None true toy_config toy_login_request
               (mkLoginRequest None) toy_server in
  ∃ resp s' result cookie, run = (Ok resp, s') ∧
    http_body resp = Answer (LoginResult result (Some cookie)).
Proof.
  intros run.
  assert (match run.1 with
          | Ok resp => match http_body resp with Answer b => sets_cookie b | Text _ => false end
          | Err _ => false
          end = true) as H by by vm_compute.
  destruct run as [[[st [[result [cookie|]|]|]]|] s']; try done. by eexists _, s', result, cookie.
Qed.
Lemma login_sound_witness :
  let run := login_scope toy_clock toy_no_http None true toy_config toy_login_request
               (mkLoginRequest None) toy_server in
  ∃ resp s' result cookie,
    run = (Ok resp, s') ∧ http_body resp = Answer (LoginResult result (Some cookie)) ∧
    ∃ realm client,
      (acs_auth_scheme client = UsernamePassword ∧
         basic_authenticated toy_login_request realm toy_server (acs_username client) ∨
       acs_auth_scheme client = Jwt ∧
         bearer_authenticated toy_clock toy_no_http toy_login_request (srv_jwks toy_server) realm
           (acs_username client)) ∧
      srv_db s' = srv_db toy_server.
Proof.
  intros run.
  assert (Hrun : ∃ resp s' result cookie, run = (Ok resp, s') ∧
    http_body resp = Answer (LoginResult result (Some cookie))).
  { apply toy_login_scope_ok. }
  destruct Hrun as (resp & s' & result & cookie & Hrun & Hbody).
  exists resp, s', result, cookie. split; [exact Hrun|]. split; [exact Hbody|].
  destruct (login_sound _ _ _ _ _ _ _ _ _ _ _ _ Hrun Hbody)
    as (rid & realm & client & _ & _ & Hauth & _ & _ & Hdb).
  exists realm, client. exact (conj Hauth Hdb).
Defined.

(** * Presenting the cookie *)
Section cookie.
Context {S : Type} {ST : SessionStore S} {SL : SessionStoreLaws S} {L : DbLibs} {TL : TokenLibs}
  {B64 : Base64}.
Implicit Types s : Server S.

(** Extra claims that can live in a token: what enrolment accepts. *)
Definition extra_claims_accepted (realm_id : string) (client : AuthenticatedClientScheme)
    (s : Server S) : Prop :=
  ∀ claims s', login_claims realm_id client s = (Ok claims, s') →
    ∀ k, k ∈ dom claims.2 → k ∉ reserved_claim_names.

Lemma opened_cookie_auth {B} now config realm client s result cookie s' t req (service : Service B) ext :
  TokenLaws (cfg_jwt config) →
  opened now now config realm client s result cookie s' →
  session_in_range now realm → extra_claims_accepted (realm_id realm) client s →
  (now ≤ t ≤ now + Z.min (realm_session_max_stale_age_seconds realm)
                         (realm_session_max_age_seconds realm))%Z →
  rq_cookie req = Some (ck_value cookie) →
  ∃ claims x,
    login_claims (realm_id realm) client s = (Ok claims, s) ∧
    cookie_auth t (cfg_jwt config) req service ext s' =
      service (insert_claims (session_claims now (acs_username client) (acs_auth_scheme client)
          (realm_id realm) claims.1 claims.2 (realm_session_max_age_seconds realm)) ext)
        (mkServer (srv_db s) (srv_jwks s) x).
Proof.
  intros Hlaws (claims & x & Hclaims & Htoken & Hcookie & _ & Hup & ->) Hrange Hextra Ht Hreq.
  unfold issue_token in Htoken. destruct (encode_claims _ _ _) as [token|e] eqn:Henc; [|done].
  injection Htoken as ->.
  destruct (upsert_then_get now _ realm client _ _ _ t Hrange Hup Ht) as [x' Hget].
  exists claims, x'. split; [done|]. unfold cookie_auth, bind, auth, with_err, of_result, on_sessions.
  rewrite Hreq. simpl. rewrite Hget. simpl.
  rewrite (cookie_roundtrip (config := cfg_jwt config) _ _ _ _ _ Henc Hcookie). simpl.
  unfold validate_session_token.
  rewrite (token_roundtrip (config := cfg_jwt config) t _ _ _ Henc (Hextra _ _ Hclaims) eq_refl
    eq_refl eq_refl); [done| |];
  unfold session_in_range in Hrange; simpl in Hrange;
  rewrite i64_add_id by (unfold in_i64, i64_min, i64_max in *; lia); lia.
Qed.
Lemma login_opened now now1 now2 config ext request s resp s' result cookie :
  login now now1 now2 config ext request s = (Ok resp, s') →
  http_body resp = LoginResult result (Some cookie) →
  ∃ realm client, ext_realm ext = Some realm ∧ ext_client ext = Some client ∧
    opened now1 now2 config realm client s result cookie s'.
Proof.
  intros Hl Hb. destruct (login_cookie _ _ _ _ _ _ _ _ _ _ _ Hl Hb) as (realm & client & ? & ? & _ & Ho).
  exists realm, client. split_and!; try done.
  apply open_session_run in Ho as (r & c & -> & Ho). simpl in Hb. by injection Hb as -> ->.
Qed.

(** The administrator whose record points at a user name. *)
Definition sole_admin (username : string) (a : string) (d : Database) : Prop :=
  ∀ id row, db_admin d !! id = Some row → ar_userpass row = Some username → id = a.
Lemma find_admins_sole username a row admin d :
  sole_admin username a d → db_admin d !! a = Some row → ar_userpass row = Some username →
  get_admin a d = (Ok (Some admin), d) →
  find_admins_by_auth_scheme UsernamePassword username d = (Ok [admin], d).
Proof.
  intros Hsole Hrow Hup Hget. unfold find_admins_by_auth_scheme, bind, gets.
  assert (fst <$> filter (λ r, admin_column UsernamePassword r.2 = Some username)
            (map_to_list (db_admin d)) = [a]) as ->.
  { apply NoDup_singleton_eq.
    - apply NoDup_fmap_fst, NoDup_filter, NoDup_map_to_list.
      intros i y1 y2 [_ H1%elem_of_map_to_list]%list_elem_of_filter
        [_ H2%elem_of_map_to_list]%list_elem_of_filter. congruence.
    - intros id. rewrite list_elem_of_fmap. setoid_rewrite list_elem_of_filter. split.
      + intros ([i r] & -> & Hr & Hin%elem_of_map_to_list). by eapply Hsole.
      + intros ->. exists (a, row). by rewrite elem_of_map_to_list. }
  simpl. unfold bind, ret. by rewrite Hget.
Qed.
End cookie.

#[local] Arguments find_admins_by_auth_scheme : simpl never.

(** C5: a session cookie stands for the client that logged in.  Presented while neither session
    lifetime has passed, it runs the service behind the cookie check with the client's name,
    scheme and realm, and with the roles and extra claims its credential had at login. *)
Theorem session_cookie_stands_for_client {S : Type} `{SL : SessionStoreLaws S} `{L : DbLibs}
    `{TL : TokenLibs} `{B64 : Base64} (now t : Z) (config : ServerConfig) (ext : Extensions)
    (request : LoginRequest) (s s' : Server S) (resp : HttpResponse LoginBody)
    (result : AuthenticationResult) (cookie : SessionCookie) (realm : Realm)
    (client : AuthenticatedClientScheme) (req : Request) (B : Type) (service : Service B)
    (ext' : Extensions) :
  TokenLaws (cfg_jwt config) →
  login now now now config ext request s = (Ok resp, s') →
  http_body resp = LoginResult result (Some cookie) →
  ext_realm ext = Some realm → ext_client ext = Some client →
  session_in_range now realm → extra_claims_accepted (realm_id realm) client s →
  (now ≤ t ≤ now + Z.min (realm_session_max_stale_age_seconds realm)
                         (realm_session_max_age_seconds realm))%Z →
  rq_cookie req = Some (ck_value cookie) →
  ∃ claims x,
    (login_claims (realm_id realm) client s).1 = Ok claims ∧
    cookie_auth t (cfg_jwt config) req service ext' s' =
      service (insert_claims (session_claims now (acs_username client) (acs_auth_scheme client)
          (realm_id realm) claims.1 claims.2 (realm_session_max_age_seconds realm)) ext')
        (mkServer (srv_db s) (srv_jwks s) x).
Proof.
  intros Hlaws Hl Hb Hr Hc Hrange Hextra Ht Hreq.
  destruct (login_opened _ _ _ _ _ _ _ _ _ _ _ Hl Hb) as (realm' & client' & ? & ? & Ho).
  assert (realm' = realm) as -> by congruence. assert (client' = client) as -> by congruence.
  destruct (opened_cookie_auth now config realm client s result cookie s' t req service ext'
    Hlaws Ho Hrange Hextra Ht Hreq) as (claims & x & Hcl & Hrun).
  exists claims, x. by rewrite Hcl.
Qed.
Lemma toy_extra_claims_accepted : extra_claims_accepted "r" toy_login_client toy_server.
Proof.
  intros claims s' H.
  assert (map_ok (λ c, size c.2) (login_claims "r" toy_login_client toy_server).1 = Ok 0) as Hsize
    by by vm_compute.
  rewrite H in Hsize. injection Hsize as Hsize%map_size_empty_inv. rewrite Hsize. set_solver.
Qed.
Lemma session_cookie_stands_for_client_witness :
  ∃ resp s' result cookie,
    toy_login = (Ok resp, s') ∧ http_body resp = LoginResult result (Some cookie) ∧
    ∃ claims x,
      cookie_auth 700 toy_token_config (toy_present cookie) (λ ext, handler (whoami ext))
        no_extensions s' =
      handler (whoami (insert_claims (session_claims 100 "admin" UsernamePassword "r" claims.1
        claims.2 3600) no_extensions)) (mkServer (srv_db toy_server) (srv_jwks toy_server) x).
Proof.
  destruct toy_login_ok as (resp & s' & result & cookie & Hrun & Hbody).
  exists resp, s', result, cookie. split; [exact Hrun|]. split; [exact Hbody|].
  assert (Hrange : session_in_range 100 toy_login_realm) by (unfold session_in_range; by vm_compute).
  destruct (session_cookie_stands_for_client 100 700 toy_config toy_login_ext (mkLoginRequest None)
    toy_server s' resp result cookie toy_login_realm toy_login_client (toy_present cookie) _
    (λ ext, handler (whoami ext)) no_extensions toy_token_laws Hrun Hbody eq_refl eq_refl Hrange
    toy_extra_claims_accepted ltac:(simpl; lia) eq_refl) as (claims & x & _ & H).
  exists claims, x. exact H.
Defined.

(** C40: the realm of a session plays no part in which administrator it stands for.  Whoever logs
    in with a user name and password to any realm at all, under the user name that an
    administrator's record points at, is that administrator on the administration endpoints. *)
Theorem any_realm_session_is_admin {S : Type} `{SL : SessionStoreLaws S} `{L : DbLibs}
    `{TL : TokenLibs} `{B64 : Base64} (now t : Z) (config : ServerConfig) (ext : Extensions)
    (request : LoginRequest) (s s' : Server S) (resp : HttpResponse LoginBody)
    (result : AuthenticationResult) (cookie : SessionCookie) (realm admin_realm : Realm)
    (username a : string) (row : AdminRow) (admin : Admin) (req : Request) (B : Type)
    (api : option Admin → ApiM (HttpResponse B)) :
  TokenLaws (cfg_jwt config) →
  login now now now config ext request s = (Ok resp, s') →
  http_body resp = LoginResult result (Some cookie) →
  ext_realm ext = Some realm → ext_client ext = Some (mkClient username UsernamePassword) →
  session_in_range now realm →
  extra_claims_accepted (realm_id realm) (mkClient username UsernamePassword) s →
  (now ≤ t ≤ now + Z.min (realm_session_max_stale_age_seconds realm)
                         (realm_session_max_age_seconds realm))%Z →
  rq_cookie req = Some (ck_value cookie) →
  get_realm ADMIN_REALM (srv_db s) = (Ok (Some admin_realm), srv_db s) →
  sole_admin username a (srv_db s) → db_admin (srv_db s) !! a = Some row →
  ar_userpass row = Some username → get_admin a (srv_db s) = (Ok (Some admin), srv_db s) →
  ∃ x, admins_scope t config req api s' =
    handler (on_db (api (Some admin))) (mkServer (srv_db s) (srv_jwks s) x).
Proof.
  intros Hlaws Hl Hb Hr Hc Hrange Hextra Ht Hreq Hadm Hsole Hrow Hup Hget.
  destruct (login_opened _ _ _ _ _ _ _ _ _ _ _ Hl Hb) as (realm' & client' & ? & ? & Ho).
  assert (realm' = realm) as -> by congruence.
  assert (client' = mkClient username UsernamePassword) as -> by congruence.
  unfold admins_scope, inject_admin_realm.
  set (service := admin_auth _).
  destruct (opened_cookie_auth now config realm _ s result cookie s' t req service
    (insert_realm admin_realm no_extensions) Hlaws Ho Hrange Hextra Ht Hreq) as (claims & x & _ & Hrun).
  destruct Ho as (claims' & x' & _ & _ & _ & _ & _ & ->).
  exists x. unfold bind at 1. rewrite process_realm_run. cbn [srv_db]. rewrite Hadm. cbn [fst].
  rewrite Hrun. unfold service, admin_auth, bind at 1, auth, with_err, find_session_admin. simpl.
  unfold bind, of_result, with_err, on_db at 1. simpl.
  rewrite (find_admins_sole username a row admin) by done. done.
Qed.
Lemma toy_sole_admin : sole_admin "admin" "admin" (srv_db toy_server).
Proof.
  assert (Hall : map_Forall (λ id row, ar_userpass row = Some "admin" → id = "admin")
    (db_admin (srv_db toy_server))) by (apply (bool_decide_unpack _); by vm_compute).
  exact Hall.
Qed.
Lemma any_realm_session_is_admin_witness :
  ∃ resp s' result cookie,
    toy_login = (Ok resp, s') ∧ http_body resp = LoginResult result (Some cookie) ∧
    ∃ admin x, is_super_admin admin = true ∧
      admins_scope 200 toy_config (toy_present cookie) api_list_admins s' =
      handler (on_db (api_list_admins (Some admin)))
        (mkServer (srv_db toy_server) (srv_jwks toy_server) x).
Proof.
  destruct toy_login_ok as (resp & s' & result & cookie & Hrun & Hbody).
  exists resp, s', result, cookie. split; [exact Hrun|]. split; [exact Hbody|].
  assert (Hrange : session_in_range 100 toy_login_realm) by (unfold session_in_range; by vm_compute).
  assert (Hrealm : ∃ admin_realm,
    get_realm ADMIN_REALM (srv_db toy_server) = (Ok (Some admin_realm), srv_db toy_server))
    by (eexists; by vm_compute).
  destruct Hrealm as [admin_realm Hrealm].
  assert (Hrow : ∃ row, db_admin (srv_db toy_server) !! "admin" = Some row ∧
    ar_userpass row = Some "admin") by (eexists; split; [by vm_compute|reflexivity]).
  destruct Hrow as (row & Hrow & Hup).
  assert (Hget : ∃ admin, get_admin "admin" (srv_db toy_server) = (Ok (Some admin), srv_db toy_server)
    ∧ is_super_admin admin = true) by (eexists; split; [by vm_compute|reflexivity]).
  destruct Hget as (admin & Hget & Hsuper).
  destruct (any_realm_session_is_admin 100 200 toy_config toy_login_ext (mkLoginRequest None)
    toy_server s' resp result cookie toy_login_realm admin_realm "admin" "admin" row admin
    (toy_present cookie) _ api_list_admins toy_token_laws Hrun Hbody eq_refl eq_refl Hrange
    toy_extra_claims_accepted ltac:(simpl; lia) eq_refl Hrealm toy_sole_admin Hrow Hup Hget)
    as (x & H).
  exists admin, x. exact (conj Hsuper H).
Defined.

(** The second factor is looked up by administrator id, not by the credential.  For a client
    whose user name is no administrator's id, login never asks for a code, although the session
    it opens may be that of an administrator who has TOTP enabled. *)
Theorem totp_asked_by_admin_id {S : Type} `{ST : SessionStore S} `{L : DbLibs} `{TL : TokenLibs}
    (now now1 now2 : Z) (config : ServerConfig) (ext : Extensions) (request : LoginRequest)
    (s : Server S) (realm : Realm) (client : AuthenticatedClientScheme) :
  ext_realm ext = Some realm → ext_client ext = Some client →
  db_admin (srv_db s) !! acs_username client = None →
  login now now1 now2 config ext request s = open_session now1 now2 config realm client s.
Proof.
  intros Hr Hc Hno. unfold login, bind at 1 2 3, of_result at 1 2. rewrite Hr, Hc. simpl.
  rewrite session_err_run by apply is_totp_enabled_reads.
  unfold is_totp_enabled, bind at 1, gets, select_totp_row. by rewrite Hno.
Qed.
Lemma totp_asked_by_admin_id_witness :
  let client := mkClient "bob" UsernamePassword in
  let ext := mkExtensions (Some toy_login_realm) (Some client) None None None in
  login 100 100 100 toy_config ext (mkLoginRequest None) toy_server =
  open_session 100 100 toy_config toy_login_realm client toy_server.
Proof.
  intros client ext.
  assert (Hno : db_admin (srv_db toy_server) !! acs_username client = None) by by vm_compute.
  exact (totp_asked_by_admin_id 100 100 100 toy_config ext (mkLoginRequest None) toy_server
    toy_login_realm client eq_refl eq_refl Hno).
Defined.
