(* ===== verification/CertifySpec.v ===== *)
(** What a client certificate promises: [POST /certify] ([Login.certify]). *)
From S2P Require Import Prelude RustStd Models ClaimPolicy Jwt Passwords Totp Database DatabaseFacts Toy AdminApi AdminApiFacts Sessions SessionSpec SessionToken Jwks Middleware Login ToyLogin LoginSpec.

Section certify.
Context {S : Type} {ST : SessionStore S} {L : DbLibs} {TL : TokenLibs} {B64 : Base64}.
Implicit Types s : Server S.

(** The claims of a request's session: a stored session of the cookie's digest, whose stored
    cookie holds a valid token. *)
Definition session_of (now : Z) (config : ServerConfig) (req : Request) (s : Server S)
    (claims : ClientClaims) : Prop :=
  ∃ cookie data token,
    rq_cookie req = Some cookie ∧
    (ss_get_session now (sha256_hex cookie) (srv_sessions s)).1 = Ok (Some data) ∧
    cookie_from_str (sd_cookie_string data) = Ok token ∧
    validate_session_token now token (jtc_algorithm (cfg_jwt config))
      (jtc_decoding_key (cfg_jwt config)) = Ok claims.
Lemma cookie_auth_served {B} now config req (service : Service B) ext s b s' :
  served (cookie_auth now (cfg_jwt config) req service ext) s b s' →
  ∃ claims x, session_of now config req s claims ∧
    served (service (insert_claims claims ext)) (mkServer (srv_db s) (srv_jwks s) x) b s'.
Proof.
  intros [st H]. unfold cookie_auth, bind, auth, with_err, of_result, on_sessions in H.
  destruct (rq_cookie req) as [cookie|] eqn:Hc; [|done]. simpl in H.
  destruct (ss_get_session now (sha256_hex cookie) (srv_sessions s)) as [[[data|]|e] x] eqn:Hg;
    try done. simpl in H.
  destruct (cookie_from_str _) as [token|] eqn:Ht; [|done]. simpl in H.
  destruct (validate_session_token _ _ _ _) as [claims|] eqn:Hv; [|done]. simpl in H.
  exists claims, x. split; [|by exists st]. exists cookie, data, token. by rewrite Hg.
Qed.

(** What is certified. *)
Definition certified (now : Z) (key : EncodingKey) (body : CertifyRequest) (claims : ClientClaims)
    (realm : Realm) (certificate : string) (c : CertificateClaims) : Prop :=
  encode_certificate ES256 key c = Ok certificate ∧
  (** who, as the session says *)
  Some (cert_realm_id c) = apc_realm_id (cc_private claims) ∧
  Some (cert_auth_scheme c) = apc_auth_scheme (cc_private claims) ∧
  (cert_sub c = if cr_exclude_sub body then None else rc_sub (cc_registered claims)) ∧
  (** what: the requested claims the session has, none of them reserved *)
  (∀ k, cert_extra c !! k = if decide (k ∈ cr_claims body) then cc_extra claims !! k else None) ∧
  (∀ k, k ∈ dom (cert_extra c) → k ∉ reserved_claim_names) ∧
  (cert_sub c = None → cert_extra c ≠ ∅) ∧
  (** for which key *)
  cert_verification_key c = trim (cr_verification_key body) ∧
  starts_with "-----BEGIN " (cert_verification_key c) = true ∧
  String.length (cert_verification_key c) ≤ MAX_VERIFICATION_KEY_LEN ∧
  (** until when *)
  cert_iat c = now ∧ cert_exp c = i64_add now (realm_certificate_max_age_seconds realm).

Lemma selected_lookup requested extra k :
  selected_claims requested extra !! k = if decide (k ∈ requested) then extra !! k else None.
Proof.
  unfold selected_claims. rewrite map_lookup_filter. destruct (extra !! k) as [v|]; simpl.
  - case_decide; [by rewrite option_guard_True|by rewrite option_guard_False].
  - by case_decide.
Qed.
Lemma bind_require_s {B} b e (k : () → SrvM (S := S) AuthError B) s x s' :
  bind (require_s b e) k s = (Ok x, s') → b = true ∧ k () s = (Ok x, s').
Proof. by destruct b. Qed.
Lemma bind_of_result_inv {A B} (r : Result A AuthError) (k : A → SrvM (S := S) AuthError B) s x s' :
  bind (of_result r) k s = (Ok x, s') → ∃ a, r = Ok a ∧ k a s = (Ok x, s').
Proof. destruct r as [a|]; [|done]. intros H. by exists a. Qed.
Lemma ok_or_inv {A E} (e : E) (o : option A) a : ok_or e o = Ok a → o = Some a.
Proof. destruct o; simpl; congruence. Qed.

Lemma certify_run now config ext body s resp s' :
  certify now config ext body s = (Ok resp, s') →
  s' = s ∧ ∃ key claims rid realm c,
    cfg_certificate config = Some key ∧ ext_claims ext = Some claims ∧
    apc_realm_id (cc_private claims) = Some rid ∧
    get_realm rid (srv_db s) = (Ok (Some realm), srv_db s) ∧
    certified now (jtc_encoding_key key) body claims realm (http_body resp) c.
Proof.
  unfold certify. cbv zeta. intros H.
  apply bind_require_s in H as [_ H]. apply bind_require_s in H as [Hlen H].
  apply bind_require_s in H as [Hpem H]. apply bind_of_result_inv in H as ([] & Hres & H).
  apply bind_of_result_inv in H as (key & Hkey%ok_or_inv & H).
  apply bind_of_result_inv in H as (claims & Hclaims%ok_or_inv & H).
  apply bind_of_result_inv in H as (sub & Hsub%ok_or_inv & H).
  apply bind_of_result_inv in H as (scheme & Hscheme%ok_or_inv & H).
  apply bind_of_result_inv in H as (rid & Hrid%ok_or_inv & H).
  unfold bind at 1 in H. rewrite on_db_reads in H by (unfold db; eauto with reads).
  pose proof (get_realm_reads rid (srv_db s)) as Hrd. unfold db, with_err in H.
  destruct (get_realm rid (srv_db s)) as [[orealm|e] d] eqn:Hget; [|done]. simpl in Hrd, H. subst d.
  apply bind_of_result_inv in H as (realm & ->%ok_or_inv & H).
  apply bind_require_s in H as [Hanon H]. apply bind_of_result_inv in H as (cert & Hcert & H).
  simpl in H. injection H as <- <-. split; [done|].
  destruct (encode_certificate _ _ _) as [cert'|] eqn:Henc; [|done]. injection Hcert as ->.
  eexists key, claims, rid, realm, _. do 4 (split; [done|]). split; [exact Henc|].
  rewrite andb_true_iff in Hpem. rewrite negb_true_iff, andb_false_iff in Hanon.
  apply Nat.leb_le in Hlen. rewrite reject_reserved_ok in Hres.
  split_and!; simpl; try tauto; try done.
  - destruct (cr_exclude_sub body); congruence.
  - intros k. apply selected_lookup.
  - intros k [v Hv]%elem_of_dom. rewrite selected_lookup in Hv. case_decide; [by apply Hres|done].
  - destruct (cr_exclude_sub body); [|done]. intros _. destruct Hanon as [|Hanon]; [done|].
    by apply bool_decide_eq_false in Hanon.
Qed.
End certify.

(** C17: a certificate says no more than the session it was asked with.  Its realm and scheme are
    those of a stored, valid session of the presented cookie, its subject is that session's or
    left out on request, and its extra claims are exactly the requested ones the session has:
    none is reserved, and an anonymous certificate has at least one.  It binds a PEM text of
    bounded length and expires after the realm's certificate lifetime. *)
Theorem certify_sound {S : Type} `{ST : SessionStore S} `{L : DbLibs} `{TL : TokenLibs}
    (now : Z) (config : ServerConfig) (req : Request) (body : CertifyRequest) (s s' : Server S)
    (resp : HttpResponse (Reply string)) (certificate : string) :
  certify_scope now config req body s = (Ok resp, s') →
  http_body resp = Answer certificate →
  ∃ key claims rid realm c,
    cfg_certificate config = Some key ∧ session_of now config req s claims ∧
    apc_realm_id (cc_private claims) = Some rid ∧
    get_realm rid (srv_db s) = (Ok (Some realm), srv_db s) ∧
    certified now (jtc_encoding_key key) body claims realm certificate c ∧
    srv_db s' = srv_db s.
Proof.
  intros Hrun Hb.
  assert (served (certify_scope now config req body) s certificate s') as H.
  { destruct resp as [st b]. simpl in Hb. subst b. by exists st. }
  unfold certify_scope in H. apply cookie_auth_served in H as (claims & x & Hs & [st H]).
  unfold handler, bind, auth, with_err in H.
  destruct (certify _ _ _ _ _) as [[r|e] s1] eqn:Hc; [|done]. simpl in H. injection H as _ Hr <-.
  apply certify_run in Hc as [-> (key & claims' & rid & realm & c & Hk & Hcl & Hrid & Hg & Hcert)].
  simpl in Hcl. injection Hcl as <-. rewrite Hr in Hcert.
  exists key, claims, rid, realm, c. done.
Qed.

(** Mallory's session of realm ["r"] asks for a certificate. *)
Definition toy_cookie : SessionCookie :=
  match toy_login.1 with
  | Ok (mkResponse _ (LoginResult _ (Some cookie))) => cookie
  | _ => mkCookie "" "" false false false None None
  end.
Definition toy_certify_config : ServerConfig :=
  mkServerConfig toy_token_config (Some toy_token_config) true.
Definition toy_certify_body : CertifyRequest :=
  mkCertifyRequest " -----BEGIN PUBLIC KEY-----x-----END PUBLIC KEY-----  " [] false.
Lemma certify_sound_witness :
  ∃ resp s' certificate,
    certify_scope 200 toy_certify_config (toy_present toy_cookie) toy_certify_body toy_login.2
      = (Ok resp, s') ∧ http_body resp = Answer certificate ∧
    ∃ key claims realm c,
      session_of 200 toy_certify_config (toy_present toy_cookie) toy_login.2 claims ∧
      certified 200 key toy_certify_body claims realm certificate c.
Proof.
  set (run := certify_scope _ _ _ _ _).
  assert (Hok : match run.1 with
                | Ok resp => match http_body resp with Answer _ => true | Text _ => false end
                | Err _ => false
                end = true) by by vm_compute.
  destruct run as [[[st [certificate|t]]|e] s'] eqn:Hrun; try discriminate Hok.
  exists (mkResponse st (Answer certificate)), s', certificate.
  split; [reflexivity|]. split; [reflexivity|].
  destruct (certify_sound 200 toy_certify_config (toy_present toy_cookie) toy_certify_body
    toy_login.2 s' (mkResponse st (Answer certificate)) certificate Hrun eq_refl)
    as (key & claims & rid & realm & c & _ & Hs & _ & _ & Hc & _).
  exists (jtc_encoding_key key), claims, realm, c. exact (conj Hs Hc).
Defined.
