(* ===== verification/TotpService.v ===== *)
(** The TOTP service object ([server/src/middleware/totp.rs]) and the bodies of its responses
    ([server/src/response/totp_response.rs]); it does for a user what the [/totp] endpoints of
    [AdminApi.v] do, without their authorisation. *)
From S2P Require Import Prelude RustStd Models Passwords Totp Database DatabaseFacts Toy AdminApi AdminApiFacts AdminApiSpec.

Section service.
Context {L : DbLibs}.

(** The realm's parameters, or the default ones. *)
Definition service_totp_params (realm : string) : ApiM TotpParams :=
  let* r := db (get_realm realm) in
  of_result (realm_params_to_totp_params (default TotpRealmParams_default
    (r ≫= λ r, rap_totp_params (realm_auth_params r)))).

(** [secret] is the raw secret drawn. *)
Definition handle_totp_generate (secret realm username : string) (issuer : option string)
    : ApiM (string * string) :=
  let issuer_name := default "Auth" issuer in
  let* totp_params := service_totp_params realm in
  let* totps := of_result (create_totp_secret secret issuer_name username (Some totp_params)) in
  ret (totps.2, totp_get_url totps.1).
Definition handle_totp_verify (now : Z) (realm username totp_token totp_secret_base32 : string)
    (issuer : option string) : ApiM () :=
  let issuer_name := default "Auth" issuer in
  let* totp_params := service_totp_params realm in
  let* totps := of_result (from_secret totp_secret_base32 (Some issuer_name) username
                             (Some totp_params)) in
  let* valid := of_result (validate_token totps now totp_token) in
  require valid (Models.Totp "Invalid TOTP token") ;;;
  db (enable_totp realm username totp_secret_base32 issuer_name).
Definition handle_totp_disable (realm username : string) : ApiM () :=
  db (disable_totp realm username).
Definition check_totp_enabled (realm username : string) : ApiM (option bool) :=
  db (is_totp_enabled realm username).
Definition handle_totp_get_secret (realm username : string) : ApiM (option string) :=
  db (get_totp_secret realm username).
End service.

Section agreement.
Context {L : DbLibs}.

Lemma db_ok {A} (m : DbM A) a d d' : m d = (Ok a, d') → db m d = (Ok a, d').
Proof. unfold db, with_err. by intros ->. Qed.
(** Both read the same parameters: the default realm parameters are the default ones. *)
Lemma totp_params_agree realm r d :
  get_realm realm d = (Ok (Some r), d) →
  realm_totp_params realm d =
    (match rap_totp_params (realm_auth_params r) with
     | Some p => map_ok Some (realm_params_to_totp_params p)
     | None => Ok None
     end, d) ∧
  service_totp_params realm d =
    (match rap_totp_params (realm_auth_params r) with
     | Some p => realm_params_to_totp_params p
     | None => Ok TotpParams_default
     end, d).
Proof.
  intros Hr. unfold realm_totp_params, service_totp_params, bind, of_result.
  rewrite (db_ok _ _ _ _ Hr). cbn. destruct (rap_totp_params (realm_auth_params r)) as [p|]; [|done].
  cbn. by destruct (realm_params_to_totp_params p).
Qed.
Lemma manage_totp_run q realm d :
  can_manage_realm q realm d = (Ok true, d) → manage_totp q realm d = (Ok (), d).
Proof. intros Hq. unfold manage_totp, bind. by rewrite Hq. Qed.

(** The service object agrees with the endpoints.  For a realm that exists, a requester who
    may manage it and the realm's name as issuer, generating a secret answers the same secret and
    URL, verifying a code enables the second factor in exactly the same cases and leaves the same
    store, and disabling it leaves the same store. *)
Theorem totp_service_agrees (q : Admin) (r : Realm) (realm username secret token : string) (now : Z)
    (d : Database) :
  can_manage_realm q realm d = (Ok true, d) → get_realm realm d = (Ok (Some r), d) →
  totp_generate secret (Some q) realm username (Some realm) d =
    (map_ok HttpOk (handle_totp_generate secret realm username (Some realm) d).1, d) ∧
  (let endpoint := totp_verify now (Some q) realm username secret token (Some realm) d in
   let service := handle_totp_verify now realm username token secret (Some realm) d in
   is_ok endpoint.1 = is_ok service.1 ∧ endpoint.2 = service.2) ∧
  (let endpoint := totp_disable (Some q) realm username d in
   let service := handle_totp_disable realm username d in
   is_ok endpoint.1 = is_ok service.1 ∧ endpoint.2 = service.2).
Proof.
  intros Hq%manage_totp_run Hr. destruct (totp_params_agree realm r d Hr) as [H1 H2].
  split; [|split]; cbv zeta.
  - unfold totp_generate, handle_totp_generate, bind, of_result, admin_from_request. cbn [ok_or].
    rewrite Hq, H1, H2. destruct (rap_totp_params (realm_auth_params r)) as [p|]; cbn.
    + destruct (realm_params_to_totp_params p) as [tp|]; [|done]. cbn.
      by destruct (create_totp_secret secret realm username (Some tp)) as [[]|].
    + change (create_totp_secret secret realm username None)
        with (create_totp_secret secret realm username (Some TotpParams_default)).
      by destruct (create_totp_secret secret realm username (Some TotpParams_default)) as [[]|].
  - unfold totp_verify, handle_totp_verify, bind, of_result, admin_from_request. cbn [ok_or].
    rewrite Hq, H1, H2.
    assert (from_secret secret (Some realm) username None =
      from_secret secret (Some realm) username (Some TotpParams_default)) as Hdef by done.
    destruct (rap_totp_params (realm_auth_params r)) as [p|]; cbn -[from_secret];
      [destruct (realm_params_to_totp_params p) as [tp|]; [|done]; cbn -[from_secret]
      |rewrite Hdef; generalize TotpParams_default as tp; intros tp; clear Hdef].
    all: destruct (from_secret secret (Some realm) username (Some tp)) as [t|]; [|done].
    all: destruct (validate_token t now token) as [[|]|]; [|done..]; cbn [require].
    all: unfold ret; by destruct (db (enable_totp realm username secret realm) d) as [[]].
  - unfold totp_disable, handle_totp_disable, bind, of_result, admin_from_request. cbn [ok_or].
    rewrite Hq. by destruct (db (disable_totp realm username) d) as [[]].
Qed.
End agreement.
Lemma totp_service_agrees_witness :
  let q := mkAdmin "root" [ADMIN_REALM] None None None None None None None None in
  ∃ r, get_realm ADMIN_REALM toy_db = (Ok (Some r), toy_db) ∧
    totp_generate "s" (Some q) ADMIN_REALM "root" (Some ADMIN_REALM) toy_db =
      (map_ok HttpOk (handle_totp_generate "s" ADMIN_REALM "root" (Some ADMIN_REALM) toy_db).1, toy_db).
Proof.
  intros q.
  assert (can_manage_realm q ADMIN_REALM toy_db = (Ok true, toy_db)) as Hq by by vm_compute.
  pose proof (get_realm_reads ADMIN_REALM toy_db) as Hd.
  assert (is_ok (get_realm ADMIN_REALM toy_db).1 = true) as Hok by by vm_compute.
  destruct (get_realm ADMIN_REALM toy_db) as [[[r|]|e] d] eqn:Hr; [| |done].
  - simpl in Hd. subst d. exists r. split; [reflexivity|].
    destruct (totp_service_agrees q r ADMIN_REALM "root" "s" "s" 0 toy_db Hq Hr) as [H _].
    exact H.
  - exfalso. apply (f_equal (λ x, match x.1 with Ok (Some _) => true | _ => false end)) in Hr.
    by vm_compute in Hr.
Defined.
