(* ===== verification/Saml.v ===== *)
(** SAML settings and identities ([server/src/saml]): validation of a realm's settings
    ([params_validation.rs]), the [saml] body of [check_saml_params]
    ([endpoints/super_admins_endpoints.rs]) and the mapping of a verified assertion to a session
    identity ([identity_mapping.rs]).

    The XML parser of the [samael] crate, URL parsing, Base64 and X.509 are parameters
    ([SamlLibs]); of their data types the records below have the fields the code reads.
    Times are nanoseconds since the Unix epoch ([DateTime<Utc>]).  A [HashMap] is iterated in
    the order of [map_to_list]. *)
From S2P Require Import Prelude RustStd Models ClaimPolicy Passwords Totp Database AdminApi.
From stdpp Require Import pretty.

(** * The data of the SAML crate *)
Record SingleSignOnService := mkSsoService { sso_binding : string; sso_location : string }.
Record KeyDescriptor := mkKeyDescriptor {
  kd_key_use : option string;
  (** [key_info.x509_data], the texts of its certificates *)
  kd_x509_data : option (list string);
}.
Record IdpSsoDescriptor := mkIdpSsoDescriptor {
  isd_protocol_support_enumeration : option string;
  isd_key_descriptors : list KeyDescriptor;
  isd_name_id_formats : list string;
  isd_single_sign_on_services : list SingleSignOnService;
}.
Record EntityDescriptor := mkEntityDescriptor {
  ed_entity_id : option string;
  ed_valid_until : option Z;
  ed_idp_sso_descriptors : option (list IdpSsoDescriptor);
}.
Inductive EntityDescriptorType :=
  | EntityDescriptorOf (entity : EntityDescriptor)
  | EntitiesDescriptor.

Record NameId := mkNameId { ni_format : option string; ni_value : string }.
Record Attribute := mkAttribute {
  att_name : option string;
  (** the text of each [<AttributeValue>], if it has one *)
  att_values : list (option string);
}.
Record Assertion := mkAssertion {
  as_id : string;
  as_issue_instant : Z;
  (** [subject.name_id] *)
  as_name_id : option (option NameId);
  (** [conditions.audience_restrictions]: the audiences of each *)
  as_audience_restrictions : option (option (list (list string)));
  (** the number of [authn_statements] *)
  as_authn_statements : option nat;
  (** the attributes of each statement *)
  as_attribute_statements : option (list (list Attribute));
}.

(** [url::Origin] *)
Inductive Origin := Opaque | Tuple (scheme host : string) (port : Z).
(** Two opaque origins are never the same. *)
Definition origin_eq (a b : Origin) : bool :=
  match a, b with
  | Tuple s h p, Tuple s' h' p' => bool_decide (s = s' ∧ h = h' ∧ p = p')
  | _, _ => false
  end.

Class SamlLibs := {
  (** [samael::metadata::de::from_str] *)
  metadata_from_str : string → Result EntityDescriptorType string;
  HTTP_REDIRECT_BINDING : string;
  HTTP_POST_BINDING : string;
  (** the [url] crate *)
  Url : Type;
  url_parse : string → Result Url string;
  url_to_string : Url → string;
  url_scheme : Url → string;
  url_host_str : Url → option string;
  url_path : Url → string;
  url_query : Url → option string;
  url_fragment : Url → option string;
  url_username : Url → string;
  url_password : Url → option string;
  url_origin : Url → Origin;
  ascii_serialization : Origin → string;
  (** [STANDARD.decode] and [STANDARD.encode] *)
  standard_decode : string → Result string string;
  standard_encode : string → string;
  (** [x509_cert] *)
  Certificate : Type;
  certificate_from_der : string → Result Certificate string;
  certificate_to_pem : Certificate → Result string string;
  (** [str::to_lowercase]: the Unicode tables *)
  to_lowercase : string → string;
}.

Definition SAML2_PROTOCOL : string := "urn:oasis:names:tc:SAML:2.0:protocol".
Definition NAMEID_TRANSIENT : string := "urn:oasis:names:tc:SAML:2.0:nameid-format:transient".
Definition MAX_METADATA_BYTES : Z := 256 * 1024.

Definition saml_invalid (field reason : string) : AuthError :=
  BadRequest ("saml_params." +:+ field +:+ ": " +:+ reason).
Definition metadata_invalid (reason : string) : AuthError := saml_invalid "metadata_xml" reason.
Definition saml_error (message : string) : AuthError := SamlError message.

Record IdpMetadata := mkIdpMetadata {
  im_entity_id : string;
  im_sso_url : string;
  im_signing_certificates : list string;
  im_nameid_format : option string;
}.

Section saml.
Context {SL : SamlLibs}.

(** * Validation of the settings *)
Definition redirect_sso_url (idp : IdpSsoDescriptor) : Result string AuthError :=
  let? service := ok_or (metadata_invalid "no SingleSignOnService with the HTTP-Redirect binding")
    (head (filter (λ s, sso_binding s = HTTP_REDIRECT_BINDING) (isd_single_sign_on_services idp))) in
  let? url := map_err (λ e, metadata_invalid ("invalid SingleSignOnService URL: " +:+ e))
    (url_parse (trim (sso_location service))) in
  let? _ := ensure_r (bool_decide (url_scheme url = "https"))
    (metadata_invalid "the SingleSignOnService URL must use https") in
  Ok (url_to_string url).

Definition der_certificate_to_pem (base64_der : string) : Result string AuthError :=
  let? der := map_err (λ e, metadata_invalid ("an X509Certificate is not valid base64: " +:+ e))
    (standard_decode (remove_white_space base64_der)) in
  let? certificate := map_err
    (λ e, metadata_invalid ("an X509Certificate is not a valid certificate: " +:+ e))
    (certificate_from_der der) in
  map_err (λ e, Unexpected ("failed to PEM-encode a certificate: " +:+ e))
    (certificate_to_pem certificate).

(** A key without [use] signs too. *)
Definition is_signing_key (key : KeyDescriptor) : bool :=
  match kd_key_use key with Some u => bool_decide (u = "signing") | None => true end.
Definition signing_key_texts (idp : IdpSsoDescriptor) : list string :=
  filter is_signing_key (isd_key_descriptors idp) ≫= λ key, default [] (kd_x509_data key).
Definition signing_certificates (idp : IdpSsoDescriptor) : Result (list string) AuthError :=
  let? certificates := try_map der_certificate_to_pem (signing_key_texts idp) in
  let? _ := ensure_r (bool_decide (certificates ≠ []))
    (metadata_invalid "no signing certificate in the IDPSSODescriptor") in
  Ok certificates.

Definition supports_saml2 (d : IdpSsoDescriptor) : bool :=
  match isd_protocol_support_enumeration d with
  | Some p => bool_decide (SAML2_PROTOCOL ∈ split_whitespace p)
  | None => false
  end.

Definition parse_idp_metadata (now : Z) (xml : string) : Result IdpMetadata AuthError :=
  let? _ := ensure_r (bool_decide (Z.of_nat (String.length xml) ≤ MAX_METADATA_BYTES)%Z)
    (metadata_invalid ("larger than the " +:+ pretty MAX_METADATA_BYTES +:+ "-byte limit")) in
  let? document := map_err
    (λ e, metadata_invalid ("not a SAML 2.0 <EntityDescriptor> document: " +:+ e))
    (metadata_from_str xml) in
  let? entity := match document with
    | EntityDescriptorOf entity => Ok entity
    | EntitiesDescriptor => Err (metadata_invalid ("an <EntitiesDescriptor> bundle of several "
        +:+ "entities; paste the metadata of the single IdP"))
    end in
  let? entity_id := ok_or (metadata_invalid "missing the IdP entityID")
    (match ed_entity_id entity with
     | Some id => if decide (trim id = "") then None else Some id
     | None => None
     end) in
  let? _ := ensure_r (match ed_valid_until entity with
                      | Some valid_until => negb (bool_decide (valid_until ≤ now)%Z)
                      | None => true
                      end)
    (metadata_invalid "the metadata has expired (validUntil is in the past)") in
  let? idp := ok_or (metadata_invalid "no IDPSSODescriptor supporting the SAML 2.0 protocol")
    (head (filter supports_saml2 (default [] (ed_idp_sso_descriptors entity)))) in
  let? sso_url := redirect_sso_url idp in
  let? certificates := signing_certificates idp in
  Ok (mkIdpMetadata entity_id sso_url certificates (trim <$> head (isd_name_id_formats idp))).

Definition expected_acs_path (realm_id : string) : string := "/saml/" +:+ realm_id +:+ "/acs".
Definition validate_sp_fields (params : SamlParams) (realm_id : string) : Result () AuthError :=
  let? _ := ensure_r (bool_decide (trim (sp_sp_entity_id params) ≠ ""))
    (saml_invalid "sp_entity_id" "must not be empty") in
  let? acs := map_err (λ e, saml_invalid "sp_acs_url" ("not a valid URL: " +:+ e))
    (url_parse (sp_sp_acs_url params)) in
  let expected_path := expected_acs_path realm_id in
  ensure_r (bool_decide (url_scheme acs = "https") && ends_with expected_path (url_path acs))
    (saml_invalid "sp_acs_url" ("must be an https URL ending with " +:+ expected_path)).

(** The [for claim in map.values()] loop with the set of the names met so far. *)
Fixpoint check_claim_names (met : gset string) (claims : list string) : Result () AuthError :=
  match claims with
  | [] => Ok ()
  | claim :: claims' =>
      if decide (trim claim = "") then
        Err (saml_invalid "attribute_claim_map" "claim names must not be empty")
      else if decide (claim ∈ met) then
        Err (saml_invalid "attribute_claim_map"
          ("two SAML attributes map to the same claim '" +:+ claim +:+ "'"))
      else check_claim_names ({[ claim ]} ∪ met) claims'
  end.
Definition subject_attribute_set (params : SamlParams) : bool :=
  match sp_subject_attribute params with Some a => bool_decide (trim a ≠ "") | None => false end.
Definition validate_identity_mapping (params : SamlParams) : Result () AuthError :=
  let map := map_to_list (sp_attribute_claim_map params) in
  let? _ := ensure_r
    (subject_attribute_set params ||
     negb (bool_decide (sp_idp_nameid_format params = Some NAMEID_TRANSIENT)))
    (saml_invalid "subject_attribute"
       "required because the IdP issues transient NameIDs, which change on every login") in
  let? _ := ensure_r (negb (existsb (λ attribute, bool_decide (trim attribute = "")) map.*1))
    (saml_invalid "attribute_claim_map" "SAML attribute names must not be empty") in
  let? _ := check_claim_names ∅ map.*2 in
  map_err (λ e, match e with
                | BadRequest reason => saml_invalid "attribute_claim_map" reason
                | other => other
                end)
    (reject_reserved_claim_names map.*2).

(** One allowed origin; its serialisation goes into the set. *)
Definition is_bare_https_origin (url : Url) : bool :=
  bool_decide (url_scheme url = "https") && bool_decide (url_host_str url ≠ None) &&
  bool_decide (url_path url = "/") && bool_decide (url_query url = None) &&
  bool_decide (url_fragment url = None) && bool_decide (url_username url = "").
Definition check_return_origin (origin : string) : Result string AuthError :=
  let? url := map_err (λ e, saml_invalid "allowed_return_origins"
                ("'" +:+ origin +:+ "' is not a valid URL: " +:+ e)) (url_parse origin) in
  let? _ := ensure_r (is_bare_https_origin url)
    (saml_invalid "allowed_return_origins"
       ("'" +:+ origin +:+ "' must be an https origin such as https://app.example.com")) in
  Ok (ascii_serialization (url_origin url)).
Definition validate_return_urls (params : SamlParams) : Result () AuthError :=
  let? allowed := try_map check_return_origin (sp_allowed_return_origins params) in
  let? url := map_err (λ e, saml_invalid "default_return_url" ("not a valid URL: " +:+ e))
    (url_parse (sp_default_return_url params)) in
  let? _ := ensure_r (bool_decide (url_scheme url = "https"))
    (saml_invalid "default_return_url" "must use https") in
  ensure_r (bool_decide (ascii_serialization (url_origin url) ∈ allowed))
    (saml_invalid "default_return_url" "its origin must be listed in allowed_return_origins").

(** The assignments to the four IdP fields. *)
Definition with_idp (idp : IdpMetadata) (p : SamlParams) : SamlParams :=
  mkSamlParams (im_entity_id idp) (im_sso_url idp) (im_signing_certificates idp)
    (im_nameid_format idp) (sp_metadata_xml p) (sp_sp_entity_id p) (sp_sp_acs_url p)
    (sp_subject_attribute p) (sp_normalize_subject_case p) (sp_role_attribute p)
    (sp_attribute_claim_map p) (sp_allowed_return_origins p) (sp_default_return_url p).
Definition metadata_text (params : SamlParams) : option string :=
  match trim <$> sp_metadata_xml params with
  | Some xml => if decide (xml = "") then None else Some xml
  | None => None
  end.
Definition validate_saml_params (now : Z) (params : SamlParams) (realm_id : string)
    : Result SamlParams AuthError :=
  let? xml := ok_or (metadata_invalid "the IdP metadata XML is required") (metadata_text params) in
  let? idp := parse_idp_metadata now xml in
  let params := with_idp idp params in
  let? _ := validate_sp_fields params realm_id in
  let? _ := validate_identity_mapping params in
  let? _ := validate_return_urls params in
  Ok params.

(** * [check_saml_params] with the [saml] feature *)
Definition with_saml_params (p : SamlParams) (r : Realm) : Realm :=
  let a := realm_auth_params r in
  mkRealm (realm_id r)
    (mkRealmAuthParams (rap_jwt_params a) (rap_username_password_params a) (rap_totp_params a) (Some p))
    (realm_session_max_age_seconds r) (realm_session_max_stale_age_seconds r)
    (realm_certificate_max_age_seconds r).
Definition check_saml_params_enabled (now : Z) (has_signing_key : bool) (realm : Realm)
    : Result Realm AuthError :=
  match rap_saml_params (realm_auth_params realm) with
  | None => Ok realm
  | Some params =>
      let? _ := ensure_r (bool_decide (realm_id realm ≠ ADMIN_REALM)) (BadRequest
        "SAML can't be enabled on the admin realm `_`: SAML is never an administrator credential") in
      let? _ := ensure_r has_signing_key (BadRequest
        "SAML needs a server signing key: set `saml_sp_params` in the server configuration") in
      map_ok (λ params, with_saml_params params realm)
        (validate_saml_params now params (realm_id realm))
  end.
Lemma check_saml_params_enabled_id now has_signing_key r r' :
  check_saml_params_enabled now has_signing_key r = Ok r' → realm_id r' = realm_id r.
Proof.
  unfold check_saml_params_enabled. destruct (rap_saml_params _) as [p|]; [|by intros [= <-]].
  destruct (ensure_r (bool_decide _) _); [|done]. destruct (ensure_r has_signing_key _); [|done].
  simpl. destruct (validate_saml_params _ _ _); [|done]. by intros [= <-].
Qed.
(** A request handled at time [now] by a server built with the feature. *)
Definition saml_enabled (now : Z) (has_signing_key : bool) : SamlCheck :=
  {| check_saml_params := check_saml_params_enabled now has_signing_key;
     check_saml_params_id := check_saml_params_enabled_id now has_signing_key |}.

(** * Identity mapping *)
Record SamlIdentity := mkSamlIdentity {
  si_subject : string;
  si_roles : list string;
  si_extra_claims : gmap string Value;
}.

(** Non-empty values of every attribute with the given [Name], in document order. *)
Definition attribute_values (assertion : Assertion) (name : string) : list string :=
  let attributes := concat (default [] (as_attribute_statements assertion)) in
  let named := filter (λ a, att_name a = Some name) attributes in
  filter (λ v, v ≠ "") (omap id (named ≫= att_values)).

Definition name_id_subject (assertion : Assertion) : Result string AuthError :=
  let? name_id := ok_or (saml_error "assertion has no NameID")
    (match as_name_id assertion with
     | Some (Some n) => if decide (ni_value n = "") then None else Some n
     | _ => None
     end) in
  let? _ := ensure_r (negb (bool_decide (ni_format name_id = Some NAMEID_TRANSIENT)))
    (saml_error "the NameID is transient and no subject attribute is configured") in
  Ok (ni_value name_id).

Definition identity_subject (assertion : Assertion) (params : SamlParams)
    : Result string AuthError :=
  match sp_subject_attribute params with
  | Some name =>
      match attribute_values assertion name with
      | [value] => Ok value
      | [] => Err (saml_error ("subject attribute '" +:+ name +:+ "' is missing"))
      | _ => Err (saml_error ("subject attribute '" +:+ name +:+ "' has several values"))
      end
  | None => name_id_subject assertion
  end.

(** The loop that skips the roles already there. *)
Fixpoint push_roles (roles values : list string) : list string :=
  match values with
  | [] => roles
  | role :: values' =>
      push_roles (if decide (role ∈ roles) then roles else roles ++ [role]) values'
  end.
Definition identity_roles (assertion : Assertion) (params : SamlParams) : list string :=
  match sp_role_attribute params with
  | Some name => push_roles [] (attribute_values assertion name)
  | None => []
  end.

Definition claim_value (values : list string) : option Value :=
  match values with
  | [] => None
  | [single] => Some (VString single)
  | several => Some (VArray (VString <$> several))
  end.
Definition identity_claims (assertion : Assertion) (params : SamlParams) : gmap string Value :=
  foldl (λ claims ac, match claim_value (attribute_values assertion ac.1) with
                      | Some value => <[ac.2 := value]> claims
                      | None => claims
                      end) ∅ (map_to_list (sp_attribute_claim_map params)).

Context `{Serde (gmap string Value)}.

Definition map_identity (assertion : Assertion) (params : SamlParams)
    : Result SamlIdentity AuthError :=
  let? subject := identity_subject assertion params in
  let subject := if sp_normalize_subject_case params then to_lowercase subject else subject in
  let roles := identity_roles assertion params in
  let extra_claims := identity_claims assertion params in
  let? _ := map_err (λ e, match e with
      | Panicked m => Panicked m
      | _ => saml_error "the mapped attributes exceed the extra-claims size limit"
      end) (validate_extra_claims_size extra_claims) in
  Ok (mkSamlIdentity subject roles extra_claims).
End saml.
