(* ===== verification/ToySaml.v ===== *)
(** Concrete SAML libraries for the witnesses: a URL is [https://], a host and a path; one text
    is the metadata of a provider; Base64, DER and PEM are the identity. *)
From S2P Require Import Prelude RustStd Models ClaimPolicy Saml.

Definition toy_url_parse (s : string) : Result (string * string) string :=
  match strip_prefix "https://" s with
  | Some rest =>
      match split_once "/" rest with
      | Some (host, path) => Ok (host, String "/" path)
      | None => Ok (rest, "/")
      end
  | None => Err "relative URL without a base"
  end.
Definition toy_url_to_string (u : string * string) : string := "https://" +:+ (u.1 +:+ u.2).
Lemma toy_url_roundtrip s u :
  toy_url_parse s = Ok u → toy_url_parse (toy_url_to_string u) = Ok u.
Proof.
  unfold toy_url_parse, toy_url_to_string. destruct (strip_prefix "https://" s) as [rest|]; [|done].
  rewrite (proj2 (strip_prefix_Some _ _ _) eq_refl).
  destruct (split_once "/" rest) as [[h p]|] eqn:Hs; intros [= <-]; cbn [fst snd].
  - apply split_once_spec in Hs as [_ Hh].
    by rewrite (proj2 (split_once_spec "/" (h +:+ String "/" p) h p)).
  - assert (has_byte "/" rest = false) as Hb.
    { clear s. induction rest as [|a rest IH]; [done|]. simpl in *.
      destruct (decide (a = "/"%char)); [done|]. rewrite bool_decide_eq_false_2 by done.
      destruct (split_once "/" rest) as [[]|]; [done|]. by apply IH. }
    by rewrite (proj2 (split_once_spec "/" (rest +:+ "/") rest "")).
Qed.

Definition toy_idp : IdpSsoDescriptor :=
  mkIdpSsoDescriptor (Some SAML2_PROTOCOL) [mkKeyDescriptor None (Some ["cert"])] []
    [mkSsoService "redirect" "https://idp.example.com/sso"].
Definition toy_metadata_xml : string := "<EntityDescriptor/>".
Definition toy_saml_libs : SamlLibs := {|
  metadata_from_str xml :=
    if decide (xml = toy_metadata_xml) then
      Ok (EntityDescriptorOf (mkEntityDescriptor (Some "idp") None (Some [toy_idp])))
    else Err "unexpected element";
  HTTP_REDIRECT_BINDING := "redirect";
  HTTP_POST_BINDING := "post";
  Url := string * string;
  url_parse := toy_url_parse;
  url_to_string := toy_url_to_string;
  url_scheme _ := "https";
  url_host_str u := Some u.1;
  url_path u := u.2;
  url_query _ := None;
  url_fragment _ := None;
  url_username _ := "";
  url_password _ := None;
  url_origin u := Tuple "https" u.1 443;
  ascii_serialization o :=
    match o with Opaque => "null" | Tuple s h _ => s +:+ ("://" +:+ h) end;
  standard_decode s := Ok s;
  standard_encode s := s;
  Certificate := string;
  certificate_from_der s := Ok s;
  certificate_to_pem s := Ok s;
  to_lowercase := str_map ascii_lower;
|}.

(** Settings as a client sends them, with forged IdP fields. *)
Definition toy_saml_request : SamlParams :=
  mkSamlParams "evil" "https://evil.example.com/" ["forged"] None (Some toy_metadata_xml)
    "sp" "https://auth.example.com/saml/r/acs" None false (Some "groups")
    {[ "mail" := "email" ]} ["https://app.example.com"] "https://app.example.com/home".
Definition toy_saml_params : SamlParams :=
  with_idp (mkIdpMetadata "idp" "https://idp.example.com/sso" ["cert"] None) toy_saml_request.
Definition toy_saml_realm (p : SamlParams) : Realm :=
  mkRealm "r" (mkRealmAuthParams None None None (Some p)) 3600 600 60.
