(* ===== verification/SamlStore.v ===== *)
(** The SAML request store ([server/src/saml/request_store.rs]): pending sign-in requests and
    consumed assertion ids behind the interface [SamlRequestStore], its SQLite implementation
    ([impls/sqlite.rs]) and one round of the clean-up task ([factory.rs]).

    [now] is the instant of an operation in nanoseconds, [timestamp now] its second.  What the
    sign-in relies on is the class [SamlStoreLaws], stated over views of a store: the request
    [take] would hand out, the assertion ids it has seen and until when it remembers them. *)
From S2P Require Import Prelude RustStd Models Passwords Totp Database.

Record PendingSamlRequest := mkPendingSamlRequest {
  psr_request_id : string;
  psr_realm_id : string;
  psr_return_url : string;
  psr_created_at : Z;
  psr_expires_at : Z;
}.

(** [DateTime::timestamp]: whole seconds, rounded down. *)
Definition timestamp (now : Z) : Z := now `div` 1000000000.

(** [trait SamlRequestStore] *)
Class SamlRequestStore (R : Type) := {
  rs_store_pending_request : Z → PendingSamlRequest → M R AuthError ();
  (** request id, realm id *)
  rs_take_pending_request : Z → string → string → M R AuthError (option PendingSamlRequest);
  (** realm id, assertion id, expiry *)
  rs_record_assertion_id : Z → string → string → Z → M R AuthError bool;
  rs_delete_expired : Z → M R AuthError ();
}.

(** The remaining lifetime. *)
Definition ensure_unexpired (now expires_at : Z) (what : string) : Result Z AuthError :=
  let remaining := i64_sub expires_at (timestamp now) in
  if decide (remaining ≤ 0)%Z then
    Err (Generic ("refusing to store an already-expired " +:+ what))
  else Ok remaining.

(** * SQLite *)
Record PendingRow := mkPendingRow {
  pr_realm_id : string;
  pr_return_url : string;
  pr_created_at : Z;
  pr_expires_at : Z;
}.
(** [saml_pending_request] by its primary key, and the expiry in [saml_seen_assertion] by realm
    and assertion id. *)
Record SamlTables := mkSamlTables {
  saml_pending_request : gmap string PendingRow;
  saml_seen_assertion : gmap (string * string) Z;
}.
Definition set_pending f (t : SamlTables) : SamlTables :=
  mkSamlTables (f (saml_pending_request t)) (saml_seen_assertion t).
Definition set_seen f (t : SamlTables) : SamlTables :=
  mkSamlTables (saml_pending_request t) (f (saml_seen_assertion t)).
Definition empty_saml_tables : SamlTables := mkSamlTables ∅ ∅.
Definition row_to_pending (request_id : string) (row : PendingRow) : PendingSamlRequest :=
  mkPendingSamlRequest request_id (pr_realm_id row) (pr_return_url row) (pr_created_at row)
    (pr_expires_at row).

Section sqlite.
Context {SX : Sqlx}.
Abbreviation SamlM := (M SamlTables AuthError).

Definition store_pending_request (now : Z) (request : PendingSamlRequest) : SamlM () :=
  let* _ := of_result (ensure_unexpired now (psr_expires_at request) "SAML pending request") in
  λ t, match saml_pending_request t !! psr_request_id request with
       | Some _ => (Err (Generic ("Failed to store SAML pending request: "
                      +:+ sqlx_to_string UniqueViolation)), t)
       | None => (Ok (), set_pending <[psr_request_id request :=
           mkPendingRow (psr_realm_id request) (psr_return_url request) (psr_created_at request)
             (psr_expires_at request)]> t)
       end.

(** [DELETE ... WHERE request_id = ? AND realm_id = ? AND expires_at > ? RETURNING ...] *)
Definition take_pending_request (now : Z) (request_id realm_id : string)
    : SamlM (option PendingSamlRequest) := λ t,
  match saml_pending_request t !! request_id with
  | Some row =>
      if decide (pr_realm_id row = realm_id ∧ (pr_expires_at row > timestamp now)%Z) then
        (Ok (Some (row_to_pending request_id row)), set_pending (delete request_id) t)
      else (Ok None, t)
  | None => (Ok None, t)
  end.

(** [INSERT OR IGNORE]: whether a row was inserted. *)
Definition record_assertion_id (now : Z) (realm_id assertion_id : string) (expires_at : Z)
    : SamlM bool :=
  let* _ := of_result (ensure_unexpired now expires_at "SAML assertion id") in
  λ t, match saml_seen_assertion t !! (realm_id, assertion_id) with
       | Some _ => (Ok false, t)
       | None => (Ok true, set_seen <[(realm_id, assertion_id) := expires_at]> t)
       end.

Definition delete_expired (now : Z) : SamlM () :=
  modify (set_pending (filter (λ kv, ¬ (pr_expires_at kv.2 ≤ timestamp now)%Z))) ;;;
  modify (set_seen (filter (λ kv, ¬ (kv.2 ≤ timestamp now)%Z))).

#[export] Instance sqlite_saml_store : SamlRequestStore SamlTables := {|
  rs_store_pending_request := store_pending_request;
  rs_take_pending_request := take_pending_request;
  rs_record_assertion_id := record_assertion_id;
  rs_delete_expired := delete_expired;
|}.
End sqlite.

(** A tick of the clean-up task: an error is logged and the loop goes on. *)
Definition cleanup_tick `{SamlRequestStore R} (now : Z) : M R AuthError () := λ s,
  let '(_, s') := rs_delete_expired now s in (Ok (), s').

(** * What a store promises

    [pending_at s t id realm] is the request [take] would hand out at time [t]; [unused_id s id]
    says that no request was ever kept under [id]; [seen_at s t realm id] that [record] would
    report a replay at [t]; [remembers s realm id e] that it will do so until second [e].  The
    promises hold for states [store_wf], for the request ids [good_request_id], which include every
    id the server draws, for the realm ids [good_realm_id] and for the return URLs and assertion
    ids [good_text]: a server can refuse a text, or compare it up to a collation. *)
Class SamlStoreViews (R : Type) := {
  store_wf : R → Prop;
  good_request_id : string → bool;
  good_realm_id : string → bool;
  good_text : string → bool;
  pending_at : R → Z → string → string → option PendingSamlRequest;
  unused_id : R → string → bool;
  seen_at : R → Z → string → string → bool;
  remembers : R → string → string → Z → Prop;
}.
Inductive StoreOp :=
  | OpStore (r : PendingSamlRequest)
  | OpTake (request_id realm_id : string)
  | OpRecord (realm_id assertion_id : string) (expires_at : Z)
  | OpPurge.
(** The id and the realm of a request, and a whole request. *)
Definition good_key `{SamlStoreViews R} (id realm : string) : bool :=
  good_request_id id && good_realm_id realm.
Definition good_request `{SamlStoreViews R} (r : PendingSamlRequest) : bool :=
  good_key (psr_request_id r) (psr_realm_id r) && good_text (psr_return_url r).
(** The operation uses such names, and a lifetime that fits an [i64]. *)
Definition good_op `{SamlStoreViews R} (now : Z) (op : StoreOp) : Prop :=
  match op with
  | OpStore r => good_request r = true ∧ in_i64 (psr_expires_at r - timestamp now)
  | OpTake id realm => good_key id realm = true
  | _ => True
  end.
Definition run_op `{SamlRequestStore R} (now : Z) (op : StoreOp) (s : R) : R :=
  match op with
  | OpStore r => (rs_store_pending_request now r s).2
  | OpTake id realm => (rs_take_pending_request now id realm s).2
  | OpRecord realm id e => (rs_record_assertion_id now realm id e s).2
  | OpPurge => (rs_delete_expired now s).2
  end.

Class SamlStoreLaws (R : Type) `{SamlRequestStore R} `{SamlStoreViews R} : Prop := {
  run_op_wf : ∀ s t op, store_wf s → good_op t op → store_wf (run_op t op s);
  (** what is handed out was asked for and is alive; it stays available while it is *)
  pending_sound : ∀ s t id realm r, store_wf s → good_key id realm = true →
    pending_at s t id realm = Some r →
    psr_request_id r = id ∧ psr_realm_id r = realm ∧ (timestamp t < psr_expires_at r)%Z;
  pending_persists : ∀ s t t' id realm r, store_wf s → good_key id realm = true →
    pending_at s t id realm = Some r → (t ≤ t')%Z → (timestamp t' < psr_expires_at r)%Z →
    pending_at s t' id realm = Some r;
  pending_gone : ∀ s t t' id realm, pending_at s t id realm = None → (t ≤ t')%Z →
    pending_at s t' id realm = None;
  (** store *)
  store_ok : ∀ s t r, store_wf s → good_request r = true → unused_id s (psr_request_id r) = true →
    in_i64 (psr_expires_at r - timestamp t) → (timestamp t < psr_expires_at r)%Z →
    (rs_store_pending_request t r s).1 = Ok ();
  store_pending : ∀ s s' t t' r, store_wf s → good_op t (OpStore r) →
    rs_store_pending_request t r s = (Ok (), s') →
    (t ≤ t')%Z → (timestamp t' < psr_expires_at r)%Z →
    pending_at s' t' (psr_request_id r) (psr_realm_id r) = Some r;
  (** take *)
  take_answer : ∀ s t id realm, store_wf s → good_key id realm = true →
    (rs_take_pending_request t id realm s).1 = Ok (pending_at s t id realm);
  take_consumes : ∀ s t t' id realm, store_wf s → good_key id realm = true → (t ≤ t')%Z →
    pending_at (run_op t (OpTake id realm) s) t' id realm = None;
  take_seen : ∀ s t t' id realm realm' aid, good_key id realm = true →
    seen_at (run_op t (OpTake id realm) s) t' realm' aid = seen_at s t' realm' aid;
  (** record *)
  record_answer : ∀ s t realm aid e, in_i64 (e - timestamp t) →
    (rs_record_assertion_id t realm aid e s).1 =
      (if decide (e ≤ timestamp t)%Z then Err (Generic "refusing to store an already-expired SAML assertion id")
       else Ok (negb (seen_at s t realm aid))) ∨
    (good_realm_id realm && good_text aid = false ∧
     ∃ err, (rs_record_assertion_id t realm aid e s).1 = Err err);
  record_remembers : ∀ s s' t realm aid e, in_i64 (e - timestamp t) →
    rs_record_assertion_id t realm aid e s = (Ok true, s') → remembers s' realm aid e;
  remembers_seen : ∀ s t realm aid e, remembers s realm aid e → (timestamp t < e)%Z →
    seen_at s t realm aid = true;
  (** what the other operations leave alone *)
  pending_frame : ∀ s t t' op id realm, store_wf s → good_op t op → good_key id realm = true →
    (t ≤ t')%Z →
    match op with
    | OpStore r => psr_request_id r ≠ id
    | OpTake id' realm' => (id', realm') ≠ (id, realm)
    | _ => True
    end → pending_at (run_op t op s) t' id realm = pending_at s t' id realm;
  remembers_frame : ∀ s t op realm aid e, remembers s realm aid e → (timestamp t < e)%Z →
    remembers (run_op t op s) realm aid e;
}.

(** * Runs of a store *)

(** Operations at times that do not run backwards, from [t0] on. *)
Inductive store_run `{SamlRequestStore R} `{SamlStoreViews R} (allowed : StoreOp → Prop) :
    Z → R → Z → R → Prop :=
  | run_wait t t' s : (t ≤ t')%Z → store_run allowed t s t' s
  | run_step t t1 t2 s s2 op : (t ≤ t1)%Z → good_op t1 op → allowed op →
      store_run allowed t1 (run_op t1 op s) t2 s2 → store_run allowed t s t2 s2.
