(* ===== verification/SamlSso.v ===== *)
(** SAML single sign-on ([server/src/saml]): the service provider's signing key
    ([sp_signing_key.rs]), its requests ([authn_request.rs]) and metadata ([sp_metadata.rs]), the
    validation of responses ([response_validation.rs]) and the browser endpoints
    ([endpoints.rs]).

    The signatures and the protocol checks of [samael], OpenSSL and the URL and Base64 codecs are
    parameters.  Clock readings are instants in nanoseconds; the random part of a request id is an
    argument. *)
From S2P Require Import Prelude RustStd Models ClaimPolicy Jwt Passwords Totp Database AdminApi Sessions SessionToken Saml SamlStore.
From stdpp Require Import pretty.

(** [samael::service_provider::ServiceProvider]: the fields the server sets. *)
Inductive SignatureAlgorithm :=
  | RsaSha256 | RsaSha384 | RsaSha512 | EcdsaSha256 | EcdsaSha384 | EcdsaSha512.
Record ServiceProvider := mkServiceProvider {
  svp_entity_id : option string;
  svp_acs_url : option string;
  svp_metadata_url : option string;
  svp_slo_url : option string;
  svp_idp_metadata : EntityDescriptor;
  svp_allow_idp_initiated : bool;
  svp_max_issue_delay : Z;
  svp_max_clock_skew : Z;
  svp_allowed_signature_algorithms : option (list SignatureAlgorithm);
}.
(** [samael::schema::AuthnRequest], likewise; the name id policy is its format and
    [allow_create]. *)
Record AuthnRequest := mkAuthnRequest {
  anr_id : string;
  anr_version : string;
  anr_issue_instant : Z;
  anr_destination : option string;
  anr_issuer : option (string * string);
  anr_assertion_consumer_service_url : option string;
  anr_protocol_binding : option string;
  anr_name_id_policy : option (string * bool);
}.

Class SsoLibs := {
  #[global] sso_saml :: SamlLibs;
  (** [parse_xml_response] at an instant, for the request ids it may answer *)
  parse_xml_response : Z → ServiceProvider → string → list string → Result Assertion string;
  (** OpenSSL *)
  PKey : Type;
  X509 : Type;
  PublicKey : Type;
  private_key_from_pem : string → Result PKey string;
  key_is_rsa : PKey → bool;
  key_bits : PKey → Z;
  x509_from_pem : string → Result X509 string;
  x509_public_key : X509 → Result PublicKey string;
  public_eq : PublicKey → PKey → bool;
  x509_to_der : X509 → Result string string;
  (** [AuthnRequest::signed_redirect(relay_state, key)] *)
  signed_redirect : AuthnRequest → string → PKey → Result (option Url) string;
}.

(** What the server relies on of the URL crate: the text of a URL parses to that URL. *)
Class UrlLaws `{SamlLibs} : Prop :=
  url_roundtrip : ∀ text u, url_parse text = Ok u → url_parse (url_to_string u) = Ok u.

(** * Signing key *)
Record SamlSpSigningKey `{SsoLibs} := mkSigningKey { sk_private_key : PKey; sk_certificate : X509 }.
Arguments mkSigningKey {_} sk_private_key sk_certificate.

Definition nanos (seconds : Z) : Z := seconds * 1000000000.
Definition MIN_RSA_BITS : Z := 2048.
Definition MAX_CLOCK_SKEW_SECONDS : Z := 180.
Definition MAX_ISSUE_DELAY_SECONDS : Z := 300.
Definition PENDING_REQUEST_SECONDS : Z := 600.
Definition REQUEST_COOKIE : string := "_ea_saml".
Definition ENTITY_NAMEID_FORMAT : string := "urn:oasis:names:tc:SAML:2.0:nameid-format:entity".
Definition quote : string := String "034" EmptyString.
Definition newline : string := String "010" EmptyString.

(** The last instant of [DateTime<Utc>], year 262142; a sum beyond it panics. *)
Definition DATETIME_MAX : Z := 8210266876799999999999.
Definition datetime_add (t d : Z) : Result Z AuthError :=
  if decide (t + d ≤ DATETIME_MAX)%Z then Ok (t + d)%Z
  else Err (Panicked "`DateTime + TimeDelta` overflowed").

Section sso.
Context {SS : SsoLibs}.

Definition init_error (message : string) : AuthError := Init ("saml_sp_params: " +:+ message).
Definition parse_sp_signing_key (key_pem certificate_pem : string)
    : Result SamlSpSigningKey AuthError :=
  let? private_key := map_err
    (λ e, init_error ("saml_rsa_private_key is not a PEM private key: " +:+ e))
    (private_key_from_pem key_pem) in
  let? _ := ensure_r (key_is_rsa private_key)
    (init_error "saml_rsa_private_key must be an RSA key") in
  let? _ := ensure_r (negb (bool_decide (key_bits private_key < MIN_RSA_BITS)%Z))
    (init_error ("saml_rsa_private_key must be at least " +:+ pretty MIN_RSA_BITS
      +:+ " bits, got " +:+ pretty (key_bits private_key))) in
  let? certificate := map_err
    (λ e, init_error ("saml_certificate is not a PEM X.509 certificate: " +:+ e))
    (x509_from_pem certificate_pem) in
  let? certificate_key := map_err
    (λ e, init_error ("saml_certificate has no usable public key: " +:+ e))
    (x509_public_key certificate) in
  let? _ := ensure_r (public_eq certificate_key private_key)
    (init_error "saml_certificate does not match saml_rsa_private_key") in
  Ok (mkSigningKey private_key certificate).

(** * Markup *)
Definition escape_markup (text : string) : string :=
  str_replace "'" "&#39;"
    (str_replace "034" "&quot;"
      (str_replace ">" "&gt;" (str_replace "<" "&lt;" (str_replace "&" "&amp;" text)))).

(** [name="value"] *)
Definition attr (name value : string) : string := name +:+ "=" +:+ quote +:+ value +:+ quote.
Definition render_sp_metadata (params : SamlParams) (signing_key : SamlSpSigningKey)
    : Result string AuthError :=
  let? certificate := map_err
    (λ e, Unexpected ("failed to encode the SAML certificate: " +:+ e))
    (x509_to_der (sk_certificate signing_key)) in
  let name_id_format := match sp_idp_nameid_format params with
    | Some format => newline +:+ "    <md:NameIDFormat>" +:+ escape_markup format
                       +:+ "</md:NameIDFormat>"
    | None => ""
    end in
  Ok ("<?xml " +:+ attr "version" "1.0" +:+ " " +:+ attr "encoding" "UTF-8" +:+ "?>" +:+ newline
    +:+ "<md:EntityDescriptor " +:+ attr "xmlns:md" "urn:oasis:names:tc:SAML:2.0:metadata"
    +:+ " " +:+ attr "xmlns:ds" "http://www.w3.org/2000/09/xmldsig#"
    +:+ " " +:+ attr "entityID" (escape_markup (sp_sp_entity_id params)) +:+ ">" +:+ newline
    +:+ "  <md:SPSSODescriptor " +:+ attr "AuthnRequestsSigned" "true"
    +:+ " " +:+ attr "WantAssertionsSigned" "true"
    +:+ " " +:+ attr "protocolSupportEnumeration" "urn:oasis:names:tc:SAML:2.0:protocol"
    +:+ ">" +:+ newline
    +:+ "    <md:KeyDescriptor " +:+ attr "use" "signing" +:+ ">" +:+ newline
    +:+ "      <ds:KeyInfo><ds:X509Data><ds:X509Certificate>" +:+ standard_encode certificate
    +:+ "</ds:X509Certificate></ds:X509Data></ds:KeyInfo>" +:+ newline
    +:+ "    </md:KeyDescriptor>" +:+ name_id_format +:+ newline
    +:+ "    <md:AssertionConsumerService " +:+ attr "Binding" HTTP_POST_BINDING
    +:+ " " +:+ attr "Location" (escape_markup (sp_sp_acs_url params))
    +:+ " " +:+ attr "index" "0" +:+ " " +:+ attr "isDefault" "true" +:+ "/>" +:+ newline
    +:+ "  </md:SPSSODescriptor>" +:+ newline +:+ "</md:EntityDescriptor>" +:+ newline).

Definition redirect_page (return_url : string) : string :=
  let url := escape_markup return_url in
  "<!DOCTYPE html>" +:+ newline
  +:+ "<html><head><meta " +:+ attr "charset" "utf-8" +:+ "><meta "
  +:+ attr "http-equiv" "refresh" +:+ " " +:+ attr "content" ("0;url=" +:+ url)
  +:+ "><title>Signing in</title></head>" +:+ newline
  +:+ "<body><p><a " +:+ attr "href" url +:+ ">Continue</a></p></body></html>" +:+ newline.

(** * The request to the IdP *)

(** [uuid]: 32 hexadecimal digits *)
Definition new_request_id (uuid : string) : string := "_" +:+ uuid.
Definition signed_authn_request_url (now : Z) (params : SamlParams) (request_id : string)
    (signing_key : SamlSpSigningKey) : Result Url AuthError :=
  let request := mkAuthnRequest request_id "2.0" now (Some (sp_idp_sso_url params))
    (Some (ENTITY_NAMEID_FORMAT, sp_sp_entity_id params)) (Some (sp_sp_acs_url params))
    (Some HTTP_POST_BINDING) ((λ format, (format, true)) <$> sp_idp_nameid_format params) in
  let? url := map_err (λ e, Unexpected ("failed to sign the SAML AuthnRequest: " +:+ e))
    (signed_redirect request request_id (sk_private_key signing_key)) in
  ok_or (Unexpected "the SAML AuthnRequest has no destination") url.

(** * Validation of a response *)

(** The certificate without its PEM frame: the lines are joined. *)
Definition pem_body (pem : string) : string :=
  foldr String.append "" (filter (λ line, starts_with "-----" line = false) (str_lines pem)).
Definition trusted_idp (params : SamlParams) : EntityDescriptor :=
  let signing_key := mkKeyDescriptor (Some "signing")
    (Some (pem_body <$> sp_idp_signing_certificates params)) in
  mkEntityDescriptor (Some (sp_idp_entity_id params)) None
    (Some [mkIdpSsoDescriptor None [signing_key] [] []]).
Definition service_provider (params : SamlParams) : Result ServiceProvider AuthError :=
  let? _ := ensure_r (bool_decide (sp_idp_signing_certificates params ≠ []))
    (saml_error "the realm has no IdP signing certificate") in
  Ok (mkServiceProvider (Some (sp_sp_entity_id params)) (Some (sp_sp_acs_url params)) None None
    (trusted_idp params) false (nanos MAX_ISSUE_DELAY_SECONDS) (nanos MAX_CLOCK_SKEW_SECONDS)
    (Some [RsaSha256; RsaSha384; RsaSha512; EcdsaSha256; EcdsaSha384; EcdsaSha512])).

Definition require_audience (assertion : Assertion) (sp_entity_id : string) : Result () AuthError :=
  let? restrictions := ok_or (saml_error "assertion has no AudienceRestriction")
    (match as_audience_restrictions assertion with
     | Some (Some restrictions) => if decide (restrictions = []) then None else Some restrictions
     | _ => None
     end) in
  ensure_r (forallb (λ audience, bool_decide (sp_entity_id ∈ audience)) restrictions)
    (saml_error "assertion is not addressed to this service provider").

(** The checks before the assertion id is recorded, at instant [now]: the assertion and the
    second until which its id must be remembered. *)
Definition check_saml_response (now : Z) (response_xml : string) (params : SamlParams)
    (request_id : string) : Result (Assertion * Z) AuthError :=
  let? sp := service_provider params in
  let? assertion := map_err (λ e, saml_error ("rejected SAML response: " +:+ e))
    (parse_xml_response now sp response_xml [request_id]) in
  let? _ := require_audience assertion (sp_sp_entity_id params) in
  let? _ := ensure_r (match as_authn_statements assertion with
                      | Some n => negb (n =? 0)
                      | None => false
                      end) (saml_error "assertion has no AuthnStatement") in
  let? accepted_until := datetime_add (as_issue_instant assertion) (nanos MAX_ISSUE_DELAY_SECONDS) in
  let? _ := ensure_r (negb (bool_decide (accepted_until ≤ now)%Z))
    (saml_error "assertion was issued too long ago") in
  Ok (assertion, i64_add (timestamp accepted_until) 1).

Section store.
Context {R : Type} {RS : SamlRequestStore R}.

(** [now'] is the instant of the store operation. *)
Definition validate_saml_response (now now' : Z) (response_xml : string) (params : SamlParams)
    (realm_id request_id : string) : M R AuthError Assertion :=
  let* checked := of_result (check_saml_response now response_xml params request_id) in
  let assertion := checked.1 in
  let* recorded := rs_record_assertion_id now' realm_id (as_id assertion) checked.2 in
  if recorded then ret assertion else throw (saml_error "assertion has already been used").
End store.

(** * Browser endpoints *)
Inductive SameSite := SameSiteNone | SameSiteLax | SameSiteStrict.
Record RequestCookie := mkRequestCookie {
  rck_name : string;
  rck_value : string;
  rck_path : string;
  rck_secure : bool;
  rck_http_only : bool;
  rck_same_site : SameSite;
  rck_max_age : Z;
}.
Definition request_cookie (request_id : string) : RequestCookie :=
  mkRequestCookie REQUEST_COOKIE request_id "/" true true SameSiteNone PENDING_REQUEST_SECONDS.
(** [Cookie::make_removal]: no value, no age (and an expiry in the past). *)
Definition make_removal (c : RequestCookie) : RequestCookie :=
  mkRequestCookie (rck_name c) "" (rck_path c) (rck_secure c) (rck_http_only c) (rck_same_site c) 0.

Record SamlReply := mkSamlReply {
  srp_headers : list (string * string);
  srp_session_cookie : option SessionCookie;
  srp_request_cookie : option RequestCookie;
  srp_body : string;
}.
Record AcsForm := mkAcsForm { af_saml_response : string; af_relay_state : string }.

(** Where the browser goes after the login. *)
Definition resolve_return_url (params : SamlParams) (return_to : option string)
    : Result string AuthError :=
  match return_to with
  | None => Ok (sp_default_return_url params)
  | Some raw =>
      let? url := map_err (λ _, BadRequest "return_to is not a valid URL") (url_parse raw) in
      let origins := omap (λ origin, match url_parse origin with
                                     | Ok o => Some (url_origin o)
                                     | Err _ => None
                                     end) (sp_allowed_return_origins params) in
      let? _ := ensure_r
        (bool_decide (url_scheme url = "https") && bool_decide (url_username url = "") &&
         bool_decide (url_password url = None) &&
         existsb (λ origin, origin_eq origin (url_origin url)) origins)
        (BadRequest "return_to is not under an allowed return origin of this realm") in
      Ok (url_to_string url)
  end.

Section endpoints.
Context {S : Type} {ST : SessionStore S} {R : Type} {RS : SamlRequestStore R}.
Context {L : DbLibs} {TL : TokenLibs}.

Record SsoServer := mkSsoServer {
  sso_db : Database;
  sso_sessions : S;
  sso_requests : R;
}.
Definition SsoM (A : Type) : Type := M SsoServer AuthError A.
Definition on_sso_db {A} (m : M Database AuthError A) : SsoM A := λ s,
  let '(r, d) := m (sso_db s) in (r, mkSsoServer d (sso_sessions s) (sso_requests s)).
Definition on_sso_sessions {A} (m : M S AuthError A) : SsoM A := λ s,
  let '(r, x) := m (sso_sessions s) in (r, mkSsoServer (sso_db s) x (sso_requests s)).
Definition on_requests {A} (m : M R AuthError A) : SsoM A := λ s,
  let '(r, x) := m (sso_requests s) in (r, mkSsoServer (sso_db s) (sso_sessions s) x).

Definition saml_realm (realm_id : string) : SsoM (Realm * SamlParams) :=
  let* realm := on_sso_db (db (get_realm realm_id)) in
  match realm, realm ≫= (λ realm, rap_saml_params (realm_auth_params realm)) with
  | Some realm, Some params => ret (realm, params)
  | _, _ => throw (BadRequest ("realm '" +:+ realm_id +:+ "' does not exist or does not use SAML"))
  end.

(** [now] stamps the request, [now'] stores it, [now''] stamps the message to the IdP. *)
Definition saml_login (now now' now'' : Z) (uuid : string) (signing_key : SamlSpSigningKey)
    (realm_id : string) (return_to : option string) : SsoM (HttpResponse SamlReply) :=
  let* rp := saml_realm realm_id in
  let '(realm, params) := rp in
  let* return_url := of_result (resolve_return_url params return_to) in
  let request_id := new_request_id uuid in
  on_requests (rs_store_pending_request now' (mkPendingSamlRequest request_id
    (Models.realm_id realm) return_url (timestamp now)
    (i64_add (timestamp now) PENDING_REQUEST_SECONDS))) ;;;
  let* idp_url := of_result (signed_authn_request_url now'' params request_id signing_key) in
  ret (mkResponse 302 (mkSamlReply
    [("Location", url_to_string idp_url); ("Cache-Control", "no-store")]
    None (Some (request_cookie request_id)) "")).

(** The readings of one post to the assertion consumer: the request is taken, the response
    checked, its id recorded, the token issued, the session stored. *)
Record AcsClock := mkAcsClock {
  ac_take : Z;
  ac_check : Z;
  ac_record : Z;
  ac_token : Z;
  ac_session : Z;
}.

(** [cookie] is the value of the request cookie, if the browser sent one. *)
Definition consume_response (clock : AcsClock) (cookie : option string) (realm_id : string)
    (form : AcsForm) : SsoM (Realm * PendingSamlRequest * SamlIdentity) :=
  of_result (ensure_r (bool_decide (cookie = Some (af_relay_state form)))
    (SamlError "this sign-in was not started from this browser")) ;;;
  let* rp := saml_realm realm_id in
  let '(realm, params) := rp in
  let* pending := on_requests
    (rs_take_pending_request (ac_take clock) (af_relay_state form) (Models.realm_id realm)) in
  let* pending := of_result (ok_or (SamlError "unknown or expired sign-in request") pending) in
  let encoded := str_filter (λ c, negb (is_ascii_whitespace c)) (af_saml_response form) in
  let* xml := of_result (ok_or (SamlError "SAMLResponse is not base64-encoded UTF-8")
    (match standard_decode encoded with Ok bytes => from_utf8 bytes | Err _ => None end)) in
  let* assertion := on_requests (validate_saml_response (ac_check clock) (ac_record clock) xml
    params (Models.realm_id realm) (psr_request_id pending)) in
  let* identity := of_result (map_identity assertion params) in
  ret (realm, pending, identity).

(** The session of the mapped identity. *)
Definition open_saml_session (clock : AcsClock) (jwt_token_config : JwtTokenConfig) (is_https : bool)
    (realm : Realm) (identity : SamlIdentity) : SsoM SessionCookie :=
  let* token := of_result (issue_token (timestamp (ac_token clock)) (si_subject identity) Saml
    (Models.realm_id realm) (si_roles identity) (si_extra_claims identity) jwt_token_config
    (realm_session_max_age_seconds realm)) in
  let* session_cookie := of_result (build_cookie token (realm_session_max_age_seconds realm) is_https) in
  let* session_id := of_result (session_id_from_cookie_value (ck_value session_cookie)) in
  on_sso_sessions (ss_upsert_session (ac_session clock) session_id realm
    (mkClient (si_subject identity) Saml) (cookie_to_string session_cookie)) ;;;
  ret session_cookie.

Definition saml_acs (clock : AcsClock) (jwt_token_config : JwtTokenConfig) (is_https : bool)
    (cookie : option string) (realm_id : string) (form : AcsForm) : SsoM (HttpResponse SamlReply) :=
  let* accepted := consume_response clock cookie realm_id form in
  let '(realm, pending, identity) := accepted in
  let* session_cookie := open_saml_session clock jwt_token_config is_https realm identity in
  ret (mkResponse 200 (mkSamlReply
    [("Content-Type", "text/html; charset=utf-8"); ("Cache-Control", "no-store");
     ("Content-Security-Policy", "default-src 'none'")]
    (Some session_cookie) (Some (make_removal (request_cookie "")))
    (redirect_page (psr_return_url pending)))).

Definition saml_metadata (signing_key : SamlSpSigningKey) (realm_id : string)
    : SsoM (HttpResponse SamlReply) :=
  let* rp := saml_realm realm_id in
  let* metadata := of_result (render_sp_metadata rp.2 signing_key) in
  ret (mkResponse 200 (mkSamlReply [("Content-Type", "application/samlmetadata+xml")] None None
    metadata)).
End endpoints.
End sso.
