(* ===== verification/ToySso.v ===== *)
(** A concrete SAML library for the witnesses: one text is a response that is verified, for every
    request, and a signed request is the address of the provider. *)
From S2P Require Import Prelude RustStd Models ClaimPolicy Jwt Passwords Totp Database DatabaseFacts Toy AdminApi AdminApiSpec Sessions SessionToken ToyLogin Saml ToySaml SamlStore SamlSso.

Definition toy_response_xml : string := "<Response/>".
Definition toy_sso_assertion : Assertion :=
  mkAssertion "_a1" 0 (Some (Some (mkNameId None "alice"))) (Some (Some [["sp"]])) (Some 1%nat)
    (Some [[mkAttribute (Some "groups") [Some "users"]]]).
Definition toy_sso_libs : SsoLibs := {|
  sso_saml := toy_saml_libs;
  parse_xml_response _ _ xml _ :=
    if decide (xml = toy_response_xml) then Ok toy_sso_assertion else Err "bad signature";
  PKey := ();
  X509 := ();
  PublicKey := ();
  private_key_from_pem _ := Ok ();
  key_is_rsa _ := true;
  key_bits _ := 2048%Z;
  x509_from_pem _ := Ok ();
  x509_public_key _ := Ok ();
  public_eq _ _ := true;
  x509_to_der _ := Ok "der";
  signed_redirect req _ _ := Ok (Some ("idp.example.com", "/sso"));
|}.
Definition toy_signing_key : @SamlSpSigningKey toy_sso_libs := @mkSigningKey toy_sso_libs () ().
Lemma toy_url_laws : @UrlLaws toy_saml_libs.
Proof. intros text u. apply toy_url_roundtrip. Qed.

(** A realm configured over the administration interface. *)
Definition toy_saml_db : Database :=
  (run_request (SC := @saml_enabled toy_saml_libs 0 true)
     (Some (mkAdmin "root" [ADMIN_REALM] None None None None None None None None))
     (PostRealm (toy_saml_realm toy_saml_request)) toy_db).2.
Lemma toy_saml_realm_stored :
  get_realm "r" toy_saml_db = (Ok (Some (toy_saml_realm toy_saml_params)), toy_saml_db).
Proof. by vm_compute. Qed.

(** A sign-in to it, started at second 100 and completed at second 200. *)
Definition toy_sso_server : SsoServer (S := SessionTable) (R := SamlTables) :=
  mkSsoServer toy_saml_db ∅ empty_saml_tables.
Definition toy_sso_login :=
  @saml_login toy_sso_libs SessionTable SamlTables _ toy_libs 100000000000 100000000000
    100000000000 "1" toy_signing_key "r" (Some "https://app.example.com/home") toy_sso_server.
Definition toy_acs_clock : AcsClock := mkAcsClock 200000000000 200000000000 200000000000 200000000000 200.
Definition toy_acs_form : AcsForm := mkAcsForm toy_response_xml "_1".
Definition toy_sso_acs (s : SsoServer (S := SessionTable) (R := SamlTables)) :=
  @saml_acs toy_sso_libs SessionTable _ SamlTables _ toy_libs toy_token_libs toy_acs_clock
    toy_token_config true (Some "_1") "r" toy_acs_form s.
