(* ===== verification/SamlSpec.v ===== *)
(** Properties of the SAML settings and of the identity mapping: which settings are accepted and
    stored, that their IdP fields come from the metadata alone, and what a verified assertion
    can put in a session. *)
From S2P Require Import Prelude RustStd Models ClaimPolicy Jwt Passwords Totp Database DatabaseFacts Toy AdminApi AdminApiFacts AdminApiSpec SessionToken Saml ToySaml SamlStore SamlSso ToySso.

#[local] Arguments trim : simpl never.
#[local] Arguments map_to_list : simpl never.

(** * Well-formed settings *)
Section wf.
Context {SL : SamlLibs}.

(** Settings a realm may keep. *)
Record saml_params_wf (realm : string) (p : SamlParams) : Prop := {
  wf_sp_entity_id : trim (sp_sp_entity_id p) ≠ "";
  wf_acs_url : ∃ u, url_parse (sp_sp_acs_url p) = Ok u ∧ url_scheme u = "https" ∧
    ends_with (expected_acs_path realm) (url_path u) = true;
  wf_transient : sp_idp_nameid_format p = Some NAMEID_TRANSIENT →
    ∃ a, sp_subject_attribute p = Some a ∧ trim a ≠ "";
  wf_claims : ∀ a c, sp_attribute_claim_map p !! a = Some c →
    trim a ≠ "" ∧ trim c ≠ "" ∧ c ∉ reserved_claim_names;
  wf_claims_inj : ∀ a a' c, sp_attribute_claim_map p !! a = Some c →
    sp_attribute_claim_map p !! a' = Some c → a = a';
  wf_origins : ∀ o, o ∈ sp_allowed_return_origins p →
    ∃ u, url_parse o = Ok u ∧ is_bare_https_origin u = true;
  wf_default_url : ∃ u, url_parse (sp_default_return_url p) = Ok u ∧ url_scheme u = "https" ∧
    ∃ o v, o ∈ sp_allowed_return_origins p ∧ url_parse o = Ok v ∧
      ascii_serialization (url_origin u) = ascii_serialization (url_origin v);
}.

(** The IdP the metadata of the settings states. *)
Definition states_idp (now : Z) (p : SamlParams) (idp : IdpMetadata) : Prop :=
  ∃ xml, metadata_text p = Some xml ∧ parse_idp_metadata now xml = Ok idp.

(** * The checks, one by one *)
Lemma check_claim_names_ok met l :
  check_claim_names met l = Ok () ↔ (∀ c, c ∈ l → trim c ≠ "" ∧ c ∉ met) ∧ NoDup l.
Proof.
  revert met. induction l as [|c l IH]; intros met; simpl.
  { split; [|done]. intros _. split; [by intros c ?%elem_of_nil|constructor]. }
  rewrite NoDup_cons. destruct (decide (trim c = "")) as [Hc|Hc].
  { split; [done|]. intros [H _]. by destruct (H c (list_elem_of_here _ _)). }
  destruct (decide (c ∈ met)) as [Hm|Hm].
  { split; [done|]. intros [H _]. by destruct (H c (list_elem_of_here _ _)). }
  rewrite IH. split.
  - intros [H Hnd]. split; [|split; [|done]].
    + intros x [->|Hx]%elem_of_cons; [done|]. specialize (H x Hx). set_solver.
    + intros Hin. destruct (H c Hin). set_solver.
  - intros (H & Hnin & Hnd). split; [|done]. intros x Hx.
    destruct (H x) as [? ?]; [by right|]. set_solver.
Qed.
Lemma map_values_NoDup (m : gmap string string) :
  NoDup (map_to_list m).*2 ↔ ∀ a a' c, m !! a = Some c → m !! a' = Some c → a = a'.
Proof.
  split.
  - intros Hnd a a' c Ha Ha'.
    apply elem_of_map_to_list, list_elem_of_lookup in Ha as [i Hi].
    apply elem_of_map_to_list, list_elem_of_lookup in Ha' as [j Hj].
    assert (i = j) as ->; [|congruence]. apply (NoDup_lookup _ i j c Hnd);
      rewrite list_lookup_fmap; [by rewrite Hi|by rewrite Hj].
  - intros Hinj. apply NoDup_fmap_2_strong; [|apply NoDup_map_to_list].
    intros [a c] [a' c'] H1%elem_of_map_to_list H2%elem_of_map_to_list ?; simpl in *. subst c'.
    by rewrite (Hinj a a' c).
Qed.
Lemma elem_of_map_values (m : gmap string string) c :
  c ∈ (map_to_list m).*2 ↔ ∃ a, m !! a = Some c.
Proof.
  rewrite list_elem_of_fmap. split.
  - intros ([a c'] & -> & H%elem_of_map_to_list). by exists a.
  - intros [a H%elem_of_map_to_list]. by exists (a, c).
Qed.
Lemma elem_of_map_keys (m : gmap string string) a :
  a ∈ (map_to_list m).*1 ↔ ∃ c, m !! a = Some c.
Proof.
  rewrite list_elem_of_fmap. split.
  - intros ([a' c] & -> & H%elem_of_map_to_list). by exists c.
  - intros [c H%elem_of_map_to_list]. by exists (a, c).
Qed.

Lemma validate_sp_fields_ok p realm :
  validate_sp_fields p realm = Ok () ↔
  trim (sp_sp_entity_id p) ≠ "" ∧
  ∃ u, url_parse (sp_sp_acs_url p) = Ok u ∧ url_scheme u = "https" ∧
    ends_with (expected_acs_path realm) (url_path u) = true.
Proof.
  unfold validate_sp_fields. autorewrite with results. setoid_rewrite ensure_r_ok.
  setoid_rewrite and_then_ok. setoid_rewrite map_err_ok. setoid_rewrite ensure_r_ok.
  setoid_rewrite andb_true_iff. setoid_rewrite bool_decide_eq_true. naive_solver.
Qed.
Lemma validate_identity_mapping_ok p :
  validate_identity_mapping p = Ok () ↔
  (sp_idp_nameid_format p = Some NAMEID_TRANSIENT →
     ∃ a, sp_subject_attribute p = Some a ∧ trim a ≠ "") ∧
  (∀ a c, sp_attribute_claim_map p !! a = Some c →
     trim a ≠ "" ∧ trim c ≠ "" ∧ c ∉ reserved_claim_names) ∧
  (∀ a a' c, sp_attribute_claim_map p !! a = Some c →
     sp_attribute_claim_map p !! a' = Some c → a = a').
Proof.
  unfold validate_identity_mapping. rewrite and_then_ok. setoid_rewrite and_then_ok.
  setoid_rewrite and_then_ok. setoid_rewrite ensure_r_ok. setoid_rewrite map_err_ok.
  assert (Hsub : subject_attribute_set p
      || negb (bool_decide (sp_idp_nameid_format p = Some NAMEID_TRANSIENT)) = true ↔
    (sp_idp_nameid_format p = Some NAMEID_TRANSIENT →
       ∃ a, sp_subject_attribute p = Some a ∧ trim a ≠ "")).
  { rewrite orb_true_iff, negb_true_iff, bool_decide_eq_false. unfold subject_attribute_set.
    destruct (sp_subject_attribute p) as [a|].
    - rewrite bool_decide_eq_true. destruct (decide (trim a = "")); naive_solver.
    - split; [naive_solver|]. intros H. right. intros Hf. by destruct (H Hf) as (? & ? & _). }
  setoid_rewrite Hsub. clear Hsub. set (m := sp_attribute_claim_map p).
  assert (Hkeys : negb (existsb (λ a, bool_decide (trim a = "")) (map_to_list m).*1) = true ↔
    ∀ a c, m !! a = Some c → trim a ≠ "").
  { rewrite negb_true_iff, <-not_true_iff_false, existsb_exists.
    setoid_rewrite <-list_elem_of_In. setoid_rewrite elem_of_map_keys.
    setoid_rewrite bool_decide_eq_true. naive_solver. }
  setoid_rewrite Hkeys. clear Hkeys. split.
  - intros ([] & Htr & [] & Hkeys & [] & [Hn Hnd]%check_claim_names_ok & Hres).
    rewrite reject_reserved_ok in Hres.
    setoid_rewrite elem_of_map_values in Hn. setoid_rewrite elem_of_map_values in Hres.
    rewrite map_values_NoDup in Hnd. naive_solver.
  - intros (Htr & Hc & Hinj). exists (). split; [done|]. exists (). split; [by intros a c (? & _)%Hc|].
    exists (). rewrite check_claim_names_ok, reject_reserved_ok, map_values_NoDup.
    setoid_rewrite elem_of_map_values. split_and!; [|done|].
    + intros c [a Ha]. split; [by apply (Hc a c)|by apply not_elem_of_empty].
    + intros c [a Ha]. by apply (Hc a c).
Qed.
Lemma check_return_origin_ok o t :
  check_return_origin o = Ok t ↔
  ∃ u, url_parse o = Ok u ∧ is_bare_https_origin u = true ∧ ascii_serialization (url_origin u) = t.
Proof.
  unfold check_return_origin. rewrite and_then_ok. setoid_rewrite and_then_ok.
  setoid_rewrite map_err_ok. setoid_rewrite ensure_r_ok. split.
  - intros (u & Hu & [] & Hb & [= <-]). by exists u.
  - intros (u & Hu & Hb & <-). exists u. split; [done|]. by exists ().
Qed.
Lemma validate_return_urls_ok p :
  validate_return_urls p = Ok () ↔
  (∀ o, o ∈ sp_allowed_return_origins p → ∃ u, url_parse o = Ok u ∧ is_bare_https_origin u = true) ∧
  ∃ u, url_parse (sp_default_return_url p) = Ok u ∧ url_scheme u = "https" ∧
    ∃ o v, o ∈ sp_allowed_return_origins p ∧ url_parse o = Ok v ∧
      ascii_serialization (url_origin u) = ascii_serialization (url_origin v).
Proof.
  unfold validate_return_urls. rewrite and_then_ok. setoid_rewrite and_then_ok.
  setoid_rewrite and_then_ok. setoid_rewrite map_err_ok. setoid_rewrite ensure_r_ok.
  setoid_rewrite bool_decide_eq_true. split.
  - intros (allowed & Hall & u & Hu & [] & Hs & Hin). split.
    + intros o Ho. rewrite try_map_Ok in Hall.
      apply list_elem_of_lookup in Ho as [i Hi].
      destruct (Forall2_lookup_l _ _ _ _ _ Hall Hi) as (t & _ & Ht).
      apply check_return_origin_ok in Ht as (v & ? & ? & _). eauto.
    + exists u. split_and!; [done..|].
      apply (try_map_elem_of _ _ _ _ Hall) in Hin as (o & Ho & Ht).
      apply check_return_origin_ok in Ht as (v & Hv & _ & Heq). eauto 10.
  - intros [Ho (u & Hu & Hs & o & v & Hin & Hv & Heq)].
    destruct (try_map_is_ok check_return_origin (sp_allowed_return_origins p)) as [l Hl].
    { intros x (w & Hw & Hb)%Ho. unfold check_return_origin. rewrite Hw. simpl. by rewrite Hb. }
    exists l. split; [done|]. exists u. split; [done|]. exists (). split; [done|].
    rewrite Heq. apply (try_map_elem_of _ _ _ _ Hl). exists o. split; [done|].
    apply check_return_origin_ok. destruct (Ho o Hin) as (w & Hw & Hb).
    rewrite Hv in Hw. injection Hw as <-. by exists v.
Qed.

Lemma saml_params_wf_checks realm p :
  saml_params_wf realm p ↔
  validate_sp_fields p realm = Ok () ∧ validate_identity_mapping p = Ok () ∧
  validate_return_urls p = Ok ().
Proof.
  rewrite validate_sp_fields_ok, validate_identity_mapping_ok, validate_return_urls_ok.
  split; [by intros []|]. intros ([]&(?&?&?)&?&?). by split.
Qed.
Lemma validate_saml_params_ok now p realm p' :
  validate_saml_params now p realm = Ok p' ↔
  ∃ idp, states_idp now p idp ∧ p' = with_idp idp p ∧ saml_params_wf realm p'.
Proof.
  unfold validate_saml_params, states_idp. split.
  - destruct (metadata_text p) as [xml|]; [|done]. simpl.
    destruct (parse_idp_metadata now xml) as [idp|] eqn:Hidp; [|done]. simpl.
    destruct (validate_sp_fields (with_idp idp p) realm) as [[]|] eqn:H1; [|done]. simpl.
    destruct (validate_identity_mapping (with_idp idp p)) as [[]|] eqn:H2; [|done]. simpl.
    destruct (validate_return_urls (with_idp idp p)) as [[]|] eqn:H3; [|done].
    intros [= <-]. exists idp. split; [by exists xml|]. split; [done|].
    by apply saml_params_wf_checks.
  - intros (idp & (xml & -> & Hp) & -> & Hwf). simpl. rewrite Hp. simpl.
    apply saml_params_wf_checks in Hwf as (-> & -> & ->). done.
Qed.
Lemma with_idp_checks idp idp' p : with_idp idp (with_idp idp' p) = with_idp idp p.
Proof. done. Qed.
Lemma states_idp_with_idp now idp p i : states_idp now (with_idp idp p) i ↔ states_idp now p i.
Proof. done. Qed.

(** The entity [e] of a metadata document describes the provider [idp]: a descriptor for SAML 2
    has its name id format, an https redirect service and signing certificates that parse. *)
Definition certificate_of (d : IdpSsoDescriptor) (pem : string) : Prop :=
  ∃ key texts text der cert, key ∈ isd_key_descriptors d ∧ is_signing_key key = true ∧
    kd_x509_data key = Some texts ∧ text ∈ texts ∧
    standard_decode (remove_white_space text) = Ok der ∧ certificate_from_der der = Ok cert ∧
    certificate_to_pem cert = Ok pem.
Definition redirects_to (d : IdpSsoDescriptor) (sso_url : string) : Prop :=
  ∃ service u, service ∈ isd_single_sign_on_services d ∧
    sso_binding service = HTTP_REDIRECT_BINDING ∧ url_parse (trim (sso_location service)) = Ok u ∧
    url_scheme u = "https" ∧ sso_url = url_to_string u.
Definition describes (e : EntityDescriptor) (idp : IdpMetadata) : Prop :=
  ed_entity_id e = Some (im_entity_id idp) ∧ trim (im_entity_id idp) ≠ "" ∧
  ∃ d, d ∈ default [] (ed_idp_sso_descriptors e) ∧ supports_saml2 d = true ∧
    im_nameid_format idp = trim <$> head (isd_name_id_formats d) ∧
    redirects_to d (im_sso_url idp) ∧ im_signing_certificates idp ≠ [] ∧
    (∀ pem, pem ∈ im_signing_certificates idp → certificate_of d pem).

Lemma find_filter {A} (P : A → Prop) `{∀ x, Decision (P x)} l x :
  head (filter P l) = Some x → x ∈ l ∧ P x.
Proof.
  destruct (filter P l) as [|y k] eqn:Hk; [done|]. intros [= ->].
  assert (x ∈ filter P l) as [? ?]%list_elem_of_filter by (rewrite Hk; left). done.
Qed.
Lemma redirect_sso_url_ok d sso_url : redirect_sso_url d = Ok sso_url → redirects_to d sso_url.
Proof.
  unfold redirect_sso_url. intros (s & Hs%ok_or_ok%find_filter & H)%and_then_ok.
  apply and_then_ok in H as (u & Hu%map_err_ok & H).
  apply and_then_ok in H as (_ & Hh%ensure_r_ok%bool_decide_eq_true & [= <-]).
  destruct Hs as [Hin Hb]. by exists s, u.
Qed.
Lemma signing_certificates_ok d certs :
  signing_certificates d = Ok certs → certs ≠ [] ∧ ∀ pem, pem ∈ certs → certificate_of d pem.
Proof.
  unfold signing_certificates. intros (l & Hl & H)%and_then_ok.
  apply and_then_ok in H as (_ & Hne%ensure_r_ok%bool_decide_eq_true & [= <-]).
  split; [exact Hne|]. intros pem Hpem.
  apply (try_map_elem_of _ _ _ _ Hl) in Hpem as (text & Hin & Ht).
  apply list_elem_of_bind in Hin as (key & Htext & [Hs Hkey]%list_elem_of_filter).
  destruct (kd_x509_data key) as [texts|] eqn:Hd; [|by apply elem_of_nil in Htext].
  unfold der_certificate_to_pem in Ht. apply and_then_ok in Ht as (der & Hder%map_err_ok & H).
  apply and_then_ok in H as (cert & Hcert%map_err_ok & Hp%map_err_ok).
  exists key, texts, text, der, cert. split_and!; try done. by apply Is_true_true.
Qed.
(** What accepted metadata states of the IdP. *)
Lemma parse_idp_metadata_ok now xml idp :
  parse_idp_metadata now xml = Ok idp →
  ∃ e, metadata_from_str xml = Ok (EntityDescriptorOf e) ∧ describes e idp.
Proof.
  unfold parse_idp_metadata. intros (_ & _ & H)%and_then_ok.
  apply and_then_ok in H as (doc & Hdoc%map_err_ok & H).
  apply and_then_ok in H as (e & He & H).
  destruct doc as [e'|]; [|done]. injection He as ->. exists e. split; [exact Hdoc|].
  apply and_then_ok in H as (id & Hid%ok_or_ok & H). apply and_then_ok in H as (_ & _ & H).
  apply and_then_ok in H as (d & [Hd Hs]%ok_or_ok%find_filter & H).
  apply and_then_ok in H as (sso & Hsso%redirect_sso_url_ok & H).
  apply and_then_ok in H as (certs & [Hne Hc]%signing_certificates_ok & [= <-]).
  unfold describes. simpl. destruct (ed_entity_id e) as [x|]; [|done].
  case_decide as Hx; [done|]. injection Hid as <-. split; [done|]. split; [exact Hx|].
  exists d. split_and!; try done. by apply Is_true_true.
Qed.

(** * The settings a server stores *)
Definition saml_settings_ok (id : string) (p : SamlParams) : Prop :=
  id ≠ ADMIN_REALM ∧ saml_params_wf id p ∧
  ∃ now idp, states_idp now p idp ∧ with_idp idp p = p.

Lemma check_saml_params_enabled_ok now key r r' p :
  check_saml_params_enabled now key r = Ok r' →
  rap_saml_params (realm_auth_params r') = Some p → saml_settings_ok (realm_id r') p.
Proof.
  intros Hr Hp. pose proof (check_saml_params_enabled_id _ _ _ _ Hr) as Hid.
  revert Hr. unfold check_saml_params_enabled.
  destruct (rap_saml_params (realm_auth_params r)) as [p0|] eqn:Hp0; [|congruence].
  intros (_ & Hne%ensure_r_ok%bool_decide_eq_true & H)%and_then_ok.
  apply and_then_ok in H as (_ & _ & (p' & Hv & <-)%map_ok_ok).
  simpl in Hp. injection Hp as ->. simpl in Hid. simpl. split; [done|].
  apply validate_saml_params_ok in Hv as (idp & Hidp & -> & Hwf). split; [done|].
  exists now, idp. by rewrite states_idp_with_idp, with_idp_checks.
Qed.
End wf.

Section stored.
Context {SL : SamlLibs} {L : DbLibs} {LAWS : DbLaws}.

Definition saml_db_ok (d : Database) : Prop :=
  ∀ id row params p, db_realm d !! id = Some row →
    from_json (rr_auth_params row) = Ok params → rap_saml_params params = Some p →
    saml_settings_ok id p.

Lemma saml_db_ok_agree {A E} (m : M Database E A) :
  ensures (agree db_realm) m → ensures (preserve saml_db_ok) m.
Proof. intros Hm d Hd. unfold saml_db_ok. by rewrite <-(Hm d). Qed.
Ltac agree_realm :=
  apply saml_db_ok_agree; repeat first
    [ apply ensures_sql_insert; [apply _|by intros]
    | progress cbv zeta
    | ensures_step ]; try (unfold agree; reflexivity).

Lemma stored_row_ok realm text :
  (∀ p, rap_saml_params (realm_auth_params realm) = Some p → saml_settings_ok (realm_id realm) p) →
  serialize_auth_params realm = Ok text →
  ∀ params p, from_json text = Ok params → rap_saml_params params = Some p →
    saml_settings_ok (realm_id realm) p.
Proof.
  intros Hok Ht params p Hj Hp. apply map_err_ok in Ht.
  destruct (serde_roundtrip (realm_auth_params realm)) as (t & Ht' & Hj').
  rewrite Ht in Ht'. injection Ht' as ->. rewrite Hj in Hj'. injection Hj' as ->. by apply Hok.
Qed.
Lemma create_realm_saml realm :
  (∀ p, rap_saml_params (realm_auth_params realm) = Some p → saml_settings_ok (realm_id realm) p) →
  ensures (preserve saml_db_ok) (create_realm realm).
Proof.
  intros Hok. apply ensures_with_result; [apply _|]. intros text Ht.
  apply ensures_with_err, ensures_sql_insert; [apply _|]. intros d _ _ _ Hd id row params p Hrow.
  cbn in Hrow. apply lookup_insert_Some in Hrow as [[<- <-]|[_ Hrow]]; [|by eapply Hd].
  by apply (stored_row_ok realm text).
Qed.
Lemma update_realm_saml realm :
  (∀ p, rap_saml_params (realm_auth_params realm) = Some p → saml_settings_ok (realm_id realm) p) →
  ensures (preserve saml_db_ok) (update_realm realm).
Proof.
  intros Hok. apply ensures_with_result; [apply _|]. intros text Ht.
  apply ensures_modify. intros d Hd id row params p Hrow. cbn in Hrow.
  apply lookup_alter_Some in Hrow as [(<- & row' & _ & ->)|[_ Hrow]]; [|by eapply Hd].
  by apply (stored_row_ok realm text).
Qed.
Lemma delete_realm_saml id : ensures (preserve saml_db_ok) (delete_realm id).
Proof.
  apply ensures_modify. intros d Hd i row params p Hrow.
  apply (lookup_delete_Some (db_realm d)) in Hrow as [_ Hrow]. by eapply Hd.
Qed.
Lemma create_admin_saml a : ensures (preserve saml_db_ok) (create_admin a).
Proof. unfold create_admin, sql, insert_admin_realm. agree_realm. Qed.
Lemma update_admin_saml a : ensures (preserve saml_db_ok) (update_admin a).
Proof. unfold update_admin, sql, insert_admin_realm. agree_realm. Qed.
Lemma delete_admin_saml id : ensures (preserve saml_db_ok) (delete_admin id).
Proof. unfold delete_admin. agree_realm. Qed.
Lemma create_userpass_saml u : ensures (preserve saml_db_ok) (create_userpass u).
Proof. unfold create_userpass. agree_realm. Qed.
Lemma update_userpass_saml u : ensures (preserve saml_db_ok) (update_userpass u).
Proof. unfold update_userpass. agree_realm. Qed.
Lemma update_userpass_metadata_saml r u c l :
  ensures (preserve saml_db_ok) (update_userpass_metadata r u c l).
Proof. unfold update_userpass_metadata. agree_realm. Qed.
Lemma delete_userpass_saml r u : ensures (preserve saml_db_ok) (delete_userpass r u).
Proof. unfold delete_userpass. agree_realm. Qed.
Lemma delete_userpass_by_username_saml u :
  ensures (preserve saml_db_ok) (delete_userpass_by_username u).
Proof. unfold delete_userpass_by_username. agree_realm. Qed.
Lemma enable_totp_saml r u s i : ensures (preserve saml_db_ok) (enable_totp r u s i).
Proof. unfold enable_totp. agree_realm. Qed.
Lemma disable_totp_saml r u : ensures (preserve saml_db_ok) (disable_totp r u).
Proof. unfold disable_totp. agree_realm. Qed.

#[local] Hint Resolve can_manage_realm_reads can_manage_admin_realms_reads require_reads
  manage_credentials_reads manage_totp_reads find_admin_reads realm_totp_params_reads : reads.
Create HintDb saml_db.
#[local] Hint Resolve create_realm_saml update_realm_saml delete_realm_saml create_admin_saml
  update_admin_saml delete_admin_saml create_userpass_saml update_userpass_saml
  update_userpass_metadata_saml delete_userpass_saml delete_userpass_by_username_saml
  enable_totp_saml disable_totp_saml : saml_db.

Lemma run_request_saml now key q req :
  ensures (preserve saml_db_ok) (run_request (SC := saml_enabled now key) q req).
Proof.
  destruct req; simpl;
    unfold api_create_realm, api_get_realm, api_update_realm, api_delete_realm, api_list_realms,
      api_create_admin, api_get_admin, api_update_admin, api_delete_admin, api_list_admins,
      add_admin_to_realm, remove_admin_from_realm, api_get_userpass, api_create_userpass,
      api_update_userpass, api_delete_userpass, api_list_userpass_by_realm,
      api_list_all_userpass, totp_generate, totp_verify, totp_disable, relink_admin;
    repeat api_step; eauto with saml_db.
  all: first [apply create_realm_saml|apply update_realm_saml];
    intros p Hp; match goal with H : check_saml_params _ = Ok _ |- _ =>
      exact (check_saml_params_enabled_ok now key _ _ p H Hp) end.
Qed.
Lemma init_saml salt : ensures (preserve saml_db_ok) (init salt).
Proof.
  unfold init, initialize_db. ensures_steps; [|apply create_userpass_saml|apply create_admin_saml].
  by apply create_realm_saml.
Qed.

(** The server is started, serves administration requests, each at its own time and with or
    without a signing key configured, and writes whatever else it writes to other tables. *)
Inductive saml_step : Database → Database → Prop :=
  | SamlInit salt d : saml_step d (init salt d).2
  | SamlAdmin now key q req d :
      saml_step d (run_request (SC := saml_enabled now key) q req d).2
  | SamlOther d d' : db_realm d' = db_realm d → saml_step d d'.
Lemma saml_step_ok d d' : saml_step d d' → saml_db_ok d → saml_db_ok d'.
Proof.
  intros [salt d0|now key q req d0|d0 d1 Heq] Hd.
  - by apply init_saml.
  - by apply run_request_saml.
  - unfold saml_db_ok. by rewrite Heq.
Qed.
Lemma saml_steps_ok d d' : rtc saml_step d d' → saml_db_ok d → saml_db_ok d'.
Proof. induction 1; eauto using saml_step_ok. Qed.
Lemma saml_reachable_ok d : rtc saml_step empty_database d → saml_db_ok d.
Proof.
  intros Hd. apply (saml_steps_ok _ _ Hd). intros id row params p H.
  change (db_realm empty_database) with (∅ : gmap string RealmRow) in H.
  by rewrite lookup_empty in H.
Qed.
Lemma get_realm_saml_ok id r p d :
  saml_db_ok d → get_realm id d = (Ok (Some r), d) →
  rap_saml_params (realm_auth_params r) = Some p → realm_id r = id ∧ saml_settings_ok id p.
Proof.
  intros Hd. unfold get_realm, bind, gets, of_result.
  destruct (db_realm d !! id) as [row|] eqn:Hrow; [|done]. simpl.
  destruct (from_json (rr_auth_params row)) as [params|e] eqn:Hj; [|done].
  intros [= <-] Hp. simpl in *. split; [done|]. by eapply Hd.
Qed.

(** C10: the SAML settings a server serves.  Whatever administration requests ran since the
    store was created, the SAML settings read from a realm belong to a realm other than the
    administration realm and passed every check for that realm: the assertion consumer URL is an
    https URL of this very realm, every return origin is a bare https origin and the default
    return URL lies under one of them, the claims are unreserved, named once and not blank, and
    a provider with transient names has a subject attribute.  The identity provider is the one
    the stored metadata describes, whatever the request said: entity id, name id format, the
    https URL of its redirect service, and at least one certificate, each one of its signing
    certificates. *)
Theorem stored_saml_settings_validated (id : string) (r : Realm) (p : SamlParams)
    (d : Database) :
  rtc saml_step empty_database d → get_realm id d = (Ok (Some r), d) →
  rap_saml_params (realm_auth_params r) = Some p →
  id ≠ ADMIN_REALM ∧ saml_params_wf id p ∧
  ∃ xml e, metadata_text p = Some xml ∧ metadata_from_str xml = Ok (EntityDescriptorOf e) ∧
    describes e (mkIdpMetadata (sp_idp_entity_id p) (sp_idp_sso_url p)
                   (sp_idp_signing_certificates p) (sp_idp_nameid_format p)).
Proof.
  intros Hd Hr Hp. apply saml_reachable_ok in Hd.
  destruct (get_realm_saml_ok id r p d Hd Hr Hp) as (_ & Hne & Hwf & now & idp & Hidp & Heq).
  split; [exact Hne|]. split; [exact Hwf|]. destruct Hidp as (xml & Hxml & Hx).
  apply parse_idp_metadata_ok in Hx as (e & He & Hdesc). exists xml, e.
  split; [exact Hxml|]. split; [exact He|]. rewrite <-Heq. by destruct idp.
Qed.
End stored.

#[local] Existing Instance toy_saml_libs.
Lemma toy_saml_db_reachable : rtc saml_step empty_database toy_saml_db.
Proof.
  eapply rtc_l; [exact (SamlInit "salt" empty_database)|]. apply rtc_once. apply SamlAdmin.
Qed.
Lemma stored_saml_settings_validated_witness :
  saml_params_wf "r" toy_saml_params ∧
  ∃ xml, metadata_text toy_saml_params = Some xml.
Proof.
  destruct (stored_saml_settings_validated "r" (toy_saml_realm toy_saml_params) toy_saml_params
    toy_saml_db toy_saml_db_reachable toy_saml_realm_stored eq_refl)
    as (_ & Hwf & xml & e & Hxml & _).
  split; [exact Hwf|]. exists xml. exact Hxml.
Defined.

(** * Identity mapping *)
Lemma push_roles_elem roles values r : r ∈ push_roles roles values ↔ r ∈ roles ∨ r ∈ values.
Proof.
  revert roles. induction values as [|v values IH]; intros roles; simpl; [set_solver|].
  rewrite IH. case_decide; set_solver.
Qed.
Lemma push_roles_NoDup roles values : NoDup roles → NoDup (push_roles roles values).
Proof.
  revert roles. induction values as [|v values IH]; intros roles Hnd; simpl; [done|].
  apply IH. case_decide as Hin; [done|]. apply NoDup_app. split_and!; [done| |apply NoDup_singleton].
  intros x Hx ->%list_elem_of_singleton. done.
Qed.

(** The claims set by a list of pairs that names each claim once. *)
Definition claims_of (value : string → option Value) (l : list (string * string))
    (claims : gmap string Value) : gmap string Value :=
  foldl (λ claims ac, match value ac.1 with
                      | Some v => <[ac.2 := v]> claims
                      | None => claims
                      end) claims l.
Lemma claims_of_lookup value l claims c v :
  NoDup l.*2 →
  claims_of value l claims !! c = Some v ↔
  (∃ a, (a, c) ∈ l ∧ value a = Some v) ∨
  ((∀ a, (a, c) ∈ l → value a = None) ∧ claims !! c = Some v).
Proof.
  revert claims. induction l as [|[a c'] l IH]; intros claims Hnd; simpl.
  { split; [|by intros [(a & ?%elem_of_nil & _)|[_ ?]]].
    intros H. right. split; [by intros a ?%elem_of_nil|done]. }
  apply NoDup_cons in Hnd as [Hnin Hnd].
  assert (Hout : ∀ b, (b, c') ∉ l).
  { intros b Hb. apply Hnin. simpl. apply list_elem_of_fmap. by exists (b, c'). }
  rewrite (IH _ Hnd). clear IH Hnin Hnd. split.
  - intros [(b & Hb & Hv)|[Hn Hl]]; [left; exists b; split; [by right|done]|].
    destruct (value a) as [w|] eqn:Hw.
    + apply lookup_insert_Some in Hl as [[-> ->]|[Hne Hl]].
      * left. exists a. split; [by left|done].
      * right. split; [|done]. intros b [[= -> ->]|Hb]%elem_of_cons; [done|by apply Hn].
    + right. split; [|done]. intros b [[= -> ->]|Hb]%elem_of_cons; [done|by apply Hn].
  - intros [(b & [[= -> ->]|Hb]%elem_of_cons & Hv)|[Hn Hl]].
    + right. split; [by intros x ?%Hout|]. rewrite Hv. by apply lookup_insert_Some; left.
    + left. by exists b.
    + right. split; [intros b Hb; apply Hn; by right|].
      destruct (value a) as [w|] eqn:Hw; [|done].
      apply lookup_insert_Some. right. split; [|done]. intros ->.
      by rewrite (Hn a (list_elem_of_here _ _)) in Hw.
Qed.

Section identity.
Context {SL : SamlLibs} `{Serde (gmap string Value)}.

Lemma identity_claims_lookup assertion p c v :
  NoDup (map_to_list (sp_attribute_claim_map p)).*2 →
  identity_claims assertion p !! c = Some v ↔
  ∃ a, sp_attribute_claim_map p !! a = Some c ∧ claim_value (attribute_values assertion a) = Some v.
Proof.
  intros Hnd. pose proof (claims_of_lookup (λ a, claim_value (attribute_values assertion a))
    _ ∅ c v Hnd) as Hl.
  unfold identity_claims. unfold claims_of in Hl. rewrite Hl, lookup_empty.
  setoid_rewrite elem_of_map_to_list. naive_solver.
Qed.

(** The subject before it is normalised: the only value of the configured attribute, or the
    name of the assertion, unless it changes on every login. *)
Definition subject_of (assertion : Assertion) (p : SamlParams) (subject : string) : Prop :=
  match sp_subject_attribute p with
  | Some name => attribute_values assertion name = [subject]
  | None => ∃ format, as_name_id assertion = Some (Some (mkNameId format subject)) ∧
              subject ≠ "" ∧ format ≠ Some NAMEID_TRANSIENT
  end.
Lemma identity_subject_ok assertion p s :
  identity_subject assertion p = Ok s ↔ subject_of assertion p s.
Proof.
  unfold identity_subject, subject_of. destruct (sp_subject_attribute p) as [name|].
  - destruct (attribute_values assertion name) as [|v [|]]; split; try done; [by intros [= ->]|].
    by intros [= ->].
  - unfold name_id_subject. destruct (as_name_id assertion) as [[[f n]|]|]; simpl.
    + case_decide as Hn; simpl; [split; [done|by intros (? & [= _ ->] & ? & _)]|].
      destruct (decide (f = Some NAMEID_TRANSIENT)) as [Hf|Hf]; simpl.
      * rewrite bool_decide_eq_true_2 by done. split; [done|]. by intros (? & [= -> ->] & _ & ?).
      * rewrite bool_decide_eq_false_2 by done. simpl. split; [intros [= <-]; by exists f|].
        by intros (? & [= -> ->] & _).
    + split; [done|]. by intros (? & ? & _).
    + split; [done|]. by intros (? & ? & _).
Qed.
Lemma size_check_ok (claims : gmap string Value) :
  validate_extra_claims_size claims = Ok () ↔
  ∃ text, to_json claims = Ok text ∧ String.length text ≤ MAX_EXTRA_CLAIMS_BYTES.
Proof.
  unfold validate_extra_claims_size. destruct (to_json claims) as [text|]; [|naive_solver].
  case_decide; split; try done.
  - intros (t & [= <-] & ?). lia.
  - intros _. exists text. split; [done|lia].
Qed.
Lemma map_identity_ok assertion p i :
  map_identity assertion p = Ok i ↔
  ∃ subject, subject_of assertion p subject ∧
    (∃ text, to_json (identity_claims assertion p) = Ok text ∧
       String.length text ≤ MAX_EXTRA_CLAIMS_BYTES) ∧
    i = mkSamlIdentity (if sp_normalize_subject_case p then to_lowercase subject else subject)
          (identity_roles assertion p) (identity_claims assertion p).
Proof.
  unfold map_identity. rewrite and_then_ok. setoid_rewrite identity_subject_ok.
  split.
  - intros (s & Hs & ([] & Hsz%map_err_ok%size_check_ok & [= <-])%and_then_ok). by exists s.
  - intros (s & Hs & Hsz%size_check_ok & ->). exists s. split; [done|]. by rewrite Hsz.
Qed.

(** C34: what a verified assertion becomes, for settings a realm may keep.  The mapping succeeds
    exactly when the assertion determines a subject (one value of the configured attribute, else
    a name that is not transient) and the mapped claims are at most 4096 bytes as JSON; then the
    subject is that one (in lower case if configured), the roles are the distinct values of the
    role attribute and of nothing else, and a claim is present exactly when an attribute mapped
    to it has a value: that value, or the list of its values.  No attribute the settings do not
    name has any effect, and the session token can never carry a claim twice. *)
Theorem map_identity_exact (realm : string) (p : SamlParams) (assertion : Assertion)
    (i : SamlIdentity) :
  saml_params_wf realm p →
  map_identity assertion p = Ok i ↔
  (∃ subject, subject_of assertion p subject ∧
     si_subject i = if sp_normalize_subject_case p then to_lowercase subject else subject) ∧
  (si_roles i = identity_roles assertion p ∧ NoDup (si_roles i) ∧
   ∀ role, role ∈ si_roles i ↔
     ∃ name, sp_role_attribute p = Some name ∧ role ∈ attribute_values assertion name) ∧
  (∀ claim v, si_extra_claims i !! claim = Some v ↔
     ∃ a, sp_attribute_claim_map p !! a = Some claim ∧
          claim_value (attribute_values assertion a) = Some v) ∧
  (∃ text, to_json (si_extra_claims i) = Ok text ∧ String.length text ≤ MAX_EXTRA_CLAIMS_BYTES) ∧
  (∀ now lifetime, NoDup (client_claims_fields (session_claims now (si_subject i) Saml realm
     (si_roles i) (si_extra_claims i) lifetime)).*1).
Proof.
  intros Hwf. assert (NoDup (map_to_list (sp_attribute_claim_map p)).*2) as Hnd
    by (apply map_values_NoDup, Hwf).
  pose proof (identity_claims_lookup assertion p) as Hc. rewrite map_identity_ok. split.
  - intros (subject & Hs & Hsz & ->). cbn [si_subject si_roles si_extra_claims].
    split; [by exists subject|]. split; [|split; [by intros; apply Hc|split; [done|]]].
    + split; [done|]. unfold identity_roles. destruct (sp_role_attribute p) as [name|].
      * split; [apply push_roles_NoDup; constructor|]. intros role. rewrite push_roles_elem. set_solver.
      * split; [constructor|]. set_solver.
    + intros now lifetime. rewrite client_claims_fields_split.
      apply flatten_nodup with client_typed_keys;
        [by apply (bool_decide_unpack _)|apply client_typed_sublist|].
      intros k [v Hv]%elem_of_dom Hk. cbn [cc_extra session_claims] in Hv.
      apply Hc in Hv as (a & Ha & _); [|done].
      apply (wf_claims _ _ Hwf) in Ha as (_ & _ & Hres). apply Hres, typed_keys_reserved. by left.
  - intros ((subject & Hs & Hi) & (Hr & _) & Hx & Hsz & _).
    assert (si_extra_claims i = identity_claims assertion p) as Heq.
    { apply map_eq. intros k. apply option_eq. intros v. rewrite Hx. by rewrite Hc. }
    exists subject. split; [done|]. rewrite <-Heq. split; [done|].
    destruct i as [si ri xi]. simpl in *. by rewrite Hi, Hr.
Qed.
End identity.
Definition toy_assertion : Assertion :=
  mkAssertion "_a1" 0 (Some (Some (mkNameId None "alice"))) (Some (Some [["sp"]])) (Some 1%nat)
    (Some [[mkAttribute (Some "groups") [Some "users"; Some "admins"; Some "users"];
            mkAttribute (Some "mail") [Some "a@example.com"];
            mkAttribute (Some "office") [Some "12"]]]).
Definition toy_identity : SamlIdentity :=
  mkSamlIdentity "alice" ["users"; "admins"] {[ "email" := VString "a@example.com" ]}.
Lemma map_identity_exact_witness :
  map_identity toy_assertion toy_saml_params = Ok toy_identity ∧
  (∀ claim v, si_extra_claims toy_identity !! claim = Some v ↔
     ∃ a, sp_attribute_claim_map toy_saml_params !! a = Some claim ∧
          claim_value (attribute_values toy_assertion a) = Some v).
Proof.
  assert (map_identity toy_assertion toy_saml_params = Ok toy_identity) as Hi by by vm_compute.
  assert (saml_params_wf "r" toy_saml_params) as Hwf.
  { apply saml_params_wf_checks. split_and!; by vm_compute. }
  split; [exact Hi|].
  pose proof (proj1 (map_identity_exact "r" toy_saml_params toy_assertion toy_identity Hwf) Hi)
    as (_ & _ & Hx & _).
  exact Hx.
Defined.
