(* ===== verification/SamlStoreSpec.v ===== *)
(** The SAML request store: its SQLite implementation keeps the promises of [SamlStoreLaws], and
    what follows for every store that does: a request is handed out once, an assertion id is
    recorded once. *)
From S2P Require Import Prelude RustStd Models Passwords Totp Database DatabaseFacts Toy SamlStore.

Lemma timestamp_mono t t' : (t ≤ t')%Z → (timestamp t ≤ timestamp t')%Z.
Proof. intros H. unfold timestamp. by apply Z.div_le_mono. Qed.
Lemma ensure_unexpired_ok t e what n :
  in_i64 (e - timestamp t) →
  ensure_unexpired t e what = Ok n ↔ (timestamp t < e)%Z ∧ n = (e - timestamp t)%Z.
Proof.
  intros Hr. unfold ensure_unexpired. rewrite i64_sub_id by done.
  case_decide; split; try done; [lia|by intros [= <-]; split; [lia|]|]. by intros [_ ->].
Qed.
(** BOUNDS: the lifetime a store is given is positive. *)
Lemma ensure_unexpired_pos t e what n : ensure_unexpired t e what = Ok n → (1 ≤ n)%Z.
Proof. unfold ensure_unexpired. case_decide; [done|]. intros [= <-]. lia. Qed.
Lemma ensure_unexpired_err t e what :
  in_i64 (e - timestamp t) → (e ≤ timestamp t)%Z →
  ensure_unexpired t e what = Err (Generic ("refusing to store an already-expired " +:+ what)).
Proof. intros Hr He. unfold ensure_unexpired. rewrite i64_sub_id by done. case_decide; [done|lia]. Qed.

(** * SQLite *)
Section sqlite.
Context {SX : Sqlx}.

Definition sqlite_pending_at (s : SamlTables) (t : Z) (id realm : string)
    : option PendingSamlRequest :=
  match saml_pending_request s !! id with
  | Some row => if decide (pr_realm_id row = realm ∧ (pr_expires_at row > timestamp t)%Z)
                then Some (row_to_pending id row) else None
  | None => None
  end.
#[export] Instance sqlite_saml_views : SamlStoreViews SamlTables := {|
  store_wf _ := True;
  good_request_id _ := true;
  good_realm_id _ := true;
  good_text _ := true;
  pending_at := sqlite_pending_at;
  unused_id s id := bool_decide (saml_pending_request s !! id = None);
  seen_at s _ realm aid := bool_decide (is_Some (saml_seen_assertion s !! (realm, aid)));
  remembers s realm aid e := ∃ e', saml_seen_assertion s !! (realm, aid) = Some e' ∧ (e ≤ e')%Z;
|}.

Lemma sqlite_pending_some s t id realm r :
  sqlite_pending_at s t id realm = Some r ↔
  ∃ row, saml_pending_request s !! id = Some row ∧ pr_realm_id row = realm ∧
    (timestamp t < pr_expires_at row)%Z ∧ r = row_to_pending id row.
Proof.
  unfold sqlite_pending_at. destruct (saml_pending_request s !! id) as [row|];
    [case_decide as Hd|]; split; try done.
  - intros [= <-]. destruct Hd. exists row. split_and!; [done..|lia|done].
  - intros (row' & [= <-] & _ & _ & ->). done.
  - intros (row' & [= <-] & Hr & Ht & _). destruct Hd. split; [done|lia].
  - by intros (row' & ? & _).
Qed.
Lemma sqlite_pending_frame (s : SamlTables) t t' op id realm : (t ≤ t')%Z →
  match op with
  | OpStore r => psr_request_id r ≠ id
  | OpTake id' realm' => (id', realm') ≠ (id, realm)
  | _ => True
  end → sqlite_pending_at (run_op t op s) t' id realm = sqlite_pending_at s t' id realm.
Proof.
  intros Ht%timestamp_mono Hop. destruct op as [r|id' realm'|realm' aid e|]; simpl.
  - unfold store_pending_request, bind, of_result.
    destruct (ensure_unexpired _ _ _); [|done].
    destruct (saml_pending_request s !! psr_request_id r); [done|]. simpl.
    unfold sqlite_pending_at. simpl. by rewrite lookup_insert_ne.
  - unfold take_pending_request. destruct (saml_pending_request s !! id') as [row|] eqn:Hrow; [|done].
    case_decide as Hd; [|done]. simpl. unfold sqlite_pending_at. simpl.
    destruct (decide (id' = id)) as [->|]; [|by rewrite lookup_delete_ne].
    rewrite lookup_delete_eq, Hrow, decide_False; [done|]. intros [H _]. apply Hop.
    destruct Hd. congruence.
  - unfold record_assertion_id, bind, of_result. destruct (ensure_unexpired _ _ _); [|done].
    by destruct (saml_seen_assertion s !! (realm', aid)).
  - unfold sqlite_pending_at, delete_expired. cbn.
    destruct (saml_pending_request s !! id) as [row|] eqn:Hrow.
    + destruct (decide (pr_expires_at row ≤ timestamp t)%Z) as [Hx|Hx].
      * rewrite map_lookup_filter_None_2; [|right; intros ? ? Hn; simplify_eq; auto].
        rewrite decide_False; [done|]. lia.
      * by rewrite (map_lookup_filter_Some_2 _ _ _ row).
    + by rewrite map_lookup_filter_None_2 by by left.
Qed.
Lemma sqlite_remembers_frame (s : SamlTables) t op realm aid e :
  remembers s realm aid e → (timestamp t < e)%Z → remembers (run_op t op s) realm aid e.
Proof.
  intros (e' & He & Hle) Ht. destruct op as [r|id' realm'|realm' aid' e1|]; simpl.
  - unfold store_pending_request, bind, of_result.
    destruct (ensure_unexpired _ _ _); [|by exists e'].
    destruct (saml_pending_request s !! psr_request_id r); by exists e'.
  - unfold take_pending_request. destruct (saml_pending_request s !! id'); [|by exists e'].
    case_decide; by exists e'.
  - unfold record_assertion_id, bind, of_result. destruct (ensure_unexpired _ _ _); [|by exists e'].
    destruct (saml_seen_assertion s !! (realm', aid')) eqn:Hs; [by exists e'|].
    exists e'. split; [|done]. simpl. rewrite lookup_insert_ne; [done|]. intros [= -> ->].
    by rewrite He in Hs.
  - exists e'. split; [|done]. unfold delete_expired. cbn.
    apply map_lookup_filter_Some_2; [done|]. simpl. lia.
Qed.

#[export] Instance sqlite_saml_laws : SamlStoreLaws SamlTables.
Proof.
  split; simpl.
  - done.
  - intros s t id realm r _ _ (row & Hrow & <- & Ht & ->)%sqlite_pending_some. done.
  - intros s t t' id realm r _ _ (row & Hrow & <- & _ & ->)%sqlite_pending_some _ Ht'.
    apply sqlite_pending_some. by exists row.
  - intros s t t' id realm Hn Ht%timestamp_mono. unfold sqlite_pending_at in *.
    destruct (saml_pending_request s !! id) as [row|]; [|done].
    destruct (decide (pr_realm_id row = realm ∧ (pr_expires_at row > timestamp t)%Z)) as [|Hd]; [done|].
    rewrite decide_False; [done|]. intros [? ?]. apply Hd. split; [done|lia].
  - intros s t r _ _ Hf%bool_decide_eq_true Hr Ht. unfold store_pending_request, bind, of_result.
    rewrite (proj2 (ensure_unexpired_ok _ _ _ _ Hr) (conj Ht eq_refl)). by rewrite Hf.
  - intros s s' t t' r _ _ Hst _ Ht'. revert Hst.
    unfold store_pending_request, bind, of_result. destruct (ensure_unexpired _ _ _); [|done].
    destruct (saml_pending_request s !! psr_request_id r); [done|]. intros [= <-].
    apply sqlite_pending_some. simpl. eexists. rewrite lookup_insert_eq.
    split_and!; [done..|]. by destruct r.
  - intros s t id realm _ _. unfold take_pending_request, sqlite_pending_at.
    destruct (saml_pending_request s !! id); [|done]. by case_decide.
  - intros s t t' id realm _ _ Ht%timestamp_mono. unfold take_pending_request, sqlite_pending_at.
    destruct (saml_pending_request s !! id) as [row|] eqn:Hrow; simpl; [|by rewrite Hrow].
    case_decide as Hd; simpl; [by rewrite lookup_delete_eq|]. rewrite Hrow, decide_False; [done|].
    intros [? ?]. apply Hd. split; [done|lia].
  - intros s t t' id realm realm' aid _. unfold take_pending_request.
    destruct (saml_pending_request s !! id); [|done]. by case_decide.
  - intros s t realm aid e Hr. left. unfold record_assertion_id, bind, of_result.
    destruct (decide (e ≤ timestamp t)%Z) as [He|He].
    + by rewrite ensure_unexpired_err.
    + rewrite (proj2 (ensure_unexpired_ok _ _ _ _ Hr) (conj (proj1 (Z.nle_gt _ _) He) eq_refl)).
      by destruct (saml_seen_assertion s !! (realm, aid)).
  - intros s s' t realm aid e Hr. unfold record_assertion_id, bind, of_result.
    destruct (ensure_unexpired _ _ _); [|done].
    destruct (saml_seen_assertion s !! (realm, aid)); [done|]. intros [= <-].
    exists e. simpl. by rewrite lookup_insert_eq.
  - intros s t realm aid e (e' & He & _) _. apply bool_decide_eq_true. by exists e'.
  - intros s t t' op id realm _ _ _. apply sqlite_pending_frame.
  - apply sqlite_remembers_frame.
Qed.
End sqlite.

(** * Every store that keeps the promises *)
Lemma good_request_key `{SamlStoreViews R} (r : PendingSamlRequest) :
  good_request r = true → good_key (psr_request_id r) (psr_realm_id r) = true.
Proof. unfold good_request. by intros [? _]%andb_true_iff. Qed.
Section stores.
Context {R : Type} {RS : SamlRequestStore R} {RV : SamlStoreViews R} {LAWS : SamlStoreLaws R}.

Lemma store_run_time allowed t s t' s' : store_run allowed t s t' s' → (t ≤ t')%Z.
Proof. induction 1; lia. Qed.
Lemma store_run_wf allowed t s t' s' : store_run allowed t s t' s' → store_wf s → store_wf s'.
Proof. induction 1; eauto using run_op_wf. Qed.

(** A consumed assertion id is never recorded again with the same expiry. *)
Lemma remembers_run allowed t s t' s' realm aid e :
  store_run allowed t s t' s' → remembers s realm aid e → (timestamp t' < e)%Z →
  remembers s' realm aid e.
Proof.
  induction 1 as [|t t1 t2 s s2 op Ht _ _ Hrun IH]; intros Hrem Hlt; [done|].
  apply IH; [|done]. apply remembers_frame; [done|].
  pose proof (timestamp_mono _ _ (store_run_time _ _ _ _ _ Hrun)). lia.
Qed.
Lemma record_true_inv s s' t realm aid e :
  in_i64 (e - timestamp t) → rs_record_assertion_id t realm aid e s = (Ok true, s') →
  (timestamp t < e)%Z ∧ seen_at s t realm aid = false.
Proof.
  intros Hr Hrec. pose proof (record_answer s t realm aid e Hr) as Ha. rewrite Hrec in Ha.
  simpl in Ha. destruct Ha as [Ha|(_ & err & [=])]. case_decide; [done|]. split; [lia|].
  by destruct (seen_at s t realm aid).
Qed.
Lemma record_once allowed s0 s1 s2 s3 t1 t2 realm aid e :
  in_i64 (e - timestamp t1) → in_i64 (e - timestamp t2) →
  rs_record_assertion_id t1 realm aid e s0 = (Ok true, s1) →
  store_run allowed t1 s1 t2 s2 → rs_record_assertion_id t2 realm aid e s2 ≠ (Ok true, s3).
Proof.
  intros H1 H2 Hrec Hrun Hrec2. destruct (record_true_inv _ _ _ _ _ _ H2 Hrec2) as [Hlt Hseen].
  assert (remembers s2 realm aid e) as Hrem.
  { eapply remembers_run; [done| |done]. by apply (record_remembers s0 s1 t1). }
  by rewrite (remembers_seen _ _ _ _ _ Hrem Hlt) in Hseen.
Qed.

(** Until it is taken, a pending request waits; once taken it is gone. *)
Definition leaves (id realm : string) (op : StoreOp) : Prop :=
  match op with
  | OpStore r => psr_request_id r ≠ id
  | OpTake id' realm' => (id', realm') ≠ (id, realm)
  | _ => True
  end.
Definition never_stores (id : string) (op : StoreOp) : Prop :=
  match op with OpStore r => psr_request_id r ≠ id | _ => True end.

Lemma pending_run t s t' s' id realm r :
  store_run (leaves id realm) t s t' s' → store_wf s → good_key id realm = true →
  pending_at s t id realm = Some r → (timestamp t' < psr_expires_at r)%Z →
  pending_at s' t' id realm = Some r.
Proof.
  induction 1 as [t t' s Ht|t t1 t2 s s2 op Ht Hgood Hop Hrun IH]; intros Hwf Hid Hp Hlt.
  - by eapply pending_persists.
  - pose proof (timestamp_mono _ _ (store_run_time _ _ _ _ _ Hrun)) as Hle.
    apply IH; [by apply run_op_wf|done| |done].
    rewrite (pending_frame s t1 t1 op id realm); [|done..].
    apply (pending_persists s t t1); [done..|lia].
Qed.
Lemma gone_run t s t' s' id realm :
  store_run (never_stores id) t s t' s' → store_wf s → good_key id realm = true →
  pending_at s t id realm = None → pending_at s' t' id realm = None.
Proof.
  induction 1 as [t t' s Ht|t t1 t2 s s2 op Ht Hgood Hop Hrun IH]; intros Hwf Hid Hp.
  - by eapply pending_gone.
  - apply IH; [by apply run_op_wf|done|].
    assert (pending_at s t1 id realm = None) as Hp1 by by eapply pending_gone.
    destruct op as [r|id' realm'|realm' aid e|].
    + by rewrite (pending_frame s t1 t1 (OpStore r) id realm).
    + destruct (decide ((id', realm') = (id, realm))) as [[= -> ->]|Hne].
      * by apply take_consumes.
      * by rewrite (pending_frame s t1 t1 (OpTake id' realm') id realm).
    + by rewrite (pending_frame s t1 t1 (OpRecord realm' aid e) id realm).
    + by rewrite (pending_frame s t1 t1 OpPurge id realm).
Qed.
Lemma take_run s t id realm : store_wf s → good_key id realm = true →
  rs_take_pending_request t id realm s =
    (Ok (pending_at s t id realm), run_op t (OpTake id realm) s).
Proof.
  intros Hwf Hid. pose proof (take_answer s t id realm Hwf Hid) as Ha. simpl.
  destruct (rs_take_pending_request t id realm s). simpl in *. by subst.
Qed.
End stores.

(** C29: a pending sign-in request is handed out exactly once.  In a store that keeps the
    promises (SQLite does), whatever other requests are stored, taken or purged and whatever
    assertions are recorded in between, a request that was stored is handed out as it was
    stored to the first [take] for its id and realm before it expires, and to no later one. *)
Theorem pending_request_single_use {R : Type} `{SamlStoreLaws R} (s0 s1 s2 s3 s4 : R)
    (t1 t2 t3 : Z) (r : PendingSamlRequest) (answer : option PendingSamlRequest) :
  store_wf s0 → good_request r = true →
  in_i64 (psr_expires_at r - timestamp t1) →
  rs_store_pending_request t1 r s0 = (Ok (), s1) →
  store_run (leaves (psr_request_id r) (psr_realm_id r)) t1 s1 t2 s2 →
  (timestamp t2 < psr_expires_at r)%Z →
  rs_take_pending_request t2 (psr_request_id r) (psr_realm_id r) s2 = (Ok answer, s3) →
  store_run (never_stores (psr_request_id r)) t2 s3 t3 s4 →
  answer = Some r ∧
  (rs_take_pending_request t3 (psr_request_id r) (psr_realm_id r) s4).1 = Ok None.
Proof.
  intros Hwf Hgood Hr Hst Hrun Hlt Htake Hrun'. pose proof (good_request_key r Hgood) as Hid.
  assert (store_wf s1) as Hwf1 by (pose proof (run_op_wf s0 t1 (OpStore r) Hwf (conj Hgood Hr)) as Hx;
    simpl in Hx; by rewrite Hst in Hx).
  pose proof (store_run_wf _ _ _ _ _ Hrun Hwf1) as Hwf2.
  pose proof (timestamp_mono _ _ (store_run_time _ _ _ _ _ Hrun)) as Hle.
  rewrite take_run in Htake by done. injection Htake as <- <-. split.
  - eapply pending_run; [done..| |done]. eapply store_pending; [exact Hwf|by split|exact Hst|done|lia].
  - pose proof (run_op_wf s2 t2 (OpTake (psr_request_id r) (psr_realm_id r)) Hwf2 Hid) as Hwf3.
    pose proof (store_run_wf _ _ _ _ _ Hrun' Hwf3) as Hwf4.
    rewrite take_answer by done. f_equal. eapply gone_run; [done..|].
    by apply take_consumes.
Qed.
Definition toy_pending : PendingSamlRequest :=
  mkPendingSamlRequest "_1" "r" "https://app.example.com/" 100 700.
Lemma pending_request_single_use_witness :
  let s1 := (store_pending_request 100000000000 toy_pending empty_saml_tables).2 in
  let s2 := (delete_expired 200000000000 s1).2 in
  let '(answer, s3) := take_pending_request 300000000000 "_1" "r" s2 in
  answer = Ok (Some toy_pending) ∧
  (take_pending_request 400000000000 "_1" "r" s3).1 = Ok None.
Proof.
  intros s1 s2.
  assert (store_run (leaves "_1" "r") 100000000000 s1 300000000000 s2) as Hrun.
  { apply (run_step _ _ 200000000000 _ _ _ OpPurge); [lia|done|done|].
    apply run_wait. lia. }
  assert (rs_store_pending_request 100000000000 toy_pending empty_saml_tables = (Ok (), s1)) as Hst
    by by vm_compute.
  assert (in_i64 (700 - 100)) as Hi by (unfold in_i64, i64_min, i64_max; lia).
  destruct (take_pending_request 300000000000 "_1" "r" s2) as [answer s3] eqn:Htake.
  destruct answer as [answer|e]; [|exfalso; by vm_compute in Htake].
  destruct (pending_request_single_use empty_saml_tables s1 s2 s3 s3 100000000000 300000000000
    400000000000 toy_pending answer) as [H1 H2];
    [exact I|reflexivity|exact Hi|exact Hst|exact Hrun|by vm_compute|exact Htake|apply run_wait; lia|].
  split; [by rewrite H1|exact H2].
Defined.
