(* ===== verification/SamlSsoSpec.v ===== *)
(** Properties of SAML single sign-on: what an accepted response implies, that no assertion is
    accepted twice, that a sign-in once started completes, where the browser can be sent and
    what the pages can contain. *)
From S2P Require Import Prelude RustStd Models ClaimPolicy Jwt Passwords Totp Database DatabaseFacts Toy AdminApi Sessions SessionToken ToyLogin Saml ToySaml SamlStore SamlSso ToySso SamlSpec SamlStoreSpec.

#[local] Arguments trim : simpl never.

(** * Markup *)
Definition escape_char (a : ascii) : string :=
  if decide (a = "&"%char) then "&amp;" else if decide (a = "<"%char) then "&lt;"
  else if decide (a = ">"%char) then "&gt;" else if decide (a = "034"%char) then "&quot;"
  else if decide (a = "'"%char) then "&#39;" else String a EmptyString.
Fixpoint escape_chars (s : string) : string :=
  match s with EmptyString => EmptyString | String a s' => escape_char a +:+ escape_chars s' end.

Lemma str_replace_app c b s t : str_replace c b (s +:+ t) = str_replace c b s +:+ str_replace c b t.
Proof.
  induction s as [|a s IH]; [done|].
  change (String a s +:+ t) with (String a (s +:+ t)). simpl. by rewrite IH, string_app_assoc.
Qed.
Lemma escape_markup_app s t : escape_markup (s +:+ t) = escape_markup s +:+ escape_markup t.
Proof. unfold escape_markup. by rewrite !str_replace_app. Qed.
Lemma str_replace_other c b a : a ≠ c → str_replace c b (String a EmptyString) = String a EmptyString.
Proof. intros Ha. simpl. by rewrite decide_False. Qed.
Lemma escape_markup_char a : escape_markup (String a EmptyString) = escape_char a.
Proof.
  unfold escape_char. repeat (case_decide; [by subst|]).
  unfold escape_markup. by rewrite !str_replace_other.
Qed.
Lemma escape_markup_chars s : escape_markup s = escape_chars s.
Proof.
  induction s as [|a s IH]; [done|].
  change (String a s) with (String a EmptyString +:+ s).
  rewrite escape_markup_app, escape_markup_char, IH. done.
Qed.

(** How a browser or an XML parser reads it back: the five character references. *)
Definition references : list (string * ascii) :=
  [("&amp;", "&"%char); ("&lt;", "<"%char); ("&gt;", ">"%char); ("&quot;", "034"%char);
   ("&#39;", "'"%char)].
Definition read_reference (s : string) : option (ascii * string) :=
  head (omap (λ r, (λ rest, (r.2, rest)) <$> strip_prefix r.1 s) references).
Fixpoint unescape_fuel (fuel : nat) (s : string) : string :=
  match fuel, s with
  | S f, String a s' =>
      match read_reference s with
      | Some (c, rest) => String c (unescape_fuel f rest)
      | None => String a (unescape_fuel f s')
      end
  | _, _ => s
  end.
Definition unescape_markup (s : string) : string := unescape_fuel (String.length s) s.

Lemma read_reference_escape a t :
  match escape_char a with
  | String b EmptyString => read_reference (String b t) = None ∧ b = a
  | e => read_reference (e +:+ t) = Some (a, t)
  end.
Proof.
  unfold escape_char. repeat (case_decide; [subst; done|]).
  split; [|done]. unfold read_reference. simpl. by rewrite !decide_False by congruence.
Qed.
Lemma unescape_escape fuel s :
  String.length (escape_chars s) ≤ fuel → unescape_fuel fuel (escape_chars s) = s.
Proof.
  revert fuel. induction s as [|a s IH]; intros fuel Hf; [by destruct fuel|].
  cbn [escape_chars] in *. pose proof (read_reference_escape a (escape_chars s)) as Hr.
  destruct (escape_char a) as [|b [|b' e]] eqn:He; [by unfold escape_char in He; repeat case_decide|..].
  - destruct Hr as [Hr ->].
    change (String a EmptyString +:+ escape_chars s) with (String a (escape_chars s)) in *.
    simpl in Hf. destruct fuel as [|fuel]; [lia|]. cbn [unescape_fuel]. rewrite Hr, IH; [done|lia].
  - change (String b (String b' e) +:+ escape_chars s)
      with (String b (String b' (e +:+ escape_chars s))) in *.
    destruct fuel as [|fuel]; [simpl in Hf; lia|]. cbn [unescape_fuel]. rewrite Hr, IH; [done|].
    simpl in Hf. rewrite string_length_app in Hf. lia.
Qed.
Lemma escape_char_clean c a :
  c ∈ ["<"%char; ">"%char; "034"%char; "'"%char] → has_byte c (escape_char a) = false.
Proof.
  intros Hc. unfold escape_char.
  repeat (case_decide; [rewrite !elem_of_cons in Hc;
    destruct Hc as [->|[->|[->|[->|?%elem_of_nil]]]]; done|]).
  simpl. rewrite bool_decide_eq_false_2; [done|]. intros ->.
  rewrite !elem_of_cons, elem_of_nil in Hc.
  destruct Hc as [Hc|[Hc|[Hc|[Hc|Hc]]]]; congruence.
Qed.

(** What the pages and the metadata interpolate stays inside its attribute.  The escaped text
    contains none of the bytes that end an attribute value or open or close a tag, and reading
    its character references back gives the text itself; so the browser continues to exactly the
    return URL of the request. *)
Theorem escape_markup_roundtrip (text : string) :
  (∀ c, c ∈ ["<"%char; ">"%char; "034"%char; "'"%char] → has_byte c (escape_markup text) = false) ∧
  unescape_markup (escape_markup text) = text.
Proof.
  rewrite escape_markup_chars. split.
  - intros c Hc. induction text as [|a s IH]; [done|]. simpl.
    by rewrite has_byte_app, IH, escape_char_clean.
  - by apply unescape_escape.
Qed.

(** * Return URLs *)
Section return_url.
Context {SS : SsoLibs}.

(** [s] is the text of an https URL under one of the allowed origins. *)
Definition allowed_return (p : SamlParams) (s : string) : Prop :=
  ∃ u o v, url_parse s = Ok u ∧ url_scheme u = "https" ∧
    o ∈ sp_allowed_return_origins p ∧ url_parse o = Ok v ∧
    ascii_serialization (url_origin u) = ascii_serialization (url_origin v).

Lemma origin_eq_true a b : origin_eq a b = true → a = b.
Proof. destruct a, b; simpl; try done. intros (-> & -> & ->)%bool_decide_eq_true. done. Qed.
Lemma existsb_origins (p : SamlParams) o :
  existsb (λ origin, origin_eq origin o) (omap (λ origin, match url_parse origin with
                                     | Ok o => Some (url_origin o)
                                     | Err _ => None
                                     end) (sp_allowed_return_origins p)) = true →
  ∃ t v, t ∈ sp_allowed_return_origins p ∧ url_parse t = Ok v ∧ url_origin v = o.
Proof.
  intros (x & Hx%list_elem_of_In & Heq%origin_eq_true)%existsb_exists. subst x.
  apply list_elem_of_omap in Hx as (t & Ht & Hv). exists t.
  destruct (url_parse t) as [v|]; [|done]. injection Hv as Hv. by exists v.
Qed.

(** C33: no open redirect.  For settings a realm may keep, whatever [return_to] the login was
    asked for, the URL the server remembers and later sends the browser to is the text of an
    https URL under one of the realm's allowed origins; an explicit one carries no user name
    and no password, and one that is not under an allowed origin is refused. *)
Theorem return_url_under_allowed_origin `{!UrlLaws} (realm : string) (p : SamlParams)
    (return_to : option string) (s : string) :
  saml_params_wf realm p → resolve_return_url p return_to = Ok s →
  allowed_return p s ∧
  (∀ raw, return_to = Some raw → ∃ u, url_parse raw = Ok u ∧ s = url_to_string u ∧
     url_username u = "" ∧ url_password u = None).
Proof.
  intros Hwf. unfold resolve_return_url, allowed_return. destruct return_to as [raw|].
  - intros (u & Hu%map_err_ok & ([] & Hg%ensure_r_ok & [= <-])%and_then_ok)%and_then_ok.
    apply andb_true_iff in Hg as [Hg (t & v & Ht & Hv & Hvo)%existsb_origins].
    apply andb_true_iff in Hg as [Hg Hpw%bool_decide_eq_true].
    apply andb_true_iff in Hg as [Hs%bool_decide_eq_true Hun%bool_decide_eq_true].
    split.
    + exists u, t, v. split; [by eapply url_roundtrip|]. split_and!; [done..|]. by rewrite Hvo.
    + intros raw' [= <-]. by exists u.
  - intros [= <-]. split; [|done].
    destruct (wf_default_url _ _ Hwf) as (u & Hu & Hs & o & v & Ho & Hv & Heq). by exists u, o, v.
Qed.

(** * Validation of responses *)
Lemma check_saml_response_ok now xml p request_id a e :
  check_saml_response now xml p request_id = Ok (a, e) ↔
  ∃ sp, service_provider p = Ok sp ∧
    parse_xml_response now sp xml [request_id] = Ok a ∧
    require_audience a (sp_sp_entity_id p) = Ok () ∧
    (∃ n, as_authn_statements a = Some n ∧ n ≠ 0) ∧
    (now < as_issue_instant a + nanos MAX_ISSUE_DELAY_SECONDS ≤ DATETIME_MAX)%Z ∧
    e = i64_add (timestamp (as_issue_instant a + nanos MAX_ISSUE_DELAY_SECONDS)) 1.
Proof.
  unfold check_saml_response. rewrite and_then_ok.
  assert (Hn : match as_authn_statements a with Some n => negb (n =? 0) | None => false end = true ↔
    ∃ n, as_authn_statements a = Some n ∧ n ≠ 0).
  { destruct (as_authn_statements a) as [n|]; [|naive_solver].
    rewrite negb_true_iff, Nat.eqb_neq. naive_solver. }
  unfold datetime_add. split.
  - intros (sp & Hsp & (x & Hx%map_err_ok & H)%and_then_ok). exists sp. split; [done|].
    apply and_then_ok in H as ([] & Haud & H). apply and_then_ok in H as ([] & Hst%ensure_r_ok & H).
    case_decide as Hmax; [|done]. cbn [and_then] in H.
    apply and_then_ok in H as ([] & Hlate%ensure_r_ok & [= -> <-]).
    rewrite negb_true_iff, bool_decide_eq_false in Hlate. split_and!; [done|done|by apply Hn|lia|lia|done].
  - intros (sp & Hsp & Hx & Haud & Hst%Hn & [Hlate Hmax] & ->). exists sp. split; [done|].
    rewrite Hx. cbn [map_err and_then]. rewrite Haud. cbn [and_then]. rewrite Hst.
    cbn [ensure_r and_then]. rewrite decide_True by done. cbn [and_then].
    rewrite bool_decide_eq_false_2 by lia. done.
Qed.
Lemma require_audience_ok a sp_entity_id :
  require_audience a sp_entity_id = Ok () ↔
  ∃ restrictions, as_audience_restrictions a = Some (Some restrictions) ∧ restrictions ≠ [] ∧
    ∀ audience, audience ∈ restrictions → sp_entity_id ∈ audience.
Proof.
  unfold require_audience. rewrite and_then_ok. setoid_rewrite ok_or_ok.
  setoid_rewrite ensure_r_ok. setoid_rewrite forallb_forall. setoid_rewrite bool_decide_eq_true.
  setoid_rewrite <-list_elem_of_In. split.
  - intros (l & Hl & Hall). exists l. destruct (as_audience_restrictions a) as [[l'|]|]; try done.
    case_decide; [done|]. by injection Hl as ->.
  - intros (l & -> & Hne & Hall). exists l. by rewrite decide_False.
Qed.

(** An instant [Utc::now] can answer. *)
Definition clock_ok (t : Z) : Prop := (0 ≤ t ≤ DATETIME_MAX)%Z.
Lemma retention_in_i64 now e t :
  clock_ok now → clock_ok t → (now < e ≤ DATETIME_MAX)%Z →
  i64_add (timestamp e) 1 = (timestamp e + 1)%Z ∧
  in_i64 (i64_add (timestamp e) 1 - timestamp t) ∧ (timestamp now < i64_add (timestamp e) 1)%Z.
Proof.
  unfold clock_ok, DATETIME_MAX. intros Hnow Ht He.
  pose proof (Z.div_pos e 1000000000 ltac:(lia) ltac:(lia)) as H1.
  pose proof (Z.div_le_upper_bound e 1000000000 8210266876800 ltac:(lia) ltac:(lia)) as H2.
  pose proof (Z.div_pos t 1000000000 ltac:(lia) ltac:(lia)) as H3.
  pose proof (Z.div_le_upper_bound t 1000000000 8210266876800 ltac:(lia) ltac:(lia)) as H4.
  pose proof (Z.div_le_mono now e 1000000000 ltac:(lia) ltac:(lia)) as H5.
  unfold timestamp. rewrite i64_add_id; unfold in_i64, i64_min, i64_max; lia.
Qed.
End return_url.

(** * Replays *)
Section validation.
Context {SS : SsoLibs} {R : Type} {RS : SamlRequestStore R} {RV : SamlStoreViews R} {LAWS : SamlStoreLaws R}.

Lemma validate_saml_response_ok now now' xml p realm request_id a (s s' : R) :
  validate_saml_response now now' xml p realm request_id s = (Ok a, s') ↔
  ∃ e, check_saml_response now xml p request_id = Ok (a, e) ∧
    rs_record_assertion_id now' realm (as_id a) e s = (Ok true, s').
Proof.
  unfold validate_saml_response, bind, of_result.
  destruct (check_saml_response now xml p request_id) as [[b e]|]; [|naive_solver]. simpl.
  destruct (rs_record_assertion_id now' realm (as_id b) e s) as [[[|]|] s1] eqn:Hr; simpl.
  - split; [intros [= -> ->]; by exists e|]. by intros (e' & [= -> ->] & [= ->]%(eq_trans (eq_sym Hr))).
  - split; [done|]. by intros (e' & [= -> ->] & [=]%(eq_trans (eq_sym Hr))).
  - split; [done|]. by intros (e' & [= -> ->] & [=]%(eq_trans (eq_sym Hr))).
Qed.
End validation.

(** C11: an assertion is accepted once.  After a response was accepted in a realm, and whatever
    requests and assertions the store handled since and however often it was purged, no response
    with the same assertion (id and instant of issue) is accepted again in that realm, at any
    later time, against any settings and for any request, although the store forgets the id
    when it expires: it is remembered at least as long as the assertion is fresh. *)
Theorem assertion_accepted_once {SS : SsoLibs} {R : Type} `{SamlStoreLaws R} (s0 s1 s2 s3 : R)
    (now1 now1' now2 now2' : Z) (xml1 xml2 : string) (p1 p2 : SamlParams)
    (realm request1 request2 : string) (a1 a2 : Assertion) (allowed : StoreOp → Prop) :
  clock_ok now1 → clock_ok now1' → clock_ok now2 → clock_ok now2' →
  validate_saml_response now1 now1' xml1 p1 realm request1 s0 = (Ok a1, s1) →
  store_run allowed now1' s1 now2' s2 →
  validate_saml_response now2 now2' xml2 p2 realm request2 s2 = (Ok a2, s3) →
  as_id a1 = as_id a2 → as_issue_instant a1 ≠ as_issue_instant a2.
Proof.
  intros C1 C1' C2 C2' (e1 & Hc1 & Hr1)%validate_saml_response_ok Hrun
    (e2 & Hc2 & Hr2)%validate_saml_response_ok Hid Hissue.
  apply check_saml_response_ok in Hc1 as (_ & _ & _ & _ & _ & He1 & ->).
  apply check_saml_response_ok in Hc2 as (_ & _ & _ & _ & _ & He2 & ->).
  rewrite <-Hid, <-Hissue in Hr2.
  eapply (record_once allowed s0 s1 s2 s3 now1' now2'); [| |exact Hr1|exact Hrun|exact Hr2].
  - by eapply (retention_in_i64 now1).
  - by eapply (retention_in_i64 now1).
Qed.

(** * The endpoints *)
Lemma bind_ok {S E A B} (m : M S E A) (k : A → M S E B) s b s' :
  bind m k s = (Ok b, s') ↔ ∃ a s1, m s = (Ok a, s1) ∧ k a s1 = (Ok b, s').
Proof.
  unfold bind. destruct (m s) as [[a|e] s1]; split.
  - intros H. by exists a, s1.
  - by intros (a' & s1' & [= <- <-] & H).
  - done.
  - by intros (a' & s1' & ? & _).
Qed.
Lemma of_result_ok {S E A} (r : Result A E) (s s' : S) a :
  of_result r s = (Ok a, s') ↔ r = Ok a ∧ s' = s.
Proof. unfold of_result. split; [by intros [= -> ->]|by intros [-> ->]]. Qed.
Lemma ret_ok {S E A} (a b : A) (s s' : S) : @ret S E A a s = (Ok b, s') ↔ a = b ∧ s' = s.
Proof. unfold ret. split; [by intros [= -> ->]|by intros [-> ->]]. Qed.

Section endpoints.
Context {SS : SsoLibs} {S : Type} {ST : SessionStore S} {R : Type} {RS : SamlRequestStore R} {RV : SamlStoreViews R} {LAWS : SamlStoreLaws R}.
Context {L : DbLibs} {TL : TokenLibs}.

Lemma on_sso_sessions_ok {A} (m : M S AuthError A) (s s' : SsoServer (S := S) (R := R)) a :
  on_sso_sessions m s = (Ok a, s') ↔
  ∃ x, m (sso_sessions s) = (Ok a, x) ∧ s' = mkSsoServer (sso_db s) x (sso_requests s).
Proof.
  unfold on_sso_sessions. destruct (m (sso_sessions s)) as [r x]. split.
  - intros [= -> <-]. by exists x.
  - by intros (y & [= -> ->] & ->).
Qed.
Lemma on_requests_ok {A} (m : M R AuthError A) (s s' : SsoServer (S := S) (R := R)) a :
  on_requests m s = (Ok a, s') ↔
  ∃ x, m (sso_requests s) = (Ok a, x) ∧ s' = mkSsoServer (sso_db s) (sso_sessions s) x.
Proof.
  unfold on_requests. destruct (m (sso_requests s)) as [r x]. split.
  - intros [= -> <-]. by exists x.
  - by intros (y & [= -> ->] & ->).
Qed.

(** The realm of a request and its settings. *)
Definition realm_uses_saml (d : Database) (id : string) (realm : Realm) (p : SamlParams) : Prop :=
  get_realm id d = (Ok (Some realm), d) ∧ rap_saml_params (realm_auth_params realm) = Some p.
Lemma get_realm_id id realm d : get_realm id d = (Ok (Some realm), d) → realm_id realm = id.
Proof.
  unfold get_realm, bind, gets, of_result. destruct (db_realm d !! id) as [row|]; [|done]. simpl.
  destruct (from_json (rr_auth_params row)); [|done]. by intros [= <-].
Qed.
Lemma saml_realm_ok id (s s' : SsoServer (S := S) (R := R)) realm p :
  saml_realm id s = (Ok (realm, p), s') ↔ s' = s ∧ realm_uses_saml (sso_db s) id realm p.
Proof.
  unfold saml_realm, on_sso_db, realm_uses_saml, db, with_err, bind.
  pose proof (get_realm_reads id (sso_db s)) as Hr.
  destruct (get_realm id (sso_db s)) as [[[realm'|]|e] d]; simpl in Hr; subst d; simpl.
  - destruct s as [d x q]. destruct (rap_saml_params (realm_auth_params realm')) as [p'|] eqn:Hp; simpl.
    + split; [intros [= -> -> <-]; by split|]. intros (-> & [= <-] & Hp').
      rewrite Hp in Hp'. by injection Hp' as ->.
    + split; [done|]. intros (-> & [= <-] & Hp'). congruence.
  - split; [done|]. by intros (_ & [=] & _).
  - split; [done|]. by intros (_ & [=] & _).
Qed.

(** The XML of a form. *)
Definition form_xml (form : AcsForm) : option string :=
  match standard_decode (str_filter (λ c, negb (is_ascii_whitespace c)) (af_saml_response form)) with
  | Ok bytes => from_utf8 bytes
  | Err _ => None
  end.

(** Everything that holds when a form is accepted. *)
Record accepted_form (clock : AcsClock) (cookie : option string) (id : string) (form : AcsForm)
    (s : SsoServer (S := S) (R := R)) (realm : Realm) (p : SamlParams)
    (pending : PendingSamlRequest) (xml : string) (a : Assertion) (identity : SamlIdentity)
    (q : R) : Prop := {
  af_cookie : cookie = Some (af_relay_state form);
  af_realm : realm_uses_saml (sso_db s) id realm p;
  af_pending : pending_at (sso_requests s) (ac_take clock) (af_relay_state form) id = Some pending;
  af_xml : form_xml form = Some xml;
  af_validated : validate_saml_response (ac_check clock) (ac_record clock) xml p id
    (af_relay_state form)
    (run_op (ac_take clock) (OpTake (af_relay_state form) id) (sso_requests s)) = (Ok a, q);
  af_identity : map_identity a p = Ok identity;
}.

Lemma consume_response_ok clock cookie id form s s' realm pending identity :
  store_wf (sso_requests s) → good_key (af_relay_state form) id = true →
  consume_response clock cookie id form s = (Ok (realm, pending, identity), s') ↔
  ∃ p xml a q, accepted_form clock cookie id form s realm p pending xml a identity q ∧
    s' = mkSsoServer (sso_db s) (sso_sessions s) q.
Proof.
  intros Hwf Hgood. unfold consume_response. rewrite bind_ok. split.
  - intros ([] & s1 & [Hc%ensure_r_ok%bool_decide_eq_true ->]%of_result_ok & H).
    apply bind_ok in H as ([realm' p] & s1 & [-> Hrealm]%saml_realm_ok & H).
    pose proof (get_realm_id _ _ _ (proj1 Hrealm)) as Hid.
    apply bind_ok in H as (o & s1 & (x & Htake & ->)%on_requests_ok & H).
    apply bind_ok in H as (r & s1 & [Ho%ok_or_ok ->]%of_result_ok & H). subst o.
    rewrite Hid, take_run in Htake by done. injection Htake as Hp <-.
    destruct (pending_sound _ _ _ _ _ Hwf Hgood Hp) as (Hrid & _ & _).
    apply bind_ok in H as (xml & s1 & [Hxml%ok_or_ok ->]%of_result_ok & H).
    apply bind_ok in H as (a & s1 & (q & Hv & ->)%on_requests_ok & H). rewrite Hid, Hrid in Hv.
    apply bind_ok in H as (i & s1 & [Hi ->]%of_result_ok & [[= -> -> ->] ->]%ret_ok).
    exists p, xml, a, q. by split.
  - intros (p & xml & a & q & [Hc Hrealm Hp Hxml Hv Hi] & ->).
    pose proof (get_realm_id _ _ _ (proj1 Hrealm)) as Hid.
    destruct (pending_sound _ _ _ _ _ Hwf Hgood Hp) as (Hrid & _ & _).
    exists (), s. split; [apply of_result_ok; split; [by apply ensure_r_ok, bool_decide_eq_true|done]|].
    apply bind_ok. exists (realm, p), s. split; [by apply saml_realm_ok|].
    apply bind_ok. exists (Some pending). eexists. split.
    { apply on_requests_ok. eexists. split; [|done]. rewrite Hid, take_run by done. by rewrite Hp. }
    apply bind_ok. exists pending. eexists. split; [by apply of_result_ok|].
    apply bind_ok. exists xml. eexists. split; [by apply of_result_ok; rewrite ok_or_ok|].
    apply bind_ok. exists a. eexists. split.
    { apply on_requests_ok. exists q. split; [|done]. rewrite Hid, Hrid. exact Hv. }
    apply bind_ok. exists identity. eexists. split; [by apply of_result_ok|]. done.
Qed.

(** The session that stands for an identity: its token and what the session store is asked. *)
Definition session_of (clock : AcsClock) (config : JwtTokenConfig) (realm : Realm)
    (identity : SamlIdentity) (token : string) : Prop :=
  encode_claims (jtc_algorithm config) (jtc_encoding_key config)
    (session_claims (timestamp (ac_token clock)) (si_subject identity) Saml (realm_id realm)
       (si_roles identity) (si_extra_claims identity) (realm_session_max_age_seconds realm)) = Ok token.
Definition session_cookie_of (realm : Realm) (is_https : bool) (token : string) : SessionCookie :=
  mkCookie COOKIE_NAME token is_https true true (Some "/") (Some (realm_session_max_age_seconds realm)).
Lemma open_saml_session_ok clock config is_https realm identity s s' cookie :
  open_saml_session clock config is_https realm identity s = (Ok cookie, s') ↔
  ∃ token x, session_of clock config realm identity token ∧
    cookie = session_cookie_of realm is_https token ∧
    ss_upsert_session (ac_session clock) (sha256_hex token) realm
      (mkClient (si_subject identity) Saml) (cookie_to_string cookie) (sso_sessions s) = (Ok (), x) ∧
    s' = mkSsoServer (sso_db s) x (sso_requests (R := R) s).
Proof.
  unfold open_saml_session. rewrite bind_ok. split.
  - intros (token & s1 & [Ht%map_err_ok ->]%of_result_ok & H).
    apply bind_ok in H as (c & s1 & [[= <-] ->]%of_result_ok & H).
    apply bind_ok in H as (sid & s1 & [[= <-] ->]%of_result_ok & H).
    apply bind_ok in H as ([] & s1 & (x & Hu & ->)%on_sso_sessions_ok & [<- ->]%ret_ok).
    by exists token, x.
  - intros (token & x & Ht & -> & Hu & ->). exists token, s. split.
    { apply of_result_ok. split; [by apply map_err_ok|done]. }
    apply bind_ok. eexists. eexists. split; [by apply of_result_ok|].
    apply bind_ok. eexists. eexists. split; [by apply of_result_ok|].
    apply bind_ok. exists (). eexists. split; [apply on_sso_sessions_ok; by exists x|done].
Qed.

(** The answer to an accepted form, and the two handlers run forwards. *)
Definition acs_reply (realm : Realm) (is_https : bool) (token url : string) : HttpResponse SamlReply :=
  mkResponse 200 (mkSamlReply
    [("Content-Type", "text/html; charset=utf-8"); ("Cache-Control", "no-store");
     ("Content-Security-Policy", "default-src 'none'")]
    (Some (session_cookie_of realm is_https token)) (Some (make_removal (request_cookie "")))
    (redirect_page url)).
Lemma saml_acs_run clock config is_https cookie id form (s : SsoServer) realm p pending xml a identity q token x :
  store_wf (sso_requests s) → good_key (af_relay_state form) id = true →
  accepted_form clock cookie id form s realm p pending xml a identity q →
  session_of clock config realm identity token →
  ss_upsert_session (ac_session clock) (sha256_hex token) realm (mkClient (si_subject identity) Saml)
    (cookie_to_string (session_cookie_of realm is_https token)) (sso_sessions s) = (Ok (), x) →
  saml_acs clock config is_https cookie id form s =
    (Ok (acs_reply realm is_https token (psr_return_url pending)), mkSsoServer (sso_db s) x q).
Proof.
  intros Hwf Hgood Hacc Htoken Hup. unfold saml_acs. apply bind_ok.
  exists (realm, pending, identity), (mkSsoServer (sso_db s) (sso_sessions s) q). split.
  - apply consume_response_ok; [done..|]. by exists p, xml, a, q.
  - apply bind_ok. exists (session_cookie_of realm is_https token). eexists. split; [|done].
    apply open_saml_session_ok. by exists token, x.
Qed.
Definition login_reply (idp_url : Url) (request_id : string) : HttpResponse SamlReply :=
  mkResponse 302 (mkSamlReply
    [("Location", url_to_string idp_url); ("Cache-Control", "no-store")]
    None (Some (request_cookie request_id)) "").
Lemma saml_login_run now now' now'' uuid key id return_to (s : SsoServer (S := S)) realm p
    url idp_url q :
  let request_id := new_request_id uuid in
  realm_uses_saml (sso_db s) id realm p → resolve_return_url p return_to = Ok url →
  signed_authn_request_url now'' p request_id key = Ok idp_url →
  rs_store_pending_request now' (mkPendingSamlRequest request_id (realm_id realm) url (timestamp now)
    (i64_add (timestamp now) PENDING_REQUEST_SECONDS)) (sso_requests s) = (Ok (), q) →
  saml_login now now' now'' uuid key id return_to s =
    (Ok (login_reply idp_url request_id), mkSsoServer (sso_db s) (sso_sessions s) q).
Proof.
  intros rid Hrealm Hurl Hidp Hst. unfold saml_login. apply bind_ok.
  exists (realm, p), s. split; [by apply saml_realm_ok|].
  apply bind_ok. exists url, s. split; [by apply of_result_ok|].
  apply bind_ok. exists (). eexists. split; [apply on_requests_ok; by exists q|].
  apply bind_ok. exists idp_url. eexists. split; [by apply of_result_ok|]. done.
Qed.

(** The deadline of a request drawn at [now] and stored at [now']. *)
Lemma pending_deadline now now' :
  clock_ok now → clock_ok now' →
  i64_add (timestamp now) PENDING_REQUEST_SECONDS = (timestamp now + 600)%Z ∧
  in_i64 (i64_add (timestamp now) PENDING_REQUEST_SECONDS - timestamp now').
Proof.
  unfold clock_ok, DATETIME_MAX, timestamp, PENDING_REQUEST_SECONDS. intros Hnow Hnow'.
  pose proof (Z.div_pos now 1000000000 ltac:(lia) ltac:(lia)).
  pose proof (Z.div_le_upper_bound now 1000000000 8210266876800 ltac:(lia) ltac:(lia)).
  pose proof (Z.div_pos now' 1000000000 ltac:(lia) ltac:(lia)).
  pose proof (Z.div_le_upper_bound now' 1000000000 8210266876800 ltac:(lia) ltac:(lia)).
  rewrite i64_add_id; unfold in_i64, i64_min, i64_max; lia.
Qed.
(** A first use is recorded. *)
Lemma record_first t realm aid e (q : R) :
  in_i64 (e - timestamp t) → (timestamp t < e)%Z → seen_at q t realm aid = false →
  good_realm_id realm && good_text aid = true →
  ∃ q', rs_record_assertion_id t realm aid e q = (Ok true, q').
Proof.
  intros Hi He Hseen Hgood. destruct (record_answer q t realm aid e Hi) as [Ha|[Ha _]]; [|congruence].
  rewrite decide_False, Hseen in Ha by lia.
  destruct (rs_record_assertion_id t realm aid e q) as [res q']. exists q'. simpl in Ha. by subst.
Qed.
End endpoints.

(** C8: what a SAML login that succeeds went through.  The browser presented the cookie of the
    request it answers; the realm named in the path exists and uses SAML; the request was
    pending for this very realm and alive, and is gone now; the form holds a response that the
    SAML library verified for exactly this request with the realm's own entity id, consumer URL
    and at least one certificate of its provider; its assertion is addressed to this server by
    every restriction, states an authentication, is at most five minutes old and was recorded as
    used for the first time.  The session cookie and the stored session are those of the identity
    the assertion maps to, and the page leads to the return URL kept with the request. *)
Theorem saml_acs_sound {SS : SsoLibs} {S : Type} {ST : SessionStore S} {R : Type}
    {RS : SamlRequestStore R} {RV : SamlStoreViews R} {LAWS : SamlStoreLaws R} {L : DbLibs}
    {TL : TokenLibs} (clock : AcsClock) (config : JwtTokenConfig) (is_https : bool)
    (cookie : option string) (id : string) (form : AcsForm) (s s' : SsoServer (S := S) (R := R))
    (resp : HttpResponse SamlReply) :
  store_wf (sso_requests s) → good_key (af_relay_state form) id = true →
  saml_acs clock config is_https cookie id form s = (Ok resp, s') →
  ∃ realm p pending xml sp a restrictions identity token,
    cookie = Some (af_relay_state form) ∧
    realm_uses_saml (sso_db s) id realm p ∧
    (pending_at (sso_requests s) (ac_take clock) (af_relay_state form) id = Some pending ∧
     psr_request_id pending = af_relay_state form ∧ psr_realm_id pending = id ∧
     (timestamp (ac_take clock) < psr_expires_at pending)%Z) ∧
    form_xml form = Some xml ∧
    (sp_idp_signing_certificates p ≠ [] ∧ service_provider p = Ok sp ∧
     parse_xml_response (ac_check clock) sp xml [af_relay_state form] = Ok a) ∧
    (as_audience_restrictions a = Some (Some restrictions) ∧ restrictions ≠ [] ∧
     ∀ audience, audience ∈ restrictions → sp_sp_entity_id p ∈ audience) ∧
    as_authn_statements a ≠ Some 0 ∧ as_authn_statements a ≠ None ∧
    (ac_check clock < as_issue_instant a + nanos 300)%Z ∧
    rs_record_assertion_id (ac_record clock) id (as_id a)
      (i64_add (timestamp (as_issue_instant a + nanos 300)) 1)
      (run_op (ac_take clock) (OpTake (af_relay_state form) id) (sso_requests s)) =
      (Ok true, sso_requests s') ∧
    map_identity a p = Ok identity ∧
    session_of clock config realm identity token ∧
    ss_upsert_session (ac_session clock) (sha256_hex token) realm
      (mkClient (si_subject identity) Saml)
      (cookie_to_string (session_cookie_of realm is_https token)) (sso_sessions s) =
      (Ok (), sso_sessions s') ∧
    sso_db s' = sso_db s ∧ http_status resp = 200%Z ∧
    srp_session_cookie (http_body resp) = Some (session_cookie_of realm is_https token) ∧
    srp_body (http_body resp) = redirect_page (psr_return_url pending).
Proof.
  intros Hwf Hgood. unfold saml_acs. rewrite bind_ok.
  intros ([[realm pending] identity] & s1 & Hc & H).
  apply consume_response_ok in Hc as (p & xml & a & q & [Hck Hrealm Hp Hxml Hv Hi] & ->); [|done..].
  apply bind_ok in H as (c & s1 & Ho & [<- ->]%ret_ok).
  apply open_saml_session_ok in Ho as (token & x & Ht & -> & Hu & ->).
  apply validate_saml_response_ok in Hv as (e & Hch & Hrec).
  apply check_saml_response_ok in Hch as (sp & Hsp & Hparse & Haud & (n & Hn & Hn0) & Hlate & ->).
  apply require_audience_ok in Haud as (restrictions & Hr1 & Hr2 & Hr3).
  destruct (pending_sound _ _ _ _ _ Hwf Hgood Hp) as (? & ? & ?). destruct Hlate as [Hlate _].
  assert (sp_idp_signing_certificates p ≠ []) as Hcert.
  { unfold service_provider in Hsp.
    by apply and_then_ok in Hsp as (_ & ?%ensure_r_ok%bool_decide_eq_true & _). }
  exists realm, p, pending, xml, sp, a, restrictions, identity, token. simpl.
  split_and!; try done; congruence.
Qed.

(** C9: a sign-in that was started completes.  When a login is requested for a realm with usable
    settings and a fresh request id, the browser is sent to the provider with a cookie for that
    request.  Whatever other requests and assertions the server then handles and however often
    it cleans up, when the browser comes back within ten minutes with that cookie and a response
    to that request that passes the checks, whose assertion was not used before and maps to an
    identity for which a session can be stored, it gets the session and the page that leads to
    the return URL asked for at the start. *)
Theorem saml_login_completes {SS : SsoLibs} {S : Type} {ST : SessionStore S} {R : Type}
    {RS : SamlRequestStore R} {RV : SamlStoreViews R} {LAWS : SamlStoreLaws R} {L : DbLibs}
    {TL : TokenLibs} (now now' now'' : Z) (uuid id url : string) (key : SamlSpSigningKey)
    (return_to : option string) (realm : Realm) (p : SamlParams) (idp_url : Url)
    (s0 : SsoServer (S := S) (R := R)) :
  let request_id := new_request_id uuid in
  store_wf (sso_requests s0) → good_request_id request_id && good_realm_id id = true →
  good_text url = true →
  unused_id (sso_requests s0) request_id = true → clock_ok now → clock_ok now' →
  (timestamp now' < timestamp now + 600)%Z →
  realm_uses_saml (sso_db s0) id realm p → resolve_return_url p return_to = Ok url →
  signed_authn_request_url now'' p request_id key = Ok idp_url →
  ∃ resp s1, saml_login now now' now'' uuid key id return_to s0 = (Ok resp, s1) ∧
    http_status resp = 302%Z ∧
    srp_request_cookie (http_body resp) = Some (request_cookie request_id) ∧
    ∀ clock config is_https form (s2 : SsoServer (S := S) (R := R)) realm2 p2 xml a e identity
        token sessions,
      store_run (leaves request_id id) now' (sso_requests s1) (ac_take clock) (sso_requests s2) →
      (timestamp (ac_take clock) < timestamp now + 600)%Z →
      realm_uses_saml (sso_db s2) id realm2 p2 →
      af_relay_state form = request_id → form_xml form = Some xml →
      check_saml_response (ac_check clock) xml p2 request_id = Ok (a, e) →
      in_i64 (e - timestamp (ac_record clock)) → (timestamp (ac_record clock) < e)%Z →
      seen_at (sso_requests s2) (ac_record clock) id (as_id a) = false → good_text (as_id a) = true →
      map_identity a p2 = Ok identity → session_of clock config realm2 identity token →
      ss_upsert_session (ac_session clock) (sha256_hex token) realm2
        (mkClient (si_subject identity) Saml)
        (cookie_to_string (session_cookie_of realm2 is_https token)) (sso_sessions s2) =
        (Ok (), sessions) →
      ∃ resp2 s3, saml_acs clock config is_https (Some request_id) id form s2 = (Ok resp2, s3) ∧
        http_status resp2 = 200%Z ∧
        srp_session_cookie (http_body resp2) = Some (session_cookie_of realm2 is_https token) ∧
        srp_body (http_body resp2) = redirect_page url.
Proof.
  intros rid Hwf Hkey Hurl_ok Hfresh Hnow Hnow' Hlt Hrealm Hurl Hidp.
  pose proof (get_realm_id _ _ _ (proj1 Hrealm)) as Hid.
  destruct (pending_deadline now now' Hnow Hnow') as [Hexp Hrange].
  set (r := mkPendingSamlRequest rid (realm_id realm) url (timestamp now)
    (i64_add (timestamp now) PENDING_REQUEST_SECONDS)).
  assert (Hr : psr_expires_at r = (timestamp now + 600)%Z) by done.
  assert (good_request r = true) as Hgood by (unfold good_request, good_key; cbn; by rewrite Hid, Hkey).
  assert (∃ q, rs_store_pending_request now' r (sso_requests s0) = (Ok (), q)) as [q Hst].
  { pose proof (store_ok (sso_requests s0) now' r Hwf Hgood Hfresh Hrange ltac:(lia)) as Hok.
    destruct (rs_store_pending_request now' r (sso_requests s0)) as [res q]. exists q.
    simpl in Hok. by subst. }
  assert (store_wf q) as Hwfq by (pose proof (run_op_wf (sso_requests s0) now' (OpStore r) Hwf (conj Hgood Hrange))
    as Hx; simpl in Hx; by rewrite Hst in Hx).
  eexists. eexists. split; [by eapply (saml_login_run _ _ _ _ _ _ _ _ realm p url)|]. do 2 (split; [done|]).
  intros clock config is_https form s2 realm2 p2 xml a e identity token sessions Hrun Hin Hrealm2
    Hrelay Hxml Hch Hi64 Hrec Hseen Haid Hi Hs Hup. simpl in Hrun.
  assert (store_wf (sso_requests s2)) as Hwf2 by by eapply store_run_wf.
  assert (pending_at (sso_requests s2) (ac_take clock) rid id = Some r) as Hp.
  { apply (pending_run now' q _ _ rid id r Hrun Hwfq Hkey); [|by rewrite Hr].
    rewrite <-Hid. apply (store_pending (sso_requests s0) q now' now' r); [done|by split|done|done|lia]. }
  destruct (record_first (ac_record clock) id (as_id a) e
    (run_op (ac_take clock) (OpTake rid id) (sso_requests s2))) as [q' Hq'];
    [done|done|by rewrite take_seen| |].
  { apply andb_true_iff in Hkey as [_ Hk]. by rewrite Hk, Haid. }
  exists (acs_reply realm2 is_https token url), (mkSsoServer (sso_db s2) sessions q').
  split; [|done].
  apply (saml_acs_run clock config is_https _ id form s2 realm2 p2 r xml a identity q' token sessions);
    [done|by rewrite Hrelay| |done|done].
  split; rewrite ?Hrelay; try done. apply validate_saml_response_ok. by exists e.
Qed.

(** * Witnesses *)
#[local] Existing Instance toy_sso_libs.
Lemma toy_realm_uses_saml : realm_uses_saml toy_saml_db "r" (toy_saml_realm toy_saml_params) toy_saml_params.
Proof. split; [exact toy_saml_realm_stored|done]. Qed.
Lemma toy_params_wf : saml_params_wf "r" toy_saml_params.
Proof. apply saml_params_wf_checks. split_and!; by vm_compute. Qed.
Lemma return_url_under_allowed_origin_witness :
  resolve_return_url toy_saml_params (Some "https://app.example.com/home") =
    Ok "https://app.example.com/home" ∧
  allowed_return toy_saml_params "https://app.example.com/home".
Proof.
  assert (resolve_return_url toy_saml_params (Some "https://app.example.com/home") =
    Ok "https://app.example.com/home") as Hr by by vm_compute.
  split; [exact Hr|].
  destruct (@return_url_under_allowed_origin toy_sso_libs toy_url_laws "r" toy_saml_params _ _ toy_params_wf Hr)
    as [Ha _].
  exact Ha.
Defined.

Definition toy_validate (now : Z) (s : SamlTables) :=
  validate_saml_response now now toy_response_xml toy_saml_params "r" "_1" s.
Lemma assertion_accepted_once_witness :
  let s1 := (toy_validate 200000000000 empty_saml_tables).2 in
  let s2 := (delete_expired 250000000000 s1).2 in
  (toy_validate 200000000000 empty_saml_tables).1 = Ok toy_sso_assertion ∧
  is_ok (toy_validate 250000000000 s2).1 = false.
Proof.
  intros s1 s2.
  assert (toy_validate 200000000000 empty_saml_tables = (Ok toy_sso_assertion, s1)) as H1
    by by vm_compute.
  assert (store_run (λ _, True) 200000000000 s1 250000000000 s2) as Hrun.
  { apply (run_step _ _ 250000000000 _ _ _ OpPurge); [lia|done|done|].
    apply run_wait. lia. }
  split; [by rewrite H1|].
  destruct (toy_validate 250000000000 s2) as [[a2|e] s3] eqn:H2; [|done]. exfalso.
  assert (a2 = toy_sso_assertion) as -> 
    by (apply validate_saml_response_ok in H2 as (e & Hc & _); vm_compute in Hc; by injection Hc).
  refine (assertion_accepted_once empty_saml_tables s1 s2 s3 200000000000 200000000000 250000000000
    250000000000 toy_response_xml toy_response_xml toy_saml_params toy_saml_params "r" "_1" "_1"
    toy_sso_assertion toy_sso_assertion (λ _, True) _ _ _ _ H1 Hrun H2 eq_refl eq_refl);
    unfold clock_ok, DATETIME_MAX; lia.
Defined.

Definition toy_sso_after_login : SsoServer := toy_sso_login.2.
Lemma saml_login_completes_witness :
  ∃ resp, toy_sso_login = (Ok resp, toy_sso_after_login) ∧ http_status resp = 302%Z ∧
  ∃ resp2 s3, toy_sso_acs toy_sso_after_login = (Ok resp2, s3) ∧ http_status resp2 = 200%Z ∧
    srp_body (http_body resp2) = redirect_page "https://app.example.com/home".
Proof.
  destruct (saml_login_completes 100000000000 100000000000 100000000000 "1" "r"
    "https://app.example.com/home" toy_signing_key (Some "https://app.example.com/home")
    (toy_saml_realm toy_saml_params) toy_saml_params ("idp.example.com", "/sso") toy_sso_server)
    as (resp & s1 & Hlogin & Hst & _ & Hacs);
    [exact I|done|done|done|unfold clock_ok, DATETIME_MAX; lia|unfold clock_ok, DATETIME_MAX; lia
    |by vm_compute|exact toy_realm_uses_saml|by vm_compute|by vm_compute|].
  assert (s1 = toy_sso_after_login) as -> by (unfold toy_sso_after_login, toy_sso_login; by rewrite Hlogin).
  exists resp. split; [exact Hlogin|]. split; [exact Hst|].
  set (identity := mkSamlIdentity "alice" ["users"] ∅).
  set (token := toy_encode "key." (session_claims 200 "alice" Saml "r" ["users"] ∅ 3600)).
  assert (store_run (leaves (new_request_id "1") "r") 100000000000 (sso_requests toy_sso_after_login)
    200000000000 (sso_requests toy_sso_after_login)) as Hrun by (apply run_wait; lia).
  assert (realm_uses_saml (sso_db toy_sso_after_login) "r" (toy_saml_realm toy_saml_params)
    toy_saml_params) as Hrealm by (split; by vm_compute).
  assert (check_saml_response 200000000000 toy_response_xml toy_saml_params (new_request_id "1") =
    Ok (toy_sso_assertion, 301%Z)) as Hch by by vm_compute.
  assert (in_i64 (301 - 200)) as Hi by (unfold in_i64, i64_min, i64_max; lia).
  assert (seen_at (sso_requests toy_sso_after_login) 200000000000 "r" "_a1" = false) as Hseen
    by by vm_compute.
  assert (map_identity toy_sso_assertion toy_saml_params = Ok identity) as Hid by by vm_compute.
  assert (session_of toy_acs_clock toy_token_config (toy_saml_realm toy_saml_params) identity token)
    as Htoken by reflexivity.
  assert (sso_sessions toy_sso_after_login = ∅) as Hempty by by vm_compute.
  assert (∃ x, ss_upsert_session 200 (sha256_hex token) (toy_saml_realm toy_saml_params)
    (mkClient "alice" Saml)
    (cookie_to_string (session_cookie_of (toy_saml_realm toy_saml_params) true token))
    (sso_sessions toy_sso_after_login) = (Ok (), x)) as [sessions Hup].
  { rewrite Hempty. cbn [ss_upsert_session sqlite_session_store]. unfold upsert_session.
    rewrite lookup_empty. by eexists. }
  destruct (Hacs toy_acs_clock toy_token_config true toy_acs_form toy_sso_after_login
    (toy_saml_realm toy_saml_params) toy_saml_params toy_response_xml toy_sso_assertion 301%Z identity
    token sessions Hrun eq_refl Hrealm eq_refl eq_refl Hch Hi eq_refl Hseen eq_refl Hid Htoken Hup)
    as (resp2 & s3 & Ha & H2 & _ & H3).
  exists resp2, s3. split; [exact Ha|]. split; [exact H2|exact H3].
Defined.

Lemma saml_acs_sound_witness :
  ∃ resp s', toy_sso_acs toy_sso_after_login = (Ok resp, s') ∧
  ∃ pending, pending_at (sso_requests toy_sso_after_login) 200000000000 "_1" "r" = Some pending ∧
    srp_body (http_body resp) = redirect_page (psr_return_url pending).
Proof.
  destruct (toy_sso_acs toy_sso_after_login) as [[resp|e] s'] eqn:Hrun;
    [|exfalso; apply (f_equal (λ x, is_ok x.1)) in Hrun; by vm_compute in Hrun].
  exists resp, s'. split; [reflexivity|].
  assert (store_wf (sso_requests toy_sso_after_login)) as Hwf by exact I.
  assert (good_key (af_relay_state toy_acs_form) "r" = true) as Hgood by reflexivity.
  destruct (saml_acs_sound toy_acs_clock toy_token_config true (Some "_1") "r" toy_acs_form
    toy_sso_after_login s' resp Hwf Hgood Hrun)
    as (realm & p & pending & xml & sp & a & rs & i & token & _ & _ & (Hp & _) & _ & _ & _ & _ & _
        & _ & _ & _ & _ & _ & _ & _ & _ & Hb).
  exists pending. split; [exact Hp|exact Hb].
Defined.
