(* ===== verification/Redis.v ===== *)
(** The commands of a Redis server that the server's stores use, and the two stores built on
    them: sessions ([server/src/session/impls/redis.rs]) and SAML requests
    ([server/src/saml/impls/redis.rs]).

    A key holds a string or a set and may have the instant, in nanoseconds, at which it expires; a
    key that has expired does not exist.  Each command is atomic and an operation takes place at
    one instant [now]; connections do not fail. *)
From S2P Require Import Prelude RustStd Models Passwords Totp Database Sessions SamlStore.
From stdpp Require Import pretty.

(** * Commands *)
Inductive RedisValue := RString (s : string) | RSet (members : gset string).
Record RedisEntry := mkRedisEntry { re_value : RedisValue; re_expire_at : option Z }.
Abbreviation RedisDb := (gmap string RedisEntry).
Inductive RedisError := WrongType | InvalidExpireTime.
Class RedisLib := { redis_error_to_string : RedisError → string }.
Abbreviation RedisM := (M RedisDb RedisError).

Definition expired (now : Z) (e : RedisEntry) : bool :=
  match re_expire_at e with Some t => bool_decide (t ≤ now)%Z | None => false end.
Definition live (now : Z) (key : string) (s : RedisDb) : option RedisEntry :=
  match s !! key with
  | Some e => if expired now e then None else Some e
  | None => None
  end.
Definition nanos_after (now ttl : Z) : Z := now + ttl * 1000000000.

(** GET *)
Definition redis_get (now : Z) (key : string) : RedisM (option string) := λ s,
  match live now key s with
  | Some (mkRedisEntry (RString v) _) => (Ok (Some v), s)
  | Some (mkRedisEntry (RSet _) _) => (Err WrongType, s)
  | None => (Ok None, s)
  end.
(** SETEX: replaces whatever the key held. *)
Definition redis_set_ex (now : Z) (key value : string) (ttl : Z) : RedisM () := λ s,
  if decide (0 < ttl)%Z then
    (Ok (), <[key := mkRedisEntry (RString value) (Some (nanos_after now ttl))]> s)
  else (Err InvalidExpireTime, s).
(** SET key value NX EX ttl: [None] is the nil reply. *)
Definition redis_set_nx_ex (now : Z) (key value : string) (ttl : Z) : RedisM (option string) := λ s,
  if decide (0 < ttl)%Z then
    match live now key s with
    | Some _ => (Ok None, s)
    | None => (Ok (Some "OK"), <[key := mkRedisEntry (RString value) (Some (nanos_after now ttl))]> s)
    end
  else (Err InvalidExpireTime, s).
(** GETDEL *)
Definition redis_getdel (now : Z) (key : string) : RedisM (option string) := λ s,
  match live now key s with
  | Some (mkRedisEntry (RString v) _) => (Ok (Some v), delete key s)
  | Some (mkRedisEntry (RSet _) _) => (Err WrongType, s)
  | None => (Ok None, s)
  end.
(** DEL *)
Definition redis_del (key : string) : RedisM () := modify (delete key).
(** SADD: a new set never expires, an old one keeps its expiry. *)
Definition redis_sadd (now : Z) (key member : string) : RedisM () := λ s,
  match live now key s with
  | Some (mkRedisEntry (RSet l) t) => (Ok (), <[key := mkRedisEntry (RSet ({[ member ]} ∪ l)) t]> s)
  | Some (mkRedisEntry (RString _) _) => (Err WrongType, s)
  | None => (Ok (), <[key := mkRedisEntry (RSet {[ member ]}) None]> s)
  end.
(** SREM: a set without members does not exist. *)
Definition redis_srem (now : Z) (key member : string) : RedisM () := λ s,
  match live now key s with
  | Some (mkRedisEntry (RSet l) t) =>
      let l' := l ∖ {[ member ]} in
      (Ok (), if decide (l' = ∅) then delete key s else <[key := mkRedisEntry (RSet l') t]> s)
  | Some (mkRedisEntry (RString _) _) => (Err WrongType, s)
  | None => (Ok (), s)
  end.
(** SMEMBERS *)
Definition redis_smembers (now : Z) (key : string) : RedisM (list string) := λ s,
  match live now key s with
  | Some (mkRedisEntry (RSet l) _) => (Ok (elements l), s)
  | Some (mkRedisEntry (RString _) _) => (Err WrongType, s)
  | None => (Ok [], s)
  end.
(** EXPIRE: a time to live that is not positive deletes the key. *)
Definition redis_expire (now : Z) (key : string) (ttl : Z) : RedisM () := λ s,
  match live now key s with
  | Some e =>
      (Ok (), if decide (0 < ttl)%Z
              then <[key := mkRedisEntry (re_value e) (Some (nanos_after now ttl))]> s
              else delete key s)
  | None => (Ok (), s)
  end.
(** SCAN MATCH [prefix]*, to the end. *)
Definition redis_scan_prefix (now : Z) (prefix : string) : RedisM (list string) := gets (λ s,
  filter (λ key, starts_with prefix key = true ∧ is_Some (live now key s)) (map_to_list s).*1).

Section stores.
Context {RL : RedisLib}.
Abbreviation StoreM := (M RedisDb AuthError).

Definition redis {A} (what : string) (m : RedisM A) : StoreM A :=
  with_err (λ e, Generic (what +:+ ": " +:+ redis_error_to_string e)) m.
Definition json_err {A} (what : string) (r : Result A string) : StoreM A :=
  of_result (map_err (λ e, Generic (what +:+ ": " +:+ e)) r).

(** * SAML requests *)
Section saml.
Context {J : Serde PendingSamlRequest}.

Definition pending_key (realm_id request_id : string) : string :=
  "saml:pending:" +:+ realm_id +:+ ":" +:+ request_id.
Definition seen_key (realm_id assertion_id : string) : string :=
  "saml:seen:" +:+ pretty (String.length realm_id) +:+ ":" +:+ realm_id +:+ ":" +:+ assertion_id.

Definition redis_store_pending_request (now : Z) (request : PendingSamlRequest) : StoreM () :=
  let key := pending_key (psr_realm_id request) (psr_request_id request) in
  let* json := json_err "Failed to serialize SAML pending request" (to_json request) in
  let* ttl := of_result (ensure_unexpired now (psr_expires_at request) "SAML pending request") in
  redis "Failed to store SAML pending request" (redis_set_ex now key json ttl).
Definition redis_take_pending_request (now : Z) (request_id realm_id : string)
    : StoreM (option PendingSamlRequest) :=
  let key := pending_key realm_id request_id in
  let* json := redis "Failed to take SAML pending request" (redis_getdel now key) in
  match json with
  | None => ret None
  | Some json =>
      let* request := json_err "Failed to deserialize SAML pending request" (from_json json) in
      if decide (psr_expires_at request ≤ timestamp now)%Z then ret None else ret (Some request)
  end.
Definition redis_record_assertion_id (now : Z) (realm_id assertion_id : string) (expires_at : Z)
    : StoreM bool :=
  let* ttl := of_result (ensure_unexpired now expires_at "SAML assertion id") in
  let key := seen_key realm_id assertion_id in
  let* set := redis "Failed to record SAML assertion id" (redis_set_nx_ex now key "1" ttl) in
  ret (match set with Some _ => true | None => false end).

#[export] Instance redis_saml_store : SamlRequestStore RedisDb := {|
  rs_store_pending_request := redis_store_pending_request;
  rs_take_pending_request := redis_take_pending_request;
  rs_record_assertion_id := redis_record_assertion_id;
  rs_delete_expired _ := ret ();
|}.
End saml.

(** * Sessions *)
Section sessions.
Context {J : Serde SessionData}.

Definition session_key (session_id : string) : string := "session:" +:+ session_id.
Definition user_sessions_key (realm_id username auth_scheme : string) : string :=
  "user_sessions:" +:+ realm_id +:+ ":" +:+ username +:+ ":" +:+ auth_scheme.
Definition user_key_of (d : SessionData) : string :=
  user_sessions_key (sd_realm_id d) (sd_username d) (sd_auth_scheme d).

Definition redis_upsert_session (now : Z) (session_id : string) (realm : Realm)
    (authenticated_client : AuthenticatedClientScheme) (session_value : string) : StoreM () :=
  let auth_scheme_str := auth_scheme_json (acs_auth_scheme authenticated_client) in
  let session_data := mkSessionData session_id (realm_id realm) (acs_username authenticated_client)
    auth_scheme_str session_value (realm_session_max_stale_age_seconds realm)
    (realm_session_max_age_seconds realm) (timestamp now) in
  let* session_json := json_err "Failed to serialize session data" (to_json session_data) in
  let user_key := user_sessions_key (realm_id realm) (acs_username authenticated_client)
                    auth_scheme_str in
  let ttl := Z.max 1 (Z.min (realm_session_max_stale_age_seconds realm)
                        (realm_session_max_age_seconds realm)) in
  redis "Failed to set session in Redis" (redis_set_ex now (session_key session_id) session_json ttl) ;;;
  redis "Failed to add session to user set" (redis_sadd now user_key session_id) ;;;
  redis "Failed to set TTL on user sessions set" (redis_expire now user_key ttl).

(** The session is over: it leaves its key and the set of its user. *)
Definition drop_session (now : Z) (session_id : string) (d : SessionData) : StoreM () :=
  redis "Failed to delete expired session" (redis_del (session_key session_id)) ;;;
  redis "Failed to remove session from user set" (redis_srem now (user_key_of d) session_id).

Definition redis_get_session (now : Z) (session_id : string) : StoreM (option SessionData) :=
  let* session_json := redis "Failed to get session from Redis" (redis_get now (session_key session_id)) in
  match session_json with
  | Some json =>
      let* session_data := json_err "Failed to deserialize session data" (from_json json) in
      let absolute_expiry := i64_add (sd_created_at session_data) (sd_max_age_seconds session_data) in
      if decide (timestamp now > absolute_expiry)%Z then
        drop_session now session_id session_data ;;; ret None
      else
        let ttl := Z.min (sd_max_stale_age_seconds session_data)
                     (i64_sub absolute_expiry (timestamp now)) in
        if decide (ttl ≤ 0)%Z then
          drop_session now session_id session_data ;;; ret None
        else
          redis "Failed to refresh TTL in Redis" (redis_expire now (session_key session_id) ttl) ;;;
          ret (Some session_data)
  | None => ret None
  end.

(** One member of a user's set: the session, if it is not over; otherwise it leaves the set. *)
Definition listed_session (now : Z) (user_key session_id : string) : StoreM (option SessionData) :=
  let* session_json := redis "Failed to get session from Redis" (redis_get now (session_key session_id)) in
  match session_json with
  | Some json =>
      let* session_data := json_err "Failed to deserialize session data" (from_json json) in
      if decide (timestamp now > i64_add (sd_created_at session_data)
                                   (sd_max_age_seconds session_data))%Z then
        redis "Failed to delete expired session" (redis_del (session_key session_id)) ;;;
        redis "Failed to remove expired session from user set"
          (redis_srem now user_key session_id) ;;;
        ret None
      else ret (Some session_data)
  | None =>
      redis "Failed to remove non-existent session from user set"
        (redis_srem now user_key session_id) ;;;
      ret None
  end.
Definition user_sessions (now : Z) (realm_id : string) (user : AuthenticatedClientScheme)
    : StoreM (list SessionData) :=
  let user_key := user_sessions_key realm_id (acs_username user)
                    (auth_scheme_json (acs_auth_scheme user)) in
  let* session_ids := redis "Failed to get user sessions from Redis" (redis_smembers now user_key) in
  let* sessions := map_m (listed_session now user_key) session_ids in
  ret (omap id sessions).
Definition redis_get_sessions_for_clients (now : Z) (realm_id : string)
    (authenticated_users : list AuthenticatedClientScheme) : StoreM (list SessionData) :=
  let* all_valid_sessions := map_m (user_sessions now realm_id) authenticated_users in
  ret (concat all_valid_sessions).

Definition redis_delete_session (now : Z) (session_id : string) : StoreM () :=
  let* session_json := redis "Failed to get session from Redis" (redis_get now (session_key session_id)) in
  match session_json with
  | Some json =>
      let* session_data := json_err "Failed to deserialize session data" (from_json json) in
      redis "Failed to remove session from user set"
        (redis_srem now (user_key_of session_data) session_id)
  | None => ret ()
  end ;;;
  redis "Failed to delete session from Redis" (redis_del (session_key session_id)).
Definition redis_delete_sessions (now : Z) (session_ids : list string) : StoreM () :=
  for_each (redis_delete_session now) session_ids.

(** A key of the scan: malformed sessions and those of other realms are passed over. *)
Definition delete_if_in_realm (now : Z) (realm_id key : string) : StoreM () :=
  let* session_json := redis "Failed to get session from Redis" (redis_get now key) in
  match session_json with
  | Some json =>
      match from_json json with
      | Ok session_data =>
          if decide (sd_realm_id session_data = realm_id) then
            let session_id := default key (RustStd.strip_prefix "session:" key) in
            redis "Failed to remove session from user set"
              (redis_srem now (user_key_of session_data) session_id) ;;;
            redis "Failed to delete session from Redis" (redis_del key)
          else ret ()
      | Err _ => ret ()
      end
  | None => ret ()
  end.
Definition redis_delete_sessions_for_realm (now : Z) (realm_id : string) : StoreM () :=
  let* keys := redis "Failed to start Redis scan" (redis_scan_prefix now "session:") in
  for_each (delete_if_in_realm now realm_id) keys.

(** The interface leaves out the instant of the deletions: it is that of the request. *)
Definition redis_sessions_at (at_ : Z) : SessionStore RedisDb := {|
  ss_upsert_session := redis_upsert_session;
  ss_get_session := redis_get_session;
  ss_get_sessions_for_clients := redis_get_sessions_for_clients;
  ss_delete_sessions := redis_delete_sessions at_;
  ss_delete_expired_sessions _ := ret ();
  ss_delete_sessions_for_realm := redis_delete_sessions_for_realm at_;
|}.
End sessions.
End stores.
