(* ===== verification/RedisSpec.v ===== *)
(** The Redis stores ([Redis.v]): the SAML store keeps the promises of [SamlStoreLaws]; how long a
    session is kept; and what the keys without a length prefix mix up. *)
From S2P Require Import Prelude RustStd Models Passwords Totp Database DatabaseFacts Toy AdminApi Sessions SamlStore SamlStoreSpec Redis.
From stdpp Require Import pretty.

(** * Commands *)
Lemma live_some now key s e :
  live now key s = Some e ↔ s !! key = Some e ∧ expired now e = false.
Proof.
  unfold live. destruct (s !! key) as [e'|]; [|by split; [done|intros [? _]]].
  destruct (expired now e') eqn:He; split; try done.
  - intros [[= ->] He']. by rewrite He in He'.
  - by intros [= ->].
  - by intros [[= ->] _].
Qed.
Lemma live_none_later now now' key s : (now ≤ now')%Z → live now key s = None → live now' key s = None.
Proof.
  unfold live. intros Ht. destruct (s !! key) as [e|]; [|done].
  unfold expired. destruct (re_expire_at e) as [x|]; [|done].
  case_bool_decide; [|done]. rewrite bool_decide_eq_true_2 by lia. done.
Qed.
Lemma live_insert now key key' e s :
  live now key (<[key' := e]> s) =
    if decide (key' = key) then if expired now e then None else Some e else live now key s.
Proof.
  unfold live. case_decide as Hk; [subst; by rewrite lookup_insert_eq|by rewrite lookup_insert_ne].
Qed.
Lemma live_delete now key key' s :
  live now key (delete key' s) = if decide (key' = key) then None else live now key s.
Proof.
  unfold live. case_decide as Hk; [subst; by rewrite lookup_delete_eq|by rewrite lookup_delete_ne].
Qed.
Lemma expired_after now ttl v now' :
  expired now' (mkRedisEntry v (Some (nanos_after now ttl))) = true ↔
  (now + ttl * 1000000000 ≤ now')%Z.
Proof. unfold expired, nanos_after. simpl. by rewrite bool_decide_eq_true. Qed.
Lemma timestamp_spec t : (timestamp t * 1000000000 ≤ t < (timestamp t + 1) * 1000000000)%Z.
Proof.
  unfold timestamp. pose proof (Z.div_mod t 1000000000 ltac:(done)).
  pose proof (Z.mod_pos_bound t 1000000000 ltac:(done)). lia.
Qed.
Lemma timestamp_lt t e : (timestamp t < e)%Z ↔ (t < e * 1000000000)%Z.
Proof. pose proof (timestamp_spec t). split; intros; lia. Qed.

(** * Keys *)
Section keys.
Lemma pending_key_strip realm id :
  RustStd.strip_prefix "saml:pending:" (pending_key realm id) = Some (realm +:+ String ":" id).
Proof. by apply strip_prefix_Some. Qed.
Lemma pending_key_inj realm id realm' id' :
  has_byte ":" id = false → has_byte ":" id' = false →
  pending_key realm id = pending_key realm' id' → realm = realm' ∧ id = id'.
Proof.
  intros Hid Hid' Hk. pose proof (pending_key_strip realm id) as H1.
  rewrite Hk, pending_key_strip in H1. injection H1 as H1.
  pose proof (rsplit_once_last ":" realm id Hid) as H2.
  rewrite <-H1, rsplit_once_last in H2 by done. by injection H2 as -> ->.
Qed.
Lemma seen_key_not_pending realm aid realm' id : seen_key realm aid ≠ pending_key realm' id.
Proof.
  intros H. pose proof (pending_key_strip realm' id) as H1. rewrite <-H in H1.
  unfold seen_key in H1. cbn in H1. done.
Qed.
End keys.

(** * The SAML store *)
Section saml.
Context {RL : RedisLib} {J : Serde PendingSamlRequest} {JL : SerdeLaws PendingSamlRequest}.

Definition pending_entry_ok (realm id : string) (e : RedisEntry) : Prop :=
  ∃ json r x, e = mkRedisEntry (RString json) (Some x) ∧ from_json json = Ok r ∧
    psr_request_id r = id ∧ psr_realm_id r = realm ∧ (psr_expires_at r * 1000000000 ≤ x)%Z.
Definition redis_pending_at (s : RedisDb) (t : Z) (id realm : string) : option PendingSamlRequest :=
  match live t (pending_key realm id) s with
  | Some (mkRedisEntry (RString json) _) =>
      match from_json json with
      | Ok r => if decide (psr_expires_at r ≤ timestamp t)%Z then None else Some r
      | Err _ => None
      end
  | _ => None
  end.
#[export] Instance redis_saml_views : SamlStoreViews RedisDb := {|
  store_wf s := ∀ realm id e, has_byte ":" id = false →
    s !! pending_key realm id = Some e → pending_entry_ok realm id e;
  good_request_id id := negb (has_byte ":" id);
  good_realm_id _ := true;
  good_text _ := true;
  pending_at := redis_pending_at;
  unused_id _ _ := true;
  seen_at s t realm aid := bool_decide (is_Some (live t (seen_key realm aid) s));
  remembers s realm aid e := ∃ v x,
    s !! seen_key realm aid = Some (mkRedisEntry v (Some x)) ∧ (e * 1000000000 ≤ x)%Z;
|}.

Lemma good_no_colon id realm : good_key (R := RedisDb) id realm = true ↔ has_byte ":" id = false.
Proof. unfold good_key. simpl. by rewrite andb_true_r, negb_true_iff. Qed.
Lemma good_request_no_colon r :
  good_request (R := RedisDb) r = true ↔ has_byte ":" (psr_request_id r) = false.
Proof. unfold good_request. simpl. by rewrite andb_true_r, good_no_colon. Qed.

(** A pending request as its key holds it. *)
Lemma redis_pending_some s t id realm r : store_wf s → has_byte ":" id = false →
  redis_pending_at s t id realm = Some r ↔
  ∃ json x, s !! pending_key realm id = Some (mkRedisEntry (RString json) (Some x)) ∧
    from_json json = Ok r ∧ psr_request_id r = id ∧ psr_realm_id r = realm ∧
    (timestamp t < psr_expires_at r)%Z ∧ (psr_expires_at r * 1000000000 ≤ x)%Z.
Proof.
  intros Hwf Hid. unfold redis_pending_at. split.
  - destruct (live t (pending_key realm id) s) as [e|] eqn:Hl; [|done].
    apply live_some in Hl as [Hl _]. destruct (Hwf _ _ _ Hid Hl) as (json & r' & x & -> & Hj & Hr).
    rewrite Hj. case_decide; [done|]. intros [= <-]. destruct Hr as (? & ? & ?).
    exists json, x. split_and!; [done..|lia|done].
  - intros (json & x & Hl & Hj & _ & _ & Ht & Hx). unfold live. rewrite Hl. unfold expired. simpl.
    apply timestamp_lt in Ht as Ht'. rewrite bool_decide_eq_false_2 by lia.
    rewrite Hj, decide_False; [done|lia].
Qed.

(** What the writes do. *)
Lemma redis_store_run t r s : in_i64 (psr_expires_at r - timestamp t) →
  (timestamp t < psr_expires_at r)%Z →
  ∃ json, to_json r = Ok json ∧ from_json json = Ok r ∧
    redis_store_pending_request t r s =
      (Ok (), <[pending_key (psr_realm_id r) (psr_request_id r) :=
         mkRedisEntry (RString json) (Some (nanos_after t (psr_expires_at r - timestamp t)))]> s).
Proof.
  intros Hr Ht. destruct (serde_roundtrip r) as (json & Hj & Hj'). exists json. split_and!; [done..|].
  unfold redis_store_pending_request, json_err, bind, of_result. rewrite Hj. cbn [map_err].
  rewrite (proj2 (ensure_unexpired_ok _ _ _ _ Hr) (conj Ht eq_refl)).
  unfold redis, with_err, redis_set_ex. rewrite decide_True by lia. done.
Qed.
Lemma redis_store_inv t r s s' res : redis_store_pending_request t r s = (res, s') →
  (s' = s ∧ res ≠ Ok ()) ∨
  ∃ json n, to_json r = Ok json ∧ n = i64_sub (psr_expires_at r) (timestamp t) ∧ res = Ok () ∧
    s' = <[pending_key (psr_realm_id r) (psr_request_id r) :=
         mkRedisEntry (RString json) (Some (nanos_after t n))]> s.
Proof.
  unfold redis_store_pending_request, json_err, bind, of_result.
  destruct (to_json r) as [json|]; cbn [map_err]; [|by intros [= <- <-]; left].
  unfold ensure_unexpired. case_decide as He; [by intros [= <- <-]; left|].
  unfold redis, with_err, redis_set_ex. rewrite decide_True by lia. intros [= <- <-].
  right. exists json, (i64_sub (psr_expires_at r) (timestamp t)). done.
Qed.
Lemma redis_take_inv t id realm s :
  (redis_take_pending_request t id realm s).2 = s ∨
  (redis_take_pending_request t id realm s).2 = delete (pending_key realm id) s.
Proof.
  unfold redis_take_pending_request, redis, with_err, redis_getdel, json_err, bind, of_result.
  destruct (live t (pending_key realm id) s) as [[[json|l] x]|]; simpl; [|by left..].
  destruct (from_json json); simpl; [|by right]. case_decide; by right.
Qed.
Lemma redis_record_inv t realm aid e s :
  (redis_record_assertion_id t realm aid e s).2 = s ∨
  live t (seen_key realm aid) s = None ∧ ∃ n, (0 < n)%Z ∧
  (redis_record_assertion_id t realm aid e s).2 =
    <[seen_key realm aid := mkRedisEntry (RString "1") (Some (nanos_after t n))]> s.
Proof.
  unfold redis_record_assertion_id, bind, of_result, ensure_unexpired.
  case_decide as He; [by left|]. unfold redis, with_err, redis_set_nx_ex. rewrite decide_True by lia.
  destruct (live t (seen_key realm aid) s) eqn:Hl; simpl; [by left|]. right. split; [done|].
  eexists. split; [|done]. lia.
Qed.

Lemma pending_at_key (s s' : RedisDb) t id realm :
  s' !! pending_key realm id = s !! pending_key realm id →
  redis_pending_at s' t id realm = redis_pending_at s t id realm.
Proof. unfold redis_pending_at, live. by intros ->. Qed.
Lemma redis_run_op_wf t op (s : RedisDb) : store_wf s → good_op (R := RedisDb) t op → store_wf (run_op t op s).
Proof.
  intros Hwf Hgood. destruct op as [r|id' realm'|realm' aid e|]; cbn [run_op].
  - destruct Hgood as [Hgood%good_request_no_colon Hr].
    change (rs_store_pending_request t r s) with (redis_store_pending_request t r s).
    destruct (redis_store_pending_request t r s) as [res s'] eqn:Hst. simpl.
    apply redis_store_inv in Hst as [[-> _]|(json & n & Hj & -> & _ & ->)]; [exact Hwf|].
    intros realm id e Hid He.
    apply lookup_insert_Some in He as [[Hk <-]|[_ He]]; [|by eapply Hwf].
    apply pending_key_inj in Hk as [<- <-]; [|done..].
    destruct (serde_roundtrip r) as (json' & Hj' & Hback). rewrite Hj in Hj'. injection Hj' as <-.
    eexists json, r, _. split_and!; [done..|].
    unfold nanos_after. rewrite i64_sub_id by done. pose proof (timestamp_spec t). lia.
  - change (rs_take_pending_request t id' realm' s) with (redis_take_pending_request t id' realm' s).
    destruct (redis_take_inv t id' realm' s) as [->| ->]; [exact Hwf|].
    intros realm id e Hid He. apply lookup_delete_Some in He as [_ He]. by eapply Hwf.
  - change (rs_record_assertion_id t realm' aid e s) with (redis_record_assertion_id t realm' aid e s).
    destruct (redis_record_inv t realm' aid e s) as [->|(_ & n & _ & ->)]; [exact Hwf|].
    intros realm id e' Hid He. apply lookup_insert_Some in He as [[Hk _]|[_ He]]; [|by eapply Hwf].
    by apply seen_key_not_pending in Hk.
  - exact Hwf.
Qed.

Lemma redis_pending_frame (s : RedisDb) t t' op id realm :
  good_op (R := RedisDb) t op → has_byte ":" id = false →
  leaves id realm op → redis_pending_at (run_op t op s) t' id realm = redis_pending_at s t' id realm.
Proof.
  intros Hgood Hid Hop. apply pending_at_key. destruct op as [r|id' realm'|realm' aid e|]; cbn [run_op].
  - destruct Hgood as [Hgood%good_request_no_colon Hr].
    change (rs_store_pending_request t r s) with (redis_store_pending_request t r s).
    destruct (redis_store_pending_request t r s) as [res s'] eqn:Hst. simpl.
    apply redis_store_inv in Hst as [[-> _]|(json & n & _ & _ & _ & ->)]; [done|].
    apply lookup_insert_ne. intros Hk. apply pending_key_inj in Hk as [_ ?]; done.
  - apply good_no_colon in Hgood.
    change (rs_take_pending_request t id' realm' s) with (redis_take_pending_request t id' realm' s).
    destruct (redis_take_inv t id' realm' s) as [->| ->]; [done|].
    apply lookup_delete_ne. intros Hk. apply pending_key_inj in Hk as [-> ->]; done.
  - change (rs_record_assertion_id t realm' aid e s) with (redis_record_assertion_id t realm' aid e s).
    destruct (redis_record_inv t realm' aid e s) as [->|(_ & n & _ & ->)]; [done|].
    apply lookup_insert_ne, seen_key_not_pending.
  - done.
Qed.
Lemma redis_remembers_frame (s : RedisDb) t op realm aid e :
  remembers s realm aid e → (timestamp t < e)%Z → remembers (run_op t op s) realm aid e.
Proof.
  intros (v & x & He & Hx) Ht%timestamp_lt.
  assert (Hsame : ∀ s' : RedisDb, s' !! seen_key realm aid = s !! seen_key realm aid →
    remembers s' realm aid e) by (intros s' Hs; exists v, x; by rewrite Hs).
  destruct op as [r|id' realm'|realm' aid' e'|]; cbn [run_op]; [| | |by apply Hsame].
  - change (rs_store_pending_request t r s) with (redis_store_pending_request t r s).
    destruct (redis_store_pending_request t r s) as [res s'] eqn:Hst. simpl.
    apply redis_store_inv in Hst as [[-> _]|(json & n & _ & _ & _ & ->)]; [by apply Hsame|].
    apply Hsame, lookup_insert_ne, not_eq_sym, seen_key_not_pending.
  - change (rs_take_pending_request t id' realm' s) with (redis_take_pending_request t id' realm' s).
    destruct (redis_take_inv t id' realm' s) as [->| ->]; [by apply Hsame|].
    apply Hsame, lookup_delete_ne, not_eq_sym, seen_key_not_pending.
  - change (rs_record_assertion_id t realm' aid' e' s)
      with (redis_record_assertion_id t realm' aid' e' s).
    destruct (redis_record_inv t realm' aid' e' s) as [->|(Hl & n & _ & ->)]; [by apply Hsame|].
    apply Hsame, lookup_insert_ne. intros Hk. rewrite Hk in Hl. unfold live in Hl. rewrite He in Hl.
    unfold expired in Hl. simpl in Hl. by rewrite bool_decide_eq_false_2 in Hl by lia.
Qed.

(** The promises of a SAML store. *)
#[export] Instance redis_saml_laws : SamlStoreLaws RedisDb.
Proof.
  split.
  - intros s t op. apply redis_run_op_wf.
  - intros s t id realm r Hwf Hid%good_no_colon Hp.
    by apply redis_pending_some in Hp as (json & x & _ & _ & ? & ? & ? & _).
  - intros s t t' id realm r Hwf Hid%good_no_colon Hp _ Ht'.
    apply redis_pending_some in Hp as (json & x & ? & ? & ? & ? & _ & ?); [|done..].
    apply redis_pending_some; [done..|]. by exists json, x.
  - intros s t t' id realm Hn Ht. cbn in *. unfold redis_pending_at in *.
    destruct (live t (pending_key realm id) s) as [e|] eqn:Hl.
    + destruct (live t' (pending_key realm id) s) as [e'|] eqn:Hl'; [|done].
      assert (e' = e) as -> by (apply live_some in Hl as [? _]; apply live_some in Hl' as [? _]; congruence).
      destruct e as [[json|] x]; [|done]. destruct (from_json json) as [r|]; [|done].
      case_decide; [|done]. rewrite decide_True; [done|]. pose proof (timestamp_mono _ _ Ht). lia.
    + by rewrite (live_none_later _ _ _ _ Ht Hl).
  - intros s t r _ _ _ Hr Ht. destruct (redis_store_run t r s Hr Ht) as (json & _ & _ & Hst).
    change (rs_store_pending_request t r s) with (redis_store_pending_request t r s). by rewrite Hst.
  - intros s s' t t' r Hwf [Hid Hr] Hst Ht Ht'.
    pose proof (redis_run_op_wf t (OpStore r) s Hwf (conj Hid Hr)) as Hwf'. cbn [run_op] in Hwf'.
    rewrite Hst in Hwf'. simpl in Hwf'. apply good_request_no_colon in Hid.
    pose proof (timestamp_mono _ _ Ht).
    destruct (redis_store_run t r s Hr ltac:(lia)) as (json & _ & Hback & Hst').
    change (rs_store_pending_request t r s) with (redis_store_pending_request t r s) in Hst.
    rewrite Hst' in Hst. injection Hst as <-.
    apply redis_pending_some; [done..|]. eexists json, _. rewrite lookup_insert_eq.
    split_and!; [done..|]. unfold nanos_after. pose proof (timestamp_spec t). lia.
  - intros s t id realm Hwf Hid%good_no_colon.
    change (rs_take_pending_request t id realm s) with (redis_take_pending_request t id realm s).
    cbn. unfold redis_take_pending_request, redis, with_err, redis_getdel, json_err, bind, of_result,
      redis_pending_at.
    destruct (live t (pending_key realm id) s) as [e|] eqn:Hl; [|done].
    apply live_some in Hl as [Hl _]. destruct (Hwf _ _ _ Hid Hl) as (json & r & x & -> & Hj & _).
    cbn [map_err]. rewrite Hj. cbn [map_err]. by case_decide.
  - intros s t t' id realm Hwf Hid%good_no_colon Ht. cbn [run_op].
    change (rs_take_pending_request t id realm s) with (redis_take_pending_request t id realm s).
    cbn. unfold redis_take_pending_request, redis, with_err, redis_getdel, json_err, bind, of_result.
    destruct (live t (pending_key realm id) s) as [e|] eqn:Hl.
    + apply live_some in Hl as [Hl _]. destruct (Hwf _ _ _ Hid Hl) as (json & r & x & -> & Hj & _).
      cbn [map_err]. rewrite Hj. cbn [map_err]. unfold redis_pending_at.
      case_decide; simpl; by rewrite live_delete, decide_True.
    + simpl. unfold redis_pending_at. by rewrite (live_none_later _ _ _ _ Ht Hl).
  - intros s t t' id realm realm' aid Hid. cbn [run_op].
    change (rs_take_pending_request t id realm s) with (redis_take_pending_request t id realm s).
    cbn. destruct (redis_take_inv t id realm s) as [->| ->]; [done|].
    rewrite live_delete, decide_False; [done|]. apply not_eq_sym, seen_key_not_pending.
  - intros s t realm aid e Hr. left.
    change (rs_record_assertion_id t realm aid e s) with (redis_record_assertion_id t realm aid e s).
    cbn. unfold redis_record_assertion_id, bind, of_result. destruct (decide (e ≤ timestamp t)%Z) as [He|He].
    + by rewrite ensure_unexpired_err.
    + rewrite (proj2 (ensure_unexpired_ok _ _ _ _ Hr) (conj (proj1 (Z.nle_gt _ _) He) eq_refl)).
      unfold redis, with_err, redis_set_nx_ex. rewrite decide_True by lia.
      by destruct (live t (seen_key realm aid) s).
  - intros s s' t realm aid e Hr Hrec.
    change (rs_record_assertion_id t realm aid e s) with (redis_record_assertion_id t realm aid e s) in Hrec.
    revert Hrec. unfold redis_record_assertion_id, bind, of_result.
    destruct (decide (e ≤ timestamp t)%Z) as [He|He]; [by rewrite ensure_unexpired_err|].
    rewrite (proj2 (ensure_unexpired_ok _ _ _ _ Hr) (conj (proj1 (Z.nle_gt _ _) He) eq_refl)).
    unfold redis, with_err, redis_set_nx_ex. rewrite decide_True by lia.
    destruct (live t (seen_key realm aid) s); [done|]. intros [= <-].
    eexists _, _. split; [apply lookup_insert_eq|]. unfold nanos_after.
    pose proof (timestamp_spec t). lia.
  - intros s t realm aid e (v & x & He & Hx) Ht%timestamp_lt. cbn. apply bool_decide_eq_true.
    exists (mkRedisEntry v (Some x)). apply live_some. split; [done|]. unfold expired. simpl.
    apply bool_decide_eq_false_2. lia.
  - intros s t t' op id realm _ Hgood Hid%good_no_colon _ Hop. by apply redis_pending_frame.
  - apply redis_remembers_frame.
Qed.

(** with the Redis store a sign-in request of one realm can be taken in another.  The key of
    a pending request joins the realm and the request id with a colon and no length: the request
    [id] of realm [x:y] is handed out, and consumed, for realm [x] and the request id [y:id],
    although the interface promises [None] for a different realm. *)
Theorem redis_request_crosses_realms (t t' : Z) (x y id : string) (r : PendingSamlRequest)
    (s s1 : RedisDb) :
  psr_realm_id r = x +:+ ":" +:+ y → psr_request_id r = id →
  in_i64 (psr_expires_at r - timestamp t) →
  redis_store_pending_request t r s = (Ok (), s1) → (t ≤ t')%Z → (timestamp t' < psr_expires_at r)%Z →
  (redis_take_pending_request t' (y +:+ ":" +:+ id) x s1).1 = Ok (Some r) ∧
  (redis_take_pending_request t' id (x +:+ ":" +:+ y)
     (redis_take_pending_request t' (y +:+ ":" +:+ id) x s1).2).1 = Ok None.
Proof.
  intros Hrealm Hid Hr Hst Ht Ht'. pose proof (timestamp_mono _ _ Ht).
  destruct (redis_store_run t r s Hr ltac:(lia)) as (json & _ & Hback & Hst').
  rewrite Hst' in Hst. injection Hst as <-. rewrite Hrealm, Hid.
  assert (pending_key (x +:+ ":" +:+ y) id = pending_key x (y +:+ ":" +:+ id)) as ->.
  { unfold pending_key. by rewrite !string_app_assoc. }
  unfold redis_take_pending_request, redis, with_err, redis_getdel, json_err, bind, of_result.
  rewrite live_insert, decide_True by done. unfold expired. cbn [re_expire_at].
  rewrite bool_decide_eq_false_2; [|unfold nanos_after; pose proof (timestamp_spec t);
    apply timestamp_lt in Ht'; lia].
  cbn [map_err]. rewrite Hback. cbn [map_err]. rewrite decide_False by lia. split; [done|].
  simpl. assert (pending_key (x +:+ ":" +:+ y) id = pending_key x (y +:+ ":" +:+ id)) as ->.
  { unfold pending_key. by rewrite !string_app_assoc. }
  by rewrite live_delete, decide_True.
Qed.
End saml.

(** * Sessions *)
Section sessions.
Context {RL : RedisLib} {J : Serde SessionData} {JL : SerdeLaws SessionData}.

Lemma session_key_inj id id' : session_key id = session_key id' → id = id'.
Proof.
  unfold session_key. intros H.
  assert (RustStd.strip_prefix "session:" ("session:" +:+ id) = Some id) as H1 by by apply strip_prefix_Some.
  rewrite H in H1. rewrite (proj2 (strip_prefix_Some _ _ _) eq_refl) in H1. by injection H1.
Qed.
Lemma session_key_not_user id realm user scheme : session_key id ≠ user_sessions_key realm user scheme.
Proof.
  intros H. assert (RustStd.strip_prefix "session:" (session_key id) = Some id) as H1
    by by apply strip_prefix_Some.
  rewrite H in H1. unfold user_sessions_key in H1. cbn in H1. done.
Qed.

(** The record of a new session, and the life its key is given. *)
Definition redis_session (t : Z) (id : string) (realm : Realm) (c : AuthenticatedClientScheme)
    (value : string) : SessionData :=
  mkSessionData id (realm_id realm) (acs_username c) (auth_scheme_json (acs_auth_scheme c)) value
    (realm_session_max_stale_age_seconds realm) (realm_session_max_age_seconds realm) (timestamp t).
Definition session_ttl (d : SessionData) : Z :=
  Z.max 1 (Z.min (sd_max_stale_age_seconds d) (sd_max_age_seconds d)).
Definition string_until (json : string) (t : Z) : RedisEntry := mkRedisEntry (RString json) (Some t).
Definition set_until (l : gset string) (t : Z) : RedisEntry := mkRedisEntry (RSet l) (Some t).

Lemma redis_upsert_run t id realm c value s :
  let d := redis_session t id realm c value in
  let x := nanos_after t (session_ttl d) in
  live t (user_key_of d) s = None →
  ∃ json, from_json json = Ok d ∧
    redis_upsert_session t id realm c value s =
      (Ok (), <[user_key_of d := set_until {[ id ]} x]> (<[session_key id := string_until json x]> s)).
Proof.
  intros d x Hl. destruct (serde_roundtrip d) as (json & Hj & Hback). exists json. split; [done|].
  unfold redis_upsert_session, json_err, bind, of_result. unfold d, redis_session in Hj. rewrite Hj.
  cbn [map_err]. unfold redis, with_err, redis_set_ex.
  rewrite decide_True by lia. cbn [map_err].
  change (user_sessions_key (realm_id realm) (acs_username c) (auth_scheme_json (acs_auth_scheme c)))
    with (user_key_of d).
  unfold redis_sadd. rewrite live_insert, decide_False, Hl by apply session_key_not_user. cbn [map_err].
  unfold redis_expire. rewrite live_insert, decide_True by done. cbn.
  rewrite decide_True by lia. by rewrite insert_insert_eq.
Qed.
Lemma redis_get_run t id json x d s :
  s !! session_key id = Some (string_until json x) → (t < x)%Z → from_json json = Ok d →
  in_i64 (sd_created_at d + sd_max_age_seconds d) → 
  in_i64 (sd_created_at d + sd_max_age_seconds d - timestamp t) →
  (timestamp t < sd_created_at d + sd_max_age_seconds d)%Z → (0 < sd_max_stale_age_seconds d)%Z →
  redis_get_session t id s =
    (Ok (Some d), <[session_key id := string_until json (nanos_after t
       (Z.min (sd_max_stale_age_seconds d) (sd_created_at d + sd_max_age_seconds d - timestamp t)))]> s).
Proof.
  intros Hs Hx Hj Hr1 Hr2 Ht Hst. unfold redis_get_session, redis, with_err, redis_get, bind.
  assert (live t (session_key id) s = Some (string_until json x)) as Hl.
  { apply live_some. split; [done|]. unfold expired. simpl. apply bool_decide_eq_false_2. lia. }
  rewrite Hl. cbn. unfold json_err, of_result. rewrite Hj. cbn [map_err].
  rewrite i64_add_id, i64_sub_id by done.
  rewrite decide_False by lia. rewrite decide_False by lia. unfold redis_expire. rewrite Hl. cbn.
  by rewrite decide_True by lia.
Qed.

(** ** What a listing reads and a deletion writes *)
Lemma redis_get_at t key json x s :
  s !! key = Some (string_until json x) → (t < x)%Z → redis_get t key s = (Ok (Some json), s).
Proof.
  intros Hs Hx. unfold redis_get.
  assert (live t key s = Some (string_until json x)) as ->; [|done].
  apply live_some. split; [done|]. unfold expired. simpl. apply bool_decide_eq_false_2. lia.
Qed.
Lemma live_set t key l x s :
  s !! key = Some (set_until l x) → (t < x)%Z → live t key s = Some (set_until l x).
Proof.
  intros Hs Hx. apply live_some. split; [done|]. unfold expired. simpl.
  apply bool_decide_eq_false_2. lia.
Qed.
Lemma redis_smembers_at t key l x s :
  s !! key = Some (set_until l x) → (t < x)%Z → redis_smembers t key s = (Ok (elements l), s).
Proof. intros Hs Hx. unfold redis_smembers. by rewrite (live_set _ _ _ _ _ Hs Hx). Qed.
(** A user with one session in the set: it is what is listed. *)
Lemma user_sessions_one t realm c id json x y d s :
  let key := user_sessions_key realm (acs_username c) (auth_scheme_json (acs_auth_scheme c)) in
  s !! key = Some (set_until {[ id ]} y) → (t < y)%Z →
  s !! session_key id = Some (string_until json x) → (t < x)%Z → from_json json = Ok d →
  (timestamp t ≤ i64_add (sd_created_at d) (sd_max_age_seconds d))%Z →
  redis_get_sessions_for_clients t realm [c] s = (Ok [d], s).
Proof.
  intros key Hk Hy Hs Hx Hj Hle.
  unfold redis_get_sessions_for_clients. cbn [map_m]. unfold user_sessions. fold key.
  unfold redis, with_err, bind. rewrite (redis_smembers_at _ _ _ _ _ Hk Hy). cbn [map_err].
  rewrite elements_singleton. cbn [map_m]. unfold listed_session, redis, with_err, bind.
  rewrite (redis_get_at _ _ _ _ _ Hs Hx). cbn [map_err]. unfold json_err, of_result. rewrite Hj.
  cbn [map_err]. by rewrite decide_False by lia.
Qed.
(** Deleting it removes its key and the set. *)
Lemma redis_delete_one t id json x y d s :
  s !! user_key_of d = Some (set_until {[ id ]} y) → (t < y)%Z →
  s !! session_key id = Some (string_until json x) → (t < x)%Z → from_json json = Ok d →
  redis_delete_sessions t [id] s = (Ok (), delete (session_key id) (delete (user_key_of d) s)).
Proof.
  intros Hk Hy Hs Hx Hj. unfold redis_delete_sessions. cbn [for_each].
  unfold redis_delete_session, redis, with_err, bind.
  rewrite (redis_get_at _ _ _ _ _ Hs Hx). cbn [map_err]. unfold json_err, of_result. rewrite Hj.
  cbn [map_err]. unfold redis_srem. rewrite (live_set _ _ _ _ _ Hk Hy). cbn.
  by rewrite decide_True by set_solver.
Qed.

(** Logging out everywhere from a session that is alone in its user's set. *)
Lemma redis_logout_all t realm c id v json s :
  let d := redis_session t id realm c v in
  let x := nanos_after t (realm_session_max_stale_age_seconds realm) in
  from_json json = Ok d → (0 ≤ timestamp t)%Z →
  (0 < realm_session_max_stale_age_seconds realm ≤ realm_session_max_age_seconds realm)%Z →
  (timestamp t + realm_session_max_age_seconds realm ≤ i64_max)%Z →
  s !! user_key_of d = Some (set_until {[ id ]} x) →
  s !! session_key id = Some (string_until json x) →
  api_get_session (ST := redis_sessions_at t) t t id
    (mkGetSessionRequest [c] (Some LogoutAllSessions)) s =
    (Ok (HttpOk d), delete (session_key id) (delete (user_key_of d) s)).
Proof.
  intros d x Hj Ht Hst Hmax Hu Hs.
  assert (t < x)%Z as Hx by (unfold x, nanos_after; lia).
  assert (Hr : in_i64 (sd_created_at d + sd_max_age_seconds d))
    by (unfold in_i64, i64_min, i64_max in *; simpl; lia).
  assert (redis_get_session t id s = (Ok (Some d), s)) as Hget.
  { rewrite (redis_get_run t id json x d); [|done|done|done|done| |simpl; lia|simpl; lia].
    - assert (nanos_after t (Z.min (sd_max_stale_age_seconds d)
        (sd_created_at d + sd_max_age_seconds d - timestamp t)) = x) as ->
        by (unfold x; f_equal; simpl; lia).
      by rewrite insert_id.
    - unfold in_i64, i64_min, i64_max in *; simpl; lia. }
  assert (redis_get_sessions_for_clients t (realm_id realm) [c] s = (Ok [d], s)) as Hlist.
  { apply (user_sessions_one t (realm_id realm) c id json x x d); try done.
    rewrite i64_add_id by done. simpl. lia. }
  unfold api_get_session. unfold bind at 1. cbn [ss_get_session redis_sessions_at]. rewrite Hget.
  unfold bind at 1, of_result. cbn [ok_or gsr_sessions_action].
  unfold bind at 1. unfold bind at 1.
  cbn [ss_get_sessions_for_clients gsr_authenticated_clients redis_sessions_at].
  change (sd_realm_id d) with (realm_id realm). rewrite Hlist.
  cbn [ss_delete_sessions sessions_to_logout redis_sessions_at].
  assert (elements (list_to_set (id :: (sd_session_id <$> [d])) : gset string) = [id]) as ->.
  { assert (list_to_set (id :: (sd_session_id <$> [d])) = ({[ id ]} : gset string)) as ->
      by (simpl; set_solver). apply elements_singleton. }
  by rewrite (redis_delete_one t id json x x d) by done.
Qed.

(** With the Redis store, logging out everywhere can miss a session.  The set of a user's
    sessions expires a session's idle time after the last login, while reading a session
    prolongs only the session.  A user opens a session, keeps it alive by using it once, and opens
    a second one after the set has expired; logging out all sessions from the second then deletes
    only the second, and the first goes on being served, idle deadline and all. *)
Theorem redis_logout_misses_session (t0 t1 t2 : Z) (realm : Realm) (c : AuthenticatedClientScheme)
    (id1 id2 v1 v2 : string) (s : RedisDb) :
  let stale := realm_session_max_stale_age_seconds realm in
  let age := realm_session_max_age_seconds realm in
  let user_key := user_sessions_key (realm_id realm) (acs_username c)
                    (auth_scheme_json (acs_auth_scheme c)) in
  id1 ≠ id2 → live t0 user_key s = None → (0 ≤ t0 ≤ t1)%Z → (0 < stale ≤ age)%Z →
  (timestamp t2 + age ≤ i64_max)%Z →
  (t1 < nanos_after t0 stale ≤ t2)%Z → (timestamp t2 < timestamp t0 + age)%Z →
  (t2 < nanos_after t1 (Z.min stale (timestamp t0 + age - timestamp t1)))%Z →
  let s1 := (redis_upsert_session t0 id1 realm c v1 s).2 in
  let s2 := (redis_get_session t1 id1 s1).2 in
  let s3 := (redis_upsert_session t2 id2 realm c v2 s2).2 in
  ∃ resp s4,
    api_get_session (ST := redis_sessions_at t2) t2 t2 id2
      (mkGetSessionRequest [c] (Some LogoutAllSessions)) s3 = (Ok resp, s4) ∧
    (redis_get_session t2 id2 s4).1 = Ok None ∧
    (redis_get_session t2 id1 s4).1 = Ok (Some (redis_session t0 id1 realm c v1)).
Proof.
  intros stale age user_key Hne Hl Ht01 Hst Hmax Ht12 Habs Halive s1 s2 s3.
  pose proof (timestamp_mono t0 t1 ltac:(lia)). pose proof (timestamp_mono t1 t2 ltac:(lia)).
  assert (0 ≤ timestamp t0)%Z by (apply Z.div_pos; lia).
  set (d1 := redis_session t0 id1 realm c v1). set (d2 := redis_session t2 id2 realm c v2).
  assert (user_key_of d1 = user_key ∧ user_key_of d2 = user_key) as [Hu1 Hu2] by done.
  assert (Hk : ∀ i, session_key i ≠ user_key) by (intros i; apply session_key_not_user).
  assert (Hk12 : session_key id1 ≠ session_key id2) by (intros ?%session_key_inj; done).
  assert (session_ttl d1 = stale ∧ session_ttl d2 = stale) as [Hd1 Hd2]
    by (unfold session_ttl; simpl; fold stale age; lia).
  assert (Hrange : ∀ u, (timestamp t0 ≤ u ≤ timestamp t2)%Z → in_i64 (u + age) ∧
    ∀ w, (timestamp t0 ≤ w ≤ timestamp t2)%Z → in_i64 (u + age - w))
    by (unfold in_i64, i64_min, i64_max in *; intros; split; [|intros]; lia).
  (* the first session, and its use *)
  destruct (redis_upsert_run t0 id1 realm c v1 s Hl) as (j1 & Hj1 & Hrun1).
  fold d1 in Hj1, Hrun1. rewrite Hu1, Hd1 in Hrun1.
  assert (s2 !! session_key id1 = Some (string_until j1 (nanos_after t1
    (Z.min stale (timestamp t0 + age - timestamp t1)))) ∧
    s2 !! user_key = Some (set_until {[ id1 ]} (nanos_after t0 stale))) as [Hs2 Hs2u].
  { unfold s2, s1. rewrite Hrun1. cbn [snd].
    rewrite (redis_get_run t1 id1 j1 (nanos_after t0 stale) d1);
      [|by rewrite lookup_insert_ne, lookup_insert_eq|lia|done|apply Hrange; simpl; lia
       |apply Hrange; simpl; lia|simpl; fold age; lia|simpl; fold stale; lia].
    cbn [snd]. simpl. fold stale age. rewrite lookup_insert_eq, lookup_insert_ne by done.
    by rewrite lookup_insert_eq. }
  (* the second session: the set has expired *)
  assert (live t2 user_key s2 = None) as Hl2.
  { unfold live. rewrite Hs2u. unfold expired. simpl. by rewrite bool_decide_eq_true_2 by lia. }
  destruct (redis_upsert_run t2 id2 realm c v2 s2 Hl2) as (j2 & Hj2 & Hrun2).
  fold d2 in Hj2, Hrun2. rewrite Hu2, Hd2 in Hrun2. unfold s3. rewrite Hrun2. cbn [snd].
  clear Hrun1 Hrun2. clearbody s2. clear s1 s3 Hl Hl2 Hs2u.
  set (x2 := nanos_after t2 stale).
  assert (t2 < x2)%Z by (unfold x2, nanos_after; lia).
  set (s3 := <[user_key := set_until {[ id2 ]} x2]> (<[session_key id2 := string_until j2 x2]> s2)).
  assert (s3 !! user_key = Some (set_until {[ id2 ]} x2)) as Hu by apply lookup_insert_eq.
  assert (s3 !! session_key id2 = Some (string_until j2 x2)) as Hs3
    by (unfold s3; by rewrite lookup_insert_ne, lookup_insert_eq).
  assert (s3 !! session_key id1 = s2 !! session_key id1) as Hs1
    by (unfold s3; by rewrite !lookup_insert_ne).
  rewrite Hs2 in Hs1. clear Hs2. clearbody s3. clear s2.
  eexists. eexists. split.
  { apply (redis_logout_all t2 realm c id2 v2 j2 s3); try done; lia. }
  fold d2. rewrite Hu2. split.
  - unfold redis_get_session, redis, with_err, redis_get, bind.
    by rewrite live_delete, decide_True.
  - rewrite (redis_get_run t2 id1 j1 (nanos_after t1 (Z.min stale (timestamp t0 + age - timestamp t1))) d1);
      [done|by rewrite !lookup_delete_ne|done|done|apply Hrange; simpl; lia
      |apply Hrange; simpl; lia|simpl; fold age; lia|simpl; fold stale; lia].
Qed.

(** ** How long a session is kept *)

(** Every session key holds the record of that session and expires, at the latest one second after
    the absolute lifetime. *)
Definition last_instant (d : SessionData) : Z :=
  (sd_created_at d + Z.max 1 (sd_max_age_seconds d) + 1) * 1000000000.
Definition session_entry_ok (id : string) (e : RedisEntry) : Prop :=
  ∃ json d x, e = string_until json x ∧ from_json json = Ok d ∧ sd_session_id d = id ∧
    in_i64 (sd_created_at d + sd_max_age_seconds d) ∧ (0 ≤ sd_created_at d + sd_max_age_seconds d)%Z ∧
    (x < last_instant d)%Z.
Definition redis_sessions_wf (s : RedisDb) : Prop :=
  ∀ id e, s !! session_key id = Some e → session_entry_ok id e.

(** The part of the store the invariant speaks about. *)
Lemma sessions_wf_user key e s :
  (∀ id, session_key id ≠ key) → redis_sessions_wf s → redis_sessions_wf (<[key := e]> s).
Proof.
  intros Hk Hwf id e' He. apply lookup_insert_Some in He as [[-> _]|[_ He]]; [by destruct (Hk id)|].
  by apply Hwf.
Qed.
Lemma sessions_wf_delete key s : redis_sessions_wf s → redis_sessions_wf (delete key s).
Proof. intros Hwf id e [_ He]%lookup_delete_Some. by apply Hwf. Qed.
Lemma redis_del_wf key : ensures (preserve redis_sessions_wf) (redis_del key).
Proof. apply ensures_modify. intros s Hwf. by apply sessions_wf_delete. Qed.
Lemma redis_srem_wf t r u sch member :
  ensures (preserve redis_sessions_wf) (redis_srem t (user_sessions_key r u sch) member).
Proof.
  intros s Hwf. unfold redis_srem. destruct (live _ _ s) as [[[|l] x]|]; [done| |done]. simpl.
  case_decide; [by apply sessions_wf_delete|]. apply sessions_wf_user; [|done].
  intros id. apply session_key_not_user.
Qed.
Lemma redis_user_set_wf t r u sch member ttl :
  ensures (preserve redis_sessions_wf) (redis_sadd t (user_sessions_key r u sch) member) ∧
  ensures (preserve redis_sessions_wf) (redis_expire t (user_sessions_key r u sch) ttl).
Proof.
  assert (Hk : ∀ id, session_key id ≠ user_sessions_key r u sch) by (intros; apply session_key_not_user).
  split; intros s Hwf.
  - unfold redis_sadd. destruct (live _ _ s) as [[[|l] x]|]; [done|..]; by apply sessions_wf_user.
  - unfold redis_expire. destruct (live _ _ s) as [e|]; [|done]. simpl.
    case_decide; [by apply sessions_wf_user|by apply sessions_wf_delete].
Qed.
Lemma redis_get_reads t key : reads (redis_get t key).
Proof. intros s. unfold redis_get. by destruct (live t key s) as [[[|] ?]|]. Qed.
Lemma redis_smembers_reads t key : reads (redis_smembers t key).
Proof. intros s. unfold redis_smembers. by destruct (live t key s) as [[[|] ?]|]. Qed.
#[local] Hint Resolve redis_get_reads redis_smembers_reads : reads.
Ltac redis_step :=
  lazymatch goal with
  | |- ensures _ (redis _ _) => unfold redis; apply ensures_with_err
  | |- ensures _ (json_err _ _) => unfold json_err
  | |- ensures _ (redis_del _) => apply redis_del_wf
  | |- ensures _ (redis_srem _ _ _) => apply redis_srem_wf
  | |- ensures _ (redis_get _ _) => apply ensures_reads; [apply _|apply redis_get_reads]
  | |- ensures _ (redis_smembers _ _) => apply ensures_reads; [apply _|apply redis_smembers_reads]
  | |- ensures _ (match ?x with _ => _ end) => destruct x
  | _ => ensures_step
  end.

Lemma redis_upsert_wf t id realm c v :
  (0 ≤ timestamp t)%Z → (0 ≤ realm_session_max_age_seconds realm)%Z →
  (timestamp t + realm_session_max_age_seconds realm ≤ i64_max)%Z →
  ensures (preserve redis_sessions_wf) (redis_upsert_session t id realm c v).
Proof.
  intros Ht Hage Hmax. unfold redis_upsert_session, json_err.
  set (d := mkSessionData id _ _ _ _ _ _ _).
  apply ensures_with_result; [apply _|]. intros json Hj%map_err_ok.
  destruct (serde_roundtrip d) as (json' & Hj' & Hback). rewrite Hj in Hj'. injection Hj' as <-.
  apply ensures_bind; [apply _| |intros _; apply ensures_bind; [apply _| |intros _]].
  - unfold redis. apply ensures_with_err. intros s Hwf. unfold redis_set_ex.
    rewrite decide_True by lia. cbn [snd]. intros i e He.
    apply lookup_insert_Some in He as [[<-%session_key_inj <-]|[_ He]]; [|by apply Hwf].
    eexists json, d, _. split_and!; [done|done|done| | |].
    + unfold in_i64, i64_min, i64_max in *; simpl; lia.
    + simpl; lia.
    + unfold last_instant, nanos_after. simpl. pose proof (timestamp_spec t). lia.
  - unfold redis. apply ensures_with_err. apply (redis_user_set_wf t _ _ _ _ 0).
  - unfold redis. apply ensures_with_err. by apply (redis_user_set_wf t _ _ _ "").
Qed.
(** A session read from its key, and the deadline its key is given. *)
Lemma redis_get_session_answer t id s s' d :
  redis_sessions_wf s → in_i64 (- timestamp t) → (0 ≤ timestamp t)%Z →
  redis_get_session t id s = (Ok (Some d), s') →
  sd_session_id d = id ∧ (timestamp t < sd_created_at d + sd_max_age_seconds d)%Z ∧
  ∃ json ttl, s' = <[session_key id := string_until json (nanos_after t ttl)]> s ∧
    from_json json = Ok d ∧ (1 ≤ ttl ≤ sd_max_stale_age_seconds d)%Z ∧
    (timestamp t + ttl ≤ sd_created_at d + sd_max_age_seconds d)%Z ∧
    in_i64 (sd_created_at d + sd_max_age_seconds d).
Proof.
  intros Hwf Ht Ht0. unfold redis_get_session, redis, with_err, redis_get, bind.
  destruct (live t (session_key id) s) as [e|] eqn:Hl; [|done].
  pose proof Hl as Hl'. apply live_some in Hl' as [Hs _].
  destruct (Hwf _ _ Hs) as (json & d' & x & -> & Hj & Hid & Hr & Hpos & Hx).
  cbn. unfold json_err, of_result. rewrite Hj. cbn [map_err].
  rewrite i64_add_id by done. rewrite i64_sub_id by (unfold in_i64, i64_min, i64_max in *; lia).
  case_decide as H1; [unfold drop_session, redis, with_err, bind, redis_del, modify, ret;
    by destruct (redis_srem _ _ _ _) as [[] ?]|].
  case_decide as H2; [unfold drop_session, redis, with_err, bind, redis_del, modify, ret;
    by destruct (redis_srem _ _ _ _) as [[] ?]|].
  unfold redis_expire. rewrite Hl. cbn. rewrite decide_True by lia. intros [= <- <-].
  split; [done|]. split; [lia|]. eexists json, _. split; [done|]. split_and!; [done|lia..|done].
Qed.
Lemma drop_session_wf t id d : ensures (preserve redis_sessions_wf) (drop_session t id d).
Proof. unfold drop_session, user_key_of. repeat redis_step. Qed.
Lemma redis_get_session_state t id s r s' :
  redis_get_session t id s = (r, s') →
  (∃ d, r = Ok (Some d)) ∨ s' = s ∨ ∃ d, s' = (drop_session t id d s).2.
Proof.
  unfold redis_get_session, redis, with_err, redis_get, bind.
  destruct (live t (session_key id) s) as [[[json|l] x]|] eqn:Hl; cbn;
    [|intros [= <- <-]; auto..].
  unfold json_err, of_result. destruct (from_json json) as [d|]; cbn [map_err];
    [|intros [= <- <-]; auto].
  assert (Hdrop : ∀ r s', (let (r, s') := drop_session t id d s in
    match r with Ok _ => ret (@None SessionData) s' | Err e => (Err e, s') end) = (r, s') →
    (∃ d, r = Ok (Some d)) ∨ s' = s ∨ ∃ d, s' = (drop_session t id d s).2).
  { intros r0 s0 Hr. right. right. exists d. destruct (drop_session t id d s) as [[[]|e] s1];
      by injection Hr as _ <-. }
  case_decide; [apply Hdrop|]. case_decide; [apply Hdrop|].
  unfold redis_expire. rewrite Hl. cbn. intros [= <- _]. left. by exists d.
Qed.
Lemma redis_get_session_wf t id :
  in_i64 (- timestamp t) → (0 ≤ timestamp t)%Z →
  ensures (preserve redis_sessions_wf) (redis_get_session t id).
Proof.
  intros Ht Ht0 s Hwf. destruct (redis_get_session t id s) as [r s'] eqn:Hrun.
  destruct (redis_get_session_state _ _ _ _ _ Hrun) as [[d ->]|[->|[d ->]]];
    [|done|by apply drop_session_wf].
  destruct (redis_get_session_answer t id s s' d Hwf Ht Ht0 Hrun)
    as (Hid & Hlt & json & ttl & -> & Hj & [H1 H2] & H3 & H4).
  intros i e He. cbn [snd] in He.
  apply lookup_insert_Some in He as [[<-%session_key_inj <-]|[_ He]]; [|by apply Hwf].
  exists json, d, (nanos_after t ttl). split_and!; [done..|lia|].
  unfold last_instant, nanos_after. pose proof (timestamp_spec t). lia.
Qed.
Lemma redis_list_wf t realm cs :
  ensures (preserve redis_sessions_wf) (redis_get_sessions_for_clients t realm cs).
Proof.
  unfold redis_get_sessions_for_clients, user_sessions, listed_session. repeat redis_step.
Qed.
Lemma redis_delete_sessions_wf t ids :
  ensures (preserve redis_sessions_wf) (redis_delete_sessions t ids).
Proof. unfold redis_delete_sessions, redis_delete_session, user_key_of. repeat redis_step. Qed.
Lemma redis_delete_realm_wf t realm :
  ensures (preserve redis_sessions_wf) (redis_delete_sessions_for_realm t realm).
Proof.
  unfold redis_delete_sessions_for_realm, delete_if_in_realm, redis_scan_prefix, user_key_of.
  repeat redis_step.
Qed.

(** Any operation of the session store at a realistic instant. *)
Inductive redis_session_step : RedisDb → RedisDb → Prop :=
  | StepUpsert t id realm c v s :
      (0 ≤ timestamp t)%Z → (0 ≤ realm_session_max_age_seconds realm)%Z →
      (timestamp t + realm_session_max_age_seconds realm ≤ i64_max)%Z →
      redis_session_step s (redis_upsert_session t id realm c v s).2
  | StepGet t id s : (0 ≤ timestamp t ≤ i64_max)%Z →
      redis_session_step s (redis_get_session t id s).2
  | StepList t realm cs s : redis_session_step s (redis_get_sessions_for_clients t realm cs s).2
  | StepDelete t ids s : redis_session_step s (redis_delete_sessions t ids s).2
  | StepDeleteRealm t realm s :
      redis_session_step s (redis_delete_sessions_for_realm t realm s).2.
Lemma redis_session_step_wf s s' :
  redis_session_step s s' → redis_sessions_wf s → redis_sessions_wf s'.
Proof.
  intros [] Hwf; [by apply redis_upsert_wf|apply redis_get_session_wf; try done|by apply redis_list_wf
    |by apply redis_delete_sessions_wf|by apply redis_delete_realm_wf];
    unfold in_i64, i64_min, i64_max in *; lia.
Qed.
Lemma redis_session_reachable_wf s : rtc redis_session_step ∅ s → redis_sessions_wf s.
Proof.
  intros Hs. assert (redis_sessions_wf ∅) as H0 by (intros id e; by rewrite lookup_empty).
  revert H0. induction Hs; eauto using redis_session_step_wf.
Qed.

(** C36: bounds on the life of a session in Redis.  After any sequence of operations every
    session key expires, at the latest one second after the absolute lifetime (at least one
    second) of the session it holds: no session is kept for ever.  A session that is read is the
    one asked for and is strictly within its absolute lifetime, and its key is given between one
    second and its idle time, never past the absolute lifetime. *)
Theorem redis_session_lifetime_bounded (s : RedisDb) :
  rtc redis_session_step ∅ s →
  (∀ id e, s !! session_key id = Some e →
     ∃ json d x, e = string_until json x ∧ from_json json = Ok d ∧ sd_session_id d = id ∧
       (x < last_instant d)%Z) ∧
  (∀ t id d s', (0 ≤ timestamp t ≤ i64_max)%Z → redis_get_session t id s = (Ok (Some d), s') →
     sd_session_id d = id ∧ (timestamp t < sd_created_at d + sd_max_age_seconds d)%Z ∧
     ∃ json ttl, s' !! session_key id = Some (string_until json (nanos_after t ttl)) ∧
       from_json json = Ok d ∧ (1 ≤ ttl ≤ sd_max_stale_age_seconds d)%Z ∧
       (timestamp t + ttl ≤ sd_created_at d + sd_max_age_seconds d)%Z).
Proof.
  intros Hs%redis_session_reachable_wf. split.
  - intros id e He. destruct (Hs _ _ He) as (json & d & x & ? & ? & ? & _ & _ & ?). by exists json, d, x.
  - intros t id d s' Ht Hrun.
    destruct (redis_get_session_answer t id s s' d Hs) as (? & ? & json & ttl & -> & ? & ? & ? & _);
      [unfold in_i64, i64_min, i64_max in *; lia|lia|done|].
    split; [done|]. split; [done|]. exists json, ttl. by rewrite lookup_insert_eq.
Qed.

(** with the Redis store a realm can be shown the sessions of another realm.  The key of a
    user's sessions joins realm and user name with a colon and no length: asked for user [y:u] of
    realm [x], the listing behind bulk logout answers the session of user [u] of realm [x:y]. *)
Theorem redis_listing_crosses_realms (t : Z) (realm : Realm) (x y u : string) (scheme : AuthScheme)
    (id v : string) (s : RedisDb) :
  let c := mkClient u scheme in
  realm_id realm = x +:+ ":" +:+ y →
  live t (user_sessions_key (realm_id realm) u (auth_scheme_json scheme)) s = None →
  (0 ≤ timestamp t)%Z → (0 ≤ realm_session_max_age_seconds realm)%Z →
  (timestamp t + realm_session_max_age_seconds realm ≤ i64_max)%Z →
  let s1 := (redis_upsert_session t id realm c v s).2 in
  redis_get_sessions_for_clients t x [mkClient (y +:+ ":" +:+ u) scheme] s1 =
    (Ok [redis_session t id realm c v], s1).
Proof.
  intros c Hrealm Hl Ht Hage Hmax s1. set (d := redis_session t id realm c v).
  destruct (redis_upsert_run t id realm c v s Hl) as (json & Hj & Hrun). fold d in Hj, Hrun.
  unfold s1. rewrite Hrun. cbn [snd].
  assert (t < nanos_after t (session_ttl d))%Z as Hx by (unfold nanos_after, session_ttl; lia).
  assert (user_key_of d = user_sessions_key x (y +:+ ":" +:+ u) (auth_scheme_json scheme)) as Hk.
  { unfold user_key_of, user_sessions_key. simpl. rewrite Hrealm. by rewrite !string_app_assoc. }
  apply (user_sessions_one t x (mkClient (y +:+ ":" +:+ u) scheme) id json (nanos_after t (session_ttl d))
    (nanos_after t (session_ttl d)) d); cbn [acs_username acs_auth_scheme].
  - by rewrite <-Hk, lookup_insert_eq.
  - done.
  - rewrite lookup_insert_ne by apply not_eq_sym, session_key_not_user. by rewrite lookup_insert_eq.
  - done.
  - done.
  - rewrite i64_add_id; simpl; [lia|]. unfold in_i64, i64_min, i64_max in *. lia.
Qed.
End sessions.

(** * Witnesses *)
#[local] Instance PendingSamlRequest_eq_dec : EqDecision PendingSamlRequest.
Proof. solve_decision. Defined.
#[local] Program Instance PendingSamlRequest_countable : Countable PendingSamlRequest :=
  inj_countable'
    (λ r, ((psr_request_id r, psr_realm_id r), (psr_return_url r, (psr_created_at r, psr_expires_at r))))
    (λ '((a, b), (c, (d, e))), mkPendingSamlRequest a b c d e) _.
Next Obligation. by intros []. Qed.
#[local] Instance toy_pending_serde : Serde PendingSamlRequest := countable_serde.
#[local] Instance toy_pending_serde_laws : SerdeLaws PendingSamlRequest := countable_serde_laws.
#[local] Instance toy_session_serde : Serde SessionData := countable_serde.
#[local] Instance toy_session_serde_laws : SerdeLaws SessionData := countable_serde_laws.
#[local] Instance toy_redis : RedisLib := {| redis_error_to_string _ := "redis error" |}.

Lemma redis_request_crosses_realms_witness :
  let r := mkPendingSamlRequest "_1" "a:b" "https://app.example.com/" 100 700 in
  ∃ s1, redis_store_pending_request 100000000000 r ∅ = (Ok (), s1) ∧
    (redis_take_pending_request 200000000000 "b:_1" "a" s1).1 = Ok (Some r).
Proof.
  intros r. assert (in_i64 (700 - 100)) as Hr by (unfold in_i64, i64_min, i64_max; lia).
  destruct (redis_store_run 100000000000 r ∅ Hr eq_refl) as (json & _ & _ & Hst).
  eexists. split; [exact Hst|].
  pose proof (redis_request_crosses_realms 100000000000 200000000000 "a" "b" "_1" r ∅ _
    eq_refl eq_refl Hr Hst ltac:(lia) eq_refl) as [H _].
  exact H.
Defined.
Definition toy_redis_realm (id : string) : Realm :=
  mkRealm id RealmAuthParams_default 3600 600 60.
Lemma redis_logout_misses_session_witness :
  let realm := toy_redis_realm "r" in
  let c := mkClient "alice" UsernamePassword in
  let s1 := (redis_upsert_session 0 "1" realm c "v1" ∅).2 in
  let s2 := (redis_get_session 500000000000 "1" s1).2 in
  let s3 := (redis_upsert_session 700000000000 "2" realm c "v2" s2).2 in
  ∃ resp s4,
    api_get_session (ST := redis_sessions_at 700000000000) 700000000000 700000000000 "2"
      (mkGetSessionRequest [c] (Some LogoutAllSessions)) s3 = (Ok resp, s4) ∧
    (redis_get_session 700000000000 "1" s4).1 = Ok (Some (redis_session 0 "1" realm c "v1")).
Proof.
  intros realm c s1 s2 s3.
  assert (timestamp 700000000000 + realm_session_max_age_seconds realm ≤ i64_max)%Z as H1
    by by vm_compute.
  destruct (redis_logout_misses_session 0 500000000000 700000000000 realm c "1" "2" "v1" "v2" ∅)
    as (resp & s4 & Hrun & _ & Hget);
    [done|by unfold live; rewrite lookup_empty|lia|split; by vm_compute|exact H1
    |split; by vm_compute|by vm_compute|by vm_compute|].
  exists resp, s4. split; [exact Hrun|exact Hget].
Defined.
Lemma redis_listing_crosses_realms_witness :
  let c := mkClient "u" UsernamePassword in
  let realm := toy_redis_realm "a:b" in
  let s1 := (redis_upsert_session 0 "1" realm c "v" ∅).2 in
  redis_get_sessions_for_clients 0 "a" [mkClient "b:u" UsernamePassword] s1 =
    (Ok [redis_session 0 "1" realm c "v"], s1).
Proof.
  intros c realm s1.
  assert (timestamp 0 + realm_session_max_age_seconds realm ≤ i64_max)%Z as H1 by by vm_compute.
  exact (redis_listing_crosses_realms 0 realm "a" "b" "u" UsernamePassword "1" "v" ∅ eq_refl
    ltac:(by unfold live; rewrite lookup_empty) ltac:(by vm_compute) ltac:(by vm_compute) H1).
Defined.
Lemma redis_session_lifetime_bounded_witness :
  let s := (redis_upsert_session 0 "1" (toy_redis_realm "r") (mkClient "alice" UsernamePassword) "v" ∅).2 in
  rtc redis_session_step ∅ s ∧
  ∀ id e, s !! session_key id = Some e →
    ∃ json d x, e = string_until json x ∧ from_json json = Ok d ∧ sd_session_id d = id ∧
      (x < last_instant d)%Z.
Proof.
  intros s.
  assert (timestamp 0 + realm_session_max_age_seconds (toy_redis_realm "r") ≤ i64_max)%Z as H1
    by by vm_compute.
  assert (rtc redis_session_step ∅ s) as Hs
    by (apply rtc_once; apply StepUpsert; [by vm_compute|by vm_compute|exact H1]).
  split; [exact Hs|]. destruct (redis_session_lifetime_bounded s Hs) as [Hb _]. exact Hb.
Defined.
