(* ===== verification/Postgres.v ===== *)
(** The stores on PostgreSQL: sessions ([server/src/session/impls/postgres.rs]) and SAML requests
    ([server/src/saml/impls/postgres.rs]).  The tables are those of SQLite.  The conditions of a
    [WHERE] are taken from left to right, and a later one is only evaluated where it decides. *)
From S2P Require Import Prelude RustStd Models Passwords Totp Database SqlServers Sessions SamlStore.

Section postgres.
Context {SX : Sqlx}.

Definition generic {A} (what : string) (r : Result A SqlxError) : Result A AuthError :=
  map_err (λ e, Generic (what +:+ ": " +:+ sqlx_to_string e)) r.

(** * Sessions *)
Definition pg_upsert_session (now : Z) (session_id : string) (realm : Realm)
    (authenticated_client : AuthenticatedClientScheme) (session_value : string) : SessionM () :=
  let stale_at := i64_add now (realm_session_max_stale_age_seconds realm) in
  let auth_scheme_str := auth_scheme_json (acs_auth_scheme authenticated_client) in
  let* _ := of_result (generic "Failed to insert session" (pg_text [session_id; realm_id realm;
    acs_username authenticated_client; auth_scheme_str; session_value])) in
  let* existing := gets (λ s : SessionTable, s !! session_id) in
  match existing with
  | Some _ => throw (Generic ("Failed to insert session: " +:+ sqlx_to_string UniqueViolation))
  | None =>
      modify <[session_id := mkSessionRow (realm_id realm) (acs_username authenticated_client)
        auth_scheme_str session_value stale_at (realm_session_max_stale_age_seconds realm)
        (realm_session_max_age_seconds realm) now]>
  end.

Definition pg_get_session (now : Z) (session_id : string) : SessionM (option SessionData) :=
  let* _ := of_result (generic "Failed to fetch session" (pg_text [session_id])) in
  let* row := gets (λ s : SessionTable, s !! session_id) in
  match row with
  | Some row =>
      if decide (now > sn_stale_at row ∨ now > i64_add (sn_created_at row) (sn_max_age_seconds row))%Z
      then
        modify (delete session_id) ;;;
        ret None
      else
        let absolute_expiry := i64_add (sn_created_at row) (sn_max_age_seconds row) in
        let time_until_absolute_expiry := i64_sub absolute_expiry now in
        let stale_duration := Z.min (sn_max_stale_age_seconds row) time_until_absolute_expiry in
        let new_stale_at := i64_add now stale_duration in
        modify (alter (set_stale_at new_stale_at) session_id) ;;;
        ret (Some (row_to_session session_id row))
  | None => ret None
  end.

(** [realm_id = $1 AND stale_at > $2 AND (created_at + max_age_seconds) > $3 AND (...)] *)
Definition pg_listed (now : Z) (realm_id : string) (clients : list AuthenticatedClientScheme)
    (row : SessionRow) : Result bool SqlxError :=
  if decide (sn_realm_id row = realm_id ∧ sn_stale_at row > now)%Z then
    let? expiry := bigint_add (sn_created_at row) (sn_max_age_seconds row) in
    Ok (bool_decide (expiry > now)%Z && bool_decide (owned_by clients row))
  else Ok false.
Definition client_texts (clients : list AuthenticatedClientScheme) : list string :=
  c ← clients; [acs_username c; auth_scheme_json (acs_auth_scheme c)].
Definition pg_get_sessions_for_clients (now : Z) (realm_id : string)
    (authenticated_users : list AuthenticatedClientScheme) : SessionM (list SessionData) :=
  match authenticated_users with
  | [] => ret []
  | _ =>
      let* _ := of_result (generic "Failed to fetch sessions"
        (pg_text (realm_id :: client_texts authenticated_users))) in
      let* rows := gets (λ s : SessionTable,
        try_filter (λ r, pg_listed now realm_id authenticated_users r.2) (map_to_list s)) in
      let* rows := of_result (generic "Failed to fetch sessions" rows) in
      ret ((λ r, row_to_session r.1 r.2) <$> rows)
  end.

(** [session_id = ANY($1)] *)
Definition pg_delete_sessions (session_ids : list string) : SessionM () :=
  match session_ids with
  | [] => ret ()
  | _ =>
      let* _ := of_result (generic "Failed to delete sessions" (pg_text session_ids)) in
      modify (filter (λ kv, kv.1 ∉ session_ids))
  end.

(** [stale_at <= $1 OR (created_at + max_age_seconds) <= $2] *)
Definition pg_expired (now : Z) (row : SessionRow) : Result bool SqlxError :=
  if decide (sn_stale_at row ≤ now)%Z then Ok true
  else
    let? expiry := bigint_add (sn_created_at row) (sn_max_age_seconds row) in
    Ok (bool_decide (expiry ≤ now)%Z).
Definition pg_delete_expired_sessions (now : Z) : SessionM () :=
  let* rows := gets (λ s : SessionTable, try_filter (λ r, pg_expired now r.2) (map_to_list s)) in
  let* rows := of_result (generic "Failed to delete expired sessions" rows) in
  modify (filter (λ kv, kv.1 ∉ rows.*1)).

Definition pg_delete_sessions_for_realm (realm_id : string) : SessionM () :=
  let* _ := of_result (generic "Failed to delete sessions for realm" (pg_text [realm_id])) in
  modify (filter (λ kv, sn_realm_id kv.2 ≠ realm_id)).

Definition pg_session_store : SessionStore SessionTable := {|
  ss_upsert_session := pg_upsert_session;
  ss_get_session := pg_get_session;
  ss_get_sessions_for_clients := pg_get_sessions_for_clients;
  ss_delete_sessions := pg_delete_sessions;
  ss_delete_expired_sessions := pg_delete_expired_sessions;
  ss_delete_sessions_for_realm := pg_delete_sessions_for_realm;
|}.

(** * SAML requests *)
Abbreviation SamlM := (M SamlTables AuthError).
Definition pg_store_pending_request (now : Z) (request : PendingSamlRequest) : SamlM () :=
  let* _ := of_result (ensure_unexpired now (psr_expires_at request) "SAML pending request") in
  let* _ := of_result (generic "Failed to store SAML pending request"
    (pg_text [psr_request_id request; psr_realm_id request; psr_return_url request])) in
  let* existing := gets (λ t, saml_pending_request t !! psr_request_id request) in
  match existing with
  | Some _ => throw (Generic ("Failed to store SAML pending request: "
                +:+ sqlx_to_string UniqueViolation))
  | None =>
      modify (set_pending <[psr_request_id request :=
        mkPendingRow (psr_realm_id request) (psr_return_url request) (psr_created_at request)
          (psr_expires_at request)]>)
  end.
Definition pg_take_pending_request (now : Z) (request_id realm_id : string)
    : SamlM (option PendingSamlRequest) :=
  let* _ := of_result (generic "Failed to take SAML pending request"
    (pg_text [request_id; realm_id])) in
  let* row := gets (λ t, saml_pending_request t !! request_id) in
  match row with
  | Some row =>
      if decide (pr_realm_id row = realm_id ∧ (pr_expires_at row > timestamp now)%Z) then
        modify (set_pending (delete request_id)) ;;;
        ret (Some (row_to_pending request_id row))
      else ret None
  | None => ret None
  end.
(** [ON CONFLICT (realm_id, assertion_id) DO NOTHING] *)
Definition pg_record_assertion_id (now : Z) (realm_id assertion_id : string) (expires_at : Z)
    : SamlM bool :=
  let* _ := of_result (ensure_unexpired now expires_at "SAML assertion id") in
  let* _ := of_result (generic "Failed to record SAML assertion id"
    (pg_text [realm_id; assertion_id])) in
  let* existing := gets (λ t, saml_seen_assertion t !! (realm_id, assertion_id)) in
  match existing with
  | Some _ => ret false
  | None => modify (set_seen <[(realm_id, assertion_id) := expires_at]>) ;;; ret true
  end.
Definition pg_delete_expired (now : Z) : SamlM () :=
  modify (set_pending (filter (λ kv, ¬ (pr_expires_at kv.2 ≤ timestamp now)%Z))) ;;;
  modify (set_seen (filter (λ kv, ¬ (kv.2 ≤ timestamp now)%Z))).
Definition pg_saml_store : SamlRequestStore SamlTables := {|
  rs_store_pending_request := pg_store_pending_request;
  rs_take_pending_request := pg_take_pending_request;
  rs_record_assertion_id := pg_record_assertion_id;
  rs_delete_expired := pg_delete_expired;
|}.
End postgres.
