(* ===== verification/MySqlStores.v ===== *)
(** The stores on MySQL: sessions ([server/src/session/impls/mysql.rs]) and SAML requests
    ([server/src/saml/impls/mysql.rs]).  A table is keyed by what the collation of its primary
    key compares, and keeps the text that was stored. *)
From S2P Require Import Prelude RustStd Models Passwords Totp Database SqlServers Sessions SamlStore Postgres.

(** SHA-256, 32 bytes *)
Class Sha256 := sha256_digest : string → string.

(** The [session] table: the id as it is stored, and the rest of the row. *)
Record MySessionRow := mkMySessionRow { my_session_id : string; my_row : SessionRow }.
Abbreviation MySessionTable := (gmap string MySessionRow).
Abbreviation MySessionM := (M MySessionTable AuthError).

Section sessions.
Context {SX : Sqlx} {MY : MySql}.

(** The row as its columns store it: [VARCHAR(36)], [VARCHAR(255)] twice, [VARCHAR(50)], [TEXT]. *)
Definition mysql_session_row (session_id realm_id username auth_scheme cookie_string : string)
    (stale_at max_stale max_age created_at : Z) : Result MySessionRow SqlxError :=
  let? session_id := varchar 36 session_id in
  let? realm_id := varchar 255 realm_id in
  let? username := varchar 255 username in
  let? auth_scheme := varchar 50 auth_scheme in
  let? cookie_string := text_column cookie_string in
  Ok (mkMySessionRow session_id (mkSessionRow realm_id username auth_scheme cookie_string stale_at
    max_stale max_age created_at)).
Definition mysql_upsert_session (now : Z) (session_id : string) (realm : Realm)
    (authenticated_client : AuthenticatedClientScheme) (session_value : string) : MySessionM () :=
  let stale_at := i64_add now (realm_session_max_stale_age_seconds realm) in
  let auth_scheme_str := auth_scheme_json (acs_auth_scheme authenticated_client) in
  let* row := of_result (generic "Failed to insert session" (mysql_session_row session_id
    (realm_id realm) (acs_username authenticated_client) auth_scheme_str session_value stale_at
    (realm_session_max_stale_age_seconds realm) (realm_session_max_age_seconds realm) now)) in
  let key := collation_key (my_session_id row) in
  let* existing := gets (λ s : MySessionTable, s !! key) in
  match existing with
  | Some _ => throw (Generic ("Failed to insert session: " +:+ sqlx_to_string UniqueViolation))
  | None => modify <[key := row]>
  end.

Definition mysql_get_session (now : Z) (session_id : string) : MySessionM (option SessionData) :=
  let key := collation_key session_id in
  let* row := gets (λ s : MySessionTable, s !! key) in
  match my_row <$> row with
  | Some row =>
      if decide (now > sn_stale_at row ∨ now > i64_add (sn_created_at row) (sn_max_age_seconds row))%Z
      then
        modify (delete key) ;;;
        ret None
      else
        let absolute_expiry := i64_add (sn_created_at row) (sn_max_age_seconds row) in
        let time_until_absolute_expiry := i64_sub absolute_expiry now in
        let stale_duration := Z.min (sn_max_stale_age_seconds row) time_until_absolute_expiry in
        let new_stale_at := i64_add now stale_duration in
        modify (alter (λ r, mkMySessionRow (my_session_id r)
          (set_stale_at new_stale_at (my_row r))) key) ;;;
        ret (Some (row_to_session session_id row))
  | None => ret None
  end.

Definition mysql_owned_by (clients : list AuthenticatedClientScheme) (row : SessionRow) : Prop :=
  Exists (λ c, same_text (sn_username row) (acs_username c) ∧
               same_text (sn_auth_scheme row) (auth_scheme_json (acs_auth_scheme c))) clients.
#[export] Instance mysql_owned_by_dec clients row : Decision (mysql_owned_by clients row).
Proof. unfold mysql_owned_by. apply _. Defined.
Definition mysql_listed (now : Z) (realm_id : string) (clients : list AuthenticatedClientScheme)
    (row : SessionRow) : Result bool SqlxError :=
  if decide (same_text (sn_realm_id row) realm_id ∧ sn_stale_at row > now)%Z then
    let? expiry := bigint_add (sn_created_at row) (sn_max_age_seconds row) in
    Ok (bool_decide (expiry > now)%Z && bool_decide (mysql_owned_by clients row))
  else Ok false.
Definition mysql_get_sessions_for_clients (now : Z) (realm_id : string)
    (authenticated_users : list AuthenticatedClientScheme) : MySessionM (list SessionData) :=
  match authenticated_users with
  | [] => ret []
  | _ =>
      let* rows := gets (λ s : MySessionTable,
        try_filter (λ r, mysql_listed now realm_id authenticated_users (my_row r.2))
          (map_to_list s)) in
      let* rows := of_result (generic "Failed to fetch sessions" rows) in
      ret ((λ r, row_to_session (my_session_id r.2) (my_row r.2)) <$> rows)
  end.

(** [session_id IN (?, ...)] *)
Definition mysql_delete_sessions (session_ids : list string) : MySessionM () :=
  match session_ids with
  | [] => ret ()
  | _ => modify (filter (λ kv, kv.1 ∉ collation_key <$> session_ids))
  end.
Definition mysql_delete_expired_sessions (now : Z) : MySessionM () :=
  let* rows := gets (λ s : MySessionTable,
    try_filter (λ r, pg_expired now (my_row r.2)) (map_to_list s)) in
  let* rows := of_result (generic "Failed to delete expired sessions" rows) in
  modify (filter (λ kv, kv.1 ∉ rows.*1)).
Definition mysql_delete_sessions_for_realm (realm_id : string) : MySessionM () :=
  modify (filter (λ kv, ¬ same_text (sn_realm_id (my_row kv.2)) realm_id)).

Definition mysql_session_store : SessionStore MySessionTable := {|
  ss_upsert_session := mysql_upsert_session;
  ss_get_session := mysql_get_session;
  ss_get_sessions_for_clients := mysql_get_sessions_for_clients;
  ss_delete_sessions := mysql_delete_sessions;
  ss_delete_expired_sessions := mysql_delete_expired_sessions;
  ss_delete_sessions_for_realm := mysql_delete_sessions_for_realm;
|}.
End sessions.

(** * SAML requests *)

(** [utf8mb4_bin] compares the bytes, trailing spaces aside. *)
Definition bin_key (s : string) : string := trim_end_matches " " s.
Record MyPendingRow := mkMyPendingRow { mp_request_id : string; mp_row : PendingRow }.
Record MySamlTables := mkMySamlTables {
  my_pending_request : gmap string MyPendingRow;
  (** by realm and digest of the assertion id *)
  my_seen_assertion : gmap (string * string) Z;
}.
Definition set_my_pending f (t : MySamlTables) : MySamlTables :=
  mkMySamlTables (f (my_pending_request t)) (my_seen_assertion t).
Definition set_my_seen f (t : MySamlTables) : MySamlTables :=
  mkMySamlTables (my_pending_request t) (f (my_seen_assertion t)).

Section saml.
Context {SX : Sqlx} {MY : MySql} {SHA : Sha256}.
Abbreviation MySamlM := (M MySamlTables AuthError).

Definition mysql_store_pending_request (now : Z) (request : PendingSamlRequest) : MySamlM () :=
  let* _ := of_result (ensure_unexpired now (psr_expires_at request) "SAML pending request") in
  let* row := of_result (generic "Failed to store SAML pending request" (
    let? request_id := varchar 255 (psr_request_id request) in
    let? realm_id := varchar 255 (psr_realm_id request) in
    let? return_url := text_column (psr_return_url request) in
    Ok (mkMyPendingRow request_id (mkPendingRow realm_id return_url (psr_created_at request)
      (psr_expires_at request))))) in
  let key := bin_key (mp_request_id row) in
  let* existing := gets (λ t, my_pending_request t !! key) in
  match existing with
  | Some _ => throw (Generic ("Failed to store SAML pending request: "
                +:+ sqlx_to_string UniqueViolation))
  | None => modify (set_my_pending <[key := row]>)
  end.

Definition binary_text_column (column bytes : string) : Result string AuthError :=
  ok_or (Generic ("bad " +:+ column +:+ " column: not UTF-8: " +:+ from_utf8_error bytes))
    (from_utf8 bytes).
Definition mysql_row_to_pending (row : MyPendingRow) : Result PendingSamlRequest AuthError :=
  let? request_id := binary_text_column "request_id" (mp_request_id row) in
  let? realm_id := binary_text_column "realm_id" (pr_realm_id (mp_row row)) in
  Ok (mkPendingSamlRequest request_id realm_id (pr_return_url (mp_row row))
    (pr_created_at (mp_row row)) (pr_expires_at (mp_row row))).
(** [SELECT ... FOR UPDATE] and [DELETE] in a transaction, which an error rolls back. *)
Definition mysql_take_pending_request (now : Z) (request_id realm_id : string)
    : MySamlM (option PendingSamlRequest) :=
  let* row := gets (λ t, my_pending_request t !! bin_key request_id) in
  match row with
  | Some row =>
      if decide (bin_key (pr_realm_id (mp_row row)) = bin_key realm_id ∧
                 (pr_expires_at (mp_row row) > timestamp now)%Z) then
        let* pending := of_result (mysql_row_to_pending row) in
        modify (set_my_pending (delete (bin_key request_id))) ;;;
        ret (Some pending)
      else ret None
  | None => ret None
  end.
(** [INSERT IGNORE]: a realm that does not fit is cut, in every mode. *)
Definition mysql_seen_key (realm_id assertion_id : string) : string * string :=
  (bin_key (take_chars 255 realm_id).1, sha256_digest assertion_id).
Definition mysql_record_assertion_id (now : Z) (realm_id assertion_id : string) (expires_at : Z)
    : MySamlM bool :=
  let* _ := of_result (ensure_unexpired now expires_at "SAML assertion id") in
  let* existing := gets (λ t, my_seen_assertion t !! mysql_seen_key realm_id assertion_id) in
  match existing with
  | Some _ => ret false
  | None => modify (set_my_seen <[mysql_seen_key realm_id assertion_id := expires_at]>) ;;; ret true
  end.
Definition mysql_delete_expired (now : Z) : MySamlM () :=
  modify (set_my_pending (filter (λ kv, ¬ (pr_expires_at (mp_row kv.2) ≤ timestamp now)%Z))) ;;;
  modify (set_my_seen (filter (λ kv, ¬ (kv.2 ≤ timestamp now)%Z))).
Definition mysql_saml_store : SamlRequestStore MySamlTables := {|
  rs_store_pending_request := mysql_store_pending_request;
  rs_take_pending_request := mysql_take_pending_request;
  rs_record_assertion_id := mysql_record_assertion_id;
  rs_delete_expired := mysql_delete_expired;
|}.
End saml.
