(* ===== verification/PostgresSpec.v ===== *)
(** What the stores on PostgreSQL promise ([Postgres.v]): they answer as the SQLite stores do on
    texts without NUL bytes and sums within [BIGINT]; the SAML store keeps [SamlStoreLaws]; one
    session whose lifetime leaves [BIGINT] stops the purge. *)
From S2P Require Import Prelude RustStd Models Passwords Totp Database Toy AdminApi SqlServers Sessions SessionSpec SamlStore SamlStoreSpec Postgres.

Lemma pg_text_ok texts : pg_text texts = Ok () ↔ forallb no_nul texts = true.
Proof. unfold pg_text. by destruct (forallb no_nul texts). Qed.
Lemma pg_text_cases texts :
  (forallb no_nul texts = true ∧ pg_text texts = Ok ()) ∨
  (forallb no_nul texts = false ∧ pg_text texts = Err InvalidText).
Proof. unfold pg_text. destruct (forallb no_nul texts); auto. Qed.

(** * Sessions *)
Section sessions.
Context {SX : Sqlx}.

Definition pg_answer {A} (f : A → SessionAnswer) (r : Result A AuthError * SessionTable)
    : SessionAnswer * SessionTable :=
  (match r.1 with Ok a => f a | Err _ => AnsFailed end, r.2).
Definition pg_step (op : SessionOp) (s : SessionTable) : SessionAnswer * SessionTable :=
  match op with
  | OpUpsert now id realm client value =>
      let r := pg_upsert_session now id realm client value s in
      (AnsDone (is_ok r.1), r.2)
  | OpGet now id => pg_answer AnsFound (pg_get_session now id s)
  | OpList now realm clients =>
      pg_answer (λ l, AnsList (list_to_set l)) (pg_get_sessions_for_clients now realm clients s)
  | OpDelete ids => pg_answer (λ _, AnsDone true) (pg_delete_sessions ids s)
  | OpDeleteExpired now => pg_answer (λ _, AnsDone true) (pg_delete_expired_sessions now s)
  | OpDeleteRealm realm => pg_answer (λ _, AnsDone true) (pg_delete_sessions_for_realm realm s)
  end.
(** The texts an operation sends. *)
Definition op_texts (op : SessionOp) : list string :=
  match op with
  | OpUpsert _ id realm client value =>
      [id; realm_id realm; acs_username client; auth_scheme_json (acs_auth_scheme client); value]
  | OpGet _ id => [id]
  | OpList _ _ [] => []
  | OpList _ realm clients => realm :: client_texts clients
  | OpDelete ids => ids
  | OpDeleteExpired _ => []
  | OpDeleteRealm realm => [realm]
  end.
Definition sums_fit (s : SessionTable) : Prop :=
  map_Forall (λ _ row, in_i64 (sn_created_at row + sn_max_age_seconds row)) s.

Lemma bigint_add_ok a b : in_i64 (a + b) → bigint_add a b = Ok (a + b)%Z.
Proof. intros H. unfold bigint_add. by rewrite decide_True. Qed.
Lemma pg_listed_ok now realm clients row :
  in_i64 (sn_created_at row + sn_max_age_seconds row) →
  pg_listed now realm clients row = Ok (bool_decide (sn_realm_id row = realm ∧
    (sn_stale_at row > now)%Z ∧ (sn_created_at row + sn_max_age_seconds row > now)%Z ∧
    owned_by clients row)).
Proof.
  intros H. unfold pg_listed. case_decide as Hd.
  - rewrite bigint_add_ok by done. simpl. f_equal. rewrite <-bool_decide_and.
    apply bool_decide_ext. tauto.
  - f_equal. symmetry. apply bool_decide_eq_false. tauto.
Qed.
Lemma pg_expired_ok now row :
  in_i64 (sn_created_at row + sn_max_age_seconds row) →
  pg_expired now row = Ok (bool_decide (sn_stale_at row ≤ now ∨
                           sn_created_at row + sn_max_age_seconds row ≤ now)%Z).
Proof.
  intros H. unfold pg_expired. case_decide as Hd.
  - f_equal. symmetry. apply bool_decide_eq_true. by left.
  - rewrite bigint_add_ok by done. simpl. f_equal. apply bool_decide_ext. tauto.
Qed.
Lemma sums_fit_row s r : sums_fit s → r ∈ map_to_list s →
  in_i64 (sn_created_at r.2 + sn_max_age_seconds r.2).
Proof. destruct r as [id row]. intros H Hr%elem_of_map_to_list. by apply (H id). Qed.

(** Purging by the keys of the rows found is purging by the condition. *)
Lemma filter_out_keys {V} (P : string * V → Prop) `{!∀ x, Decision (P x)} (m : gmap string V) :
  filter (λ kv, kv.1 ∉ (filter P (map_to_list m)).*1) m = filter (λ kv, ¬ P kv) m.
Proof.
  apply map_filter_ext. intros k v Hk. simpl. rewrite list_elem_of_fmap. split.
  - intros Hn HP. apply Hn. exists (k, v). split; [done|]. apply list_elem_of_filter.
    split; [done|]. by apply elem_of_map_to_list.
  - intros HP ([k' v'] & -> & [HP' Hin%elem_of_map_to_list]%list_elem_of_filter). simpl in *.
    by simplify_eq.
Qed.

(** On texts it accepts and sums that fit, PostgreSQL does what SQLite does. *)
Lemma pg_step_sqlite op s :
  forallb no_nul (op_texts op) = true → sums_fit s → pg_step op s = sqlite_step op s.
Proof.
  intros Ht%pg_text_ok Hs. destruct op as [now id realm client value|now id|now realm clients|ids|now|realm];
    simpl in *.
  - unfold pg_upsert_session, upsert_session, bind, of_result, gets, modify, throw. rewrite Ht. simpl.
    by destruct (s !! id).
  - unfold pg_get_session, bind at 1, of_result. rewrite Ht. done.
  - unfold pg_get_sessions_for_clients, get_sessions_for_clients. destruct clients as [|c cs]; [done|].
    unfold bind, of_result, gets. rewrite Ht. simpl.
    rewrite (try_filter_ok _ (λ r, sn_realm_id r.2 = realm ∧
        (sn_stale_at r.2 > now)%Z ∧ (sn_created_at r.2 + sn_max_age_seconds r.2 > now)%Z ∧
        owned_by (c :: cs) r.2)); [done|].
    intros r Hr. by apply pg_listed_ok, (sums_fit_row s).
  - unfold pg_delete_sessions, delete_sessions. destruct ids as [|i ids]; [done|].
    unfold bind, of_result. by rewrite Ht.
  - unfold pg_delete_expired_sessions, delete_expired_sessions, bind, of_result, gets.
    rewrite (try_filter_ok _ (λ r : string * SessionRow, (sn_stale_at r.2 ≤ now ∨
                           sn_created_at r.2 + sn_max_age_seconds r.2 ≤ now)%Z))
      by (intros r Hr; by apply pg_expired_ok, (sums_fit_row s)).
    simpl. unfold pg_answer, answer, modify. simpl. f_equal. apply filter_out_keys.
  - unfold pg_delete_sessions_for_realm, bind, of_result. by rewrite Ht.
Qed.
End sessions.

Section agreement.
Context {SX : Sqlx}.

Lemma sums_fit_subseteq (s s' : SessionTable) : s' ⊆ s → sums_fit s → sums_fit s'.
Proof. intros Hsub Hs id row Hrow. apply (Hs id). by eapply lookup_weaken. Qed.
Lemma sums_fit_step op s : op_in_range op → sums_fit s → sums_fit (sqlite_step op s).2.
Proof.
  intros Hop Hs. destruct op as [now id realm client value|now id|now realm clients|ids|now|realm];
    simpl in *.
  - unfold upsert_session. destruct (s !! id); [done|]. simpl. apply map_Forall_insert_2; [|done].
    simpl. unfold in_i64, i64_min in *. lia.
  - unfold get_session, bind, gets, modify, ret. destruct (s !! id) as [row|] eqn:Hrow; [|done].
    case_decide; simpl; [by apply map_Forall_delete|].
    rewrite (alter_some _ _ _ row) by done. apply map_Forall_insert_2; [|done]. exact (Hs id row Hrow).
  - destruct (get_sessions_for_clients_ok now realm clients s) as [l Hl]. by rewrite Hl.
  - destruct ids; [done|]. eapply sums_fit_subseteq, Hs. apply map_filter_subseteq.
  - eapply sums_fit_subseteq, Hs. apply map_filter_subseteq.
  - eapply sums_fit_subseteq, Hs. apply map_filter_subseteq.
Qed.
Lemma pg_run_sqlite ops s :
  Forall op_in_range ops → Forall (λ op, forallb no_nul (op_texts op) = true) ops → sums_fit s →
  run_ops pg_step ops s = run_ops sqlite_step ops s.
Proof.
  revert s. induction ops as [|op ops IH]; intros s Hr Ht Hs; [done|].
  apply Forall_cons in Hr as [Hop Hr]. apply Forall_cons in Ht as [Htop Ht]. simpl.
  rewrite (pg_step_sqlite op s) by done.
  pose proof (sums_fit_step op s Hop Hs) as Hs'. destruct (sqlite_step op s) as [x s1]. simpl in Hs'.
  by rewrite IH.
Qed.

(** A statement with a NUL byte in a text is refused and changes nothing. *)
Lemma pg_step_nul op s :
  forallb no_nul (op_texts op) = false →
  pg_step op s = (match op with OpUpsert _ _ _ _ _ => AnsDone false | _ => AnsFailed end, s).
Proof.
  intros Ht. destruct (pg_text_cases (op_texts op)) as [[Ht' _]|[_ Hp]]; [congruence|].
  destruct op as [now id realm client value|now id|now realm [|c cs]|[|i ids]|now|realm]; simpl in *;
    try done.
  - unfold pg_upsert_session, bind, of_result. by rewrite Hp.
  - unfold pg_get_session, bind, of_result. by rewrite Hp.
  - unfold pg_get_sessions_for_clients, bind, of_result. by rewrite Hp.
  - unfold pg_delete_sessions, bind, of_result. by rewrite Hp.
  - unfold pg_delete_sessions_for_realm, bind, of_result. by rewrite Hp.
Qed.

(** A row whose sum is out of range, met while idle time has not run out. *)
Lemma try_filter_err {A E} (f : A → Result bool E) e l a :
  (∀ x, x ∈ l → f x = Err e ∨ is_ok (f x) = true) → a ∈ l → f a = Err e → try_filter f l = Err e.
Proof.
  induction l as [|x l IH]; intros Hf Ha Hfa; [by apply elem_of_nil in Ha|]. simpl.
  destruct (Hf x) as [Hx|Hx]; [by left|by rewrite Hx|].
  destruct (f x) as [keep|e'] eqn:Hfx; [|done]. simpl.
  apply elem_of_cons in Ha as [->|Ha]; [congruence|].
  rewrite IH; [done| |done|done]. intros y Hy. apply Hf. by right.
Qed.
Lemma pg_expired_cases now row : pg_expired now row = Err OutOfRange ∨ is_ok (pg_expired now row) = true.
Proof. unfold pg_expired, bigint_add. repeat case_decide; auto. Qed.
Lemma pg_purge_blocked now id row s :
  s !! id = Some row → (now < sn_stale_at row)%Z →
  ¬ in_i64 (sn_created_at row + sn_max_age_seconds row) →
  pg_delete_expired_sessions now s =
    (Err (Generic ("Failed to delete expired sessions: " +:+ sqlx_to_string OutOfRange)), s).
Proof.
  intros Hrow Hst Hsum. unfold pg_delete_expired_sessions, bind, gets, of_result.
  rewrite (try_filter_err _ OutOfRange _ (id, row)); [done| | |].
  - intros x _. apply pg_expired_cases.
  - by apply elem_of_map_to_list.
  - simpl. unfold pg_expired, bigint_add. by rewrite !decide_False by (done || lia).
Qed.
End agreement.

(** C15: the PostgreSQL session store is the SQLite one.  Any sequence of operations with realistic
    clocks and lifetimes and with texts PostgreSQL accepts gets, from an empty table, the same
    answers and leaves the same rows as on SQLite; they are those of the abstract store. *)
Theorem postgres_sessions_agree `{SX : Sqlx} (ops : list SessionOp) :
  Forall op_in_range ops → Forall (λ op, forallb no_nul (op_texts op) = true) ops →
  run_ops pg_step ops ∅ = run_ops sqlite_step ops ∅ ∧
  (run_ops pg_step ops ∅).1 = (run_ops spec_step ops ∅).1.
Proof.
  intros Hr Ht. rewrite pg_run_sqlite by done. split; [done|]. by apply sqlite_run_spec.
Qed.

(** C30: one session with an absurd lifetime stops the purge.  When the lifetimes of a realm carry
    the end of a session out of BIGINT, storing the session succeeds, and from then on, until its
    idle time runs out, every purge of the PostgreSQL store fails and removes no session of any
    realm, whatever other sessions are stored and removed in between. *)
Theorem postgres_purge_blocked `{SX : Sqlx} (now t : Z) (id value : string) (realm : Realm)
    (client : AuthenticatedClientScheme) (s s1 s2 : SessionTable) :
  pg_upsert_session now id realm client value s = (Ok (), s1) →
  ¬ in_i64 (now + realm_session_max_age_seconds realm) →
  s2 !! id = s1 !! id → (t < i64_add now (realm_session_max_stale_age_seconds realm))%Z →
  pg_delete_expired_sessions t s2 =
    (Err (Generic ("Failed to delete expired sessions: " +:+ sqlx_to_string OutOfRange)), s2) ∧
  (Sessions.delete_expired_sessions t s2).1 = Ok ().
Proof.
  unfold pg_upsert_session, bind, of_result, gets, modify.
  destruct (generic _ _) as [[]|]; [|done].
  destruct (s !! id); [done|]. intros [= <-] Hsum Hs2 Ht. rewrite lookup_insert_eq in Hs2.
  split; [|done]. by eapply pg_purge_blocked.
Qed.

(** * SAML requests *)
Section saml.
Context {SX : Sqlx}.

(** The texts of an operation, and what the store does with them. *)
Lemma pg_store_run t r s :
  forallb no_nul [psr_request_id r; psr_realm_id r; psr_return_url r] = true →
  pg_store_pending_request t r s = store_pending_request t r s.
Proof.
  intros Ht%pg_text_ok. unfold pg_store_pending_request, store_pending_request, bind, of_result, gets.
  destruct (ensure_unexpired _ _ _); [|done]. rewrite Ht. simpl.
  by destruct (saml_pending_request s !! psr_request_id r).
Qed.
Lemma pg_store_nul t r s :
  forallb no_nul [psr_request_id r; psr_realm_id r; psr_return_url r] = false →
  (pg_store_pending_request t r s).2 = s ∧ is_ok (pg_store_pending_request t r s).1 = false.
Proof.
  intros Ht. destruct (pg_text_cases [psr_request_id r; psr_realm_id r; psr_return_url r])
    as [[Ht' _]|[_ Hp]]; [congruence|].
  unfold pg_store_pending_request, bind, of_result.
  destruct (ensure_unexpired _ _ _); [|done]. by rewrite Hp.
Qed.
Lemma pg_take_run t id realm s :
  forallb no_nul [id; realm] = true →
  pg_take_pending_request t id realm s = take_pending_request t id realm s.
Proof.
  intros Ht%pg_text_ok. unfold pg_take_pending_request, take_pending_request, bind, of_result, gets.
  rewrite Ht. simpl. destruct (saml_pending_request s !! id); [|done]. by case_decide.
Qed.
Lemma pg_record_run t realm aid e s :
  forallb no_nul [realm; aid] = true →
  pg_record_assertion_id t realm aid e s = record_assertion_id t realm aid e s.
Proof.
  intros Ht%pg_text_ok. unfold pg_record_assertion_id, record_assertion_id, bind, of_result, gets.
  destruct (ensure_unexpired _ _ _); [|done]. rewrite Ht. simpl.
  by destruct (saml_seen_assertion s !! (realm, aid)).
Qed.
Lemma pg_record_nul t realm aid e s :
  forallb no_nul [realm; aid] = false →
  ∃ err, pg_record_assertion_id t realm aid e s = (Err err, s).
Proof.
  intros Ht. destruct (pg_text_cases [realm; aid]) as [[Ht' _]|[_ Hp]]; [congruence|].
  unfold pg_record_assertion_id, bind, of_result.
  destruct (ensure_unexpired _ _ _); [|by eexists]. rewrite Hp. by eexists.
Qed.

Definition pg_saml_views : SamlStoreViews SamlTables := {|
  store_wf _ := True;
  good_request_id := no_nul;
  good_realm_id := no_nul;
  good_text := no_nul;
  pending_at := sqlite_pending_at;
  unused_id := @unused_id _ sqlite_saml_views;
  seen_at := @seen_at _ sqlite_saml_views;
  remembers := @remembers _ sqlite_saml_views;
|}.
#[local] Abbreviation run_sqlite := (@run_op SamlTables sqlite_saml_store).
#[local] Abbreviation run_pg := (@run_op SamlTables pg_saml_store).

Lemma good_key_texts id realm :
  @good_key SamlTables pg_saml_views id realm = true → forallb no_nul [id; realm] = true.
Proof. unfold good_key. simpl. by rewrite andb_true_r. Qed.
Lemma good_request_texts r :
  @good_request SamlTables pg_saml_views r = true →
  forallb no_nul [psr_request_id r; psr_realm_id r; psr_return_url r] = true.
Proof. unfold good_request, good_key. simpl. by rewrite andb_true_r, andb_assoc. Qed.
(** An operation does what it does on SQLite, or changes nothing. *)
Lemma run_pg_cases t op s : run_pg t op s = run_sqlite t op s ∨ run_pg t op s = s.
Proof.
  destruct op as [r|id realm|realm aid e|]; simpl.
  - destruct (forallb no_nul [psr_request_id r; psr_realm_id r; psr_return_url r]) eqn:Ht.
    + left. by rewrite pg_store_run.
    + right. by apply pg_store_nul.
  - destruct (pg_text_cases [id; realm]) as [[Ht _]|[_ Hp]].
    + left. by rewrite pg_take_run.
    + right. unfold pg_take_pending_request, bind, of_result. by rewrite Hp.
  - destruct (forallb no_nul [realm; aid]) eqn:Ht.
    + left. by rewrite pg_record_run.
    + right. by destruct (pg_record_nul t realm aid e s Ht) as [err ->].
  - by left.
Qed.

Definition pg_saml_laws : @SamlStoreLaws SamlTables pg_saml_store pg_saml_views.
Proof.
  pose proof sqlite_saml_laws as L. split.
  - done.
  - intros s t id realm r _ _. by apply (pending_sound (SamlStoreLaws := L)).
  - intros s t t' id realm r _ _. by apply (pending_persists (SamlStoreLaws := L)).
  - apply (pending_gone (SamlStoreLaws := L)).
  - intros s t r _ Hg%good_request_texts. cbn [rs_store_pending_request pg_saml_store].
    rewrite pg_store_run by done. by apply (store_ok (SamlStoreLaws := L)).
  - intros s s' t t' r _ [Hg%good_request_texts Hr]. cbn [rs_store_pending_request pg_saml_store].
    rewrite pg_store_run by done. by apply (store_pending (SamlStoreLaws := L)).
  - intros s t id realm _ Hg%good_key_texts. cbn [rs_take_pending_request pg_saml_store].
    rewrite pg_take_run by done. by apply (take_answer (SamlStoreLaws := L)).
  - intros s t t' id realm _ Hg%good_key_texts. cbn [run_op rs_take_pending_request pg_saml_store].
    rewrite pg_take_run by done. by apply (take_consumes (SamlStoreLaws := L)).
  - intros s t t' id realm realm' aid Hg%good_key_texts.
    cbn [run_op rs_take_pending_request pg_saml_store].
    rewrite pg_take_run by done. by apply (take_seen (SamlStoreLaws := L)).
  - intros s t realm aid e Hr. cbn [rs_record_assertion_id pg_saml_store].
    destruct (forallb no_nul [realm; aid]) eqn:Ht.
    + left. rewrite pg_record_run by done. by destruct (record_answer (SamlStoreLaws := L) s t realm aid e Hr) as [H|[H _]].
    + right. destruct (pg_record_nul t realm aid e s Ht) as [err ->]. split; [|by exists err].
      simpl in Ht. by rewrite andb_true_r in Ht.
  - intros s s' t realm aid e Hr. cbn [rs_record_assertion_id pg_saml_store].
    destruct (forallb no_nul [realm; aid]) eqn:Ht.
    + rewrite pg_record_run by done. by apply (record_remembers (SamlStoreLaws := L)).
    + by destruct (pg_record_nul t realm aid e s Ht) as [err ->].
  - apply (remembers_seen (SamlStoreLaws := L)).
  - intros s t t' op id realm _ Hop _ Ht Hl. destruct (run_pg_cases t op s) as [-> | ->]; [|done].
    by apply sqlite_pending_frame.
  - intros s t op realm aid e Hrem Ht. destruct (run_pg_cases t op s) as [-> | ->]; [|done].
    by apply sqlite_remembers_frame.
Qed.
End saml.

(** * Witnesses *)
Lemma postgres_sessions_agree_witness :
  let ops := [OpUpsert 10 "a" toy_realm toy_client "c"; OpGet 70 "a"; OpList 80 "r" [];
              OpDeleteExpired 131; OpGet 131 "a"] in
  Forall op_in_range ops ∧ Forall (λ op, forallb no_nul (op_texts op) = true) ops ∧
  (run_ops (pg_step (SX := toy_sqlx)) ops ∅).1 =
    [AnsDone true; AnsFound (Some (new_session 10 "a" toy_realm toy_client "c"));
     AnsList ∅; AnsDone true; AnsFound None].
Proof.
  intros ops. assert (Forall op_in_range ops) as Hr by (repeat constructor; by vm_compute).
  assert (Forall (λ op, forallb no_nul (op_texts op) = true) ops) as Ht
    by (repeat constructor; by vm_compute).
  split; [exact Hr|]. split; [exact Ht|].
  rewrite (proj2 (postgres_sessions_agree (SX := toy_sqlx) ops Hr Ht)). by vm_compute.
Defined.
Definition toy_endless_realm : Realm := mkRealm "r" RealmAuthParams_default i64_max 60 0.
Lemma postgres_purge_blocked_witness :
  let s1 := (pg_upsert_session (SX := toy_sqlx) 10 "a" toy_endless_realm toy_client "c" ∅).2 in
  (pg_upsert_session (SX := toy_sqlx) 10 "a" toy_endless_realm toy_client "c" ∅).1 = Ok () ∧
  (pg_delete_expired_sessions (SX := toy_sqlx) 20 s1).2 = s1 ∧
  is_ok (pg_delete_expired_sessions (SX := toy_sqlx) 20 s1).1 = false.
Proof.
  intros s1.
  assert (pg_upsert_session (SX := toy_sqlx) 10 "a" toy_endless_realm toy_client "c" ∅ = (Ok (), s1))
    as Hup by by vm_compute.
  assert (¬ in_i64 (10 + realm_session_max_age_seconds toy_endless_realm)) as Hsum
    by (intros [_ Hs]; apply Z.lt_nge in Hs; [exact Hs|by vm_compute]).
  assert (20 < i64_add 10 (realm_session_max_stale_age_seconds toy_endless_realm))%Z as Ht by by vm_compute.
  clearbody s1. split; [by rewrite Hup|].
  destruct (postgres_purge_blocked (SX := toy_sqlx) 10 20 "a" "c" toy_endless_realm toy_client ∅ s1 s1
    Hup Hsum eq_refl Ht) as [Hp _].
  by rewrite Hp.
Defined.
