(* ===== verification/MySqlStoresSpec.v ===== *)
(** What the stores on MySQL promise ([MySqlStores.v]): the SAML store keeps [SamlStoreLaws] for
    names that fit their columns; a session whose id is a SHA-256 in hexadecimal is never found
    again. *)
From S2P Require Import Prelude RustStd Models Passwords Totp Database Toy AdminApi SqlServers Sessions SessionSpec SamlStore SamlStoreSpec Postgres MySqlStores.

(** * Columns *)
(** A name that its column holds as it is and that only equals itself under [utf8mb4_bin]. *)
Definition plain_name (s : string) : bool :=
  bool_decide (take_chars 255 s = (s, "")) && bool_decide (bin_key s = s) && utf8_valid s.
Lemma plain_name_ok s : plain_name s = true ↔
  take_chars 255 s = (s, "") ∧ bin_key s = s ∧ from_utf8 s = Some s.
Proof.
  unfold plain_name. rewrite !andb_true_iff, !bool_decide_eq_true. unfold from_utf8.
  destruct (utf8_valid s); naive_solver.
Qed.
Definition plain_text (s : string) : bool := bool_decide (Z.of_nat (String.length s) ≤ 65535)%Z.

Section saml.
Context {SX : Sqlx} {MY : MySql} {SHA : Sha256}.

Lemma varchar_plain s : plain_name s = true → varchar 255 s = Ok s.
Proof. intros (H & _ & _)%plain_name_ok. unfold varchar. by rewrite H. Qed.
Lemma text_column_plain s : plain_text s = true → text_column s = Ok s.
Proof. intros H%bool_decide_eq_true. unfold text_column. by rewrite decide_True. Qed.

Definition plain_row (row : MyPendingRow) : Prop :=
  plain_name (mp_request_id row) = true ∧ plain_name (pr_realm_id (mp_row row)) = true.
Definition my_pending_at (s : MySamlTables) (t : Z) (id realm : string)
    : option PendingSamlRequest :=
  match my_pending_request s !! bin_key id with
  | Some row =>
      if decide (bin_key (pr_realm_id (mp_row row)) = bin_key realm ∧
                 (pr_expires_at (mp_row row) > timestamp t)%Z)
      then Some (row_to_pending (mp_request_id row) (mp_row row)) else None
  | None => None
  end.
#[export] Instance mysql_saml_views : SamlStoreViews MySamlTables := {|
  store_wf s := ∀ key row, my_pending_request s !! key = Some row →
    plain_row row ∧ key = mp_request_id row;
  good_request_id := plain_name;
  good_realm_id := plain_name;
  good_text := plain_text;
  pending_at := my_pending_at;
  unused_id s id := bool_decide (my_pending_request s !! bin_key id = None);
  seen_at s _ realm aid := bool_decide (is_Some (my_seen_assertion s !! mysql_seen_key realm aid));
  remembers s realm aid e :=
    ∃ e', my_seen_assertion s !! mysql_seen_key realm aid = Some e' ∧ (e ≤ e')%Z;
|}.
#[local] Existing Instance mysql_saml_store.

Lemma good_key_plain id realm : good_key (R := MySamlTables) id realm = true ↔
  plain_name id = true ∧ plain_name realm = true.
Proof. apply andb_true_iff. Qed.
Lemma bin_key_plain s : plain_name s = true → bin_key s = s.
Proof. by intros (_ & ? & _)%plain_name_ok. Qed.

Lemma my_pending_some (s : MySamlTables) t id realm r : store_wf s →
  plain_name id = true → plain_name realm = true →
  my_pending_at s t id realm = Some r ↔
  ∃ row, my_pending_request s !! id = Some (mkMyPendingRow id row) ∧ pr_realm_id row = realm ∧
    (timestamp t < pr_expires_at row)%Z ∧ r = row_to_pending id row.
Proof.
  intros Hwf Hid Hrealm. unfold my_pending_at. rewrite !bin_key_plain by done.
  destruct (my_pending_request s !! id) as [[id' row]|] eqn:Hrow; [|naive_solver].
  destruct (Hwf _ _ Hrow) as [[_ Hr] Heq]. simpl in *. subst id'. rewrite bin_key_plain by done.
  case_decide as Hd; split.
  - intros [= <-]. exists row. split_and!; [done| |lia|done]. tauto.
  - intros (row' & [= <-] & _ & _ & ->). done.
  - done.
  - intros (row' & [= <-] & Hre & Ht & _). destruct Hd. split; [done|lia].
Qed.

(** The writes. *)
Lemma my_store_run t r (s : MySamlTables) : good_request (R := MySamlTables) r = true →
  mysql_store_pending_request t r s =
    match ensure_unexpired t (psr_expires_at r) "SAML pending request" with
    | Err e => (Err e, s)
    | Ok _ =>
        match my_pending_request s !! psr_request_id r with
        | Some _ => (Err (Generic ("Failed to store SAML pending request: "
                      +:+ sqlx_to_string UniqueViolation)), s)
        | None => (Ok (), set_my_pending <[psr_request_id r := mkMyPendingRow (psr_request_id r)
            (mkPendingRow (psr_realm_id r) (psr_return_url r) (psr_created_at r)
               (psr_expires_at r))]> s)
        end
    end.
Proof.
  unfold good_request. intros [[Hid Hrealm]%good_key_plain Hurl]%andb_true_iff.
  unfold mysql_store_pending_request, bind, of_result, gets, throw, modify.
  destruct (ensure_unexpired _ _ _); [|done].
  rewrite !varchar_plain, text_column_plain by done. simpl. rewrite bin_key_plain by done.
  by destruct (my_pending_request s !! psr_request_id r).
Qed.
Lemma my_take_run t id realm (s : MySamlTables) : store_wf s →
  plain_name id = true → plain_name realm = true →
  mysql_take_pending_request t id realm s =
    (Ok (my_pending_at s t id realm),
     match my_pending_at s t id realm with Some _ => set_my_pending (delete id) s | None => s end).
Proof.
  intros Hwf Hid Hrealm. unfold mysql_take_pending_request, my_pending_at, bind, gets.
  rewrite (bin_key_plain id), (bin_key_plain realm) by done.
  destruct (my_pending_request s !! id) as [[id' row]|] eqn:Hrow; [|done].
  destruct (Hwf _ _ Hrow) as [[Hi Hr] Heq]. simpl in *. subst id'.
  case_decide; [|done]. unfold mysql_row_to_pending, binary_text_column, of_result. simpl.
  rewrite (proj2 (proj2 (proj1 (plain_name_ok id) Hid))). simpl.
  by rewrite (proj2 (proj2 (proj1 (plain_name_ok _) Hr))).
Qed.
Lemma my_record_run t realm aid e (s : MySamlTables) :
  mysql_record_assertion_id t realm aid e s =
    match ensure_unexpired t e "SAML assertion id" with
    | Err err => (Err err, s)
    | Ok _ =>
        match my_seen_assertion s !! mysql_seen_key realm aid with
        | Some _ => (Ok false, s)
        | None => (Ok true, set_my_seen <[mysql_seen_key realm aid := e]> s)
        end
    end.
Proof.
  unfold mysql_record_assertion_id, bind, of_result, gets, modify, ret.
  destruct (ensure_unexpired _ _ _); [|done].
  by destruct (my_seen_assertion s !! mysql_seen_key realm aid).
Qed.

Lemma my_run_op_wf t op (s : MySamlTables) : store_wf s → good_op t op → store_wf (run_op t op s).
Proof.
  intros Hwf Hop. destruct op as [r|id realm|realm aid e|]; cbn [run_op rs_store_pending_request
    rs_take_pending_request rs_record_assertion_id rs_delete_expired mysql_saml_store].
  - destruct Hop as [Hg _]. rewrite my_store_run by done. destruct (ensure_unexpired _ _ _); [|done].
    destruct (my_pending_request s !! psr_request_id r); [done|].
    apply andb_true_iff in Hg as [[Hid Hrealm]%good_key_plain _].
    intros key row. cbn. intros [[<- <-]|[_ Hrow]]%lookup_insert_Some; [done|]. by apply Hwf.
  - apply good_key_plain in Hop as [Hid Hrealm]. rewrite my_take_run by done. simpl.
    destruct (my_pending_at s t id realm); [|done].
    intros key row. cbn. intros [_ Hrow]%lookup_delete_Some. by apply Hwf.
  - rewrite my_record_run. destruct (ensure_unexpired _ _ _); [|done].
    by destruct (my_seen_assertion s !! mysql_seen_key realm aid).
  - intros key row. cbn. intros [Hrow _]%map_lookup_filter_Some. by apply Hwf.
Qed.
(** An operation on other names leaves the row of an id. *)
Lemma my_pending_frame t t' op id realm (s : MySamlTables) :
  store_wf s → good_op t op → plain_name id = true → plain_name realm = true → (t ≤ t')%Z →
  leaves id realm op → my_pending_at (run_op t op s) t' id realm = my_pending_at s t' id realm.
Proof.
  intros Hwf Hop Hid Hrealm Ht%timestamp_mono Hl.
  assert (∀ s' : MySamlTables, my_pending_request s' !! id = my_pending_request s !! id →
    my_pending_at s' t' id realm = my_pending_at s t' id realm) as Hsame.
  { intros s' Hs'. unfold my_pending_at. by rewrite bin_key_plain, Hs' by done. }
  destruct op as [r|id' realm'|realm' aid e|]; cbn [run_op rs_store_pending_request
    rs_take_pending_request rs_record_assertion_id rs_delete_expired mysql_saml_store leaves] in *.
  - destruct Hop as [Hg _]. rewrite my_store_run by done. destruct (ensure_unexpired _ _ _); [|done].
    destruct (my_pending_request s !! psr_request_id r); [done|].
    apply Hsame. simpl. by rewrite lookup_insert_ne.
  - apply good_key_plain in Hop as [Hid' Hrealm']. rewrite my_take_run by done. simpl.
    destruct (my_pending_at s t id' realm') as [r|] eqn:Hp; [|done].
    destruct (decide (id' = id)) as [->|]; [|apply Hsame; simpl; by rewrite lookup_delete_ne].
    apply my_pending_some in Hp as (row & Hrow & Hr & _); [|done..].
    unfold my_pending_at. simpl. rewrite !bin_key_plain by done. rewrite lookup_delete_eq, Hrow. simpl.
    rewrite Hr, bin_key_plain by done. rewrite decide_False; [done|]. intros [-> _]. by apply Hl.
  - rewrite my_record_run. destruct (ensure_unexpired _ _ _); [|done].
    by destruct (my_seen_assertion s !! mysql_seen_key realm' aid).
  - unfold my_pending_at. rewrite !bin_key_plain by done. simpl.
    destruct (my_pending_request s !! id) as [row|] eqn:Hrow.
    + destruct (decide (pr_expires_at (mp_row row) ≤ timestamp t)%Z) as [Hx|Hx].
      * rewrite map_lookup_filter_None_2; [|right; intros ? ? Hn; simplify_eq; auto].
        rewrite decide_False; [done|]. lia.
      * by rewrite (map_lookup_filter_Some_2 _ _ _ row).
    + by rewrite map_lookup_filter_None_2 by by left.
Qed.
Lemma my_remembers_frame t op realm aid e (s : MySamlTables) :
  remembers s realm aid e → (timestamp t < e)%Z → remembers (run_op t op s) realm aid e.
Proof.
  intros (e' & He & Hle) Ht.
  assert (∀ s' : MySamlTables, my_seen_assertion s' = my_seen_assertion s → remembers s' realm aid e)
    as Hsame by (intros s' Hs'; exists e'; by rewrite Hs').
  destruct op as [r|id' realm'|realm' aid' e1|]; cbn [run_op rs_store_pending_request
    rs_take_pending_request rs_record_assertion_id rs_delete_expired mysql_saml_store].
  - apply Hsame. unfold mysql_store_pending_request, bind, of_result, gets, throw, modify.
    destruct (ensure_unexpired _ _ _); [|done]. destruct (generic _ _); [|done].
    by destruct (my_pending_request s !! _).
  - apply Hsame. unfold mysql_take_pending_request, bind, of_result, gets, modify, ret.
    destruct (my_pending_request s !! _); [|done]. case_decide; [|done].
    by destruct (mysql_row_to_pending _).
  - rewrite my_record_run. destruct (ensure_unexpired _ _ _); [|by exists e'].
    destruct (my_seen_assertion s !! mysql_seen_key realm' aid') eqn:Hs; [by exists e'|].
    exists e'. split; [|done]. simpl. rewrite lookup_insert_ne; [done|]. intros Hk. congruence.
  - exists e'. split; [|done]. apply map_lookup_filter_Some_2; [done|]. simpl. lia.
Qed.

#[export] Instance mysql_saml_laws : SamlStoreLaws MySamlTables.
Proof.
  split.
  - intros s t op. apply my_run_op_wf.
  - intros s t id realm r Hwf [Hid Hrealm]%good_key_plain Hp.
    by apply my_pending_some in Hp as (row & _ & <- & ? & ->).
  - intros s t t' id realm r Hwf [Hid Hrealm]%good_key_plain Hp _ Ht'.
    apply my_pending_some in Hp as (row & Hrow & <- & _ & ->); [|done..].
    apply my_pending_some; [done..|]. by exists row.
  - intros s t t' id realm Hn Ht%timestamp_mono. cbn in *. unfold my_pending_at in *.
    destruct (my_pending_request s !! bin_key id) as [row|]; [|done].
    revert Hn. case_decide as Hd; [done|]. intros _. rewrite decide_False; [done|]. intros [? ?].
    apply Hd. split; [done|lia].
  - intros s t r Hwf Hg Hf%bool_decide_eq_true Hr Ht. cbn [rs_store_pending_request mysql_saml_store].
    rewrite my_store_run by done. rewrite (proj2 (ensure_unexpired_ok _ _ _ _ Hr) (conj Ht eq_refl)).
    apply andb_true_iff in Hg as [[Hid _]%good_key_plain _]. by rewrite bin_key_plain in Hf by done; rewrite Hf.
  - intros s s' t t' r Hwf [Hg Hr] Hst _ Ht'.
    pose proof (my_run_op_wf t (OpStore r) s Hwf (conj Hg Hr)) as Hwf'. cbn [run_op] in Hwf'.
    rewrite Hst in Hwf'. revert Hst Hwf'. cbn [rs_store_pending_request mysql_saml_store].
    rewrite my_store_run by done. apply andb_true_iff in Hg as [[Hid Hrealm]%good_key_plain _].
    destruct (ensure_unexpired _ _ _); [|done].
    destruct (my_pending_request s !! psr_request_id r); [done|]. intros [= <-] Hwf'.
    apply my_pending_some; [done..|]. simpl. eexists. rewrite lookup_insert_eq.
    split_and!; [done..|]. by destruct r.
  - intros s t id realm Hwf [Hid Hrealm]%good_key_plain. cbn [rs_take_pending_request mysql_saml_store].
    by rewrite my_take_run.
  - intros s t t' id realm Hwf [Hid Hrealm]%good_key_plain Ht%timestamp_mono.
    cbn [run_op rs_take_pending_request mysql_saml_store]. rewrite my_take_run by done. simpl.
    destruct (my_pending_at s t id realm) eqn:Hp.
    + unfold my_pending_at. simpl. by rewrite bin_key_plain, lookup_delete_eq by done.
    + unfold my_pending_at in *. destruct (my_pending_request s !! bin_key id) as [row|]; [|done].
      revert Hp. case_decide as Hd; [done|]. intros _. rewrite decide_False; [done|]. intros [? ?].
      apply Hd. split; [done|lia].
  - intros s t t' id realm realm' aid [Hid Hrealm]%good_key_plain.
    cbn [run_op rs_take_pending_request mysql_saml_store seen_at mysql_saml_views].
    unfold mysql_take_pending_request, bind, of_result, gets, modify, ret.
    destruct (my_pending_request s !! _); [|done]. case_decide; [|done].
    by destruct (mysql_row_to_pending _).
  - intros s t realm aid e Hr. left. cbn [rs_record_assertion_id mysql_saml_store].
    rewrite my_record_run. destruct (decide (e ≤ timestamp t)%Z) as [He|He].
    + by rewrite ensure_unexpired_err.
    + rewrite (proj2 (ensure_unexpired_ok _ _ _ _ Hr) (conj (proj1 (Z.nle_gt _ _) He) eq_refl)).
      cbn. by destruct (my_seen_assertion s !! mysql_seen_key realm aid).
  - intros s s' t realm aid e Hr. cbn [rs_record_assertion_id mysql_saml_store]. rewrite my_record_run.
    destruct (ensure_unexpired _ _ _); [|done].
    destruct (my_seen_assertion s !! mysql_seen_key realm aid); [done|]. intros [= <-].
    exists e. simpl. by rewrite lookup_insert_eq.
  - intros s t realm aid e (e' & He & _) _. apply bool_decide_eq_true. by exists e'.
  - intros s t t' op id realm Hwf Hop [Hid Hrealm]%good_key_plain Ht Hl. by apply my_pending_frame.
  - intros s t op realm aid e. apply my_remembers_frame.
Qed.
End saml.

(** * Sessions *)

(** The ids the server uses: a SHA-256 in lowercase hexadecimal. *)
Definition is_hex_digit (a : ascii) : bool :=
  let n := nat_of_ascii a in ((48 <=? n) && (n <=? 57)) || ((97 <=? n) && (n <=? 102)).
Fixpoint is_hex (s : string) : bool :=
  match s with EmptyString => true | String a s' => is_hex_digit a && is_hex s' end.
Definition sha256_id (id : string) : Prop := is_hex id = true ∧ String.length id = 64.
(** Every collation tells lowercase hexadecimal texts apart. *)
Class HexCollation `{MySql} : Prop :=
  collation_key_hex a b : is_hex a = true → is_hex b = true → collation_key a = collation_key b → a = b.

Lemma hex_digit_char a : is_hex_digit a = true → is_continuation a = false ∧ a ≠ " "%char.
Proof.
  unfold is_hex_digit, is_continuation, utf8_cont. set (n := nat_of_ascii a). intros H.
  assert (48 ≤ n ≤ 102) as Hn.
  { apply orb_true_iff in H as [H|H]; apply andb_true_iff in H as [H1%Nat.leb_le H2%Nat.leb_le]; lia. }
  split; [|intros ->; cbv in n; lia]. apply andb_false_iff. left. apply Nat.leb_gt. lia.
Qed.
Lemma take_chars_hex n s : is_hex s = true → n < String.length s →
  ∃ p r, take_chars n s = (p, r) ∧ is_hex p = true ∧ String.length p = n ∧ all_spaces r = false.
Proof.
  revert n. induction s as [|a s IH]; intros n; [simpl; lia|]. cbn [is_hex String.length].
  intros [Ha Hs]%andb_true_iff Hn. destruct (hex_digit_char a Ha) as [Hc Hsp]. cbn [take_chars]. rewrite Hc.
  destruct n as [|n].
  - exists "", (String a s). split_and!; [done..|]. cbn [all_spaces].
    by rewrite bool_decide_eq_false_2.
  - destruct (IH n Hs ltac:(lia)) as (p & r & -> & Hp & Hl & Hr).
    exists (String a p), r. split_and!; [done| |simpl; lia|done]. cbn [is_hex]. by rewrite Ha.
Qed.

Section sessions.
Context {SX : Sqlx} {MY : MySql}.

Definition my_answer {A} (f : A → SessionAnswer) (r : Result A AuthError * MySessionTable)
    : SessionAnswer * MySessionTable :=
  (match r.1 with Ok a => f a | Err _ => AnsFailed end, r.2).
Definition mysql_step (op : SessionOp) (s : MySessionTable) : SessionAnswer * MySessionTable :=
  match op with
  | OpUpsert now id realm client value =>
      let r := mysql_upsert_session now id realm client value s in
      (AnsDone (is_ok r.1), r.2)
  | OpGet now id => my_answer AnsFound (mysql_get_session now id s)
  | OpList now realm clients =>
      my_answer (λ l, AnsList (list_to_set l)) (mysql_get_sessions_for_clients now realm clients s)
  | OpDelete ids => my_answer (λ _, AnsDone true) (mysql_delete_sessions ids s)
  | OpDeleteExpired now => my_answer (λ _, AnsDone true) (mysql_delete_expired_sessions now s)
  | OpDeleteRealm realm => my_answer (λ _, AnsDone true) (mysql_delete_sessions_for_realm realm s)
  end.
Definition creates_sha256_id (op : SessionOp) : Prop :=
  match op with OpUpsert _ id _ _ _ => sha256_id id | _ => True end.

(** Every id in the table is cut to 36 characters. *)
Definition cut_ids (s : MySessionTable) : Prop :=
  map_Forall (λ key row, key = collation_key (my_session_id row) ∧
    is_hex (my_session_id row) = true ∧ String.length (my_session_id row) = 36) s.
Lemma cut_ids_subseteq (s s' : MySessionTable) : s' ⊆ s → cut_ids s → cut_ids s'.
Proof. intros Hsub Hs key row Hrow. apply (Hs key). by eapply lookup_weaken. Qed.

Lemma mysql_session_row_cut id realm username scheme value stale st ma cr :
  sha256_id id →
  match mysql_session_row id realm username scheme value stale st ma cr with
  | Ok row => my_strict = false ∧ is_hex (my_session_id row) = true ∧
              String.length (my_session_id row) = 36
  | Err e => e = DataTooLong
  end.
Proof.
  intros [Hhex Hlen]. unfold mysql_session_row.
  destruct (take_chars_hex 36 id Hhex ltac:(lia)) as (p & r & Hp & Hpx & Hpl & Hr).
  unfold varchar at 1. rewrite Hp, Hr. destruct my_strict eqn:Hst; simpl; [done|].
  unfold varchar, text_column. rewrite Hst.
  destruct (take_chars 255 realm), (take_chars 255 username), (take_chars 50 scheme).
  rewrite !orb_true_r. simpl. by case_decide.
Qed.
Lemma mysql_step_cut op s : creates_sha256_id op → cut_ids s → cut_ids (mysql_step op s).2.
Proof.
  intros Hop Hs. destruct op as [now id realm client value|now id|now realm clients|ids|now|realm]; simpl in *.
  - unfold mysql_upsert_session, bind, of_result, gets, throw, modify.
    pose proof (mysql_session_row_cut id (realm_id realm) (acs_username client)
      (auth_scheme_json (acs_auth_scheme client)) value
      (i64_add now (realm_session_max_stale_age_seconds realm))
      (realm_session_max_stale_age_seconds realm) (realm_session_max_age_seconds realm) now Hop) as Hrow.
    unfold generic, map_err. destruct (mysql_session_row _ _ _ _ _ _ _ _ _) as [row|]; [|done].
    destruct (s !! collation_key (my_session_id row)); [done|]. simpl.
    apply map_Forall_insert_2; [|done]. by destruct Hrow as (_ & ? & ?).
  - unfold mysql_get_session, bind, gets, modify, ret.
    destruct (s !! collation_key id) as [[sid row]|] eqn:Hrow; [|done]. simpl.
    case_decide; simpl; [by eapply cut_ids_subseteq, Hs; apply delete_subseteq|].
    rewrite (alter_some _ _ _ (mkMySessionRow sid row)) by done.
    apply map_Forall_insert_2; [|done]. exact (Hs _ _ Hrow).
  - unfold mysql_get_sessions_for_clients, bind, gets, of_result, ret, my_answer.
    destruct clients; [done|]. simpl. by destruct (generic _ _).
  - destruct ids; [done|]. eapply cut_ids_subseteq, Hs. apply map_filter_subseteq.
  - unfold mysql_delete_expired_sessions, bind, gets, of_result, modify, my_answer. simpl.
    destruct (generic _ _); [|done]. eapply cut_ids_subseteq, Hs. apply map_filter_subseteq.
  - eapply cut_ids_subseteq, Hs. apply map_filter_subseteq.
Qed.
Lemma mysql_run_cut ops s : Forall creates_sha256_id ops → cut_ids s → cut_ids (run_ops mysql_step ops s).2.
Proof.
  revert s. induction ops as [|op ops IH]; intros s Hops Hs; [done|].
  apply Forall_cons in Hops as [Hop Hops]. simpl.
  pose proof (mysql_step_cut op s Hop Hs) as Hs'. destruct (mysql_step op s) as [x s1]. simpl in Hs'.
  specialize (IH s1 Hops Hs'). by destruct (run_ops mysql_step ops s1).
Qed.
Lemma mysql_get_cut `{!HexCollation} t id s :
  sha256_id id → cut_ids s → mysql_get_session t id s = (Ok None, s).
Proof.
  intros [Hhex Hlen] Hs. unfold mysql_get_session, bind, gets, ret.
  destruct (s !! collation_key id) as [row|] eqn:Hrow; [|done]. exfalso.
  destruct (Hs _ _ Hrow) as (Hkey & Hrhex & Hrlen).
  apply collation_key_hex in Hkey; [|done..]. subst. lia.
Qed.
End sessions.

(** C31: on MySQL no session is ever found again.  The id of a session, a SHA-256 in hexadecimal,
    has 64 characters and its column 36: in strict mode storing a session fails, and in the other
    modes it is stored under the first 36 characters; so, whatever sessions were stored, read,
    listed and deleted, reading the session of any such id finds nothing. *)
Theorem mysql_sessions_lost `{SX : Sqlx, MY : MySql, !HexCollation} (ops : list SessionOp) (t : Z)
    (id value : string) (realm : Realm) (client : AuthenticatedClientScheme) :
  Forall creates_sha256_id ops → sha256_id id →
  let s := (run_ops mysql_step ops ∅).2 in
  mysql_get_session t id s = (Ok None, s) ∧
  (my_strict = true →
   mysql_upsert_session t id realm client value s =
     (Err (Generic ("Failed to insert session: " +:+ sqlx_to_string DataTooLong)), s)).
Proof.
  intros Hops Hid s. assert (cut_ids s) as Hs by (apply mysql_run_cut; [done|apply map_Forall_empty]).
  split; [by apply mysql_get_cut|]. intros Hstrict.
  pose proof (mysql_session_row_cut id (realm_id realm) (acs_username client)
    (auth_scheme_json (acs_auth_scheme client)) value
    (i64_add t (realm_session_max_stale_age_seconds realm))
    (realm_session_max_stale_age_seconds realm) (realm_session_max_age_seconds realm) t Hid) as Hrow.
  unfold mysql_upsert_session, bind, of_result, generic, map_err.
  destruct (mysql_session_row _ _ _ _ _ _ _ _ _) as [row|e].
  - destruct Hrow as [Hf _]. congruence.
  - by subst e.
Qed.

(** * Witnesses *)
Definition lower (a : ascii) : ascii :=
  let n := nat_of_ascii a in
  if (65 <=? n) && (n <=? 90) then ascii_of_nat (n + 32) else a.
(** A server that cuts what does not fit, and compares without case. *)
Definition toy_mysql : MySql := {|
  my_strict := false;
  collation_key := str_map lower;
  from_utf8_error _ := "invalid utf-8 sequence";
|}.
Lemma lower_hex s : is_hex s = true → str_map lower s = s.
Proof.
  induction s as [|a s IH]; [done|]. cbn [is_hex str_map]. intros [Ha Hs]%andb_true_iff.
  rewrite IH by done. f_equal. unfold lower. revert Ha. unfold is_hex_digit.
  set (n := nat_of_ascii a). intros Ha.
  assert ((65 <=? n) && (n <=? 90) = false) as ->; [|done].
  apply orb_true_iff in Ha as [Ha|Ha]; apply andb_true_iff in Ha as [H1%Nat.leb_le H2%Nat.leb_le].
  - apply andb_false_iff. left. apply Nat.leb_gt. lia.
  - apply andb_false_iff. right. apply Nat.leb_gt. lia.
Qed.
#[local] Instance toy_hex_collation : HexCollation (H := toy_mysql).
Proof. intros a b Ha Hb. simpl. by rewrite !lower_hex. Qed.
Definition toy_session_id : string :=
  "0123456789abcdef0123456789abcdef0123456789abcdef0123456789abcdef".
Lemma mysql_sessions_lost_witness :
  let op := OpUpsert 10 toy_session_id toy_realm toy_client "c" in
  (mysql_step (SX := toy_sqlx) (MY := toy_mysql) op ∅).1 = AnsDone true ∧
  let s := (run_ops (mysql_step (SX := toy_sqlx) (MY := toy_mysql)) [op] ∅).2 in
  (mysql_get_session (MY := toy_mysql) 11 toy_session_id s).1 = Ok None.
Proof.
  intros op. split; [by vm_compute|]. intros s.
  assert (sha256_id toy_session_id) as Hid by (split; by vm_compute).
  destruct (mysql_sessions_lost (SX := toy_sqlx) (MY := toy_mysql) [op] 11 toy_session_id "c" toy_realm
    toy_client (Forall_cons_2 _ op _ Hid (Forall_nil_2 _)) Hid) as [Hget _].
  exact (f_equal fst Hget).
Defined.
