(* ===== verification/Transactions.v ===== *)
(** Transactions of several statements, run by concurrent requests: [BEGIN IMMEDIATE] on SQLite,
    [SELECT ... FOR UPDATE] on PostgreSQL and MySQL.

    A transaction selects a row, changes it by the primary key it read, and commits.  The model
    has one table, the requests at work on it, and the single statements of others; the servers'
    documented locking decides which statement can take place next.  Rows are locked one by one, in
    any order, while others hold locks and wait: requests can wait for each other, and a request
    that waits, for its turn or for a row, can be given up by the server (a busy database, a
    deadlock, a lock wait that takes too long).  After its query a transaction waits no more. *)
From S2P Require Import Prelude RustStd Models Database SqlServers Saml SamlStore MySqlStores.

Inductive Locking :=
  (** [BEGIN IMMEDIATE]: one transaction at a time, from its beginning to its end *)
  | WholeTable
  (** [FOR UPDATE]: the rows the query comes across, before it answers all that it selects; it
      waits for those another transaction holds *)
  | MatchedRows.
#[export] Instance Locking_eq_dec : EqDecision Locking.
Proof. solve_decision. Defined.

Section transactions.
Context {K V F : Type} `{Countable K}.
(** The columns no transaction updates, which is all its query looks at. *)
Variable fixed : V → F.

Record Txn := mkTxn {
  tx_matches : K → F → bool;
  (** the statement on the row that was read, if any, and what it makes of the stored row *)
  tx_write : V → option (V → option V);
  (** whether the row decodes; when not, the transaction is dropped before it commits *)
  tx_readable : K → V → bool;
}.
Inductive Outcome := Absent | Unreadable (k : K) (v : V) | Taken (k : K) (v : V).

(** The rows of the query, in the order of the table. *)
Definition matching (t : Txn) (m : gmap K V) : gmap K V :=
  filter (λ kv, tx_matches t kv.1 (fixed kv.2) = true) m.
Definition selected (t : Txn) (m : gmap K V) : option (K * V) := head (map_to_list (matching t m)).
(** The stored row after the statement. *)
Definition written (t : Txn) (read : V) (stored : option V) : option V :=
  match tx_write t read with Some statement => stored ≫= statement | None => stored end.
Definition outcome (t : Txn) (row : option (K * V)) : Outcome :=
  match row with
  | Some (k, v) => if tx_readable t k v then Taken k v else Unreadable k v
  | None => Absent
  end.

(** ** All at once *)
Definition run_txn (t : Txn) (m : gmap K V) : Outcome * gmap K V :=
  let row := selected t m in
  (outcome t row,
   match outcome t row with Taken k v => partial_alter (written t v) k m | _ => m end).

(** ** Statement by statement *)
Inductive Phase :=
  | Waiting
  | Begun (locks : gset K)
  | Selected (row : option (K * V)) (locks : gset K)
  (** the row as the transaction will leave it, not visible to others *)
  | Executed (k : K) (v : V) (locks : gset K) (pending : option V)
  | Finished (o : Outcome)
  (** given up before its query was answered: the request gets an error *)
  | Aborted.

(** The single statements of other requests, at the moment they have all their locks. *)
Inductive Statement :=
  | Insert (k : K) (v : V)
  | DeleteWhere (condition : K → F → bool).
(** An [INSERT] of a key that is there fails. *)
Definition exec_statement (s : Statement) (m : gmap K V) : gmap K V :=
  match s with
  | Insert k v => match m !! k with Some _ => m | None => <[k := v]> m end
  | DeleteWhere condition => filter (λ kv, condition kv.1 (fixed kv.2) = false) m
  end.
Definition touches (s : Statement) (m : gmap K V) (k : K) : Prop :=
  match s with
  | Insert k' _ => k = k'
  | DeleteWhere condition => ∃ v, m !! k = Some v ∧ condition k (fixed v) = true
  end.

Record System := mkSystem {
  (** what is committed *)
  sys_table : gmap K V;
  sys_requests : list (Txn * Phase);
}.
Definition locked (locking : Locking) (ph : Phase) (k : K) : Prop :=
  match ph with
  | Waiting | Finished _ | Aborted => False
  | Begun locks | Selected _ locks | Executed _ _ locks _ => locking = WholeTable ∨ k ∈ locks
  end.
Definition active (ph : Phase) : bool :=
  match ph with Waiting | Finished _ | Aborted => false | _ => true end.
(** The request may have to wait. *)
Definition waits (ph : Phase) : bool :=
  match ph with Waiting | Begun _ => true | _ => false end.
(** No other request than [p] holds a row of [rows]. *)
Definition free_for (locking : Locking) (s : System) (p : nat) (rows : K → Prop) : Prop :=
  ∀ q t ph k, sys_requests s !! q = Some (t, ph) → q ≠ p → rows k → ¬ locked locking ph k.
Definition advance (s : System) (p : nat) (t : Txn) (ph : Phase) : System :=
  mkSystem (sys_table s) (<[p := (t, ph)]> (sys_requests s)).

(** What took place, for the order in which the requests can be said to have run. *)
Inductive Event :=
  | Ran (p : nat) (t : Txn)
  | Other (s : Statement).

Inductive step (locking : Locking) (s : System) : option Event → System → Prop :=
  | step_begin p t :
      sys_requests s !! p = Some (t, Waiting) →
      (locking = WholeTable →
       ∀ q t' ph, sys_requests s !! q = Some (t', ph) → q ≠ p → active ph = false) →
      step locking s None (advance s p t (Begun ∅))
  | step_lock p t locks k :
      sys_requests s !! p = Some (t, Begun locks) → is_Some (sys_table s !! k) →
      free_for locking s p (λ k', k' = k) →
      step locking s None (advance s p t (Begun ({[k]} ∪ locks)))
  | step_abort p t ph :
      sys_requests s !! p = Some (t, ph) → waits ph = true →
      step locking s None (advance s p t Aborted)
  | step_select p t locks :
      sys_requests s !! p = Some (t, Begun locks) →
      (locking = MatchedRows → ∀ k, is_Some (matching t (sys_table s) !! k) → k ∈ locks) →
      step locking s (Some (Ran p t)) (advance s p t (Selected (selected t (sys_table s)) locks))
  | step_execute p t k v locks :
      sys_requests s !! p = Some (t, Selected (Some (k, v)) locks) →
      step locking s None
        (advance s p t (Executed k v locks (written t v (sys_table s !! k))))
  | step_commit p t k v locks pending :
      sys_requests s !! p = Some (t, Executed k v locks pending) → tx_readable t k v = true →
      step locking s None
        (mkSystem (partial_alter (λ _, pending) k (sys_table s))
                  (<[p := (t, Finished (Taken k v))]> (sys_requests s)))
  | step_rollback p t k v locks pending :
      sys_requests s !! p = Some (t, Executed k v locks pending) → tx_readable t k v = false →
      step locking s None (advance s p t (Finished (Unreadable k v)))
  | step_nothing p t locks :
      sys_requests s !! p = Some (t, Selected None locks) →
      step locking s None (advance s p t (Finished Absent))
  | step_other x :
      free_for locking s (length (sys_requests s)) (touches x (sys_table s)) →
      step locking s (Some (Other x)) (mkSystem (exec_statement x (sys_table s)) (sys_requests s)).

(** A run, with its events. *)
Inductive run (locking : Locking) : System → list Event → System → Prop :=
  | run_here s : run locking s [] s
  | run_step s e s' events s'' :
      step locking s e s' → run locking s' events s'' →
      run locking s (option_list e ++ events) s''.

(** The same events one after the other. *)
Fixpoint seq_run (events : list Event) (m : gmap K V) : list (nat * Outcome) * gmap K V :=
  match events with
  | [] => ([], m)
  | Ran p t :: events =>
      let '(o, m) := run_txn t m in
      let '(outcomes, m) := seq_run events m in ((p, o) :: outcomes, m)
  | Other s :: events => seq_run events (exec_statement s m)
  end.
Definition outcomes_of (p : nat) (l : list (nat * Outcome)) : list Outcome :=
  (filter (λ x, x.1 = p) l).*2.
End transactions.
Arguments Txn K V F : clear implicits.
Arguments Outcome K V : clear implicits.
Arguments Phase K V {_ _}.
Arguments Statement K V F : clear implicits.
Arguments System K V F {_ _}.
Arguments Event K V F : clear implicits.

(** * The transactions of the server *)

(** [consume_secret_id], on every SQL server.  The row that was read is locked, so the re-checks
    of [rows_affected] on SQLite find it ([TransactionsFacts.selected_row_stays]). *)
Definition secret_fixed (row : SecretIdRow) : string * string * Z :=
  (sr_role_name row, sr_secret_id_hash row, sr_expiry row).
Definition consume_txn (now : Z) (role_name secret_id_hash : string)
    : Txn string SecretIdRow (string * string * Z) := {|
  tx_matches _ '(role, hash, expiry) :=
    bool_decide (role = role_name ∧ hash = secret_id_hash ∧ (expiry = 0 ∨ expiry > now)%Z);
  tx_write row :=
    let num_uses := sr_num_uses_remaining row in
    if decide (num_uses = 1%Z) then Some (λ _, None)
    else if decide (num_uses > 1)%Z then Some (λ stored, Some (decrement_uses stored))
    else None;
  tx_readable _ _ := true;
|}.
Definition consumed (o : Outcome string SecretIdRow) : option string :=
  match o with Taken accessor _ => Some accessor | _ => None end.
(** On MySQL the key of a row is what the collation compares of its accessor. *)
Definition my_secret_fixed (row : string * SecretIdRow) : string * (string * string * Z) :=
  (row.1, secret_fixed row.2).
Definition my_consume_txn `{MySql} (now : Z) (role_name secret_id_hash : string)
    : Txn string (string * SecretIdRow) (string * (string * string * Z)) := {|
  tx_matches _ '(_, (role, hash, expiry)) :=
    bool_decide (same_text role role_name ∧ hash = secret_id_hash ∧ (expiry = 0 ∨ expiry > now)%Z);
  tx_write row :=
    let num_uses := sr_num_uses_remaining row.2 in
    if decide (num_uses = 1%Z) then Some (λ _, None)
    else if decide (num_uses > 1)%Z then Some (λ stored, Some (stored.1, decrement_uses stored.2))
    else None;
  tx_readable _ _ := true;
|}.
Definition my_consumed (o : Outcome string (string * SecretIdRow)) : option string :=
  match o with Taken _ row => Some row.1 | _ => None end.

(** [take_pending_request] on MySQL. *)
Definition take_txn `{MySql} (now : Z) (request_id realm_id : string)
    : Txn string MyPendingRow MyPendingRow := {|
  tx_matches k row :=
    bool_decide (k = bin_key request_id ∧ bin_key (pr_realm_id (mp_row row)) = bin_key realm_id ∧
      (pr_expires_at (mp_row row) > timestamp now)%Z);
  tx_write _ := Some (λ _, None);
  tx_readable _ row := is_ok (mysql_row_to_pending row);
|}.
