(* ===== verification/TransactionsFacts.v ===== *)
(** Runs of concurrent transactions ([Transactions.v]): the invariant that relates a run to the
    transactions one after the other, and what a request does that is left alone. *)
From S2P Require Import Prelude Transactions.

Section transactions.
Context {K V F : Type} `{Countable K} (fixed : V → F) (locking : Locking).
Implicit Types (s : System K V F) (t : Txn K V F) (m : gmap K V) (ph : Phase K V).

(** The statements of [t] leave the columns its query looks at alone. *)
Definition keeps_fixed t : Prop :=
  ∀ read statement row row',
    tx_write t read = Some statement → statement row = Some row' → fixed row' = fixed row.
Definition all_keep s : Prop := ∀ p t ph, sys_requests s !! p = Some (t, ph) → keeps_fixed t.

(** The row a transaction is going to change. *)
Definition pending ph : option (K * V) :=
  match ph with
  | Selected row _ => row
  | Executed k v _ _ => Some (k, v)
  | _ => None
  end.
Definition after t (k : K) (v : V) : option V :=
  if tx_readable t k v then written t v (Some v) else Some v.
(** The outcome of a request, which is settled when its query is answered. *)
Definition decided t ph : option (Outcome K V) :=
  match ph with
  | Waiting | Begun _ | Aborted => None
  | Selected row _ => Some (outcome t row)
  | Executed k v _ _ => Some (outcome t (Some (k, v)))
  | Finished o => Some o
  end.
Definition decided_by s (p : nat) : list (Outcome K V) :=
  match sys_requests s !! p with Some (t, ph) => option_list (decided t ph) | None => [] end.

(** [m] is the table as if every query that was answered had run to its end. *)
Record inv s m : Prop := {
  inv_pending : ∀ p t ph k v,
    sys_requests s !! p = Some (t, ph) → pending ph = Some (k, v) →
    sys_table s !! k = Some v ∧ locked locking ph k ∧ m !! k = after t k v;
  inv_executed : ∀ p t k v locks w,
    sys_requests s !! p = Some (t, Executed k v locks w) → w = written t v (Some v);
  inv_locks : ∀ p q t t' ph ph' k,
    sys_requests s !! p = Some (t, ph) → sys_requests s !! q = Some (t', ph') → p ≠ q →
    locked locking ph k → ¬ locked locking ph' k;
  inv_rest : ∀ k,
    (∀ p t ph v, sys_requests s !! p = Some (t, ph) → pending ph ≠ Some (k, v)) →
    m !! k = sys_table s !! k;
}.

Lemma lookup_advance s p t ph q t' ph' :
  sys_requests (advance s p t ph) !! q = Some (t', ph') →
  q = p ∧ t' = t ∧ ph' = ph ∨ q ≠ p ∧ sys_requests s !! q = Some (t', ph').
Proof. simpl. rewrite list_lookup_insert_Some. naive_solver. Qed.
Lemma pending_locked ph k v : pending ph = Some (k, v) → active ph = true.
Proof. by destruct ph. Qed.
Lemma locked_active ph k : locked locking ph k → active ph = true.
Proof. by destruct ph. Qed.

(** A request moves on without touching the table. *)
Lemma inv_advance s m p t ph ph' :
  inv s m → sys_requests s !! p = Some (t, ph) →
  (pending ph' = pending ph ∨
   pending ph' = None ∧ ∀ k v, pending ph = Some (k, v) → m !! k = sys_table s !! k) →
  (∀ k v, pending ph' = Some (k, v) → locked locking ph' k) →
  (∀ k q t' ph'', sys_requests s !! q = Some (t', ph'') → q ≠ p → locked locking ph' k →
     ¬ locked locking ph'' k) →
  (∀ k v locks w, ph' = Executed k v locks w → w = written t v (Some v)) →
  inv (advance s p t ph') m.
Proof.
  intros Hinv Hp Hpend Hlock Hfree Hexec. split.
  - intros q tq phq k v [(-> & -> & ->)|[Hq Hin]]%lookup_advance Hk; [|by eapply (inv_pending _ _ Hinv q)].
    destruct Hpend as [Heq|[Hn _]]; [|congruence]. rewrite Heq in Hk.
    destruct (inv_pending _ _ Hinv _ _ _ _ _ Hp Hk) as (? & _ & ?). split_and!; [done| |done].
    apply (Hlock k v). congruence.
  - intros q tq k v locks w [(-> & -> & Heq)|[Hq Hin]]%lookup_advance; [by eapply Hexec|].
    by eapply (inv_executed _ _ Hinv q).
  - intros q1 q2 t1 t2 ph1 ph2 k [(-> & -> & ->)|[Hq1 H1]]%lookup_advance
      [(-> & -> & ->)|[Hq2 H2]]%lookup_advance Hne Hl1 Hl2; try done.
    + by eapply Hfree.
    + by eapply (Hfree k q1).
    + by eapply (inv_locks _ _ Hinv q1 q2).
  - intros k Hk. assert (Hno : (∀ v, pending ph ≠ Some (k, v)) → m !! k = sys_table s !! k).
    { intros Hno. apply (inv_rest _ _ Hinv). intros q tq phq v Hq Hv.
      destruct (decide (q = p)) as [->|Hne]; [naive_solver|].
      apply (Hk q tq phq v); [|done]. simpl. by rewrite list_lookup_insert_ne. }
    destruct (pending ph) as [[k' v]|] eqn:Hph; [|by apply Hno].
    destruct (decide (k' = k)) as [->|Hne]; [|apply Hno; congruence].
    destruct Hpend as [Heq|[_ Hm]]; [|by eapply Hm].
    exfalso. apply (Hk p t ph' v); [|done]. simpl.
    apply list_lookup_insert_eq. by eapply lookup_lt_Some.
Qed.

(** ** The steps *)
Lemma inv_begin s m p t :
  inv s m → sys_requests s !! p = Some (t, Waiting) →
  (locking = WholeTable →
   ∀ q t' ph, sys_requests s !! q = Some (t', ph) → q ≠ p → active ph = false) →
  inv (advance s p t (Begun ∅)) m.
Proof.
  intros Hinv Hp Hothers. eapply inv_advance; try done; [by left|].
  intros k q t' ph Hq Hne [Hl|?%elem_of_empty] Hl'%locked_active; [|done].
  by rewrite (Hothers Hl _ _ _ Hq Hne) in Hl'.
Qed.
Lemma inv_lock s m p t locks k :
  inv s m → sys_requests s !! p = Some (t, Begun locks) → free_for locking s p (λ k', k' = k) →
  inv (advance s p t (Begun ({[k]} ∪ locks))) m.
Proof.
  intros Hinv Hp Hfree. eapply inv_advance; try done; [by left|].
  intros k' q t' ph Hq Hne [Hall|[->%elem_of_singleton|Hin]%elem_of_union] Hl.
  - eapply (inv_locks _ _ Hinv p q); [done..|by left|done].
  - by eapply (Hfree q).
  - eapply (inv_locks _ _ Hinv p q); [done..|by right|done].
Qed.
Lemma inv_execute s m p t k v locks :
  inv s m → sys_requests s !! p = Some (t, Selected (Some (k, v)) locks) →
  inv (advance s p t (Executed k v locks (written t v (sys_table s !! k)))) m.
Proof.
  intros Hinv Hp. destruct (inv_pending _ _ Hinv _ _ _ _ _ Hp eq_refl) as (Hk & Hl & _).
  eapply inv_advance; try done; [by left| | |].
  - intros k' v' [= <- <-]. apply Hl.
  - intros k' q t' ph Hq Hne Hl'. by eapply (inv_locks _ _ Hinv p q).
  - intros k' v' locks' w [= <- <- _ <-]. by rewrite Hk.
Qed.
(** Nothing was changed after all. *)
Lemma inv_finish s m p t ph ph' :
  inv s m → sys_requests s !! p = Some (t, ph) → active ph' = false →
  (∀ k v, pending ph = Some (k, v) → tx_readable t k v = false) →
  inv (advance s p t ph') m.
Proof.
  intros Hinv Hp Hoff Hun.
  eapply inv_advance; try done; [|by destruct ph'..]. right. split; [by destruct ph'|]. intros k v Hk.
  destruct (inv_pending _ _ Hinv _ _ _ _ _ Hp Hk) as (-> & _ & ->).
  unfold after. by rewrite Hun.
Qed.
Lemma inv_commit s m p t k v locks w :
  inv s m → sys_requests s !! p = Some (t, Executed k v locks w) → tx_readable t k v = true →
  inv (mkSystem (partial_alter (λ _, w) k (sys_table s))
                (<[p := (t, Finished (Taken k v))]> (sys_requests s))) m.
Proof.
  intros Hinv Hp Hr. destruct (inv_pending _ _ Hinv _ _ _ _ _ Hp eq_refl) as (Hk & Hl & Hm).
  unfold after in Hm. rewrite Hr, <-(inv_executed _ _ Hinv _ _ _ _ _ _ Hp) in Hm.
  set (s' := advance s p t (Finished (Taken k v))).
  assert (∀ q tq phq k' v', sys_requests s' !! q = Some (tq, phq) → pending phq = Some (k', v') →
    q ≠ p ∧ sys_requests s !! q = Some (tq, phq) ∧ k' ≠ k) as Hother.
  { intros q tq phq k' v' [(-> & -> & ->)|[Hne Hq]]%lookup_advance Hv; [done|].
    split_and!; [done..|]. intros ->. destruct (inv_pending _ _ Hinv _ _ _ _ _ Hq Hv) as (_ & Hl' & _).
    by eapply (inv_locks _ _ Hinv p q). }
  split; cbn [sys_table sys_requests].
  - intros q tq phq k' v' Hq Hv. destruct (Hother _ _ _ _ _ Hq Hv) as (Hne & Hq' & Hk').
    rewrite lookup_partial_alter_ne by done. by eapply (inv_pending _ _ Hinv q).
  - intros q tq k' v' locks' w' Hq. destruct (Hother _ _ _ _ _ Hq eq_refl) as (_ & Hq' & _).
    by eapply (inv_executed _ _ Hinv q).
  - intros q1 q2 t1 t2 ph1 ph2 k' [(-> & -> & ->)|[Hq1 H1]]%lookup_advance
      [(-> & -> & ->)|[Hq2 H2]]%lookup_advance Hne Hl1 Hl2; try done.
    by eapply (inv_locks _ _ Hinv q1 q2).
  - intros k' Hk'. destruct (decide (k' = k)) as [->|Hne]; [by rewrite lookup_partial_alter_eq|].
    rewrite lookup_partial_alter_ne by done. apply (inv_rest _ _ Hinv). intros q tq phq v' Hq Hv.
    destruct (decide (q = p)) as [->|Hqp]; [rewrite Hp in Hq; simplify_eq/=|].
    apply (Hk' q tq phq v'); [|done]. by rewrite list_lookup_insert_ne.
Qed.

Lemma pending_or_rest s k :
  (∃ p t ph v, sys_requests s !! p = Some (t, ph) ∧ pending ph = Some (k, v)) ∨
  (∀ p t ph v, sys_requests s !! p = Some (t, ph) → pending ph ≠ Some (k, v)).
Proof.
  destruct (decide (Exists (λ r, fst <$> pending r.2 = Some k) (sys_requests s))) as [Hex|Hno].
  - left. apply Exists_exists in Hex as ([t ph] & [p Hp]%list_elem_of_lookup & Hk).
    apply fmap_Some in Hk as ([k' v] & Hv & ->). by exists p, t, ph, v.
  - right. intros p t ph v Hp Hv. apply Hno, Exists_exists. exists (t, ph). simpl. rewrite Hv.
    split; [|done]. by eapply list_elem_of_lookup_2.
Qed.
Lemma after_fixed t k v v' : keeps_fixed t → after t k v = Some v' → fixed v' = fixed v.
Proof.
  unfold after, written. intros Hkeep. destruct (tx_readable _ _ _); [|naive_solver].
  destruct (tx_write t v) as [st|] eqn:Hw; [|naive_solver]. by apply (Hkeep v).
Qed.
Lemma matching_lookup t m k v :
  matching fixed t m !! k = Some v ↔ m !! k = Some v ∧ tx_matches t k (fixed v) = true.
Proof. unfold matching. by rewrite map_lookup_filter_Some. Qed.
(** A query that had not to wait sees no row that another transaction is going to change. *)
Lemma select_free s m p t locks :
  inv s m → sys_requests s !! p = Some (t, Begun locks) →
  (locking = MatchedRows → ∀ k, is_Some (matching fixed t (sys_table s) !! k) → k ∈ locks) →
  free_for locking s p (λ k, is_Some (matching fixed t (sys_table s) !! k)).
Proof.
  intros Hinv Hp Hheld q t' ph k Hq Hne Hk. eapply (inv_locks _ _ Hinv p q); [done..|].
  simpl. destruct (decide (locking = WholeTable)) as [|Hl]; [by left|]. right. apply Hheld; [|done].
  by destruct locking.
Qed.
Lemma matching_agrees s m p t locks :
  inv s m → all_keep s → sys_requests s !! p = Some (t, Begun locks) →
  free_for locking s p (λ k, is_Some (matching fixed t (sys_table s) !! k)) →
  matching fixed t m = matching fixed t (sys_table s).
Proof.
  intros Hinv Hkeep Hp Hfree. apply map_eq. intros k. apply option_eq. intros v.
  rewrite !matching_lookup.
  destruct (pending_or_rest s k) as [(q & tq & phq & w & Hq & Hw)|Hrest];
    [|by rewrite (inv_rest _ _ Hinv k Hrest)].
  destruct (inv_pending _ _ Hinv _ _ _ _ _ Hq Hw) as (Htbl & Hl & Hm).
  assert (q ≠ p) as Hne by (intros ->; rewrite Hp in Hq; simplify_eq/=).
  assert (tx_matches t k (fixed w) = true → False) as Hno.
  { intros Hmatch. eapply (Hfree q); [done..| |done]. exists w. by apply matching_lookup. }
  rewrite Htbl, Hm. split.
  - intros [Ha Hmatch]. rewrite (after_fixed _ _ _ _ (Hkeep _ _ _ Hq) Ha) in Hmatch. by destruct Hno.
  - intros [[= ->] Hmatch]. by destruct Hno.
Qed.
Lemma selected_Some t m k v :
  selected fixed t m = Some (k, v) → matching fixed t m !! k = Some v.
Proof.
  unfold selected. intros Hh%head_Some_elem_of. by apply elem_of_map_to_list.
Qed.
Lemma run_txn_lookup t m k v :
  selected fixed t m = Some (k, v) → m !! k = Some v →
  (run_txn fixed t m).2 !! k = after t k v ∧
  ∀ k', k' ≠ k → (run_txn fixed t m).2 !! k' = m !! k'.
Proof.
  unfold run_txn, after. intros -> Hk. simpl. destruct (tx_readable t k v); [|done].
  rewrite lookup_partial_alter_eq, Hk. split; [done|]. intros k' Hne.
  by rewrite lookup_partial_alter_ne.
Qed.
Lemma inv_select s m p t locks :
  inv s m → all_keep s → sys_requests s !! p = Some (t, Begun locks) →
  (locking = MatchedRows → ∀ k, is_Some (matching fixed t (sys_table s) !! k) → k ∈ locks) →
  inv (advance s p t (Selected (selected fixed t (sys_table s)) locks)) (run_txn fixed t m).2 ∧
  (run_txn fixed t m).1 = outcome t (selected fixed t (sys_table s)).
Proof.
  intros Hinv Hkeep Hp Hheld. pose proof (select_free _ _ _ _ _ Hinv Hp Hheld) as Hfree.
  assert (selected fixed t m = selected fixed t (sys_table s)) as Hsel
    by (unfold selected; by erewrite matching_agrees).
  split; [|unfold run_txn; by rewrite Hsel].
  assert (∀ k q tq phq, sys_requests s !! q = Some (tq, phq) → q ≠ p →
    locking = WholeTable ∨ k ∈ locks → ¬ locked locking phq k) as Hlocks
    by (intros k q tq phq Hq Hne; by apply (inv_locks _ _ Hinv p q _ _ _ _ k Hp Hq)).
  destruct (selected fixed t (sys_table s)) as [[k v]|] eqn:Hrow.
  2: { unfold run_txn. rewrite Hsel. simpl. eapply inv_advance; try done. by left. }
  pose proof (selected_Some _ _ _ _ Hrow) as Hk. pose proof Hk as [Htbl _]%matching_lookup.
  assert (locking = WholeTable ∨ k ∈ locks) as Hheldk.
  { destruct (decide (locking = WholeTable)) as [|Hl]; [by left|]. right.
    apply Hheld; [by destruct locking|by exists v]. }
  assert (∀ q tq phq w, sys_requests s !! q = Some (tq, phq) → pending phq ≠ Some (k, w)) as Hfresh.
  { intros q tq phq w Hq Hw. destruct (inv_pending _ _ Hinv _ _ _ _ _ Hq Hw) as (_ & Hl & _).
    destruct (decide (q = p)) as [->|Hne]; [rewrite Hp in Hq; simplify_eq/=|].
    by apply (Hlocks k q tq phq). }
  assert (m !! k = Some v) as Hmk by by rewrite (inv_rest _ _ Hinv k Hfresh).
  destruct (run_txn_lookup t m k v Hsel Hmk) as [Hk' Hne'].
  split.
  - intros q tq phq k' v' [(-> & -> & ->)|[Hq Hin]]%lookup_advance Hv.
    + injection Hv as <- <-. split_and!; [done|done|done].
    + destruct (inv_pending _ _ Hinv _ _ _ _ _ Hin Hv) as (? & ? & Hm).
      rewrite Hne' by (intros ->; by eapply Hfresh). done.
  - intros q tq k' v' locks1 w [(-> & -> & [=])|[Hq Hin]]%lookup_advance.
    by eapply (inv_executed _ _ Hinv q).
  - intros q1 q2 t1 t2 ph1 ph2 k' [(-> & -> & ->)|[Hq1 H1]]%lookup_advance
      [(-> & -> & ->)|[Hq2 H2]]%lookup_advance Hne Hl1 Hl2; try done.
    + by eapply Hlocks.
    + by eapply (Hlocks k' q1).
    + by eapply (inv_locks _ _ Hinv q1 q2).
  - intros k' Hk2. assert (k' ≠ k) as Hne.
    { intros ->. apply (Hk2 p t (Selected (Some (k, v)) locks) v); [|done].
      simpl. apply list_lookup_insert_eq. by eapply lookup_lt_Some. }
    rewrite Hne' by done. apply (inv_rest _ _ Hinv). intros q tq phq w Hq Hw.
    destruct (decide (q = p)) as [->|Hqp]; [rewrite Hp in Hq; simplify_eq/=|].
    apply (Hk2 q tq phq w); [|done]. simpl. by rewrite list_lookup_insert_ne.
Qed.

(** A statement of somebody else, row by row. *)
Definition at_row (x : Statement K V F) (k : K) (row : option V) : option V :=
  match x with
  | Insert k' v => if decide (k = k') then Some (default v row) else row
  | DeleteWhere condition => v ← row; if condition k (fixed v) then None else Some v
  end.
Lemma exec_statement_lookup x m k : exec_statement fixed x m !! k = at_row x k (m !! k).
Proof.
  destruct x as [k' v|condition]; simpl.
  - destruct (m !! k') as [v'|] eqn:Hk'; case_decide as Hd; subst.
    + by rewrite Hk'.
    + done.
    + by rewrite lookup_insert_eq, Hk'.
    + by rewrite lookup_insert_ne.
  - apply option_eq. intros v. rewrite map_lookup_filter_Some, bind_Some. simpl. split.
    + intros [Hk Hc]. exists v. by rewrite Hc.
    + intros (v' & Hk & Hv). destruct (condition k (fixed v')) eqn:Hc; [done|]. by injection Hv as ->.
Qed.
Lemma untouched x m k v v' :
  ¬ touches fixed x m k → m !! k = Some v → fixed v' = fixed v → at_row x k (Some v') = Some v'.
Proof.
  destruct x as [k' w|condition]; simpl; intros Hno Hk Hf.
  - by rewrite decide_False by done.
  - rewrite Hf. destruct (condition k (fixed v)) eqn:Hc; [|done]. destruct Hno. by exists v.
Qed.
Lemma inv_other s m x :
  inv s m → all_keep s → free_for locking s (length (sys_requests s)) (touches fixed x (sys_table s)) →
  inv (mkSystem (exec_statement fixed x (sys_table s)) (sys_requests s)) (exec_statement fixed x m).
Proof.
  intros Hinv Hkeep Hfree. split; cbn [sys_table sys_requests].
  - intros p t ph k v Hp Hv. destruct (inv_pending _ _ Hinv _ _ _ _ _ Hp Hv) as (Htbl & Hl & Hm).
    assert (¬ touches fixed x (sys_table s) k) as Hno.
    { intros Ht. eapply (Hfree p); [done| |done..]. apply lookup_lt_Some in Hp. lia. }
    rewrite !exec_statement_lookup, Htbl, Hm. split_and!; [by eapply (untouched x (sys_table s) k v v)|done|].
    destruct (after t k v) as [v'|] eqn:Ha.
    + eapply (untouched x (sys_table s) k v v'); [done..|]. eapply after_fixed; [by eapply Hkeep|done].
    + destruct x; simpl in *; [by rewrite decide_False|done].
  - apply (inv_executed _ _ Hinv).
  - apply (inv_locks _ _ Hinv).
  - intros k Hk. by rewrite !exec_statement_lookup, (inv_rest _ _ Hinv).
Qed.

(** ** Runs *)
Definition effect (e : option (Event K V F)) m : gmap K V :=
  match e with
  | Some (Ran _ t) => (run_txn fixed t m).2
  | Some (Other x) => exec_statement fixed x m
  | None => m
  end.
Definition results (e : option (Event K V F)) m : list (nat * Outcome K V) :=
  match e with Some (Ran p t) => [(p, (run_txn fixed t m).1)] | _ => [] end.

Lemma all_keep_advance s p t ph ph' :
  all_keep s → sys_requests s !! p = Some (t, ph) → all_keep (advance s p t ph').
Proof.
  intros Hkeep Hp q tq phq [(-> & -> & ->)|[_ Hq]]%lookup_advance; [by eapply Hkeep|by eapply (Hkeep q)].
Qed.
Lemma step_all_keep s e s' : step fixed locking s e s' → all_keep s → all_keep s'.
Proof.
  intros [p t Hp Hb|p t l k Hp Hk' Hf|p t ph Hp Hw|p t l Hp Hf|p t k v l Hp|p t k v l w Hp Hr|p t k v l w Hp Hr|p t l Hp|x Hf] Hk;
    first [by eapply (all_keep_advance s)|done].
Qed.
Lemma step_inv s m e s' :
  inv s m → all_keep s → step fixed locking s e s' → inv s' (effect e m).
Proof.
  intros Hinv Hkeep [p t Hp Hb|p t l k Hp Hk' Hf|p t ph Hp Hw|p t l Hp Hf|p t k v l Hp|p t k v l w Hp Hr|p t k v l w Hp Hr|p t l Hp|x Hf].
  - by apply inv_begin.
  - by apply inv_lock.
  - eapply inv_finish; [done..|]. intros k v. by destruct ph.
  - by apply inv_select.
  - by apply inv_execute.
  - by eapply inv_commit.
  - eapply inv_finish; [done..|]. by intros k' v' [= <- <-].
  - by eapply inv_finish.
  - by apply inv_other.
Qed.
Lemma decided_by_advance s p t ph ph' q :
  sys_requests s !! p = Some (t, ph) →
  decided_by (advance s p t ph') q =
    if decide (q = p) then option_list (decided t ph') else decided_by s q.
Proof.
  intros Hp. unfold decided_by. simpl. case_decide as Hd; subst.
  - by rewrite list_lookup_insert_eq by by eapply lookup_lt_Some.
  - by rewrite list_lookup_insert_ne.
Qed.
Lemma step_decided s m e s' q :
  inv s m → all_keep s → step fixed locking s e s' →
  decided_by s' q = decided_by s q ++ outcomes_of q (results e m).
Proof.
  intros Hinv Hkeep Hstep.
  assert (∀ p t ph ph', sys_requests s !! p = Some (t, ph) → decided t ph' = decided t ph →
    decided_by (advance s p t ph') q = decided_by s q) as Hsame.
  { intros p t ph ph' Hp Hd. rewrite (decided_by_advance _ _ _ ph) by done. case_decide; subst; [|done].
    unfold decided_by. by rewrite Hp, Hd. }
  destruct Hstep as [p t Hp Hb|p t l k Hp Hk' Hf|p t ph Hp Hw|p t l Hp Hf|p t k v l Hp|p t k v l w Hp Hr|p t k v l w Hp Hr|p t l Hp|x Hf];
    cbn [results]; unfold outcomes_of at 1; rewrite ?filter_nil, ?app_nil_r.
  - by eapply Hsame.
  - by eapply Hsame.
  - eapply Hsame; [done|by destruct ph].
  - destruct (inv_select s m p t l Hinv Hkeep Hp Hf) as [_ ->]. unfold outcomes_of. simpl.
    rewrite (decided_by_advance _ _ _ (Begun l)) by done. unfold decided_by at 2.
    destruct (decide (q = p)) as [->|Hne].
    + rewrite Hp. simpl. by rewrite filter_cons_True.
    + rewrite filter_cons_False by (simpl; congruence). simpl. by rewrite app_nil_r.
  - by eapply Hsame.
  - eapply (Hsame p t _ (Finished (Taken k v)) Hp). simpl. by rewrite Hr.
  - eapply Hsame; [done|]. simpl. by rewrite Hr.
  - by eapply Hsame.
  - done.
Qed.
Lemma seq_run_app e events m :
  seq_run fixed (option_list e ++ events) m =
    (results e m ++ (seq_run fixed events (effect e m)).1, (seq_run fixed events (effect e m)).2).
Proof.
  destruct e as [[p t|x]|]; simpl; [|by destruct (seq_run _ _ _)..].
  destruct (run_txn fixed t m) as [o m']. simpl. by destruct (seq_run _ _ _).
Qed.
Lemma outcomes_of_app q (l1 l2 : list (nat * Outcome K V)) : outcomes_of q (l1 ++ l2) = outcomes_of q l1 ++ outcomes_of q l2.
Proof. unfold outcomes_of. by rewrite filter_app, fmap_app. Qed.
Lemma run_inv s events s' m :
  run fixed locking s events s' → inv s m → all_keep s →
  inv s' (seq_run fixed events m).2 ∧ all_keep s' ∧
  ∀ q, decided_by s' q = decided_by s q ++ outcomes_of q (seq_run fixed events m).1.
Proof.
  intros Hrun. revert m. induction Hrun as [s|s e s1 events s2 Hstep _ IH]; intros m Hinv Hkeep.
  - split_and!; [done..|]. intros q. by rewrite app_nil_r.
  - destruct (IH (effect e m)) as (Hinv' & Hkeep' & Hd);
      [by eapply step_inv|by eapply step_all_keep|].
    rewrite seq_run_app. simpl. split_and!; [done..|]. intros q.
    by rewrite Hd, (step_decided s m e s1), outcomes_of_app, app_assoc by done.
Qed.

(** Nobody has begun. *)
Definition starting s : Prop := ∀ p t ph, sys_requests s !! p = Some (t, ph) → ph = Waiting.
Definition finished s : Prop :=
  ∀ p t ph, sys_requests s !! p = Some (t, ph) → ∃ o, ph = Finished o.
(** No request is at work: each has finished or was given up. *)
Definition ended s : Prop :=
  ∀ p t ph, sys_requests s !! p = Some (t, ph) → (∃ o, ph = Finished o) ∨ ph = Aborted.
Lemma finished_ended s : finished s → ended s.
Proof. intros Hf p t ph Hp. left. by eapply Hf. Qed.
Lemma starting_inv s : starting s → inv s (sys_table s).
Proof.
  intros Hs. split; [| | |done].
  - intros p t ph k v Hp. by rewrite (Hs _ _ _ Hp).
  - intros p t k v l w Hp. by specialize (Hs _ _ _ Hp).
  - intros p q t t' ph ph' k Hp. by rewrite (Hs _ _ _ Hp).
Qed.
Lemma ended_table s m : inv s m → ended s → m = sys_table s.
Proof.
  intros Hinv Hf. apply map_eq. intros k. apply (inv_rest _ _ Hinv). intros p t ph v Hp.
  by destruct (Hf _ _ _ Hp) as [[o ->]| ->].
Qed.

(** The transaction of a request never changes. *)
Lemma step_txns s e s' : step fixed locking s e s' → (sys_requests s').*1 = (sys_requests s).*1.
Proof.
  assert (∀ p t ph ph', sys_requests s !! p = Some (t, ph) →
    (<[p := (t, ph')]> (sys_requests s)).*1 = (sys_requests s).*1) as Hins.
  { intros p t ph ph' Hp. rewrite list_fmap_insert. apply list_insert_id.
    by rewrite list_lookup_fmap, Hp. }
  intros []; simpl; try by eapply Hins. done.
Qed.
Lemma run_txns s events s' :
  run fixed locking s events s' →
  (sys_requests s').*1 = (sys_requests s).*1 ∧
  ∀ p t, Ran p t ∈ events → (sys_requests s).*1 !! p = Some t.
Proof.
  induction 1 as [s|s e s1 events s2 Hstep _ [IH1 IH2]].
  - split; [done|]. by intros p t ?%elem_of_nil.
  - pose proof (step_txns _ _ _ Hstep) as Ht. split; [congruence|].
    intros p t [Hin|Hin]%elem_of_app; [|rewrite <-Ht; by apply IH2].
    destruct Hstep as [| | |p' t' l Hp| | | | |]; simpl in Hin; try (by apply elem_of_nil in Hin);
      apply list_elem_of_singleton in Hin; [|done].
    injection Hin as -> ->. by rewrite list_lookup_fmap, Hp.
Qed.

(** The outcomes that are settled, in the order of the requests. *)
Definition all_decided s : list (Outcome K V) := omap (λ r, decided r.1 r.2) (sys_requests s).
Lemma all_decided_advance s p t ph ph' :
  sys_requests s !! p = Some (t, ph) →
  ∃ rest, all_decided s ≡ₚ option_list (decided t ph) ++ rest ∧
    all_decided (advance s p t ph') ≡ₚ option_list (decided t ph') ++ rest.
Proof.
  intros Hp. set (l := sys_requests s). set (f := λ r : Txn K V F * Phase K V, decided r.1 r.2).
  exists (omap f (take p l ++ drop (S p) l)).
  assert (∀ r, omap f (take p l ++ r :: drop (S p) l) ≡ₚ
    option_list (f r) ++ omap f (take p l ++ drop (S p) l)) as Hmid.
  { intros r. rewrite <-Permutation_middle. simpl. by destruct (f r). }
  unfold all_decided. split.
  - rewrite <-(take_drop_middle (sys_requests s) p (t, ph)) by done. apply Hmid.
  - simpl. rewrite insert_take_drop by by eapply lookup_lt_Some. apply Hmid.
Qed.
Lemma step_all_decided s m e s' :
  inv s m → all_keep s → step fixed locking s e s' →
  all_decided s' ≡ₚ all_decided s ++ (results e m).*2.
Proof.
  intros Hinv Hkeep Hstep.
  assert (∀ p t ph ph', sys_requests s !! p = Some (t, ph) → decided t ph' = decided t ph →
    all_decided (advance s p t ph') ≡ₚ all_decided s) as Hsame.
  { intros p t ph ph' Hp Hd. destruct (all_decided_advance s p t ph ph' Hp) as (l & -> & ->).
    by rewrite Hd. }
  destruct Hstep as [p t Hp Hb|p t l k Hp Hk' Hf|p t ph Hp Hw|p t l Hp Hf|p t k v l Hp|p t k v l w Hp Hr|p t k v l w Hp Hr|p t l Hp|x Hf];
    cbn [results fmap list_fmap]; rewrite ?app_nil_r.
  - by eapply Hsame.
  - by eapply Hsame.
  - eapply Hsame; [done|by destruct ph].
  - destruct (inv_select s m p t l Hinv Hkeep Hp Hf) as [_ ->].
    destruct (all_decided_advance s p t _ (Selected (selected fixed t (sys_table s)) l) Hp)
      as (rest & -> & ->). simpl.
    by rewrite Permutation_app_comm.
  - by eapply Hsame.
  - eapply (Hsame p t _ (Finished (Taken k v)) Hp). simpl. by rewrite Hr.
  - eapply Hsame; [done|]. simpl. by rewrite Hr.
  - by eapply Hsame.
  - done.
Qed.
Lemma run_all_decided s events s' m :
  run fixed locking s events s' → inv s m → all_keep s →
  all_decided s' ≡ₚ all_decided s ++ (seq_run fixed events m).1.*2.
Proof.
  intros Hrun. revert m. induction Hrun as [s|s e s1 events s2 Hstep _ IH]; intros m Hinv Hkeep.
  - by rewrite app_nil_r.
  - rewrite seq_run_app. simpl. rewrite (IH (effect e m)); [|by eapply step_inv|by eapply step_all_keep].
    rewrite (step_all_decided s m e s1), fmap_app by done. by rewrite app_assoc.
Qed.
Lemma starting_decided s : starting s → all_decided s = [].
Proof.
  unfold all_decided, starting. induction (sys_requests s) as [|[t ph] l IH]; intros Hs; [done|].
  simpl. rewrite (Hs 0 t ph eq_refl). simpl. apply IH. intros p t' ph' Hp. by apply (Hs (S p) t').
Qed.

(** The row a query has answered with stays as it was read until the transaction ends. *)
Lemma selected_row_stays s events s' p t k v locks :
  starting s → all_keep s → run fixed locking s events s' →
  sys_requests s' !! p = Some (t, Selected (Some (k, v)) locks) → sys_table s' !! k = Some v.
Proof.
  intros Hs Hkeep Hrun Hp.
  destruct (run_inv _ _ _ _ Hrun (starting_inv s Hs) Hkeep) as (Hinv & _).
  by apply (inv_pending _ _ Hinv _ _ _ _ _ Hp).
Qed.

(** ** A request that is left alone *)
Definition is_other (e : option (Event K V F)) : bool :=
  match e with Some (Other _) => true | _ => false end.
Definition alone s (p : nat) : Prop :=
  ∀ q t ph, sys_requests s !! q = Some (t, ph) → q ≠ p → active ph = false.

Lemma run_app s events s' events' s'' :
  run fixed locking s events s' → run fixed locking s' events' s'' →
  run fixed locking s (events ++ events') s''.
Proof.
  induction 1 as [|s e s1 l s2 Hs _ IH]; [done|]. intros H'. rewrite <-app_assoc.
  eapply run_step; [done|by apply IH].
Qed.
(** A step that is no event. *)
Lemma run_silent s s1 events s2 :
  step fixed locking s None s1 → run fixed locking s1 events s2 → run fixed locking s events s2.
Proof. apply (run_step fixed locking s None). Qed.
Lemma advance_twice s p t ph ph' : advance (advance s p t ph) p t ph' = advance s p t ph'.
Proof. unfold advance. simpl. by rewrite list_insert_insert_eq. Qed.
Lemma lookup_own s p t ph ph' :
  sys_requests s !! p = Some (t, ph) → sys_requests (advance s p t ph') !! p = Some (t, ph').
Proof. intros Hp. simpl. apply list_lookup_insert_eq. by eapply lookup_lt_Some. Qed.
Lemma alone_advance s p t ph : alone s p → alone (advance s p t ph) p.
Proof. intros Ha q tq phq [(? & _ & _)|[_ Hq]]%lookup_advance Hne; [done|by eapply Ha]. Qed.
Lemma alone_free s p rows : alone s p → free_for locking s p rows.
Proof. intros Ha q t ph k Hq Hne _ Hl%locked_active. by rewrite (Ha _ _ _ Hq Hne) in Hl. Qed.
Lemma alone_locks s p t locks (ks : list K) :
  alone s p → sys_requests s !! p = Some (t, Begun locks) →
  (∀ k, k ∈ ks → is_Some (sys_table s !! k)) →
  ∃ locks', locks ⊆ locks' ∧ (∀ k, k ∈ ks → k ∈ locks') ∧
    run fixed locking s [] (advance s p t (Begun locks')).
Proof.
  revert s locks. induction ks as [|k ks IH]; intros s locks Ha Hp Hks.
  - exists locks. split; [done|]. split; [by intros k ?%elem_of_nil|]. unfold advance.
    rewrite list_insert_id by done. destruct s. constructor.
  - set (s1 := advance s p t (Begun ({[k]} ∪ locks))).
    assert (step fixed locking s None s1) as Hstep.
    { apply step_lock; [done|apply Hks; by left|by apply alone_free]. }
    destruct (IH s1 ({[k]} ∪ locks)) as (locks' & Hsub & Hin & Hrun).
    { by apply alone_advance. }
    { by eapply lookup_own. }
    { intros k' Hk'. apply Hks. by right. }
    unfold s1 in Hrun. rewrite advance_twice in Hrun. exists locks'. split; [set_solver|].
    split; [set_solver|]. by apply (run_silent s s1).
Qed.
(** It runs to its end, and does what the transaction does at once. *)
Lemma alone_completes s p t :
  alone s p → sys_requests s !! p = Some (t, Waiting) →
  run fixed locking s [Ran p t]
    (mkSystem (run_txn fixed t (sys_table s)).2
       (<[p := (t, Finished (run_txn fixed t (sys_table s)).1)]> (sys_requests s))).
Proof.
  intros Ha Hp. set (at_ := λ ph, advance s p t ph).
  assert (∀ ph, sys_requests (at_ ph) !! p = Some (t, ph)) as Hat by (intros ph; by eapply lookup_own).
  destruct (alone_locks (at_ (Begun ∅)) p t ∅ (map_to_list (matching fixed t (sys_table s))).*1)
    as (locks & _ & Hlocks & Hrun).
  { by apply alone_advance. }
  { apply Hat. }
  { intros k ([k' v] & -> & Hin%elem_of_map_to_list)%list_elem_of_fmap. simpl.
    apply matching_lookup in Hin as [Hk _]. by exists v. }
  unfold at_ in Hrun. rewrite advance_twice in Hrun. fold (at_ (Begun locks)) in Hrun.
  assert (∀ k, is_Some (matching fixed t (sys_table s) !! k) → k ∈ locks) as Hheld.
  { intros k [v Hv]. apply Hlocks, list_elem_of_fmap. exists (k, v). split; [done|].
    by apply elem_of_map_to_list. }
  eapply (run_silent s (at_ (Begun ∅))); [apply step_begin; [done|by intros _ q t' ph; apply Ha]|].
  eapply (run_app _ [] (at_ (Begun locks)) [Ran p t]); [exact Hrun|].
  set (row := selected fixed t (sys_table s)).
  apply (run_step _ _ _ (Some (Ran p t)) (at_ (Selected row locks)) []).
  { pose proof (step_select fixed locking (at_ (Begun locks)) p t locks (Hat _) (λ _, Hheld)) as Hs.
    unfold at_ in Hs. by rewrite advance_twice in Hs. }
  unfold run_txn. fold row. destruct row as [[k v]|] eqn:Hrow.
  2: { simpl. eapply run_silent; [|constructor].
       pose proof (step_nothing fixed locking (at_ (Selected None locks)) p t locks (Hat _)) as Hs.
       unfold at_ in Hs. rewrite advance_twice in Hs. exact Hs. }
  set (w := written t v (sys_table s !! k)).
  apply (run_silent _ (at_ (Executed k v locks w))).
  { pose proof (step_execute fixed locking (at_ (Selected (Some (k, v)) locks)) p t k v locks (Hat _)) as Hs.
    unfold at_ in Hs. by rewrite advance_twice in Hs. }
  eapply run_silent; [|constructor]. simpl. destruct (tx_readable t k v) eqn:Hr.
  - pose proof (step_commit fixed locking (at_ (Executed k v locks w)) p t k v locks w (Hat _) Hr) as Hs.
    unfold at_ in Hs. simpl in Hs. rewrite list_insert_insert_eq in Hs.
    assert (partial_alter (λ _, w) k (sys_table s) = partial_alter (written t v) k (sys_table s)) as <-; [|done].
    apply map_eq. intros k'. destruct (decide (k' = k)) as [->|Hne].
    + by rewrite !lookup_partial_alter_eq.
    + by rewrite !lookup_partial_alter_ne.
  - pose proof (step_rollback fixed locking (at_ (Executed k v locks w)) p t k v locks w (Hat _) Hr) as Hs.
    unfold at_ in Hs. rewrite advance_twice in Hs. exact Hs.
Qed.
End transactions.
