(* ===== verification/TransactionsSpec.v ===== *)
(** Concurrent transactions ([Transactions.v]) are as good as one after the other, whatever the
    order of their statements, which of them the servers give up, and the locks they take before
    that; and what this says of the use counts of secret ids. *)
From S2P Require Import Prelude RustStd Models Database SqlServers PgDatabase MyDatabase Saml SamlStore MySqlStores Transactions TransactionsFacts.

(** * The transactions of the server *)
Lemma consume_keeps now role hash : keeps_fixed secret_fixed (consume_txn now role hash).
Proof.
  intros read st row row'. simpl. destruct (decide _); [naive_solver|].
  destruct (decide _); [|done]. by intros [= <-] [= <-].
Qed.
Lemma consume_matching now role hash m :
  matching secret_fixed (consume_txn now role hash) m =
  filter (λ r, usable_secret_id role hash now r.2) m.
Proof.
  unfold matching. apply map_filter_ext. intros k row _. simpl. by rewrite bool_decide_eq_true.
Qed.
(** A transaction that takes the row with one use left and counts another one down. *)
Lemma run_uses {V F} (fixed : V → F) (t : Txn string V F) (uses : V → Z) (dec : V → V) m :
  (∀ k row, tx_readable t k row = true) →
  (∀ row, tx_write t row =
     if decide (uses row = 1%Z) then Some (λ _, None)
     else if decide (uses row > 1)%Z then Some (λ stored, Some (dec stored)) else None) →
  run_txn fixed t m =
  match map_to_list (matching fixed t m) with
  | [] => (Absent, m)
  | (k, row) :: _ =>
      (Taken k row,
       if decide (uses row = 1%Z) then delete k m
       else if decide (uses row > 1)%Z then alter dec k m else m)
  end.
Proof.
  intros Hread Hwrite. unfold run_txn, selected. destruct (map_to_list _) as [|[a row] l]; [done|].
  unfold outcome. simpl. rewrite Hread. f_equal. unfold written. rewrite Hwrite.
  destruct (decide _) as [|H1]; [|destruct (decide _) as [|H2]]; apply map_eq; intros k.
  - destruct (decide (k = a)) as [->|Hne].
    + rewrite lookup_partial_alter_eq, lookup_delete_eq. by destruct (m !! a).
    + by rewrite lookup_partial_alter_ne, lookup_delete_ne by done.
  - destruct (decide (k = a)) as [->|Hne].
    + rewrite lookup_partial_alter_eq, lookup_alter_eq. by destruct (m !! a).
    + by rewrite lookup_partial_alter_ne, lookup_alter_ne by done.
  - destruct (decide (k = a)) as [->|Hne].
    + by rewrite lookup_partial_alter_eq.
    + by rewrite lookup_partial_alter_ne by done.
Qed.
Lemma run_consume now role hash m :
  run_txn secret_fixed (consume_txn now role hash) m =
  match map_to_list (filter (λ r, usable_secret_id role hash now r.2) m) with
  | [] => (Absent, m)
  | (accessor, row) :: _ =>
      (Taken accessor row,
       let num_uses := sr_num_uses_remaining row in
       if decide (num_uses = 1%Z) then delete accessor m
       else if decide (num_uses > 1)%Z then alter decrement_uses accessor m else m)
  end.
Proof.
  rewrite (run_uses _ _ sr_num_uses_remaining decrement_uses) by done. by rewrite consume_matching.
Qed.
Lemma my_consume_keeps `{MySql} now role hash :
  keeps_fixed my_secret_fixed (my_consume_txn now role hash).
Proof.
  intros read st row row'. cbn [tx_write my_consume_txn]. cbv zeta.
  destruct (decide _); [by intros [= <-]|]. destruct (decide _); [|done]. intros [= <-] [= <-]. done.
Qed.
(** The operations of the stores are these transactions, run at once. *)
Lemma consume_secret_id_txn `{DbLibs} now role hash d :
  consume_secret_id now role hash d =
  let '(o, m) := run_txn secret_fixed (consume_txn now role hash) (db_app_secret_ids d) in
  (Ok (consumed o), set_app_secret_ids (λ _, m) d).
Proof.
  rewrite run_consume. unfold consume_secret_id, bind at 1, gets at 1.
  destruct (map_to_list _) as [|[a row] l]; [by destruct d|]. unfold bind.
  cbv zeta. by destruct (decide _); [|destruct (decide _); [|destruct d]].
Qed.
Lemma pg_consume_secret_id_txn `{DbLibs} `{PgLibs} now role hash d :
  no_nul role = true →
  pg_consume_secret_id now role hash d =
  let '(o, m) := run_txn secret_fixed (consume_txn now role hash) (pg_app_secret_ids d) in
  (Ok (consumed o), set_pg_app_secret_ids (λ _, m) d).
Proof.
  intros Hr. rewrite run_consume. unfold pg_consume_secret_id.
  assert (∀ A (f : PgDatabase → A), pg_select [role] f d = (Ok (f d), d)) as Hsel.
  { intros A f. unfold pg_select, pg_sql, bind, with_err, pg_params, of_result, pg_text. simpl.
    by rewrite Hr. }
  unfold bind at 1. rewrite Hsel. destruct (map_to_list _) as [|[a row] l]; [by destruct d|].
  unfold bind. cbv zeta. by destruct (decide _); [|destruct (decide _); [|destruct d]].
Qed.
Lemma my_consume_secret_id_txn `{DbLibs} `{MySql} now role hash d :
  (∀ k row, my_app_secret_ids d !! k = Some row → k = collation_key row.1) →
  my_consume_secret_id now role hash d =
  let '(o, m) := run_txn my_secret_fixed (my_consume_txn now role hash) (my_app_secret_ids d) in
  (Ok (my_consumed o), set_my_app_secret_ids (λ _, m) d).
Proof.
  intros Hkeys. rewrite (run_uses _ _ (λ row, sr_num_uses_remaining row.2)
    (λ row, (row.1, decrement_uses row.2))) by done.
  assert (matching my_secret_fixed (my_consume_txn now role hash) (my_app_secret_ids d) =
    filter (λ kv, my_usable_secret_id role hash now kv.2.2) (my_app_secret_ids d)) as ->.
  { apply map_filter_ext. intros k row _. cbn. by rewrite bool_decide_eq_true. }
  unfold my_consume_secret_id. unfold bind at 1, gets at 1, my_rows.
  destruct (map_to_list _) as [|[k [a row]] l] eqn:Hl; [by destruct d|].
  assert (k = collation_key a) as ->.
  { assert ((k, (a, row)) ∈ (k, (a, row)) :: l) as Hin by by left. rewrite <-Hl in Hin.
    apply elem_of_map_to_list, map_lookup_filter_Some in Hin as [Hrow _]. apply (Hkeys k _ Hrow). }
  rewrite fmap_cons. cbn [snd]. unfold bind. cbv zeta.
  by destruct (decide _); [|destruct (decide _); [|destruct d]].
Qed.
Lemma take_keeps `{MySql} now request_id realm_id : keeps_fixed id (take_txn now request_id realm_id).
Proof. by intros read st row row' [= <-]. Qed.
Lemma take_selected `{MySql} now request_id realm_id m :
  selected id (take_txn now request_id realm_id) m =
    row ← m !! bin_key request_id;
    if decide (bin_key (pr_realm_id (mp_row row)) = bin_key realm_id ∧
               (pr_expires_at (mp_row row) > timestamp now)%Z)
    then Some (bin_key request_id, row) else None.
Proof.
  unfold selected. set (key := bin_key request_id).
  assert (matching id (take_txn now request_id realm_id) m =
    match m !! key with
    | Some row => if decide (bin_key (pr_realm_id (mp_row row)) = bin_key realm_id ∧
                    (pr_expires_at (mp_row row) > timestamp now)%Z) then {[key := row]} else ∅
    | None => ∅
    end) as ->.
  { apply map_eq. intros k. apply option_eq. intros row. rewrite matching_lookup. simpl.
    rewrite bool_decide_eq_true. split.
    - intros (Hk & -> & Hok). fold key in Hk. by rewrite Hk, decide_True, lookup_singleton_eq by done.
    - destruct (m !! key) as [row'|] eqn:Hk; [|by rewrite lookup_empty].
      destruct (decide _) as [Hok|]; [|by rewrite lookup_empty].
      intros [<- <-]%lookup_singleton_Some. done. }
  destruct (m !! key) as [row|]; simpl; [|by rewrite map_to_list_empty].
  destruct (decide _); [by rewrite map_to_list_singleton|by rewrite map_to_list_empty].
Qed.
Lemma mysql_take_txn `{MySql} now request_id realm_id t :
  mysql_take_pending_request now request_id realm_id t =
  let '(o, m) := run_txn id (take_txn now request_id realm_id) (my_pending_request t) in
  (match o with
   | Absent => Ok None
   | Unreadable _ row | Taken _ row => map_ok Some (mysql_row_to_pending row)
   end, set_my_pending (λ _, m) t).
Proof.
  unfold run_txn. rewrite take_selected. unfold mysql_take_pending_request, bind at 1, gets.
  destruct (my_pending_request t !! _) as [row|]; simpl; [|by destruct t].
  destruct (decide _); simpl; [|by destruct t]. unfold bind, of_result.
  destruct (mysql_row_to_pending row) as [pending|e] eqn:Hrow; simpl; [|by rewrite Hrow; destruct t].
  by rewrite Hrow.
Qed.

(** * Use counts *)
Definition uses_left (acc : string) (m : gmap string SecretIdRow) : nat :=
  match m !! acc with Some row => Z.to_nat (sr_num_uses_remaining row) | None => 0 end.
(** [acc] may be gone, but it is not unlimited. *)
Definition limited (acc : string) (m : gmap string SecretIdRow) : Prop :=
  ∀ row, m !! acc = Some row → (1 ≤ sr_num_uses_remaining row)%Z.
Definition taken (acc : string) (o : Outcome string SecretIdRow) : bool :=
  bool_decide (consumed o = Some acc).
Definition successes (acc : string) (l : list (Outcome string SecretIdRow)) : nat :=
  length (filter (λ o, taken acc o = true) l).
(** The requests that have been answered with [acc]. *)
Definition served (acc : string) (s : System string SecretIdRow (string * string * Z)) : nat :=
  length (filter (λ r, match r.2 with Finished o => taken acc o | _ => false end = true)
    (sys_requests s)).
(** The requests that have been answered, which are those the server has not given up once all have
    ended. *)
Definition answered (s : System string SecretIdRow (string * string * Z)) : nat :=
  length (filter (λ r, match r.2 with Finished _ => true | _ => false end = true) (sys_requests s)).
Definition consumer (t : Txn string SecretIdRow (string * string * Z)) : Prop :=
  ∃ now role hash, t = consume_txn now role hash.

Lemma successes_cons acc o l : successes acc (o :: l) = Nat.b2n (taken acc o) + successes acc l.
Proof.
  unfold successes. destruct (taken acc o) eqn:Ho.
  - by rewrite filter_cons_True.
  - by rewrite filter_cons_False by congruence.
Qed.
Lemma consume_counts now role hash acc m :
  limited acc m →
  let '(o, m') := run_txn secret_fixed (consume_txn now role hash) m in
  limited acc m' ∧ Nat.b2n (taken acc o) + uses_left acc m' = uses_left acc m.
Proof.
  intros Hlim. rewrite run_consume. destruct (map_to_list _) as [|[a row] l] eqn:Hl; [done|].
  assert (m !! a = Some row) as Hrow.
  { assert ((a, row) ∈ map_to_list (filter (λ r, usable_secret_id role hash now r.2) m)) as Hin
      by (rewrite Hl; by left).
    by apply elem_of_map_to_list, map_lookup_filter_Some in Hin as [? _]. }
  unfold taken. simpl. destruct (decide (a = acc)) as [->|Hne].
  - specialize (Hlim _ Hrow) as Hn. rewrite bool_decide_eq_true_2 by done. unfold uses_left, limited.
    rewrite Hrow. simpl. destruct (decide _) as [->|H1]; [|destruct (decide _) as [H2|H2]].
    + rewrite lookup_delete_eq. split; [done|lia].
    + rewrite lookup_alter_eq, Hrow. simpl. split; [intros r [= <-]; simpl; lia|].
      unfold decrement_uses. simpl. lia.
    + lia.
  - rewrite bool_decide_eq_false_2 by congruence. unfold uses_left, limited. simpl.
    destruct (decide _); [by rewrite lookup_delete_ne|].
    destruct (decide _); [by rewrite lookup_alter_ne|done].
Qed.
Lemma statement_counts x acc m :
  (∀ v, x ≠ Insert acc v) → limited acc m →
  limited acc (exec_statement secret_fixed x m) ∧
  uses_left acc (exec_statement secret_fixed x m) ≤ uses_left acc m.
Proof.
  intros Hx Hlim. unfold limited, uses_left. rewrite exec_statement_lookup.
  destruct x as [k v|condition]; simpl.
  - rewrite decide_False by (intros <-; by apply (Hx v)). done.
  - destruct (m !! acc) as [row|] eqn:Hrow; simpl; [|done].
    destruct (condition _ _); [split; [done|lia]|]. split; [|done]. intros r [= <-]. by apply Hlim.
Qed.
Lemma seq_successes events acc m :
  (∀ p t, Ran p t ∈ events → consumer t) → (∀ v, Other (Insert acc v) ∉ events) → limited acc m →
  successes acc (seq_run secret_fixed events m).1.*2 ≤ uses_left acc m.
Proof.
  revert m. induction events as [|e events IH]; intros m Hran Hins Hlim; [unfold successes; simpl; lia|].
  assert (∀ m, limited acc m →
    successes acc (seq_run secret_fixed events m).1.*2 ≤ uses_left acc m) as IH'.
  { intros m' Hm'. apply IH; [|intros v Hv; apply (Hins v); by right|done].
    intros p t Ht. apply (Hran p t). by right. }
  destruct e as [p t|x]; cbn [seq_run].
  - destruct (Hran p t ltac:(by left)) as (now & role & hash & ->).
    pose proof (consume_counts now role hash acc m Hlim) as Hc.
    destruct (run_txn _ _ _) as [o m']. destruct Hc as [Hlim' <-]. specialize (IH' m' Hlim').
    destruct (seq_run _ _ _) as [os m'']. cbn [fst] in *. rewrite fmap_cons, successes_cons.
    cbn [snd]. lia.
  - destruct (statement_counts x acc m) as [Hlim' Hle]; [intros v ->; apply (Hins v); by left|done|].
    specialize (IH' _ Hlim'). lia.
Qed.

(** [acc] is the only row that will do, and it does until its uses are used up. *)
Record sole_secret (role hash acc : string) (nows : list Z) (m : gmap string SecretIdRow) : Prop := {
  sole_only : ∀ a row, m !! a = Some row → sr_role_name row = role → sr_secret_id_hash row = hash →
    a = acc;
  sole_usable : ∀ row now, m !! acc = Some row → now ∈ nows → usable_secret_id role hash now row;
  sole_limited : limited acc m;
}.
Lemma sole_rows role hash acc nows now m :
  sole_secret role hash acc nows m → now ∈ nows →
  filter (λ r, usable_secret_id role hash now r.2) m =
    match m !! acc with Some row => {[acc := row]} | None => ∅ end.
Proof.
  intros Hsole Hnow. apply map_eq. intros k. apply option_eq. intros row.
  rewrite map_lookup_filter_Some. simpl. split.
  - intros [Hk Hu]. pose proof Hu as (Hr & Hh & _).
    assert (k = acc) as -> by by eapply (sole_only _ _ _ _ _ Hsole).
    by rewrite Hk, lookup_singleton_eq.
  - destruct (m !! acc) as [row'|] eqn:Hacc; [|by rewrite lookup_empty].
    intros [<- <-]%lookup_singleton_Some. split; [done|].
    by apply (sole_usable _ _ _ _ _ Hsole).
Qed.
Lemma sole_consume role hash acc nows now m :
  sole_secret role hash acc nows m → now ∈ nows →
  let '(o, m') := run_txn secret_fixed (consume_txn now role hash) m in
  sole_secret role hash acc nows m' ∧ taken acc o = bool_decide (0 < uses_left acc m).
Proof.
  intros Hsole Hnow. pose proof (consume_counts now role hash acc m (sole_limited _ _ _ _ _ Hsole)) as Hc.
  rewrite run_consume in Hc |- *. rewrite (sole_rows _ _ _ _ _ _ Hsole Hnow) in Hc |- *.
  unfold uses_left. destruct (m !! acc) as [row|] eqn:Hrow.
  - rewrite map_to_list_singleton in Hc |- *. destruct Hc as [Hlim _].
    pose proof (sole_limited _ _ _ _ _ Hsole _ Hrow) as Hn.
    split; [|unfold taken; simpl; rewrite !bool_decide_eq_true_2; [done|lia|done]].
    split; [| |done].
    + intros a r Ha. destruct (decide (a = acc)) as [->|Hne]; [done|]. cbv zeta in Ha.
      apply (sole_only _ _ _ _ _ Hsole a r). destruct (decide _); [by rewrite lookup_delete_ne in Ha|].
      destruct (decide _); [by rewrite lookup_alter_ne in Ha|done].
    + intros r now'. cbv zeta. destruct (decide _); [by rewrite lookup_delete_eq|].
      destruct (decide _); [rewrite lookup_alter_eq, Hrow|rewrite Hrow]; intros [= <-] Hin;
        by apply (sole_usable _ _ _ _ _ Hsole row now').
  - rewrite map_to_list_empty. by split.
Qed.
Lemma seq_successes_exact events role hash acc nows m :
  (∀ p t, Ran p t ∈ events → ∃ now, now ∈ nows ∧ t = consume_txn now role hash) →
  Forall (λ e, is_other (Some e) = false) events → sole_secret role hash acc nows m →
  successes acc (seq_run secret_fixed events m).1.*2 = uses_left acc m `min` length events.
Proof.
  intros Hran Hother. revert m. induction Hother as [|e events He _ IH]; intros m Hsole.
  - unfold successes. simpl. lia.
  - destruct e as [p t|x]; [|done]. destruct (Hran p t ltac:(by left)) as (now & Hnow & ->).
    assert (∀ p t, Ran p t ∈ events → ∃ now, now ∈ nows ∧ t = consume_txn now role hash) as Hran'
      by (intros p' t' Hin; apply (Hran p'); by right).
    cbn [seq_run]. pose proof (sole_consume role hash acc nows now m Hsole Hnow) as Hc.
    pose proof (consume_counts now role hash acc m (sole_limited _ _ _ _ _ Hsole)) as Hu.
    destruct (run_txn _ _ _) as [o m']. destruct Hc as [Hsole' Ho], Hu as [_ Hu].
    specialize (IH Hran' m' Hsole'). destruct (seq_run _ _ _) as [os m'']. cbn [fst] in *.
    rewrite fmap_cons, successes_cons, IH. cbn [snd length]. rewrite Ho in Hu |- *.
    case_bool_decide; simpl in *; lia.
Qed.

Lemma omap_cons_option {A B} (f : A → option B) x l :
  omap f (x :: l) = option_list (f x) ++ omap f l.
Proof. simpl. by destruct (f x). Qed.
Lemma successes_app acc l1 l2 : successes acc (l1 ++ l2) = successes acc l1 + successes acc l2.
Proof. unfold successes. by rewrite filter_app, length_app. Qed.
Lemma served_le acc s : served acc s ≤ successes acc (all_decided s).
Proof.
  unfold served, all_decided. induction (sys_requests s) as [|[t ph] l IH]; [done|].
  rewrite omap_cons_option, successes_app.
  destruct (match ph with Finished o => taken acc o | _ => false end) eqn:Hph.
  - rewrite filter_cons_True by done. destruct ph as [| | | |o|]; try done.
    change (option_list _) with [o]. rewrite successes_cons, Hph. simpl. lia.
  - rewrite filter_cons_False by (simpl; congruence). lia.
Qed.
Lemma served_ended acc s :
  ended s → served acc s = successes acc (all_decided s) ∧ length (all_decided s) = answered s.
Proof.
  unfold served, answered, all_decided, ended.
  induction (sys_requests s) as [|[t ph] l IH]; intros Hf; [done|].
  destruct IH as [IH1 IH2]; [intros p t' ph' Hp; by apply (Hf (S p) t' ph')|].
  rewrite omap_cons_option, successes_app, length_app.
  destruct (Hf 0 t ph eq_refl) as [[o ->]| ->].
  - change (option_list _) with [o]. rewrite successes_cons, <-IH1. split.
    + destruct (taken acc o) eqn:Ho; [by rewrite filter_cons_True|].
      by rewrite filter_cons_False by (simpl; congruence).
    + rewrite filter_cons_True by done. simpl. by rewrite IH2.
  - rewrite !filter_cons_False by done. by split.
Qed.
Lemma answered_finished s : finished s → answered s = length (sys_requests s).
Proof.
  unfold answered, finished. induction (sys_requests s) as [|[t ph] l IH]; intros Hf; [done|].
  destruct (Hf 0 t ph eq_refl) as [o ->]. rewrite filter_cons_True by done. simpl. f_equal.
  apply IH. intros p t' ph' Hp. by apply (Hf (S p) t' ph').
Qed.
Lemma seq_run_length {K V F} `{Countable K} (fixed : V → F) (events : list (Event K V F)) m :
  Forall (λ e, is_other (Some e) = false) events → length (seq_run fixed events m).1 = length events.
Proof.
  intros Hev. revert m. induction Hev as [|[p t|x] events He _ IH]; intros m; [done| |done].
  cbn [seq_run]. destruct (run_txn _ _ _) as [o m']. specialize (IH m').
  destruct (seq_run _ _ _). simpl in *. by rewrite IH.
Qed.
Lemma consumers_keep s :
  (∀ t, t ∈ (sys_requests s).*1 → consumer t) → all_keep secret_fixed s.
Proof.
  intros Hc p t ph Hp. destruct (Hc t) as (now & role & hash & ->); [|apply consume_keeps].
  apply list_elem_of_fmap. exists (t, ph). split; [done|]. by eapply list_elem_of_lookup_2.
Qed.

(** Two logins with a secret id that admits one. *)
Definition toy_secret : SecretIdRow := mkSecretIdRow "h" "r" 0 1.
Definition toy_logins : System string SecretIdRow (string * string * Z) :=
  mkSystem {[ "acc" := toy_secret ]}
    [(consume_txn 5 "r" "h", Waiting); (consume_txn 6 "r" "h", Waiting)].
Lemma toy_starting : starting toy_logins.
Proof. intros [|[|p]] t ph; simpl; [naive_solver..|done]. Qed.
Lemma toy_consumers t :
  t ∈ (sys_requests toy_logins).*1 → ∃ now, now ∈ [5; 6]%Z ∧ t = consume_txn now "r" "h".
Proof.
  simpl. rewrite !elem_of_cons, elem_of_nil.
  intros [->|[->|[]]]; [exists 5%Z|exists 6%Z]; (split; [|done]); rewrite !elem_of_cons; auto.
Qed.
Lemma toy_keep : all_keep secret_fixed toy_logins.
Proof.
  apply consumers_keep. intros t (now & _ & ->)%toy_consumers. by exists now, "r", "h".
Qed.
Lemma toy_run locking : ∃ events s', run secret_fixed locking toy_logins events s' ∧ finished s' ∧
  Forall (λ e, is_other (Some e) = false) events.
Proof.
  eexists _, _. split; [|split].
  - eapply run_app.
    + apply (alone_completes _ _ _ 0); [|reflexivity].
      intros [|[|q]] t ph; simpl; [done|by intros [= <- <-]|done].
    + apply (alone_completes _ _ _ 1); [|reflexivity].
      intros [|[|q]] t ph; simpl; [by intros [= <- <-]|done|done].
  - intros [|[|q]] t ph; simpl; [intros [= <- <-]; by eexists..|done].
  - by repeat constructor.
Qed.
Lemma toy_sole : sole_secret "r" "h" "acc" [5; 6]%Z (sys_table toy_logins).
Proof.
  assert (∀ a row, sys_table toy_logins !! a = Some row → a = "acc" ∧ row = toy_secret) as Hall
    by (intros a row H; cbn [toy_logins sys_table] in H; by apply lookup_singleton_Some in H as [<- <-]).
  split.
  - by intros a row [-> _]%Hall.
  - intros row now [_ ->]%Hall _. split_and!; [done..|by left].
  - by intros row [_ ->]%Hall.
Qed.

(** C18: transactions that interleave statement by statement are serialisable. Whatever the number
    of concurrent requests, the locking of the server, and the single statements of other requests
    in between, whatever the order in which rows are locked, and whichever requests the server gives
    up while they wait (a deadlock, a lock wait that takes too long), there is an order of the
    transactions, in which each runs at once and as the request it belongs to, that gives every
    request that has finished the outcome it got, and the table that is there once all have ended;
    those given up take no part in it. The transactions may change only columns that their queries
    do not look at. *)
Theorem concurrent_transactions_serialise {K V F : Type} `{Countable K} (fixed : V → F)
    (locking : Locking) (s s' : System K V F) (events : list (Event K V F)) :
  starting s → all_keep fixed s → run fixed locking s events s' →
  let sequential := seq_run fixed events (sys_table s) in
  (∀ p t, Ran p t ∈ events → (sys_requests s).*1 !! p = Some t) ∧
  (∀ p t o, sys_requests s' !! p = Some (t, Finished o) → outcomes_of p sequential.1 = [o]) ∧
  all_decided s' ≡ₚ sequential.1.*2 ∧
  (ended s' → sys_table s' = sequential.2).
Proof.
  intros Hs Hkeep Hrun sequential. pose proof (starting_inv locking s Hs) as Hinv.
  destruct (run_inv _ _ _ _ _ _ Hrun Hinv Hkeep) as (Hinv' & _ & Hd).
  split_and!.
  - by apply (run_txns _ _ _ _ _ Hrun).
  - intros p t o Hp. specialize (Hd p). unfold decided_by in Hd. rewrite Hp in Hd. simpl in Hd.
    destruct (sys_requests s !! p) as [[t0 ph0]|] eqn:Hp0; [|done].
    rewrite (Hs _ _ _ Hp0) in Hd. done.
  - rewrite (run_all_decided _ _ _ _ _ _ Hrun Hinv Hkeep), starting_decided by done. done.
  - intros Hf. symmetry. by eapply ended_table.
Qed.
Lemma concurrent_transactions_serialise_witness :
  starting toy_logins ∧ all_keep secret_fixed toy_logins ∧
  ∃ events s', run secret_fixed MatchedRows toy_logins events s' ∧
    sys_table s' = (seq_run secret_fixed events (sys_table toy_logins)).2.
Proof.
  split; [exact toy_starting|]. split; [exact toy_keep|].
  destruct (toy_run MatchedRows) as (events & s' & Hrun & Hf & _). exists events, s'.
  split; [exact Hrun|].
  destruct (concurrent_transactions_serialise secret_fixed MatchedRows toy_logins s' events
    toy_starting toy_keep Hrun) as (_ & _ & _ & H).
  exact (H (finished_ended _ Hf)).
Defined.

(** C19: a secret id is shared by concurrent logins without being spent twice.  Whatever the order
    of the statements of any number of logins, and of the statements of others, a secret id with
    [n] uses left serves at most [n] of them, as long as no row is inserted under its accessor.
    When all have ended, nobody else wrote, and it is the only secret id they can use, it has
    served exactly as many as were answered, or [n]; that is all of them unless the server gave
    some up while they waited. *)
Theorem secret_id_shared (locking : Locking) (s s' : System string SecretIdRow (string * string * Z))
    (events : list (Event string SecretIdRow (string * string * Z))) (acc : string)
    (row : SecretIdRow) :
  starting s → (∀ t, t ∈ (sys_requests s).*1 → consumer t) →
  sys_table s !! acc = Some row → (1 ≤ sr_num_uses_remaining row)%Z →
  run secret_fixed locking s events s' →
  ((∀ v, Other (Insert acc v) ∉ events) → served acc s' ≤ Z.to_nat (sr_num_uses_remaining row)) ∧
  ∀ role hash nows,
    ended s' → Forall (λ e, is_other (Some e) = false) events →
    sole_secret role hash acc nows (sys_table s) →
    (∀ t, t ∈ (sys_requests s).*1 → ∃ now, now ∈ nows ∧ t = consume_txn now role hash) →
    served acc s' = Z.to_nat (sr_num_uses_remaining row) `min` answered s' ∧
    (finished s' → answered s' = length (sys_requests s)).
Proof.
  intros Hs Hc Hrow Hn Hrun. pose proof (consumers_keep s Hc) as Hkeep.
  pose proof (starting_inv locking s Hs) as Hinv.
  destruct (run_txns _ _ _ _ _ Hrun) as [Htxns Hran].
  pose proof (run_all_decided _ _ _ _ _ _ Hrun Hinv Hkeep) as Hdec. rewrite (starting_decided s Hs) in Hdec.
  assert (successes acc (all_decided s') =
    successes acc (seq_run secret_fixed events (sys_table s)).1.*2) as Hsucc
    by (unfold successes; by rewrite Hdec).
  assert (uses_left acc (sys_table s) = Z.to_nat (sr_num_uses_remaining row)) as <-
    by (unfold uses_left; by rewrite Hrow).
  assert (limited acc (sys_table s)) as Hlim by (intros r Hr; congruence).
  assert (∀ p t, Ran p t ∈ events → t ∈ (sys_requests s).*1) as Hin
    by (intros p t Ht%Hran; by eapply list_elem_of_lookup_2).
  split.
  - intros Hins. rewrite (served_le acc s'), Hsucc. apply seq_successes; [|done..].
    intros p t Ht. by eapply Hc, Hin.
  - intros role hash nows Hf Hother Hsole Hall. destruct (served_ended acc s' Hf) as [-> Hlen].
    split; [|intros Hfin; by rewrite (answered_finished _ Hfin), <-(length_fmap fst), Htxns, length_fmap].
    rewrite Hsucc, (seq_successes_exact events role hash acc nows) by (try done; intros p t Ht; by eapply Hall, Hin).
    f_equal. rewrite <-Hlen, Hdec. simpl. by rewrite length_fmap, seq_run_length.
Qed.
Lemma secret_id_shared_witness :
  ∃ events s', run secret_fixed MatchedRows toy_logins events s' ∧ finished s' ∧ served "acc" s' = 1.
Proof.
  destruct (toy_run MatchedRows) as (events & s' & Hrun & Hf & Hother). exists events, s'.
  split; [exact Hrun|]. split; [exact Hf|].
  assert (∀ t, t ∈ (sys_requests toy_logins).*1 → consumer t) as Hc
    by (intros t (now & _ & ->)%toy_consumers; by exists now, "r", "h").
  destruct (secret_id_shared MatchedRows toy_logins s' events "acc" toy_secret toy_starting Hc eq_refl
    ltac:(simpl; lia) Hrun) as [_ H].
  destruct (H "r" "h" [5; 6]%Z (finished_ended _ Hf) Hother toy_sole toy_consumers) as [-> Hall].
  by rewrite (Hall Hf).
Defined.

(** C20: the operations of the stores are these transactions.  [consume_secret_id] on SQLite, on
    PostgreSQL (for role names it can hold) and on MySQL (whose rows are found by their accessors),
    and [take_pending_request] on MySQL, answer what the
    transaction answers when it runs at once, and leave the table it leaves; so do they, by
    [concurrent_transactions_serialise], under concurrency. *)
Theorem store_transactions `{L : DbLibs} `{PL : !PgLibs} `{MY : MySql} (now : Z) (role hash : string)
    (d : Database) (p : PgDatabase) (y : MyDatabase) (request_id realm_id : string)
    (t : MySamlTables) :
  consume_secret_id now role hash d =
    (let '(o, m) := run_txn secret_fixed (consume_txn now role hash) (db_app_secret_ids d) in
     (Ok (consumed o), set_app_secret_ids (λ _, m) d)) ∧
  (no_nul role = true →
   pg_consume_secret_id now role hash p =
    (let '(o, m) := run_txn secret_fixed (consume_txn now role hash) (pg_app_secret_ids p) in
     (Ok (consumed o), set_pg_app_secret_ids (λ _, m) p))) ∧
  ((∀ k row, my_app_secret_ids y !! k = Some row → k = collation_key row.1) →
   my_consume_secret_id now role hash y =
    (let '(o, m) := run_txn my_secret_fixed (my_consume_txn now role hash) (my_app_secret_ids y) in
     (Ok (my_consumed o), set_my_app_secret_ids (λ _, m) y))) ∧
  mysql_take_pending_request now request_id realm_id t =
    (let '(o, m) := run_txn id (take_txn now request_id realm_id) (my_pending_request t) in
     (match o with
      | Absent => Ok None
      | Unreadable _ row | Taken _ row => map_ok Some (mysql_row_to_pending row)
      end, set_my_pending (λ _, m) t)) ∧
  keeps_fixed secret_fixed (consume_txn now role hash) ∧
  keeps_fixed my_secret_fixed (my_consume_txn now role hash) ∧
  keeps_fixed id (take_txn now request_id realm_id).
Proof.
  split_and!.
  - apply consume_secret_id_txn.
  - apply pg_consume_secret_id_txn.
  - apply my_consume_secret_id_txn.
  - apply mysql_take_txn.
  - apply consume_keeps.
  - apply my_consume_keeps.
  - apply take_keeps.
Qed.
