(* ===== verification/Routes.v ===== *)
(** The routes of the server ([build_app] of [server/src/server/auth_verifier.rs] and the route
    attributes of the handlers): scopes with their prefix, their stack of middlewares and their
    services, and the choice of the service of a request.

    The router is [actix_web]'s, with its documented rules: the scopes are tried in the order of
    their registration and the first whose prefix the path has, up to a [/] or the end, takes the
    request; within it the first service whose pattern and method fit is the one; a request
    without one goes to the default service, behind the middlewares of its scope. *)
From S2P Require Import Prelude RustStd.

Inductive Method := GET | POST | PUT | DELETE | OtherMethod.
#[export] Instance Method_eq_dec : EqDecision Method.
Proof. solve_decision. Defined.

(** The registered services, by the name of their function. *)
Inductive Handler :=
  | H_version_endpoint | H_roles_endpoint | H_jwks_well_known | H_certificate_jwks_well_known
  | H_login | H_whoami | H_certify
  | H_upsert_session | H_get_session_by_id | H_get_session | H_get_sessions_for_clients
  | H_delete_sessions | H_delete_expired_sessions | H_delete_sessions_for_realm
  | H_create_realm | H_get_realm | H_update_realm | H_delete_realm | H_list_realms
  | H_create_userpass | H_get_userpass | H_update_userpass | H_delete_userpass
  | H_list_userpass_by_realm | H_totp_generate | H_totp_verify | H_totp_disable
  | H_list_all_userpass | H_list_admins | H_create_admin | H_get_admin | H_update_admin
  | H_delete_admin | H_add_admin_to_realm | H_remove_admin_from_realm
  | H_approle_login | H_k8s_login
  | H_approle_create_role | H_approle_get_role_id | H_approle_generate_secret_id
  | H_approle_destroy_secret_id | H_approle_delete_role | H_approle_get_role | H_approle_list_roles
  | H_k8s_create_role | H_k8s_delete_role | H_k8s_get_role | H_k8s_list_roles
  | H_auth_token_lookup_self | H_auth_token_renew_self | H_auth_token_revoke_self
  | H_saml_login | H_saml_acs | H_saml_metadata.
#[export] Instance Handler_eq_dec : EqDecision Handler.
Proof. solve_decision. Defined.

(** What a scope is wrapped in. *)
Inductive Wrap :=
  | W_EnsureAuth | W_JwtAuth | W_UsernamePasswordAuth | W_ExtractRealm | W_InjectAdminRealm
  | W_CookieAuthSameServer | W_AdminAuth | W_AppTokenExtract | W_LoginRateLimit
  (** decides response headers, and answers pre-flight requests *)
  | W_Cors.
#[export] Instance Wrap_eq_dec : EqDecision Wrap.
Proof. solve_decision. Defined.

(** * Patterns *)

(** [P] is a [{name}] of the pattern: one segment that is not empty. *)
Inductive Segment := Lit (text : string) | P.
Record Resource := mkResource {
  rs_methods : list Method;
  rs_pattern : list Segment;
  rs_handler : Handler;
}.
Record Scope := mkScope {
  sc_prefix : list string;
  (** in the order of the [wrap] calls: the first is the innermost *)
  sc_wraps : list Wrap;
  sc_services : list Resource;
}.
Definition get_ (pattern : list Segment) (h : Handler) : Resource := mkResource [GET] pattern h.
Definition post_ (pattern : list Segment) (h : Handler) : Resource := mkResource [POST] pattern h.
Definition put_ (pattern : list Segment) (h : Handler) : Resource := mkResource [PUT] pattern h.
Definition delete_ (pattern : list Segment) (h : Handler) : Resource :=
  mkResource [DELETE] pattern h.

(** * The scopes *)
Definition client_scope : Scope := mkScope ["login"]
  [W_EnsureAuth; W_JwtAuth; W_UsernamePasswordAuth; W_ExtractRealm; W_LoginRateLimit; W_Cors]
  [post_ [] H_login].
Definition whoami_routes : Scope := mkScope ["whoami"]
  [W_CookieAuthSameServer; W_ExtractRealm; W_Cors] [get_ [] H_whoami].
Definition certify_routes : Scope := mkScope ["certify"]
  [W_CookieAuthSameServer; W_Cors] [post_ [] H_certify].
Definition public_scope : Scope := mkScope ["public"] [W_Cors]
  [get_ [Lit "version"] H_version_endpoint; get_ [Lit "roles"] H_roles_endpoint].
Definition well_known_scope : Scope := mkScope [".well-known"] [W_Cors]
  [get_ [Lit "jwks.json"] H_jwks_well_known;
   get_ [Lit "certificate-jwks.json"] H_certificate_jwks_well_known].
Definition realms_crud_scope : Scope := mkScope ["admins"; "realms"]
  [W_AdminAuth; W_CookieAuthSameServer; W_InjectAdminRealm; W_Cors]
  [post_ [] H_create_realm; get_ [P] H_get_realm; put_ [P] H_update_realm;
   delete_ [P] H_delete_realm; get_ [] H_list_realms].
Definition app_scope : Scope := mkScope ["realms"]
  [W_AdminAuth; W_CookieAuthSameServer; W_ExtractRealm; W_Cors]
  [post_ [P; Lit "userpass"] H_create_userpass; get_ [P; Lit "userpass"; P] H_get_userpass;
   put_ [P; Lit "userpass"; P] H_update_userpass; delete_ [P; Lit "userpass"; P] H_delete_userpass;
   get_ [P; Lit "userpass"] H_list_userpass_by_realm;
   post_ [P; Lit "totp"; Lit "generate"] H_totp_generate;
   post_ [P; Lit "totp"; Lit "verify"] H_totp_verify; delete_ [P; Lit "totp"; P] H_totp_disable].
Definition sessions_scope : Scope := mkScope ["sessions"]
  [W_CookieAuthSameServer; W_ExtractRealm; W_Cors]
  [post_ [] H_upsert_session; get_ [P] H_get_session_by_id; post_ [P] H_get_session;
   post_ [Lit "realms"; P; Lit "clients"] H_get_sessions_for_clients; delete_ [] H_delete_sessions;
   delete_ [Lit "expired"] H_delete_expired_sessions;
   delete_ [Lit "realms"; P] H_delete_sessions_for_realm].
Definition admins_routes : Scope := mkScope ["admins"]
  [W_AdminAuth; W_CookieAuthSameServer; W_InjectAdminRealm; W_Cors]
  [get_ [Lit "userpass"] H_list_all_userpass; get_ [] H_list_admins; post_ [] H_create_admin;
   get_ [P] H_get_admin; put_ [P] H_update_admin; delete_ [P] H_delete_admin;
   put_ [P; Lit "realms"; P] H_add_admin_to_realm;
   delete_ [P; Lit "realms"; P] H_remove_admin_from_realm].
Definition approle_login_scope : Scope := mkScope ["auth"; "approle"; "login"] [W_Cors]
  [mkResource [POST; PUT] [] H_approle_login].
Definition k8s_login_scope : Scope := mkScope ["auth"; "kubernetes"; "login"] [W_Cors]
  [post_ [] H_k8s_login].
Definition approle_admin_scope : Scope := mkScope ["auth"; "approle"]
  [W_AdminAuth; W_CookieAuthSameServer; W_Cors]
  [post_ [Lit "role"; P] H_approle_create_role;
   get_ [Lit "role"; P; Lit "role-id"] H_approle_get_role_id;
   post_ [Lit "role"; P; Lit "secret-id"] H_approle_generate_secret_id;
   post_ [Lit "role"; P; Lit "secret-id"; Lit "destroy"] H_approle_destroy_secret_id;
   delete_ [Lit "role"; P] H_approle_delete_role; get_ [Lit "role"; P] H_approle_get_role;
   get_ [Lit "role"] H_approle_list_roles].
Definition k8s_admin_scope : Scope := mkScope ["auth"; "kubernetes"]
  [W_AdminAuth; W_CookieAuthSameServer; W_Cors]
  [post_ [Lit "role"; P] H_k8s_create_role; delete_ [Lit "role"; P] H_k8s_delete_role;
   get_ [Lit "role"; P] H_k8s_get_role; get_ [Lit "role"] H_k8s_list_roles].
Definition auth_token_scope : Scope := mkScope ["auth"; "token"] [W_AppTokenExtract; W_Cors]
  [get_ [Lit "lookup-self"] H_auth_token_lookup_self;
   post_ [Lit "renew-self"] H_auth_token_renew_self;
   post_ [Lit "revoke-self"] H_auth_token_revoke_self].
Definition saml_scope : Scope := mkScope ["saml"] [W_LoginRateLimit]
  [get_ [P; Lit "login"] H_saml_login; post_ [P; Lit "acs"] H_saml_acs;
   get_ [P; Lit "metadata"] H_saml_metadata].

(** In the order of registration; [saml] when the feature and its signing key are there. *)
Definition build_app (saml : bool) : list Scope :=
  [public_scope; well_known_scope; client_scope; whoami_routes; certify_routes; sessions_scope;
   realms_crud_scope; app_scope; admins_routes; approle_login_scope; k8s_login_scope;
   approle_admin_scope; k8s_admin_scope; auth_token_scope]
  ++ (if saml then [saml_scope] else []).

(** * Routing *)

(** The path without the segments of [prefix]. *)
Fixpoint strip_segments (prefix path : list string) : option (list string) :=
  match prefix, path with
  | [], _ => Some path
  | s :: prefix', x :: path' => if decide (s = x) then strip_segments prefix' path' else None
  | _ :: _, [] => None
  end.
(** The values of the parameters of [pattern]. *)
Fixpoint match_pattern (pattern : list Segment) (path : list string) : option (list string) :=
  match pattern, path with
  | [], [] => Some []
  | Lit s :: pattern', x :: path' => if decide (s = x) then match_pattern pattern' path' else None
  | P :: pattern', x :: path' =>
      if decide (x = "") then None else (x ::.) <$> match_pattern pattern' path'
  | _, _ => None
  end.
Fixpoint recognize (method : Method) (path : list string) (services : list Resource)
    : option (Handler * list string) :=
  match services with
  | [] => None
  | r :: services' =>
      match match_pattern (rs_pattern r) path with
      | Some params =>
          if decide (method ∈ rs_methods r) then Some (rs_handler r, params)
          else recognize method path services'
      | None => recognize method path services'
      end
  end.

(** The stack a request goes through and its service, [None] for the default one. *)
Record Route := mkRoute { rt_wraps : list Wrap; rt_service : option (Handler * list string) }.
Fixpoint route_in (method : Method) (path : list string) (scopes : list Scope) : Route :=
  match scopes with
  | [] => mkRoute [] None
  | sc :: scopes' =>
      match strip_segments (sc_prefix sc) path with
      | Some rest => mkRoute (sc_wraps sc) (recognize method rest (sc_services sc))
      | None => route_in method path scopes'
      end
  end.
(** The segments of an absolute path. *)
Definition segments (path : string) : list string :=
  match str_split "/" path with
  | _ :: l => l
  | [] => []
  end.
Definition route (saml : bool) (method : Method) (path : string) : Route :=
  route_in method (segments path) (build_app saml).
