(* ===== verification/App.v ===== *)
(** The assembled server: a request goes through the middlewares of its scope to its handler
    ([server/src/server/auth_verifier.rs], with the extractors of the handlers' signatures).

    A request body is a text that the [Json] and [Form] extractors of [actix_web] decode inside
    the handler, behind the middlewares; the decoders are parameters ([RequestJson] and [Actix]).
    A request with a JSON body announces it in its content type.
    One request is served at one reading of the clock.  The request store shares the state with
    the session store, whose database it is opened on. *)
From S2P Require Import Prelude RustStd Models ClaimPolicy Jwt Passwords Totp Database AdminApi AppAuth Sessions SessionToken Jwks Middleware Login Saml SamlStore SamlSso Routes.

(** * Bodies *)
Record GetSessionsForClientsRequest := mkGetSessionsForClientsRequest {
  gcr_authenticated_clients : list AuthenticatedClientScheme;
}.
Record DeleteSessionsRequest := mkDeleteSessionsRequest { dsr_session_ids : list string }.
Record AppRoleDestroySecretIdRequest := mkDestroyRequest { adr_secret_id_accessor : string }.
Record TotpGenerateRequest := mkTotpGenerateRequest {
  tgr_username : string;
  tgr_issuer : option string;
}.
Record TotpVerifyRequest := mkTotpVerifyRequest {
  tvr_username : string;
  tvr_token : string;
  tvr_secret : string;
  tvr_issuer : option string;
}.

(** [serde_json] for the request bodies *)
Class RequestJson := {
  #[global] rj_login :: Serde LoginRequest;
  #[global] rj_certify :: Serde CertifyRequest;
  #[global] rj_upsert_session :: Serde UpsertSessionRequest;
  #[global] rj_get_session :: Serde GetSessionRequest;
  #[global] rj_clients :: Serde GetSessionsForClientsRequest;
  #[global] rj_delete_sessions :: Serde DeleteSessionsRequest;
  #[global] rj_realm :: Serde Realm;
  #[global] rj_admin :: Serde Admin;
  #[global] rj_userpass :: Serde UserPass;
  #[global] rj_totp_generate :: Serde TotpGenerateRequest;
  #[global] rj_totp_verify :: Serde TotpVerifyRequest;
  #[global] rj_approle :: Serde AppRoleRoleRequest;
  #[global] rj_secret_id :: Serde AppRoleSecretIdRequest;
  #[global] rj_destroy :: Serde AppRoleDestroySecretIdRequest;
  #[global] rj_k8s_role :: Serde K8sRoleRequest;
}.

(** What the server relies on of [actix_web]: the decoding of path segments, forms and queries,
    and the texts of its errors. *)
Class Actix := {
  path_decode : string → string;
  parse_acs_form : string → Result AcsForm string;
  (** [return_to] of [LoginQuery]; the query of the role listings *)
  parse_login_query : string → Result (option string) string;
  parse_list_query : string → Result () string;
  overflow_text : string;
}.

(** The value a response carries, before it is written as JSON. *)
Inductive AppBody :=
  | NoBody
  | PlainText (text : string)
  | Errors (errors : list string)
  | VersionOf (version : string)
  | RolesOf (roles : list string)
  | JwksOf (jwks : string)
  | LoginOf (body : LoginBody)
  | ClaimsOf (claims : ClientClaims)
  | CertificateOf (certificate : string)
  | SessionOf (session : option SessionData)
  | SessionIdsOf (session_ids : list string)
  | RealmOf (realm : Realm)
  | RealmsOf (realms : list Realm)
  | AdminOf (admin : Admin)
  | AdminsOf (admins : list Admin)
  | UserPassOf (userpass : UserPass)
  | UserPassesOf (userpasses : list UserPass)
  | TotpSecretOf (secret_and_url : string * string)
  | StatusOf (status : string)
  | AppAuthOf (auth : AppAuthData)
  | TokenOf (token : AppTokenData)
  | RoleConfigOf (config : AppRoleRoleConfigData)
  | RoleIdOf (role_id : string)
  | SecretIdOf (secret : AppRoleSecretIdData)
  | RoleNamesOf (names : list string)
  | K8sRoleOf (config : K8sRoleConfigData)
  | SamlOf (reply : SamlReply).

(** * Requests *)
Record AppRequest := mkAppRequest {
  ar_method : Method;
  ar_path : string;
  ar_query_string : string;
  ar_authorization : option string;
  (** the session cookie and the SAML request cookie *)
  ar_cookie : option string;
  ar_saml_cookie : option string;
  ar_vault_token : option string;
  ar_body : string;
}.
(** What a request draws from its surroundings. *)
Record Chance := mkChance {
  ch_clock : Clock;
  ch_http_get : string → Result Value AuthError;
  ch_fetch_jwks : string → Result (list Value) string;
  (** the verdict of the rate limiter *)
  ch_allowed : bool;
  ch_salt : string;
  ch_totp_secret : string;
  ch_token_bytes : string;
  ch_uuid1 : string;
  ch_uuid2 : string;
}.

Definition JSON_LIMIT : Z := 1000000.
Definition MAX_SAML_FORM_BYTES : Z := 256 * 1024.

(** [unsupported_route] *)
Definition unsupported_route_text : string :=
  "route not found or authentication method not supported".

Section app.
Context {S R : Type} {ST : SessionStore S} {RQ : SamlRequestStore R}.
Context {L : DbLibs} {TL : TokenLibs} {B64 : Base64} {AL : AppLibs} {SS : SsoLibs} {SC : SamlCheck}.
Context {RJ : RequestJson} {AX : Actix}.

(** The configuration fixed at start-up. *)
Record AppConfig := mkAppConfig {
  ac_server : ServerConfig;
  ac_default_username : option string;
  ac_version : string;
  ac_roles : list string;
  ac_jwks : string;
  ac_certificate_jwks : option string;
  (** the signing key of the SAML scope *)
  ac_saml : option SamlSpSigningKey;
}.

(** The session store of the state. *)
Definition with_sessions {A} (m : M S AuthError A) : M (S * R) AuthError A := λ x,
  let '(r, s) := m x.1 in (r, (s, x.2)).
#[local] Instance app_sessions : SessionStore (S * R) := {|
  ss_upsert_session now id realm c v := with_sessions (ss_upsert_session now id realm c v);
  ss_get_session now id := with_sessions (ss_get_session now id);
  ss_get_sessions_for_clients now realm c := with_sessions (ss_get_sessions_for_clients now realm c);
  ss_delete_sessions ids := with_sessions (ss_delete_sessions ids);
  ss_delete_expired_sessions now := with_sessions (ss_delete_expired_sessions now);
  ss_delete_sessions_for_realm realm := with_sessions (ss_delete_sessions_for_realm realm);
|}.
Definition AppState : Type := Server (S * R).
Definition AppM (E A : Type) : Type := M AppState E A.
Definition on_sso {A} (m : SsoM (S := S) (R := R) A) : AppM AuthError A := λ s,
  let '(r, x) := m (mkSsoServer (srv_db s) (srv_sessions s).1 (srv_sessions s).2) in
  (r, mkServer (sso_db x) (srv_jwks s) (sso_sessions x, sso_requests x)).

(** * Extractors *)
Definition json {A} `{Serde A} (req : AppRequest) : AppM HttpError A :=
  if decide (Z.of_nat (String.length (ar_body req)) > JSON_LIMIT)%Z then
    throw (StatusErr 413 overflow_text)
  else of_result (map_err (StatusErr 400) (from_json (ar_body req))).
Definition bytes (req : AppRequest) : AppM HttpError string :=
  if decide (Z.of_nat (String.length (ar_body req)) > JSON_LIMIT)%Z then
    throw (StatusErr 413 overflow_text)
  else ret (ar_body req).
Definition acs_form (req : AppRequest) : AppM HttpError AcsForm :=
  if decide (Z.of_nat (String.length (ar_body req)) > MAX_SAML_FORM_BYTES)%Z then
    throw (StatusErr 413 overflow_text)
  else of_result (map_err (StatusErr 400) (parse_acs_form (ar_body req))).
Definition query {A} (parse : string → Result A string) (req : AppRequest) : AppM HttpError A :=
  of_result (map_err (StatusErr 400) (parse (ar_query_string req))).

(** * Handlers *)
Definition answer {B} (f : B → AppBody) (m : AppM AuthError (HttpResponse B))
    : AppM HttpError (HttpResponse (Reply AppBody)) :=
  let* r := auth m in ret (mkResponse (http_status r) (Answer (f (http_body r)))).
Definition unsupported_route : AppM HttpError (HttpResponse (Reply AppBody)) :=
  ret (mkResponse 404 (Answer (Errors [unsupported_route_text]))).
Definition empty (_ : ()) : AppBody := NoBody.

(** The endpoints without state. *)
Definition version_endpoint (config : AppConfig) : HttpResponse (Reply AppBody) :=
  mkResponse 200 (Answer (VersionOf (ac_version config))).
Definition roles_endpoint (config : AppConfig) : HttpResponse (Reply AppBody) :=
  mkResponse 200 (Answer (RolesOf (ac_roles config))).
Definition jwks_well_known (config : AppConfig) : HttpResponse (Reply AppBody) :=
  mkResponse 200 (Answer (JwksOf (ac_jwks config))).
Definition certificate_jwks_well_known (config : AppConfig) : HttpResponse (Reply AppBody) :=
  match ac_certificate_jwks config with
  | Some jwks => mkResponse 200 (Answer (JwksOf jwks))
  | None => mkResponse 404
      (Answer (Errors ["certificate signing is not configured on this server"]))
  end.

(** The handlers behind an administrator's session. *)
Definition run_admin_handler (ch : Chance) (req : AppRequest) (h : Handler)
    (params : list string) : Service (S := S * R) AppBody := λ ext,
  let q := ext_admin ext in
  let now := clk_secs (ch_clock ch) in
  match h, params with
  | H_create_realm, [] => let* b := json req in answer RealmOf (on_db (api_create_realm q b))
  | H_get_realm, [id] => answer RealmOf (on_db (api_get_realm q id))
  | H_update_realm, [id] => let* b := json req in answer RealmOf (on_db (api_update_realm q id b))
  | H_delete_realm, [id] => answer empty (on_db (api_delete_realm q id))
  | H_list_realms, [] => answer RealmsOf (on_db (api_list_realms q))
  | H_create_userpass, [realm] =>
      let* b := json req in answer UserPassOf (on_db (api_create_userpass (ch_salt ch) q realm b))
  | H_get_userpass, [realm; user] => answer UserPassOf (on_db (api_get_userpass q realm user))
  | H_update_userpass, [realm; user] =>
      let* b := json req in
      answer UserPassOf (on_db (api_update_userpass (ch_salt ch) q realm user b))
  | H_delete_userpass, [realm; user] => answer empty (on_db (api_delete_userpass q realm user))
  | H_list_userpass_by_realm, [realm] =>
      answer UserPassesOf (on_db (api_list_userpass_by_realm q realm))
  | H_totp_generate, [realm] =>
      let* b := json req in
      answer TotpSecretOf (on_db (totp_generate (ch_totp_secret ch) q realm (tgr_username b)
        (tgr_issuer b)))
  | H_totp_verify, [realm] =>
      let* b := json req in
      answer StatusOf (on_db (totp_verify now q realm (tvr_username b) (tvr_secret b) (tvr_token b)
        (tvr_issuer b)))
  | H_totp_disable, [realm; user] => answer empty (on_db (totp_disable q realm user))
  | H_list_all_userpass, [] => answer UserPassesOf (on_db (api_list_all_userpass q))
  | H_list_admins, [] => answer AdminsOf (on_db (api_list_admins q))
  | H_create_admin, [] => let* b := json req in answer AdminOf (on_db (api_create_admin q b))
  | H_get_admin, [id] => answer AdminOf (on_db (api_get_admin q id))
  | H_update_admin, [id] => let* b := json req in answer AdminOf (on_db (api_update_admin q id b))
  | H_delete_admin, [id] => answer empty (on_db (api_delete_admin q id))
  | H_add_admin_to_realm, [id; realm] => answer AdminOf (on_db (add_admin_to_realm q id realm))
  | H_remove_admin_from_realm, [id; realm] =>
      answer AdminOf (on_db (remove_admin_from_realm q id realm))
  | H_approle_create_role, [name] =>
      let* b := json req in answer empty (on_db (approle_create_role (ch_uuid1 ch) name b))
  | H_approle_get_role_id, [name] => answer RoleIdOf (on_db (approle_get_role_id name))
  | H_approle_generate_secret_id, [name] =>
      let* b := json req in
      answer SecretIdOf (on_db (approle_generate_secret_id (ch_uuid1 ch) (ch_uuid2 ch) now name b))
  | H_approle_destroy_secret_id, [name] =>
      let* b := json req in
      answer empty (on_db (approle_destroy_secret_id name (adr_secret_id_accessor b)))
  | H_approle_delete_role, [name] => answer empty (on_db (approle_delete_role name))
  | H_approle_get_role, [name] => answer RoleConfigOf (on_db (approle_get_role name))
  | H_approle_list_roles, [] =>
      let* _ := query parse_list_query req in answer RoleNamesOf (on_db approle_list_roles)
  | H_k8s_create_role, [name] => let* b := json req in answer empty (on_db (k8s_create_role name b))
  | H_k8s_delete_role, [name] => answer empty (on_db (k8s_delete_role name))
  | H_k8s_get_role, [name] => answer K8sRoleOf (on_db (k8s_get_role name))
  | H_k8s_list_roles, [] =>
      let* _ := query parse_list_query req in answer RoleNamesOf (on_db k8s_list_roles)
  | _, _ => unsupported_route
  end.

(** The handlers of [/sessions]. *)
Definition run_session_handler (ch : Chance) (req : AppRequest) (h : Handler)
    (params : list string) : Service (S := S * R) AppBody := λ ext,
  let now := clk_secs (ch_clock ch) in
  match h, params with
  | H_upsert_session, [] =>
      let* b := json req in answer empty (on_sessions (api_upsert_session now b))
  | H_get_session_by_id, [id] => answer SessionOf (on_sessions (get_session_by_id now id))
  | H_get_session, [id] =>
      let* b := json req in
      answer (λ d, SessionOf (Some d)) (on_sessions (api_get_session now now id b))
  | H_get_sessions_for_clients, [realm] =>
      let* b := json req in
      answer SessionIdsOf (on_sessions (api_get_sessions_for_clients now realm
        (gcr_authenticated_clients b)))
  | H_delete_sessions, [] =>
      let* b := json req in answer empty (on_sessions (api_delete_sessions (dsr_session_ids b)))
  | H_delete_expired_sessions, [] => answer empty (on_sessions (api_delete_expired_sessions now))
  | H_delete_sessions_for_realm, [realm] =>
      answer empty (on_sessions (api_delete_sessions_for_realm realm))
  | _, _ => unsupported_route
  end.

(** The handlers of the other scopes. *)
Definition run_client_handler (config : AppConfig) (ch : Chance) (req : AppRequest) (h : Handler)
    (params : list string) : Service (S := S * R) AppBody := λ ext,
  let now := clk_secs (ch_clock ch) in
  let nanos := clk_nanos (ch_clock ch) in
  let server := ac_server config in
  match h, params with
  | H_version_endpoint, [] => ret (version_endpoint config)
  | H_roles_endpoint, [] => ret (roles_endpoint config)
  | H_jwks_well_known, [] => ret (jwks_well_known config)
  | H_certificate_jwks_well_known, [] => ret (certificate_jwks_well_known config)
  | H_login, [] => let* b := json req in answer LoginOf (login now now now server ext b)
  | H_whoami, [] => answer ClaimsOf (whoami ext)
  | H_certify, [] => let* b := json req in answer CertificateOf (certify now server ext b)
  | H_approle_login, [] =>
      let* b := bytes req in
      answer AppAuthOf (on_db (approle_login now now (ch_token_bytes ch) b))
  | H_k8s_login, [] =>
      let* b := bytes req in
      answer AppAuthOf (on_db (k8s_login now now (ch_token_bytes ch) (ch_fetch_jwks ch) b))
  | H_auth_token_lookup_self, [] =>
      answer TokenOf (on_db (auth_token_lookup_self now now (ar_vault_token req) (ext_app_token ext)))
  | H_auth_token_renew_self, [] =>
      answer AppAuthOf
        (on_db (auth_token_renew_self now now now (ar_vault_token req) (ext_app_token ext)))
  | H_auth_token_revoke_self, [] =>
      answer empty (on_db (auth_token_revoke_self (ext_app_token ext)))
  | H_saml_login, [realm] =>
      match ac_saml config with
      | Some key =>
          let* return_to := query parse_login_query req in
          answer SamlOf (on_sso (saml_login nanos nanos nanos (ch_uuid1 ch) key realm return_to))
      | None => unsupported_route
      end
  | H_saml_acs, [realm] =>
      let* form := acs_form req in
      answer SamlOf (on_sso (saml_acs (mkAcsClock nanos nanos nanos nanos nanos) (cfg_jwt server)
        (cfg_is_https server) (ar_saml_cookie req) realm form))
  | H_saml_metadata, [realm] =>
      match ac_saml config with
      | Some key => answer SamlOf (on_sso (saml_metadata key realm))
      | None => unsupported_route
      end
  | _, _ => unsupported_route
  end.

(** Which scopes a handler is registered in. *)
Definition session_handler (h : Handler) : bool :=
  bool_decide (h ∈ [H_upsert_session; H_get_session_by_id; H_get_session;
    H_get_sessions_for_clients; H_delete_sessions; H_delete_expired_sessions;
    H_delete_sessions_for_realm]).
Definition client_handler (h : Handler) : bool :=
  bool_decide (h ∈ [H_version_endpoint; H_roles_endpoint; H_jwks_well_known;
    H_certificate_jwks_well_known; H_login; H_whoami; H_certify; H_approle_login; H_k8s_login;
    H_auth_token_lookup_self; H_auth_token_renew_self; H_auth_token_revoke_self;
    H_saml_login; H_saml_acs; H_saml_metadata]).
Definition run_handler (config : AppConfig) (ch : Chance) (req : AppRequest) (h : Handler)
    (params : list string) : Service (S := S * R) AppBody :=
  if client_handler h then run_client_handler config ch req h params
  else if session_handler h then run_session_handler ch req h params
  else run_admin_handler ch req h params.

(** * The pipeline *)
Definition app_token_auth (now : Z) (header : option string) (service : Service (S := S * R) AppBody)
    : Service (S := S * R) AppBody := λ ext,
  let* r := auth (on_db (app_token_extract now now header (λ claims, ret (HttpOk claims)))) in
  match http_body r with
  | Served (Some claims) => service (insert_app_token claims ext)
  | Served None => service ext
  | TokenErrors errors => ret (mkResponse (http_status r) (Answer (Errors errors)))
  | TokenInternal text => into_response (http_status r) text
  end.

(** The request as the middlewares see it. *)
Definition pipeline_request (req : AppRequest) : Request :=
  mkRequest (ar_query_string req) (ar_authorization req) (ar_cookie req).
Definition wrap (config : AppConfig) (ch : Chance) (req : AppRequest)
    (service : Service (S := S * R) AppBody) (w : Wrap) : Service (S := S * R) AppBody :=
  let now := clk_secs (ch_clock ch) in
  match w with
  | W_EnsureAuth => ensure_auth true (ac_default_username config) service
  | W_JwtAuth => jwt_auth (ch_clock ch) (ch_http_get ch) (pipeline_request req) service
  | W_UsernamePasswordAuth => username_password (pipeline_request req) service
  | W_ExtractRealm => extract_realm (pipeline_request req) service
  | W_InjectAdminRealm => inject_admin_realm service
  | W_CookieAuthSameServer =>
      cookie_auth now (cfg_jwt (ac_server config)) (pipeline_request req) service
  | W_AdminAuth => admin_auth service
  | W_AppTokenExtract => app_token_auth now (ar_vault_token req) service
  | W_LoginRateLimit => login_rate_limit (ch_allowed ch) service
  | W_Cors => service
  end.
Definition run_service (config : AppConfig) (ch : Chance) (req : AppRequest)
    (service : option (Handler * list string)) : Service (S := S * R) AppBody := λ ext,
  match service with
  | Some (h, params) => run_handler config ch req h (path_decode <$> params) ext
  | None => unsupported_route
  end.
Definition run_route (config : AppConfig) (ch : Chance) (req : AppRequest) (rt : Route)
    : AppM HttpError (HttpResponse (Reply AppBody)) :=
  foldl (wrap config ch req) (run_service config ch req (rt_service rt)) (rt_wraps rt) no_extensions.

Definition saml_configured (config : AppConfig) : bool :=
  match ac_saml config with Some _ => true | None => false end.
Definition request_route (config : AppConfig) (req : AppRequest) : Route :=
  route (saml_configured config) (ar_method req) (ar_path req).
(** The response to a request, and the state after it: an error is a response too. *)
Definition serve (config : AppConfig) (ch : Chance) (req : AppRequest) (s : AppState)
    : HttpResponse AppBody * AppState :=
  match run_route config ch req (request_route config req) s with
  | (Ok resp, s') =>
      (mkResponse (http_status resp)
         (match http_body resp with Answer body => body | Text text => PlainText text end), s')
  | (Err (AuthErr e), s') => (mkResponse (error_response e) (PlainText (auth_error_to_string e)), s')
  | (Err (StatusErr status text), s') => (mkResponse status (PlainText text), s')
  end.
End app.
