(* ===== verification/ToyApp.v ===== *)
(** A concrete server for the witnesses: the libraries of the other toy files, bodies that no
    decoder accepts, and two clients logged in to realm ["r"]. *)
From S2P Require Import Prelude RustStd Models ClaimPolicy Jwt Passwords Totp Database DatabaseFacts Toy AdminApi AppAuth AppAuthSpec Sessions SessionToken Jwks Middleware Login ToyLogin Saml ToySaml SamlStore SamlSso ToySso Routes App.
#[local] Existing Instance toy_app_libs.
#[local] Existing Instance toy_sso_libs.
#[local] Existing Instance saml_disabled.

Definition no_json {A} : Serde A := {| to_json _ := Ok "{}"; from_json _ := Err "no decoder" |}.
Definition toy_request_json : RequestJson := {|
  rj_login := no_json; rj_certify := no_json; rj_upsert_session := no_json;
  rj_get_session := no_json; rj_clients := no_json; rj_delete_sessions := no_json;
  rj_realm := no_json; rj_admin := no_json; rj_userpass := no_json; rj_totp_generate := no_json;
  rj_totp_verify := no_json; rj_approle := no_json; rj_secret_id := no_json;
  rj_destroy := no_json; rj_k8s_role := no_json;
|}.
Definition toy_actix : Actix := {|
  path_decode s := s;
  parse_acs_form _ := Err "no form";
  parse_login_query _ := Ok None;
  parse_list_query _ := Ok ();
  overflow_text := "too large";
|}.
#[local] Existing Instance toy_request_json.
#[local] Existing Instance toy_actix.

Definition toy_app_config : AppConfig := mkAppConfig toy_config None "1" [] "{}" None None.
Definition toy_chance : Chance :=
  mkChance toy_clock toy_no_http (λ _, Err "no network") true "salt" "secret" "bytes" "u1" "u2".

(** Everybody who logs in at second 100. *)
Definition toy_open (user : string) (s : Server SessionTable) : Server SessionTable :=
  (open_session 100 100 toy_config toy_login_realm (mkClient user UsernamePassword) s).2.
Definition toy_app_state : AppState (S := SessionTable) (R := SamlTables) :=
  let s := toy_open "bob" (toy_open "alice" toy_server) in
  mkServer (srv_db s) (srv_jwks s) (srv_sessions s, empty_saml_tables).
(** The cookie of a login. *)
Definition toy_cookie (user : string) : string :=
  match (open_session 100 100 toy_config toy_login_realm (mkClient user UsernamePassword) toy_server).1 with
  | Ok resp => match http_body resp with LoginResult _ (Some cookie) => ck_value cookie | _ => "" end
  | Err _ => ""
  end.
(** Bob asks for the session of Alice. *)
Definition toy_theft : AppRequest :=
  mkAppRequest GET (join_path ["sessions"; sha256_hex (toy_cookie "alice")]) "" None
    (Some (toy_cookie "bob")) None None "".
