(* ===== verification/AppSpec.v ===== *)
(** Properties of the assembled server: which requests can change the credential store, and what
    the session endpoints give away. *)
From S2P Require Import Prelude RustStd Models ClaimPolicy Jwt Passwords Totp Database DatabaseFacts Toy AdminApi AdminApiFacts AppAuth AppAuthSpec Sessions SessionToken Jwks Middleware Login ToyLogin LoginSpec Saml ToySaml SamlStore SamlSso ToySso Routes App ToyApp.

(** * Routes *)

(** The stacks of the administration scopes. *)
Definition admin_stacks : list (list Wrap) :=
  [[W_AdminAuth; W_CookieAuthSameServer; W_InjectAdminRealm; W_Cors];
   [W_AdminAuth; W_CookieAuthSameServer; W_ExtractRealm; W_Cors];
   [W_AdminAuth; W_CookieAuthSameServer; W_Cors]].
Definition admin_stack (wraps : list Wrap) : bool := bool_decide (wraps ∈ admin_stacks).
(** The stack a handler is mounted behind. *)
Definition mounted (h : Handler) (wraps : list Wrap) : bool :=
  if client_handler h then
    match h with
    | H_approle_login | H_k8s_login => bool_decide (wraps = [W_Cors])
    | H_auth_token_lookup_self | H_auth_token_renew_self | H_auth_token_revoke_self =>
        bool_decide (wraps = [W_AppTokenExtract; W_Cors])
    | _ => true
    end
  else if session_handler h then
    bool_decide (wraps = [W_CookieAuthSameServer; W_ExtractRealm; W_Cors])
  else admin_stack wraps.

Lemma recognize_elem method path services h params :
  recognize method path services = Some (h, params) → h ∈ rs_handler <$> services.
Proof.
  induction services as [|r services IH]; [done|]. simpl.
  destruct (match_pattern _ _); [|intros Hr; right; by apply IH].
  case_decide; [|intros Hr; right; by apply IH]. intros [= <- _]. left.
Qed.
Lemma route_in_scope method path scopes h params :
  rt_service (route_in method path scopes) = Some (h, params) →
  ∃ sc, sc ∈ scopes ∧ rt_wraps (route_in method path scopes) = sc_wraps sc ∧
    h ∈ rs_handler <$> sc_services sc.
Proof.
  induction scopes as [|sc scopes IH]; [done|]. simpl. destruct (strip_segments _ _) as [rest|].
  - intros H%recognize_elem. exists sc. split; [left|done].
  - intros (sc' & ? & ? & ?)%IH. exists sc'. split; [by right|done].
Qed.
(** Every handler is behind the stack of its kind. *)
Lemma route_mounted saml method path h params :
  rt_service (route saml method path) = Some (h, params) →
  mounted h (rt_wraps (route saml method path)) = true.
Proof.
  unfold route. intros (sc & Hsc & -> & Hh)%route_in_scope.
  assert (forallb (λ sc, forallb (λ h, mounted h (sc_wraps sc)) (rs_handler <$> sc_services sc))
    (build_app saml) = true) as Hall by by destruct saml; vm_compute.
  rewrite forallb_forall in Hall. apply list_elem_of_In in Hsc. specialize (Hall sc Hsc).
  simpl in Hall. rewrite forallb_forall in Hall. by apply Hall, list_elem_of_In.
Qed.

(** * What each part of the pipeline does to the store *)

(** The configuration: everything but tokens and secret ids. *)
Definition configuration (d : Database) :=
  (db_realm d, db_userpass d, db_admin d, db_admin_realms d, db_approle_roles d, db_k8s_roles d).

Section confined.
Context {S R : Type} {ST : SessionStore S} {RQ : SamlRequestStore R}.
Context {L : DbLibs} {TL : TokenLibs} {B64 : Base64} {AL : AppLibs} {SS : SsoLibs} {SC : SamlCheck}.
Context {RJ : RequestJson} {AX : Actix}.
Implicit Types s : Server (S * R).
#[local] Existing Instance app_sessions.

Definition same_db : Server (S * R) → Server (S * R) → Prop := agree srv_db.
#[local] Instance same_db_preorder : PreOrder same_db.
Proof. apply agree_preorder. Qed.

Lemma same_on_db {E A} (m : M Database E A) : reads m → ensures same_db (on_db (S := S * R) m).
Proof. intros Hm s. by rewrite on_db_reads. Qed.
Lemma same_on_sessions {E A} (m : M (S * R) E A) : ensures same_db (on_sessions m).
Proof. intros s. unfold on_sessions. by destruct (m (srv_sessions s)). Qed.
Lemma same_on_jwks {E A} (m : M JwksManager E A) : ensures same_db (on_jwks (S := S * R) m).
Proof. intros s. unfold on_jwks. by destruct (m (srv_jwks s)). Qed.
Lemma same_auth {A} (m : SrvM (S := S * R) AuthError A) :
  ensures same_db m → ensures same_db (auth m).
Proof. apply ensures_with_err. Qed.
Lemma same_answer {B} (f : B → AppBody) (m : SrvM (S := S * R) AuthError (HttpResponse B)) :
  ensures same_db m → ensures same_db (answer f m).
Proof.
  intros Hm. unfold answer. apply ensures_bind; [apply _|by apply same_auth|].
  intros r. apply ensures_reads; [apply _|apply reads_ret].
Qed.
Lemma same_body {A} `{Serde A} (req : AppRequest) : ensures same_db (json (S := S) (R := R) (A := A) req).
Proof. unfold json. case_decide; apply ensures_reads; try apply _; eauto with reads. Qed.
Lemma same_on_sso {A} (m : SsoM (S := S) (R := R) A) :
  ensures (agree sso_db) m → ensures same_db (on_sso m).
Proof.
  intros Hm s. unfold on_sso, same_db, agree.
  specialize (Hm (mkSsoServer (srv_db s) (srv_sessions s).1 (srv_sessions s).2)).
  by destruct (m _) as [r x].
Qed.

(** ** Middlewares *)
Lemma same_process_realm rid text : ensures same_db (process_realm (S := S * R) rid text).
Proof. intros s. by rewrite process_realm_run. Qed.
Lemma same_username_password {B} req (service : Service (S := S * R) B) ext :
  (∀ ext, ensures same_db (service ext)) → ensures same_db (username_password req service ext).
Proof.
  intros Hs. unfold username_password. destruct (ext_client ext); [apply Hs|].
  destruct (extract_basic_auth_credentials _) as [[user pw]|]; [|apply Hs].
  destruct (ext_realm ext) as [realm|]; [|apply Hs].
  destruct (rap_username_password_params _) as [params|]; [|apply Hs]. intros s.
  rewrite on_db_reads by apply validate_userpass_reads.
  destruct (validate_userpass _ _ _ _).1 as [[|]|]; [destruct (upp_allow_expired_passwords _)| |];
    try apply Hs; done.
Qed.
Lemma same_jwt_auth {B} clock http_get req (service : Service (S := S * R) B) ext :
  (∀ ext, ensures same_db (service ext)) → ensures same_db (jwt_auth clock http_get req service ext).
Proof.
  intros Hs. unfold jwt_auth. destruct (ext_client ext); [apply Hs|].
  destruct (ext_realm ext) as [realm|]; [|apply Hs].
  destruct (rap_jwt_params _) as [params|]; [|apply Hs].
  apply ensures_bind; [apply _|by apply same_auth, same_on_jwks|]. intros []. intros s.
  match goal with |- context [on_jwks ?m s] => pose proof (same_on_jwks m s) as Hj end.
  destruct (on_jwks _ s) as [[c|e] s1]; simpl in Hj; (etrans; [exact Hj|apply Hs]).
Qed.
Lemma same_app_token_auth now header (service : Service (S := S * R) AppBody) ext :
  (∀ ext, ensures same_db (service ext)) → ensures same_db (app_token_auth now header service ext).
Proof.
  intros Hs. unfold app_token_auth. apply ensures_bind; [apply _| |].
  - apply same_auth, same_on_db. intros d. unfold app_token_extract.
    destruct (extract_app_token_hash header) as [h|]; [|done].
    pose proof (lookup_app_token_reads now h d) as Hd.
    destruct (lookup_app_token now h d) as [[[t|]|e] d']; exact Hd.
  - intros r. destruct (http_body r) as [errors|text|[claims|]]; try apply Hs;
      apply ensures_reads; try apply _; apply reads_ret.
Qed.

Ltac same_step :=
  lazymatch goal with
  | |- ensures _ (answer _ _) => apply same_answer
  | |- ensures _ (auth _) => apply same_auth
  | |- ensures _ (on_db _) => apply same_on_db
  | |- ensures _ (on_sessions _) => apply same_on_sessions
  | |- ensures _ (on_jwks _) => apply same_on_jwks
  | |- ensures _ (json _) => apply same_body
  | |- ensures _ (let _ := _ in _) => cbv zeta
  | |- reads (db _) => unfold db
  | |- reads _ => reads_step
  | |- _ => ensures_step
  end.
Ltac solve_same := repeat same_step.

(** ** Handlers that never write to the store *)
Lemma same_login now config ext b : ensures same_db (login (S := S * R) now now now config ext b).
Proof.
  assert (∀ realm client, ensures same_db (open_session (S := S * R) now now config realm client)) as Ho.
  { intros realm client. unfold open_session, login_claims. solve_same. }
  unfold login, session_err, check_totp. solve_same; try apply Ho; solve_same.
Qed.
Lemma same_certify now config ext b : ensures same_db (certify (S := S * R) now config ext b).
Proof. unfold certify, require_s. solve_same. Qed.
Lemma same_find_session_admin claims :
  ensures same_db (find_session_admin (S := S * R) claims).
Proof. unfold find_session_admin. solve_same; apply find_admins_reads. Qed.
Lemma same_whoami ext : ensures same_db (whoami (S := S * R) ext).
Proof. unfold whoami. solve_same. Qed.

Definition same_sso_db : SsoServer (S := S) (R := R) → SsoServer → Prop := agree sso_db.
#[local] Instance same_sso_db_preorder : PreOrder same_sso_db.
Proof. apply agree_preorder. Qed.
Lemma same_on_sso_db {A} (m : M Database AuthError A) : reads m → ensures same_sso_db (on_sso_db m).
Proof.
  intros Hm s. unfold on_sso_db. specialize (Hm (sso_db s)). destruct (m (sso_db s)) as [r d].
  simpl in Hm. by subst.
Qed.
Lemma same_on_sso_sessions {A} (m : M S AuthError A) : ensures same_sso_db (on_sso_sessions m).
Proof. intros s. unfold on_sso_sessions. by destruct (m (sso_sessions s)). Qed.
Lemma same_on_requests {A} (m : M R AuthError A) : ensures same_sso_db (on_requests m).
Proof. intros s. unfold on_requests. by destruct (m (sso_requests s)). Qed.
Ltac sso_step :=
  lazymatch goal with
  | |- ensures _ (on_sso_db _) => apply same_on_sso_db
  | |- ensures _ (on_sso_sessions _) => apply same_on_sso_sessions
  | |- ensures _ (on_requests _) => apply same_on_requests
  | |- reads (db _) => unfold db
  | |- reads _ => reads_step
  | |- ensures _ (let _ := _ in _) => cbv zeta
  | |- _ => ensures_step
  end.
Lemma same_saml_realm id : ensures same_sso_db (saml_realm (S := S) (R := R) id).
Proof. unfold saml_realm. repeat sso_step. Qed.
Lemma same_saml_login now uuid key id return_to :
  ensures same_sso_db (saml_login (S := S) (R := R) now now now uuid key id return_to).
Proof.
  unfold saml_login. apply ensures_bind; [apply _|apply same_saml_realm|]. intros [realm p].
  repeat sso_step.
Qed.
Lemma same_saml_metadata key id : ensures same_sso_db (saml_metadata (S := S) (R := R) key id).
Proof.
  unfold saml_metadata. apply ensures_bind; [apply _|apply same_saml_realm|]. intros rp.
  repeat sso_step.
Qed.
Lemma same_saml_acs clock config is_https cookie id form :
  ensures same_sso_db (saml_acs (S := S) (R := R) clock config is_https cookie id form).
Proof.
  unfold saml_acs, consume_response, open_saml_session. repeat sso_step.
  apply same_saml_realm.
Qed.

(** The client handlers that never write to the store. *)
Definition issues_tokens (h : Handler) : bool :=
  bool_decide (h ∈ [H_approle_login; H_k8s_login]).
Definition token_service (h : Handler) : bool :=
  bool_decide (h ∈ [H_auth_token_lookup_self; H_auth_token_renew_self; H_auth_token_revoke_self]).
Lemma same_unsupported : ensures same_db (unsupported_route (S := S) (R := R)).
Proof. apply ensures_reads; [apply _|apply reads_ret]. Qed.
Lemma same_client_handler config ch req h params ext :
  issues_tokens h = false → token_service h = false →
  ensures same_db (run_client_handler (S := S) (R := R) config ch req h params ext).
Proof.
  intros Hi Ht. unfold run_client_handler. cbv zeta.
  destruct h; try done; (destruct params as [|x [|]]; try apply same_unsupported).
  all: try (apply ensures_reads; [apply _|by apply reads_ret]).
  - apply ensures_bind; [apply _|apply same_body|]. intros b. apply same_answer, same_login.
  - apply same_answer, same_whoami.
  - apply ensures_bind; [apply _|apply same_body|]. intros b. apply same_answer, same_certify.
  - destruct (ac_saml config) as [key|]; [|apply same_unsupported].
    unfold query. apply ensures_with_result; [apply _|]. intros return_to _.
    apply same_answer, same_on_sso, same_saml_login.
  - apply ensures_bind; [apply _| |].
    { unfold acs_form. case_decide; apply ensures_reads; try apply _; eauto with reads. }
    intros form. apply same_answer, same_on_sso, same_saml_acs.
  - destruct (ac_saml config) as [key|]; [|apply same_unsupported].
    apply same_answer, same_on_sso, same_saml_metadata.
Qed.
Lemma same_session_handler ch req h params ext :
  ensures same_db (run_session_handler (S := S) (R := R) ch req h params ext).
Proof.
  unfold run_session_handler. cbv zeta.
  destruct h, params as [|x [|]]; try apply same_unsupported;
    solve [repeat first [ apply same_answer | apply same_on_sessions | apply same_body
             | apply ensures_bind; [apply _| |intros ?] ]].
Qed.
Lemma same_wrap config ch req service w ext :
  (∀ ext, ensures same_db (service ext)) →
  ensures same_db (wrap (S := S) (R := R) config ch req service w ext).
Proof.
  intros Hs. destruct w; unfold wrap; cbv zeta.
  - unfold ensure_auth. destruct (ext_client ext); [apply Hs|].
    apply ensures_reads; [apply _|apply reads_ret].
  - by apply same_jwt_auth.
  - by apply same_username_password.
  - unfold extract_realm. destruct (realm_param _); [|apply Hs].
    apply ensures_bind; [apply _|apply same_process_realm|]. intros r. apply Hs.
  - unfold inject_admin_realm. apply ensures_bind; [apply _|apply same_process_realm|].
    intros r. apply Hs.
  - unfold cookie_auth. repeat (apply ensures_bind; [apply _| |intros ?]; [apply same_auth;
      first [ apply same_on_sessions | (apply ensures_reads; [apply _|apply reads_of_result]) ]|]).
    apply Hs.
  - unfold admin_auth. apply ensures_bind; [apply _| |intros a; apply Hs].
    apply same_auth, same_find_session_admin.
  - by apply same_app_token_auth.
  - unfold login_rate_limit. destruct (ch_allowed ch); [apply Hs|].
    apply ensures_reads; [apply _|apply reads_ret].
  - apply Hs.
Qed.
Lemma same_stack config ch req wraps service ext :
  (∀ ext, ensures same_db (service ext)) →
  ensures same_db (foldl (wrap (S := S) (R := R) config ch req) service wraps ext).
Proof.
  revert service ext. induction wraps as [|w wraps IH]; intros service ext Hs; simpl; [apply Hs|].
  apply IH. intros ext'. by apply same_wrap.
Qed.

(** ** The administrator behind a request *)

(** The claims of the live session whose cookie is presented. *)
Definition presented_claims (now : Z) (config : JwtTokenConfig) (cookie : option string)
    : SrvM (S := S * R) AuthError ClientClaims :=
  let* cookie := of_result (ok_or (Session "No session cookie found") cookie) in
  let* session_id := of_result (session_id_from_cookie_value cookie) in
  let* session_data := on_sessions (ss_get_session now session_id) in
  let* session_data := of_result (ok_or (Session "Invalid session cookie") session_data) in
  let* cookie_value := of_result (map_err
    (λ e, Unexpected ("Failed parsing the session cookie from the store: " +:+ e))
    (cookie_from_str (sd_cookie_string session_data))) in
  of_result (validate_session_token now cookie_value (jtc_algorithm config)
    (jtc_decoding_key config)).
Lemma cookie_auth_presented {B} now config req (service : Service (S := S * R) B) ext s :
  cookie_auth now config req service ext s =
  match presented_claims now config (rq_cookie req) s with
  | (Ok claims, s1) => service (insert_claims claims ext) s1
  | (Err e, s1) => (Err (AuthErr e), s1)
  end.
Proof.
  unfold cookie_auth, presented_claims, auth, with_err, bind, of_result.
  repeat match goal with
    | |- context [match map_err ?f ?r with _ => _ end] => destruct r; simpl
    | |- context [on_sessions ?m s] => destruct (on_sessions m s) as [[]]; simpl
    end; try done.
  all: destruct (map_err _ _); simpl; try done.
  all: destruct (validate_session_token _ _ _ _); done.
Qed.
Lemma presented_same_db now config cookie : ensures same_db (presented_claims now config cookie).
Proof.
  unfold presented_claims. repeat (apply ensures_bind; [apply _| |intros ?]; [
    first [ apply same_on_sessions | (apply ensures_reads; [apply _|apply reads_of_result]) ]|]).
  apply ensures_reads; [apply _|apply reads_of_result].
Qed.

(** The request is that of an administrator: its cookie stands for a session of theirs. *)
Definition from_admin (config : AppConfig) (ch : Chance) (req : AppRequest) s : Prop :=
  ∃ claims s1 admin,
    presented_claims (clk_secs (ch_clock ch)) (cfg_jwt (ac_server config)) (ar_cookie req) s =
      (Ok claims, s1) ∧ srv_db s1 = srv_db s ∧
    find_session_admin (Some claims) s1 = (Ok admin, s1).
Lemma find_session_admin_reads claims s :
  (find_session_admin (S := S * R) claims s).2 = s.
Proof.
  assert (reads (find_session_admin (S := S * R) claims)) as Hr; [|apply Hr].
  unfold find_session_admin. solve_reads. intros s'. by rewrite on_db_reads by apply find_admins_reads.
Qed.
Lemma admin_confined config ch req (service : Service (S := S * R) AppBody) ext s :
  same_db s (cookie_auth (clk_secs (ch_clock ch)) (cfg_jwt (ac_server config)) (pipeline_request req)
               (admin_auth service) ext s).2 ∨ from_admin config ch req s.
Proof.
  rewrite cookie_auth_presented. simpl.
  pose proof (presented_same_db (clk_secs (ch_clock ch)) (cfg_jwt (ac_server config)) (ar_cookie req) s)
    as Hs. unfold from_admin.
  destruct (presented_claims _ _ _ s) as [[claims|e] s1]; [|by left]. simpl in Hs.
  unfold admin_auth, bind, auth, with_err. simpl.
  pose proof (find_session_admin_reads (Some claims) s1) as Hf.
  destruct (find_session_admin (Some claims) s1) as [[admin|e] s2] eqn:Hfind; simpl in Hf; subst s2.
  - right. exists claims, s1, admin. done.
  - by left.
Qed.
Lemma admin_stack_confined config ch req (service : Service (S := S * R) AppBody) wraps s :
  admin_stack wraps = true →
  same_db s (foldl (wrap config ch req) service wraps no_extensions s).2 ∨ from_admin config ch req s.
Proof.
  unfold admin_stack, admin_stacks.
  rewrite bool_decide_eq_true, !elem_of_cons. intros [->|[->|[->|[]%elem_of_nil]]]; simpl.
  - unfold inject_admin_realm, bind. rewrite process_realm_run.
    destruct (get_realm _ (srv_db s)).1 as [[r|]|]; try (by left). apply admin_confined.
  - unfold extract_realm. destruct (realm_param _) as [realm|]; [|apply admin_confined].
    unfold bind. rewrite process_realm_run.
    destruct (get_realm realm (srv_db s)).1 as [[r|]|]; try (by left). apply admin_confined.
  - apply admin_confined.
Qed.

(** ** Application tokens *)

(** Everything but the tokens. *)
Definition but_tokens (d : Database) := (configuration d, db_app_secret_ids d).
#[local] Instance configuration_preorder : PreOrder (agree configuration).
Proof. apply agree_preorder. Qed.
#[local] Instance but_tokens_preorder : PreOrder (agree but_tokens).
Proof. apply agree_preorder. Qed.

Lemma issue_app_token_keeps token : ensures (agree but_tokens) (Database.issue_app_token token).
Proof.
  unfold Database.issue_app_token, sql. apply ensures_with_err. intros d. unfold sql_insert. simpl.
  by destruct (bool_decide _).
Qed.
Lemma but_tokens_configuration {A} (m : ApiM A) :
  ensures (agree but_tokens) m → ensures (agree configuration) m.
Proof. intros Hm d. unfold agree in *. specialize (Hm d). unfold agree, but_tokens in Hm. congruence. Qed.
Lemma api_issue_app_token_keeps bytes now entity policies lease renewable :
  ensures (agree but_tokens) (AppAuth.issue_app_token bytes now entity policies lease renewable).
Proof.
  unfold AppAuth.issue_app_token, db. cbv zeta. apply ensures_bind; [apply _| |intros []].
  - apply ensures_with_err, issue_app_token_keeps.
  - apply ensures_reads; [apply _|apply reads_ret].
Qed.
Lemma consume_secret_id_keeps now role hash :
  ensures (agree configuration) (consume_secret_id now role hash).
Proof. unfold consume_secret_id. ensures_steps; done. Qed.
Ltac token_step :=
  lazymatch goal with
  | |- ensures _ (AppAuth.issue_app_token _ _ _ _ _ _) =>
      first [ apply api_issue_app_token_keeps
            | apply but_tokens_configuration, api_issue_app_token_keeps ]
  | |- ensures _ (consume_secret_id _ _ _) => apply consume_secret_id_keeps
  | |- ensures _ (db _) => unfold db
  | |- ensures _ (let _ := _ in _) => cbv zeta
  | |- _ => ensures_step
  end.
Lemma approle_login_keeps now bytes body :
  ensures (agree configuration) (approle_login now now bytes body).
Proof. unfold approle_login, require, get_approle_by_role_id. repeat token_step. Qed.
Lemma k8s_login_keeps now bytes fetch body :
  ensures (agree configuration) (k8s_login now now bytes fetch body).
Proof. unfold k8s_login, require, get_k8s_role. repeat token_step. Qed.
Lemma renew_app_token_keeps now hash : ensures (agree but_tokens) (renew_app_token now hash).
Proof. unfold renew_app_token. ensures_steps; done. Qed.
Lemma token_lookup_keeps now header claims :
  ensures (agree but_tokens) (auth_token_lookup_self now now header claims).
Proof. unfold auth_token_lookup_self, db. repeat token_step. Qed.
Lemma token_renew_keeps now header claims :
  ensures (agree but_tokens) (auth_token_renew_self now now now header claims).
Proof.
  unfold auth_token_renew_self, db. repeat token_step. apply renew_app_token_keeps.
Qed.
Lemma token_revoke_keeps claims : ensures (agree but_tokens) (auth_token_revoke_self claims).
Proof. unfold auth_token_revoke_self, db, revoke_app_token. repeat token_step. done. Qed.

(** A handler over the store, at the level of the server. *)
Lemma answer_on_db_keeps {B T} (f : Database → T) (g : B → AppBody) (m : ApiM (HttpResponse B)) s :
  ensures (agree f) m → f (srv_db (answer g (on_db (S := S * R) m) s).2) = f (srv_db s).
Proof.
  intros Hm. unfold answer, bind, auth, with_err, on_db. specialize (Hm (srv_db s)).
  unfold agree in Hm. destruct (m (srv_db s)) as [[r|e] d]; simpl in *; congruence.
Qed.
Lemma issue_handler_keeps config ch req h params ext s :
  issues_tokens h = true →
  configuration (srv_db (run_client_handler config ch req h params ext s).2) =
    configuration (srv_db s).
Proof.
  intros Hh. unfold run_client_handler. cbv zeta. destruct h; try done; destruct params as [|];
    try done; unfold bind, bytes; case_decide; try done; apply answer_on_db_keeps.
  - apply approle_login_keeps.
  - apply k8s_login_keeps.
Qed.
Lemma token_handler_keeps config ch req h params ext s :
  token_service h = true →
  but_tokens (srv_db (run_client_handler config ch req h params ext s).2) = but_tokens (srv_db s).
Proof.
  intros Hh. unfold run_client_handler. cbv zeta. destruct h; try done; destruct params as [|];
    try done; apply answer_on_db_keeps.
  - apply token_lookup_keeps.
  - apply token_renew_keeps.
  - apply token_revoke_keeps.
Qed.

(** The request carries a live application token. *)
Definition from_token (ch : Chance) (req : AppRequest) s : Prop :=
  ∃ raw token, ar_vault_token req = Some raw ∧
    lookup_app_token (clk_secs (ch_clock ch)) (sha256 raw) (srv_db s) = (Ok (Some token), srv_db s).
Lemma token_confined {T} (f : Database → T) ch req (service : Service (S := S * R) AppBody) ext s :
  (∀ ext s, f (srv_db (service ext s).2) = f (srv_db s)) →
  same_db s (app_token_auth (clk_secs (ch_clock ch)) (ar_vault_token req) service ext s).2 ∨
  from_token ch req s ∧
  f (srv_db (app_token_auth (clk_secs (ch_clock ch)) (ar_vault_token req) service ext s).2) =
    f (srv_db s).
Proof.
  intros Hs. unfold app_token_auth, app_token_extract, extract_app_token_hash, from_token.
  destruct (ar_vault_token req) as [raw|]; [|by left]. simpl.
  pose proof (lookup_app_token_reads (clk_secs (ch_clock ch)) (sha256 raw) (srv_db s)) as Hd.
  unfold bind, auth, with_err, on_db. simpl.
  destruct (lookup_app_token _ _ (srv_db s)) as [[[t|]|e] d] eqn:Hl; simpl in Hd; subst d; simpl.
  - right. split; [by exists raw, t|]. rewrite Hs. done.
  - by left.
  - by left.
Qed.

Lemma serve_state config ch req s :
  (serve config ch req s).2 = (run_route config ch req (request_route config req) s).2.
Proof. unfold serve. by destruct (run_route _ _ _ _ s) as [[resp|[e|st t]] s']. Qed.
#[local] Arguments run_handler : simpl never.
Lemma run_handler_client config ch req h params :
  client_handler h = true →
  run_handler (S := S) (R := R) config ch req h params = run_client_handler config ch req h params.
Proof. unfold run_handler. by intros ->. Qed.
Lemma run_route_confined config ch req rt s :
  (∀ h params, rt_service rt = Some (h, params) → mounted h (rt_wraps rt) = true) →
  let s' := (run_route config ch req rt s).2 in
  srv_db s' = srv_db s ∨ from_admin config ch req s ∨
  (∃ h params, rt_service rt = Some (h, params) ∧ issues_tokens h = true ∧
     configuration (srv_db s') = configuration (srv_db s)) ∨
  (from_token ch req s ∧ but_tokens (srv_db s') = but_tokens (srv_db s)).
Proof.
  intros Hm s'. subst s'. unfold run_route.
  destruct (rt_service rt) as [[h params]|] eqn:Hrt.
  2: { left. symmetry. apply same_stack. intros ext. apply same_unsupported. }
  specialize (Hm h params eq_refl). unfold mounted in Hm.
  destruct (client_handler h) eqn:Hc.
  - destruct (issues_tokens h) eqn:Hi; [|destruct (token_service h) eqn:Ht].
    + assert (rt_wraps rt = [W_Cors]) as -> by by destruct h; try done; apply bool_decide_eq_true in Hm.
      right. right. left. exists h, params. split; [done|]. split; [done|]. simpl.
      rewrite run_handler_client by done. by apply issue_handler_keeps.
    + assert (rt_wraps rt = [W_AppTokenExtract; W_Cors]) as ->
        by by destruct h; try done; apply bool_decide_eq_true in Hm.
      destruct (token_confined but_tokens ch req
        (run_service config ch req (Some (h, params))) no_extensions s) as [H|H].
      * intros ext s1. unfold run_service. rewrite run_handler_client by done.
        by apply token_handler_keeps.
      * by left.
      * by right; right; right.
    + left. symmetry. apply same_stack. intros ext. unfold run_service.
      rewrite run_handler_client by done. by apply same_client_handler.
  - destruct (session_handler h) eqn:Hs.
    + left. symmetry. apply same_stack. intros ext. unfold run_service, run_handler.
      rewrite Hc, Hs. apply same_session_handler.
    + destruct (admin_stack_confined config ch req
        (run_service config ch req (Some (h, params))) _ s Hm) as [H|H].
      * by left.
      * by right; left.
Qed.
End confined.

(** C1: who can change the credential store.  Whatever a request is, its method, path, headers and
    body, serving it leaves the store as it was, unless
    - its cookie stands for a live session of an administrator, or
    - it is an AppRole or Kubernetes login, which leaves realms, credentials, administrators and
      role configurations alone, or
    - it carries a live application token, and then only tokens change. *)
Theorem changes_confined {S R : Type} {ST : SessionStore S} {RQ : SamlRequestStore R} {L : DbLibs}
    {TL : TokenLibs} {B64 : Base64} {AL : AppLibs} {SS : SsoLibs} {SC : SamlCheck}
    {RJ : RequestJson} {AX : Actix} (config : AppConfig) (ch : Chance) (req : AppRequest)
    (s s' : AppState (S := S) (R := R)) (resp : HttpResponse AppBody) :
  serve config ch req s = (resp, s') →
  srv_db s' = srv_db s ∨
  from_admin config ch req s ∨
  (∃ h params, rt_service (request_route config req) = Some (h, params) ∧
     h ∈ [H_approle_login; H_k8s_login] ∧
     configuration (srv_db s') = configuration (srv_db s)) ∨
  (from_token ch req s ∧ but_tokens (srv_db s') = but_tokens (srv_db s)).
Proof.
  intros Hserve. pose proof (serve_state config ch req s) as Hs. rewrite Hserve in Hs. simpl in Hs.
  subst s'.
  destruct (run_route_confined config ch req (request_route config req) s) as [H|[H|[H|H]]].
  - intros h params. apply route_mounted.
  - by left.
  - by right; left.
  - right; right; left. destruct H as (h & params & Hh & Hi & Hc).
    exists h, params. split; [exact Hh|]. split; [|exact Hc]. by apply bool_decide_eq_true in Hi.
  - by right; right; right.
Qed.

(** * Sessions *)

(** What reading a session leaves alone: a session that is read stays, and so do the others. *)
Class SessionReadLaws (S : Type) `{ST : SessionStore S} : Prop := {
  read_other : ∀ t id id' d d' s s1 s2, id ≠ id' →
    ss_get_session t id s = (Ok (Some d), s1) → ss_get_session t id' s = (Ok (Some d'), s2) →
    ∃ s3, ss_get_session t id' s1 = (Ok (Some d'), s3);
  read_again : ∀ t id d s s1, (0 ≤ t)%Z → (0 ≤ sd_max_stale_age_seconds d)%Z →
    (t + sd_max_stale_age_seconds d ≤ i64_max)%Z →
    ss_get_session t id s = (Ok (Some d), s1) → ∃ s2, ss_get_session t id s1 = (Ok (Some d), s2);
}.
Lemma sqlite_get_session_run t id d (s s1 : SessionTable) :
  Sessions.get_session t id s = (Ok (Some d), s1) →
  ∃ row, s !! id = Some row ∧ d = row_to_session id row ∧
    let e := i64_add (sn_created_at row) (sn_max_age_seconds row) in
    (t ≤ sn_stale_at row)%Z ∧ (t ≤ e)%Z ∧
    s1 = alter (set_stale_at (i64_add t (Z.min (sn_max_stale_age_seconds row) (i64_sub e t)))) id s.
Proof.
  unfold Sessions.get_session, bind, gets, modify, ret. destruct (s !! id) as [row|]; [|done].
  case_decide as Hd; [done|]. intros [= <- <-]. exists row. split_and!; try done; lia.
Qed.
#[export] Instance sqlite_session_read_laws `{SX : Sqlx} : SessionReadLaws SessionTable.
Proof.
  split; simpl.
  - intros t id id' d d' s s1 s2 Hne (row & Hrow & -> & _ & _ & ->)%sqlite_get_session_run.
    unfold Sessions.get_session, bind, gets, modify, ret. rewrite lookup_alter_ne by done.
    destruct (s !! id') as [row'|]; [|done]. case_decide; [done|]. intros [= <- _]. by eexists.
  - intros t id d s s1 Ht Hst Hmax (row & Hrow & -> & _ & He & ->)%sqlite_get_session_run.
    unfold Sessions.get_session, bind, gets, modify, ret. rewrite lookup_alter_eq, Hrow. simpl in *.
    pose proof (wrap_i64_range (sn_created_at row + sn_max_age_seconds row)) as Hr.
    fold (i64_add (sn_created_at row) (sn_max_age_seconds row)) in Hr.
    unfold in_i64, i64_min, i64_max in *.
    rewrite (i64_sub_id _ t) by (unfold in_i64, i64_min, i64_max; lia).
    rewrite i64_add_id by (unfold in_i64, i64_min, i64_max; lia).
    rewrite decide_False by lia. by eexists.
Qed.

Section takeover.
Context {S R : Type} {ST : SessionStore S} {RQ : SamlRequestStore R}.
Context {L : DbLibs} {TL : TokenLibs} {B64 : Base64} {AL : AppLibs} {SS : SsoLibs} {SC : SamlCheck}.
Context {RJ : RequestJson} {AX : Actix}.
Implicit Types s : Server (S * R).
#[local] Existing Instance app_sessions.

Lemma presented_claims_run now config cookie s claims s1 :
  presented_claims now config (Some cookie) s = (Ok claims, s1) ↔
  ∃ id d x v, session_id_from_cookie_value cookie = Ok id ∧
    ss_get_session now id (srv_sessions s).1 = (Ok (Some d), x) ∧
    cookie_from_str (sd_cookie_string d) = Ok v ∧
    validate_session_token now v (jtc_algorithm config) (jtc_decoding_key config) = Ok claims ∧
    s1 = mkServer (srv_db s) (srv_jwks s) (x, (srv_sessions s).2).
Proof.
  unfold presented_claims, bind, of_result, on_sessions. simpl.
  unfold session_id_from_cookie_value. unfold with_sessions. split.
  - destruct (ss_get_session now _ (srv_sessions s).1) as [[[d|]|e] x] eqn:Hg; simpl; try done.
    destruct (cookie_from_str (sd_cookie_string d)) as [v|e] eqn:Hv; simpl; [|done].
    intros [= Hval <-]. by exists (sha256_hex cookie), d, x, v.
  - intros (id & d & x & v & [= <-] & -> & Hv & Hval & ->). simpl. rewrite Hv. simpl.
    by rewrite Hval.
Qed.
Lemma session_route saml id :
  id ≠ "" → has_byte "/" id = false →
  route saml GET (join_path ["sessions"; id]) =
    mkRoute (sc_wraps sessions_scope) (Some (H_get_session_by_id, [id])).
Proof.
  intros Hne Hs. unfold route, segments. rewrite split_join_path by by repeat constructor.
  simpl. by rewrite decide_False.
Qed.
Lemma serve_get_session config ch req s claims s1 id d x :
  ar_method req = GET → ar_path req = join_path ["sessions"; id] → id ≠ "" →
  has_byte "/" id = false → path_decode id = id → realm_param (ar_query_string req) = None →
  presented_claims (clk_secs (ch_clock ch)) (cfg_jwt (ac_server config)) (ar_cookie req) s =
    (Ok claims, s1) →
  ss_get_session (clk_secs (ch_clock ch)) id (srv_sessions s1).1 = (Ok (Some d), x) →
  serve config ch req s =
    (mkResponse 200 (SessionOf (Some d)), mkServer (srv_db s1) (srv_jwks s1) (x, (srv_sessions s1).2)).
Proof.
  intros Hm Hp Hne Hsl Hdec Hq Hc Hg. unfold serve, request_route. rewrite Hm, Hp.
  rewrite session_route by done. unfold run_route. simpl. unfold extract_realm. simpl. rewrite Hq.
  rewrite cookie_auth_presented. simpl. rewrite Hc. unfold run_handler. simpl. rewrite Hdec.
  unfold run_session_handler, answer, auth, with_err, bind, on_sessions, get_session_by_id. simpl.
  unfold bind, with_sessions. by rewrite Hg.
Qed.
End takeover.

(** C24: any session takes over any other.  Whoever is logged in, to whatever realm and without
    administering anything, is answered the whole record of every live session they name, with
    the cookie in it: [GET /sessions/{id}] of the session of somebody else answers the record
    whose text holds the cookie, and a request that presents that cookie then has the claims of
    its owner.  So a user of any realm becomes an administrator as soon as one is logged in; the
    ids of a client's sessions are listed to everybody by the same scope. *)
Theorem any_session_takes_over_any_other {S R : Type} {ST : SessionStore S} {LAWS : SessionReadLaws S}
    {RQ : SamlRequestStore R} {L : DbLibs} {TL : TokenLibs} {B64 : Base64} {AL : AppLibs}
    {SS : SsoLibs} {SC : SamlCheck} {RJ : RequestJson} {AX : Actix} (config : AppConfig)
    (ch : Chance) (req : AppRequest) (s s1 s1' : AppState (S := S) (R := R))
    (claims owner : ClientClaims) (own cookie id : string) (d : SessionData) (x : S) :
  let now := clk_secs (ch_clock ch) in
  let jwt := cfg_jwt (ac_server config) in
  (** the attacker *)
  ar_cookie req = Some own → presented_claims now jwt (Some own) s = (Ok claims, s1) →
  (** the victim *)
  presented_claims now jwt (Some cookie) s = (Ok owner, s1') →
  session_id_from_cookie_value cookie = Ok id → session_id_from_cookie_value own ≠ Ok id →
  ss_get_session now id (srv_sessions s).1 = (Ok (Some d), x) →
  cookie_from_str (sd_cookie_string d) = Ok cookie →
  (0 ≤ now)%Z → (0 ≤ sd_max_stale_age_seconds d)%Z →
  (now + sd_max_stale_age_seconds d ≤ i64_max)%Z →
  (** the request *)
  ar_method req = GET → ar_path req = join_path ["sessions"; id] → id ≠ "" →
  has_byte "/" id = false → path_decode id = id → realm_param (ar_query_string req) = None →
  ∃ s2 s3, serve config ch req s = (mkResponse 200 (SessionOf (Some d)), s2) ∧
    presented_claims now jwt (Some cookie) s2 = (Ok owner, s3).
Proof.
  intros now jwt Hown Hatt Hvic Hid Hne Hg Hck Hn0 Hst Hmax Hm Hp Hid0 Hsl Hdec Hq.
  pose proof Hatt as Hatt'.
  apply presented_claims_run in Hatt' as (ida & da & xa & va & Hida & Hga & _ & _ & ->).
  apply presented_claims_run in Hvic as (id' & d' & x' & v & Hid' & Hg' & Hv & Hval & _).
  assert (id' = id) as -> by congruence. assert (d' = d) as -> by congruence.
  assert (ida ≠ id) as Hne' by congruence.
  destruct (read_other now ida id da d _ _ _ Hne' Hga Hg) as [x3 Hg3].
  destruct (read_again now id d xa x3 Hn0 Hst Hmax Hg3) as [x4 Hg4].
  rewrite <-Hown in Hatt.
  rewrite (serve_get_session config ch req s claims _ id d x3 Hm Hp Hid0 Hsl Hdec Hq Hatt Hg3).
  eexists _, _. split; [reflexivity|]. apply presented_claims_run.
  exists id, d, x4, v. by split_and!.
Qed.

Section toy.
#[local] Existing Instance toy_app_libs.
#[local] Existing Instance toy_sso_libs.
#[local] Existing Instance saml_disabled.
#[local] Existing Instance toy_request_json.
#[local] Existing Instance toy_actix.

Lemma Ok_inj_eq {A E} (a b : A) : Ok (E := E) a = Ok b → a = b.
Proof. by intros [= ->]. Qed.
Definition toy_presents (user : string) :=
  presented_claims 100 toy_token_config (Some (toy_cookie user)) toy_app_state.
Definition toy_session (user : string) :=
  ss_get_session 100 (sha256_hex (toy_cookie user)) (srv_sessions toy_app_state).1.
Definition read_session (r : Result (option SessionData) AuthError) : option (string * Z) :=
  match r with
  | Ok (Some d) => Some (sd_cookie_string d, sd_max_stale_age_seconds d)
  | _ => None
  end.
Lemma read_session_inv d cookie age :
  read_session (Ok (Some d)) = Some (cookie, age) →
  sd_cookie_string d = cookie ∧ sd_max_stale_age_seconds d = age.
Proof. by intros [= -> ->]. Qed.
Definition subject (r : Result ClientClaims AuthError) : option string :=
  match r with Ok claims => rc_sub (cc_registered claims) | Err _ => None end.
End toy.

Lemma changes_confined_witness :
  let _ := toy_app_libs in let _ := toy_sso_libs in let _ := saml_disabled in
  let _ := toy_request_json in let _ := toy_actix in
  ∃ resp s', serve toy_app_config toy_chance toy_theft toy_app_state = (resp, s') ∧
    (srv_db s' = srv_db toy_app_state ∨
     from_admin toy_app_config toy_chance toy_theft toy_app_state ∨
     (∃ h params, rt_service (request_route toy_app_config toy_theft) = Some (h, params) ∧
        h ∈ [H_approle_login; H_k8s_login] ∧
        configuration (srv_db s') = configuration (srv_db toy_app_state)) ∨
     (from_token toy_chance toy_theft toy_app_state ∧
        but_tokens (srv_db s') = but_tokens (srv_db toy_app_state))).
Proof.
  intros AL SL SC RJ AX.
  destruct (serve toy_app_config toy_chance toy_theft toy_app_state) as [resp s'] eqn:Hs.
  exists resp, s'. split; [done|]. exact (changes_confined _ _ _ _ _ _ Hs).
Defined.

Lemma any_session_takes_over_any_other_witness :
  let _ := toy_app_libs in let _ := toy_sso_libs in let _ := saml_disabled in
  let _ := toy_request_json in let _ := toy_actix in
  ∃ d owner s2 s3, subject (Ok owner) = Some "alice" ∧
    serve toy_app_config toy_chance toy_theft toy_app_state =
      (mkResponse 200 (SessionOf (Some d)), s2) ∧
    presented_claims 100 toy_token_config (Some (toy_cookie "alice")) s2 = (Ok owner, s3).
Proof.
  intros AL SL SC RJ AX.
  assert (subject (toy_presents "bob").1 = Some "bob") as Hb by by vm_compute.
  assert (subject (toy_presents "alice").1 = Some "alice") as Ha by by vm_compute.
  assert (read_session (toy_session "alice").1 = Some (toy_cookie "alice", 600%Z)) as Hd
    by by vm_compute.
  assert (sha256_hex (toy_cookie "bob") ≠ sha256_hex (toy_cookie "alice")) as Hne
    by by apply (bool_decide_unpack _); vm_compute.
  assert (has_byte "/" (toy_cookie "alice") = false) as Hsl by by vm_compute.
  destruct (toy_presents "bob") as [[claims|] s1] eqn:Hatt; [|discriminate Hb].
  destruct (toy_presents "alice") as [[owner|] s1'] eqn:Hvic; [|discriminate Ha].
  destruct (toy_session "alice") as [[[d|]|] x] eqn:Hg; try discriminate Hd.
  apply read_session_inv in Hd as [Hck Hst].
  destruct (any_session_takes_over_any_other toy_app_config toy_chance toy_theft toy_app_state
    s1 s1' claims owner (toy_cookie "bob") (toy_cookie "alice") (sha256_hex (toy_cookie "alice")) d x)
    as (s2 & s3 & H1 & H2).
  - reflexivity.
  - exact Hatt.
  - exact Hvic.
  - reflexivity.
  - exact (λ H, Hne (Ok_inj_eq _ _ H)).
  - exact Hg.
  - by rewrite Hck.
  - discriminate.
  - by rewrite Hst.
  - by rewrite Hst.
  - reflexivity.
  - reflexivity.
  - done.
  - exact Hsl.
  - reflexivity.
  - reflexivity.
  - exists d, owner, s2, s3. split; [exact Ha|]. split; [exact H1|exact H2].
Defined.
