(* ===== verification/Parameters.v ===== *)
(** What the server is started with ([server/src/server/parameters]), the signing keys and the
    key set it publishes ([server/src/session/jwt.rs]), and the TLS acceptor
    ([server/src/tls/openssl_config.rs]).  Files, the environment, the PEM parsers and OpenSSL are
    parameters. *)
From S2P Require Import Prelude RustStd Models ClaimPolicy Jwt Passwords Totp Database AdminApi Sessions SessionToken Saml SamlStore SamlSso.
From stdpp Require Import pretty.

(** * Parameters *)
Inductive DatabaseBackend := PostgreSQL | SQLite | MySQL | Redis.
#[export] Instance DatabaseBackend_eq_dec : EqDecision DatabaseBackend.
Proof. solve_decision. Defined.

Record DatabaseParams := mkDatabaseParams {
  dp_backend : DatabaseBackend;
  dp_connection_url : string;
  dp_max_connections : Z;
  dp_min_connections : Z;
  dp_connect_timeout_secs : Z;
  dp_idle_timeout_secs : Z;
  dp_auto_init_schema : bool;
}.
Definition DatabaseParams_default : DatabaseParams :=
  mkDatabaseParams SQLite "sqlite::memory:" 10 0 30 600 true.
Definition with_backend (backend : DatabaseBackend) (connection_url : string) : DatabaseParams :=
  let d := DatabaseParams_default in
  mkDatabaseParams backend connection_url (dp_max_connections d) (dp_min_connections d)
    (dp_connect_timeout_secs d) (dp_idle_timeout_secs d) (dp_auto_init_schema d).
Definition params_postgres : string → DatabaseParams := with_backend PostgreSQL.
Definition params_sqlite : string → DatabaseParams := with_backend SQLite.
Definition params_mysql : string → DatabaseParams := with_backend MySQL.
Definition params_redis : string → DatabaseParams := with_backend Redis.
Definition params_in_memory : DatabaseParams := params_sqlite "sqlite::memory:".
Definition with_auto_init_schema (p : DatabaseParams) (auto_init : bool) : DatabaseParams :=
  mkDatabaseParams (dp_backend p) (dp_connection_url p) (dp_max_connections p)
    (dp_min_connections p) (dp_connect_timeout_secs p) (dp_idle_timeout_secs p) auto_init.

(** Paths of the PEM files. *)
Record TlsParams := mkTlsParams {
  tls_server_private_key : string;
  tls_server_certificate : string;
  tls_server_ca_chain : string;
  tls_client_ca_cert_chain : option string;
  tls_cipher_suites : option string;
}.
Record SessionJwtParams := mkSessionJwtParams {
  sjp_jwt_ec_private_key : string;
  sjp_jwt_ec_public_key : string;
}.
Record CertificateJwtParams := mkCertificateJwtParams {
  cjp_cert_ec_private_key : string;
  cjp_cert_ec_public_key : string;
}.
Record SamlSpParams := mkSamlSpParams {
  ssp_saml_rsa_private_key : string;
  ssp_saml_certificate : string;
}.
Record DevSeedParams := mkDevSeedParams {
  dsp_realm_id : string;
  dsp_admin_username : string;
  dsp_admin_password : option string;
  dsp_admin_password_env : option string;
  dsp_totp_username : option string;
  dsp_totp_password : option string;
  dsp_totp_secret : option string;
}.
(** Without the proxy, the log, the admin UI and the rate limits, which the model does not read. *)
Record ServerParams := mkServerParams {
  sp_host_name : string;
  sp_host_port : Z;
  sp_tls_params : option TlsParams;
  sp_default_username : option string;
  sp_session_jwt_params : option SessionJwtParams;
  sp_certificate_jwt_params : option CertificateJwtParams;
  sp_saml_sp_params : option SamlSpParams;
  sp_database_params : option DatabaseParams;
  sp_sessions_store_params : option DatabaseParams;
  (** [cleanup_interval_seconds] *)
  sp_stale_session_collector_config : option Z;
  sp_dev_seed : option DevSeedParams;
  sp_roles : list string;
}.

(** * The surroundings of a start *)
Class Surroundings `{TL : TokenLibs} := {
  (** [std::fs::read_to_string], [std::fs::read], [std::env::var] *)
  read_to_string : string → Result string string;
  read_file : string → Result string string;
  env_var : string → option string;
  encoding_key_from_ec_pem : string → Result EncodingKey string;
  decoding_key_from_ec_pem : string → Result DecodingKey string;
  (** [x509_cert]: a [SubjectPublicKeyInfo], of a certificate and on its own; the bytes of its key,
      when there is a whole number of them *)
  Spki : Type;
  certificate_from_pem : string → Result Spki string;
  spki_from_public_key_pem : string → Result Spki string;
  subject_public_key : Spki → option string;
  (** [URL_SAFE_NO_PAD.encode] *)
  base64_url : string → string;
  (** the body [HttpResponse::json] makes of a value *)
  value_text : Value → string;
  (** Connecting to a server or opening a file; the URL is read first on SQLite and Redis *)
  parse_sqlite_url : string → Result () string;
  redis_open : string → Result () string;
  redis_ping : string → Result () string;
  connect : DatabaseParams → Result () string;
  bind_address : string → Result () string;
}.

(** * Keys *)
Section keys.
Context {TL : TokenLibs} {SU : Surroundings}.

Definition resolve_admin_password (p : DevSeedParams) : Result string AuthError :=
  match dsp_admin_password_env p with
  | Some env_name => ok_or (Init ("dev_seed: environment variable '" +:+ env_name +:+
                       "' (admin_password_env) is not set")) (env_var env_name)
  | None => ok_or (Init "dev_seed: neither `admin_password` nor `admin_password_env` is set")
              (dsp_admin_password p)
  end.

(** [read_to_string(path)] then the PEM parser, with the two messages of each caller. *)
Definition read_key {K} (what : string) (kind : string) (from_pem : string → Result K string)
    (path : string) : Result K AuthError :=
  let? pem := map_err (λ e, Init ("Failed to read " +:+ what +:+ " PEM file at " +:+ path +:+ ": "
    +:+ e)) (read_to_string path) in
  map_err (λ e, Init ("Failed to create " +:+ kind +:+ " from PEM at " +:+ path +:+ ": " +:+ e))
    (from_pem pem).

Definition session_public_key_path (p : ServerParams) : option string :=
  match sp_session_jwt_params p with
  | Some auth_params => Some (sjp_jwt_ec_public_key auth_params)
  | None => tls_server_certificate <$> sp_tls_params p
  end.
Definition session_private_key_path (p : ServerParams) : option string :=
  match sp_session_jwt_params p with
  | Some auth_params => Some (sjp_jwt_ec_private_key auth_params)
  | None => tls_server_private_key <$> sp_tls_params p
  end.
Definition get_jwt_decoding_key (p : ServerParams) : Result DecodingKey AuthError :=
  let? path := ok_or (Init "No JWT decoding key: set session_jwt_params or tls_params")
                 (session_public_key_path p) in
  read_key "JWT decoding key" "decoding key" decoding_key_from_ec_pem path.
Definition get_jwt_encoding_key (p : ServerParams) : Result EncodingKey AuthError :=
  let? path := ok_or (Init "No JWT encoding key: set session_jwt_params or tls_params")
                 (session_private_key_path p) in
  read_key "JWT encoding key" "encoding key" encoding_key_from_ec_pem path.
Definition get_certificate_decoding_key (p : ServerParams) : Result (option DecodingKey) AuthError :=
  match sp_certificate_jwt_params p with
  | None => Ok None
  | Some cert_params => map_ok Some (read_key "certificate decoding key" "certificate decoding key"
      decoding_key_from_ec_pem (cjp_cert_ec_public_key cert_params))
  end.
Definition get_certificate_encoding_key (p : ServerParams) : Result (option EncodingKey) AuthError :=
  match sp_certificate_jwt_params p with
  | None => Ok None
  | Some cert_params => map_ok Some (read_key "certificate encoding key" "certificate encoding key"
      encoding_key_from_ec_pem (cjp_cert_ec_private_key cert_params))
  end.

(** * The published key set *)
Definition spki_from_pem (pem : string) : Result Spki AuthError :=
  if str_contains "BEGIN CERTIFICATE" pem then
    map_err (λ e, Config ("Failed to parse X.509 certificate: " +:+ e)) (certificate_from_pem pem)
  else
    map_err (λ e, Config ("Failed to parse public key PEM: " +:+ e)) (spki_from_public_key_pem pem).

(** [(&point[1..33], &point[33..65])] of a 65-byte point that starts with 0x04 *)
Definition ec_p256_xy (spki : Spki) : Result (string * string) AuthError :=
  let? point := ok_or (Config "EC public key BIT STRING is not byte-aligned")
                  (subject_public_key spki) in
  if decide (String.length point ≠ 65 ∨ String.get 0 point ≠ Some "004"%char) then
    Err (Config ("Expected 65-byte uncompressed P-256 point, got "
      +:+ pretty (String.length point) +:+ " bytes"))
  else Ok (String.substring 1 32 point, String.substring 33 32 point).

Definition build_jwks_from_pem (pem : string) : Result Value AuthError :=
  let? spki := spki_from_pem pem in
  let? xy := ec_p256_xy spki in
  let kid := sha256_hex (xy.1 +:+ xy.2) in
  let jwk := VObject [
    ("kty", VString "EC"); ("crv", VString "P-256"); ("use", VString "sig");
    ("alg", VString "ES256"); ("kid", VString kid);
    ("x", VString (base64_url xy.1)); ("y", VString (base64_url xy.2))] in
  Ok (VObject [("keys", VArray [jwk])]).
End keys.

(** * The SAML signing key ([saml/sp_signing_key.rs]) *)
Section saml_key.
Context {TL : TokenLibs} {SU : Surroundings} {SS : SsoLibs}.
Definition read_pem_file (path : string) : Result string AuthError :=
  map_err (λ e, Init ("saml_sp_params: cannot read " +:+ path +:+ ": " +:+ e)) (read_file path).
Definition load_sp_signing_key (params : SamlSpParams) : Result SamlSpSigningKey AuthError :=
  let? key_pem := read_pem_file (ssp_saml_rsa_private_key params) in
  let? certificate_pem := read_pem_file (ssp_saml_certificate params) in
  parse_sp_signing_key key_pem certificate_pem.
End saml_key.

(** * TLS *)
Inductive SslVersion := TLS1_2 | TLS1_3.
Inductive SslProfile := MozillaModernV5 | MozillaIntermediateV5.
(** The settings an acceptor is given, in order. *)
Inductive SslSetting `{SsoLibs} :=
  | MinProto (v : SslVersion)
  | MaxProto (v : SslVersion)
  | CipherList (list : string)
  | CipherSuites (list : string)
  | PrivateKey (key : PKey)
  | Certificate (cert : X509)
  | ExtraChainCert (cert : X509)
  | VerifyCertStore (certs : list X509)
  | VerifyPeer.
Record SslAcceptorBuilder `{SsoLibs} := mkAcceptor {
  acc_profile : SslProfile;
  acc_settings : list SslSetting;
}.
Arguments mkAcceptor {_} acc_profile acc_settings.
Class OpenSsl `{SsoLibs} := {
  (** [SslAcceptor::mozilla_*(SslMethod::tls())], and whether OpenSSL takes a setting *)
  new_acceptor : SslProfile → Result () string;
  takes : SslAcceptorBuilder → SslSetting → Result () string;
  stack_from_pem : string → Result (list X509) string;
  (** [X509StoreBuilder::new], and [add_cert] to the certificates already in the store *)
  new_store : Result () string;
  add_cert : list X509 → X509 → Result () string;
}.

Section tls.
Context {TL : TokenLibs} {SU : Surroundings} {SS : SsoLibs} {OS : OpenSsl}.

Definition TLS13_CIPHER_SUITES : list string :=
  ["TLS_AES_128_GCM_SHA256"; "TLS_AES_256_GCM_SHA384"; "TLS_CHACHA20_POLY1305_SHA256";
   "TLS_AES_128_CCM_SHA256"; "TLS_AES_128_CCM_8_SHA256"].
Definition is_tls13_cipher (cipher : string) : bool := bool_decide (cipher ∈ TLS13_CIPHER_SUITES).

Definition set_ssl (what : string) (setting : SslSetting) (builder : SslAcceptorBuilder)
    : Result SslAcceptorBuilder AuthError :=
  let? _ := map_err (λ e, Config (what +:+ ": " +:+ e)) (takes builder setting) in
  Ok (mkAcceptor (acc_profile builder) (acc_settings builder ++ [setting])).

(** [suites.split(':').filter(|s| !s.trim().is_empty())] *)
Definition suite_names (suites : string) : list string :=
  filter (λ s, trim s ≠ "") (str_split ":" suites).
Definition configure_cipher_suites (cipher_suites : option string)
    : Result SslAcceptorBuilder AuthError :=
  match cipher_suites with
  | Some suites =>
      let? _ := map_err
        (λ e, Config ("Failed to create SslAcceptorBuilder with mozilla_modern_v5: " +:+ e))
        (new_acceptor MozillaModernV5) in
      let builder := mkAcceptor MozillaModernV5 [] in
      let tls13_ciphers := filter (λ c, is_tls13_cipher c = true) (suite_names suites) in
      let tls12_ciphers := filter (λ c, is_tls13_cipher c = false) (suite_names suites) in
      let? builder :=
        (if decide (tls12_ciphers = []) then Ok builder
         else
           let? builder := set_ssl "Failed to set minimum protocol version to TLS 1.2"
                             (MinProto TLS1_2) builder in
           set_ssl "Failed to set TLS 1.2 cipher list"
             (CipherList (String.concat ":" tls12_ciphers)) builder) in
      if decide (tls13_ciphers = []) then Ok builder
      else
        let? builder :=
          (if decide (tls12_ciphers = []) then
             set_ssl "Failed to set minimum protocol version to TLS 1.3" (MinProto TLS1_3) builder
           else Ok builder) in
        set_ssl "Failed to set TLS 1.3 cipher suites"
          (CipherSuites (String.concat ":" tls13_ciphers)) builder
  | None =>
      let? _ := map_err
        (λ e, Config ("Failed to create SslAcceptorBuilder with mozilla_intermediate_v5: " +:+ e))
        (new_acceptor MozillaIntermediateV5) in
      let builder := mkAcceptor MozillaIntermediateV5 [] in
      let? builder := set_ssl "Failed to set minimum protocol version to TLS 1.2"
                        (MinProto TLS1_2) builder in
      set_ssl "Failed to set maximum protocol version to TLS 1.3" (MaxProto TLS1_3) builder
  end.

(** [for cert in chain { f(cert)? }] *)
Fixpoint each_cert {B} (f : X509 → B → Result B AuthError) (chain : list X509) (b : B)
    : Result B AuthError :=
  match chain with
  | [] => Ok b
  | cert :: chain => let? b := f cert b in each_cert f chain b
  end.
Definition configure_client_cert_verification (ca_certs : list X509)
    (builder : SslAcceptorBuilder) : Result SslAcceptorBuilder AuthError :=
  let? _ := map_err (λ e, Config
    ("Failed to create X509StoreBuilder for client certificate verification: " +:+ e)) new_store in
  let? store := each_cert (λ cert certs,
    let? _ := map_err (λ e, Config ("Failed to add CA certificate to X509StoreBuilder: " +:+ e))
                (add_cert certs cert) in
    Ok (certs ++ [cert])) ca_certs [] in
  let? builder := set_ssl "Failed to set verify cert store in SslAcceptorBuilder"
                    (VerifyCertStore store) builder in
  Ok (mkAcceptor (acc_profile builder) (acc_settings builder ++ [VerifyPeer])).

Definition create_openssl_acceptor (tls_config : TlsParams) : Result SslAcceptorBuilder AuthError :=
  let? builder := configure_cipher_suites (tls_cipher_suites tls_config) in
  let? server_private_key_pem := map_err
    (λ e, Config ("Failed to read server private key file: " +:+ e))
    (read_to_string (tls_server_private_key tls_config)) in
  let? server_private_key := map_err
    (λ e, Config ("Failed to load server private key from PEM: " +:+ e))
    (private_key_from_pem server_private_key_pem) in
  let? builder := set_ssl "Failed to set server private key in SslAcceptorBuilder"
                    (PrivateKey server_private_key) builder in
  let cert_path := tls_server_certificate tls_config in
  let? server_cert_pem := map_err
    (λ e, Config ("Failed to read server certificate file at " +:+ cert_path +:+ ": " +:+ e))
    (read_to_string cert_path) in
  let? server_cert := map_err
    (λ e, Config ("Failed to load server certificate from PEM at " +:+ cert_path +:+ ": " +:+ e))
    (x509_from_pem server_cert_pem) in
  let chain_path := tls_server_ca_chain tls_config in
  let? server_ca_chain_pem := map_err
    (λ e, Config ("Failed to read server CA chain file at " +:+ chain_path +:+ ": " +:+ e))
    (read_to_string chain_path) in
  let? server_ca_chain := map_err
    (λ e, Config ("Failed to load server certificate chain from PEM at " +:+ chain_path +:+ ": "
      +:+ e)) (stack_from_pem server_ca_chain_pem) in
  let? builder := set_ssl "Failed to set server certificate in SslAcceptorBuilder"
                    (Certificate server_cert) builder in
  let? builder := each_cert (λ cert, set_ssl
    "Failed to add certificate to server CA chain in SslAcceptorBuilder" (ExtraChainCert cert))
    server_ca_chain builder in
  let? client_ca_cert_chain :=
    match tls_client_ca_cert_chain tls_config with
    | Some path =>
        let? pem := map_err
          (λ e, Config ("Failed to read client CA certificate chain file: " +:+ e))
          (read_file path) in
        map_err (λ e, Config ("Failed to load client CA certificate chain from PEM: " +:+ e))
          (stack_from_pem pem)
    | None => Ok server_ca_chain
    end in
  configure_client_cert_verification client_ca_cert_chain builder.
End tls.
