(* ===== verification/Bootstrap.v ===== *)
(** Starting the server ([server/src/server/auth_verifier.rs], [prepare_auth_verifier]): opening
    the stores ([server/src/{database,session,saml}/factory.rs]), the development seed
    ([server/src/server/dev_seed.rs]), the keys, and the configuration the scopes run with.

    The credential store behind the configured URL has the type [D] and the operations of its
    backend, the instance [DB]; what it holds before the start is the initial state.  The session
    and request stores keep their rows when they are opened.  A server built with the features
    [openssl] and [saml] is modelled; background tasks and log lines are not. *)
From S2P Require Import Prelude RustStd Models ClaimPolicy Jwt Passwords Totp Database AdminApi AppAuth Sessions SessionToken Jwks Middleware Login Saml SamlStore SamlSso Routes App SqlServers PgDatabase MyDatabase Parameters.
From stdpp Require Import pretty.

(** [dyn Database]: the operations a start uses. *)
Class DatabaseStore (D : Type) := {
  dbs_init : string → M D AuthDbError ();
  dbs_get_realm : string → M D AuthDbError (option Realm);
  dbs_create_realm : Realm → M D AuthDbError ();
  dbs_get_userpass : string → string → M D AuthDbError (option UserPass);
  dbs_create_userpass : UserPass → M D AuthDbError ();
  dbs_get_admin : string → M D AuthDbError (option Admin);
  dbs_create_admin : Admin → M D AuthDbError ();
  dbs_is_totp_enabled : string → string → M D AuthDbError (option bool);
  dbs_enable_totp : string → string → string → string → M D AuthDbError ();
}.
#[export] Instance sqlite_database_store `{DbLibs} : DatabaseStore Database := {|
  dbs_init := init;
  dbs_get_realm := get_realm;
  dbs_create_realm := create_realm;
  dbs_get_userpass := get_userpass;
  dbs_create_userpass := create_userpass;
  dbs_get_admin := get_admin;
  dbs_create_admin := create_admin;
  dbs_is_totp_enabled := is_totp_enabled;
  dbs_enable_totp := enable_totp;
|}.
#[export] Instance postgres_database_store `{L : DbLibs, PL : PgLibs} : DatabaseStore PgDatabase := {|
  dbs_init := pg_init;
  dbs_get_realm := pg_get_realm;
  dbs_create_realm := pg_create_realm;
  dbs_get_userpass := pg_get_userpass;
  dbs_create_userpass := pg_create_userpass;
  dbs_get_admin := pg_get_admin;
  dbs_create_admin := pg_create_admin;
  dbs_is_totp_enabled := pg_is_totp_enabled;
  dbs_enable_totp := pg_enable_totp;
|}.
#[export] Instance mysql_database_store `{L : DbLibs, MY : MySql, SV : MyServer} :
  DatabaseStore MyDatabase := {|
  dbs_init := my_init;
  dbs_get_realm := my_get_realm;
  dbs_create_realm := my_create_realm;
  dbs_get_userpass := my_get_userpass;
  dbs_create_userpass := my_create_userpass;
  dbs_get_admin := my_get_admin;
  dbs_create_admin := my_create_admin;
  dbs_is_totp_enabled := my_is_totp_enabled;
  dbs_enable_totp := my_enable_totp;
|}.

(** What a start draws: the salts of the three passwords it may hash, and a TOTP secret. *)
Record Draws := mkDraws {
  dr_init_salt : string;
  dr_admin_salt : string;
  dr_totp_salt : string;
  dr_totp_secret : string;
}.

Section bootstrap.
Context {D : Type} {DB : DatabaseStore D}.
Context {L : DbLibs} {TL : TokenLibs} {SU : Surroundings} {SS : SsoLibs} {OS : OpenSsl}.

(** * Stores *)
Definition create_database (salt : string) (params : DatabaseParams) : M D AuthDbError () :=
  match dp_backend params with
  | Redis => throw (DbInit "Redis database backend is not supported")
  | backend =>
      (if decide (backend = SQLite) then
         of_result (map_err (λ e, DbInit ("Invalid SQLite URL " +:+ dp_connection_url params +:+ ": "
           +:+ e)) (parse_sqlite_url (dp_connection_url params)))
       else ret ()) ;;;
      of_result (map_err DbInit (connect params)) ;;;
      (if dp_auto_init_schema params then dbs_init salt else ret ())
  end.

Definition backend_name (backend : DatabaseBackend) : string :=
  match backend with
  | PostgreSQL => "PostgreSQL" | SQLite => "SQLite" | MySQL => "MySQL" | Redis => "Redis"
  end.
(** The connections of the session store and of the request store, which go through the same
    steps. *)
Definition open_store (params : DatabaseParams) : Result () AuthError :=
  let failed e := Init ("Failed to connect to " +:+ backend_name (dp_backend params) +:+ ": " +:+ e) in
  match dp_backend params with
  | Redis =>
      let url := dp_connection_url params in
      let? _ := map_err (λ e, Init ("Failed to create Redis client: " +:+ e)) (redis_open url) in
      let? _ := map_err failed (connect params) in
      map_err (λ e, Init ("Failed to ping Redis: " +:+ e)) (redis_ping url)
  | _ => map_err failed (connect params)
  end.
(** Whether a collector was started with the store. *)
Definition create_session_store_with_collector (params : DatabaseParams) : Result bool AuthError :=
  let? _ := open_store params in
  Ok (bool_decide (dp_backend params ≠ Redis)).
Definition create_saml_request_store (params : DatabaseParams) : Result () AuthError :=
  open_store params.

(** * The development seed *)
Definition store {A} (m : M D AuthDbError A) : M D AuthError A := with_err auth_error_of_db m.
(** [.map_err(|e| AuthError::Init(format!("dev_seed: {what}: {e}")))] *)
Definition seeding {A} (what : string) (m : M D AuthDbError A) : M D AuthError A :=
  with_err (λ e, Init ("dev_seed: " +:+ what +:+ ": " +:+ db_error_to_string e)) m.
Definition seeding_r {A} (what : string) (r : Result A AuthError) : Result A AuthError :=
  map_err (λ e, Init ("dev_seed: " +:+ what +:+ ": " +:+ auth_error_to_string e)) r.

Definition seeded_realm (id : string) : Realm :=
  mkRealm id (mkRealmAuthParams None (Some (mkUsernamePasswordParams false)) None None)
    3600 3600 (365 * 24 * 3600).
Definition seeded_admin (username : string) (realms : list string) : Admin :=
  mkAdmin username realms (Some username) None None None None None None None.

Definition seed_realm (seed : DevSeedParams) : M D AuthError () :=
  let* realm := store (dbs_get_realm (dsp_realm_id seed)) in
  if decide (realm = None) then
    seeding ("failed to create realm '" +:+ dsp_realm_id seed +:+ "'")
      (dbs_create_realm (seeded_realm (dsp_realm_id seed)))
  else ret ().
Definition seed_admin_credential (salt : string) (seed : DevSeedParams) : M D AuthError () :=
  let username := dsp_admin_username seed in
  let* existing := store (dbs_get_userpass ADMIN_REALM username) in
  if decide (existing = None) then
    let* admin_password := of_result (resolve_admin_password seed) in
    let* hashed := of_result (seeding_r ("failed to hash password for '" +:+ username +:+ "'")
      (hash_password_with_argon2 salt admin_password)) in
    seeding ("failed to create credential for '" +:+ username +:+ "'")
      (dbs_create_userpass (mkUserPass ADMIN_REALM username hashed None true [] None))
  else ret ().
Definition seed_admin (seed : DevSeedParams) : M D AuthError () :=
  let username := dsp_admin_username seed in
  let* existing := store (dbs_get_admin username) in
  if decide (existing = None) then
    seeding ("failed to create admin '" +:+ username +:+ "'")
      (dbs_create_admin (seeded_admin username [dsp_realm_id seed]))
  else ret ().
Definition seed_totp_credential (salt : string) (realm totp_username totp_password : string)
    : M D AuthError () :=
  let* existing := store (dbs_get_userpass realm totp_username) in
  if decide (existing = None) then
    let* hashed := of_result (seeding_r
      ("failed to hash password for TOTP user '" +:+ totp_username +:+ "'")
      (hash_password_with_argon2 salt totp_password)) in
    seeding ("failed to create TOTP user '" +:+ totp_username +:+ "'")
      (dbs_create_userpass (mkUserPass realm totp_username hashed None false [] None))
  else ret ().
Definition seed_totp_admin (totp_username : string) : M D AuthError () :=
  let* existing := store (dbs_get_admin totp_username) in
  if decide (existing = None) then
    seeding ("failed to create admin record for TOTP user '" +:+ totp_username +:+ "'")
      (dbs_create_admin (seeded_admin totp_username []))
  else ret ().
Definition seed_totp_secret (draw : string) (seed : DevSeedParams) : Result string AuthError :=
  match dsp_totp_secret seed with
  | Some s => Ok s
  | None =>
      let? totps := seeding_r "failed to generate TOTP secret" (Totps_new draw) in
      Ok (totp_get_secret_base32 totps)
  end.
Definition seed_totp (draw : string) (seed : DevSeedParams) (totp_username : string)
    : M D AuthError () :=
  let* enabled := store (dbs_is_totp_enabled (dsp_realm_id seed) totp_username) in
  if default false enabled then ret ()
  else
    let* secret := of_result (seed_totp_secret draw seed) in
    seeding ("failed to enable TOTP for '" +:+ totp_username +:+ "'")
      (dbs_enable_totp (dsp_realm_id seed) totp_username secret (dsp_realm_id seed)).
Definition seed_dev_realm_admin (draws : Draws) (seed : DevSeedParams) : M D AuthError () :=
  seed_realm seed ;;;
  seed_admin_credential (dr_admin_salt draws) seed ;;;
  seed_admin seed ;;;
  match dsp_totp_username seed, dsp_totp_password seed with
  | Some totp_username, Some totp_password =>
      seed_totp_credential (dr_totp_salt draws) (dsp_realm_id seed) totp_username totp_password ;;;
      seed_totp_admin totp_username ;;;
      seed_totp (dr_totp_secret draws) seed totp_username
  | _, _ => ret ()
  end.

(** * Start *)
Definition default_database_params : DatabaseParams :=
  mkDatabaseParams SQLite "sqlite::auth_verifier.db" 5 1 5 300 true.
Definition database_params (p : ServerParams) : DatabaseParams :=
  default default_database_params (sp_database_params p).
Definition session_store_params (p : ServerParams) : DatabaseParams :=
  default (database_params p) (sp_sessions_store_params p).

Definition publish (what1 what2 : string) (path : string) : Result string AuthError :=
  let? pem := map_err (λ e, Init ("Failed to read " +:+ what1 +:+ " public key PEM for JWKS (" +:+
    path +:+ "): " +:+ e)) (read_to_string path) in
  let? jwks := map_err (λ e, Init ("Failed to build " +:+ what2 +:+ ": " +:+ auth_error_to_string e))
                 (build_jwks_from_pem pem) in
  Ok (value_text jwks).
Definition session_jwks (p : ServerParams) : Result string AuthError :=
  let? path := ok_or (Init "No JWKS public key: set session_jwt_params or tls_params")
                 (session_public_key_path p) in
  publish "JWT" "JWKS" path.
Definition session_jwt_config (p : ServerParams) : Result JwtTokenConfig AuthError :=
  let? encoding_key := get_jwt_encoding_key p in
  let? decoding_key := get_jwt_decoding_key p in
  Ok (mkJwtTokenConfig ES256 encoding_key decoding_key).
Definition certificate_jwt_config (p : ServerParams) : Result (option JwtTokenConfig) AuthError :=
  let? encoding_key := get_certificate_encoding_key p in
  let? decoding_key := get_certificate_decoding_key p in
  Ok (match encoding_key, decoding_key with
      | Some encoding_key, Some decoding_key =>
          Some (mkJwtTokenConfig ES256 encoding_key decoding_key)
      | _, _ => None
      end).
Definition certificate_jwks (p : ServerParams) : Result (option string) AuthError :=
  transpose ((λ c, publish "certificate" "certificate JWKS" (cjp_cert_ec_public_key c))
    <$> sp_certificate_jwt_params p).

(** What runs: the address, the TLS acceptor, the configuration of the scopes, and whether
    sessions are collected. *)
Record Prepared := mkPrepared {
  pre_address : string;
  pre_acceptor : option SslAcceptorBuilder;
  pre_config : AppConfig;
  pre_collector : bool;
}.
Definition bind_server (p : ServerParams) (address : string)
    : Result (option SslAcceptorBuilder) AuthError :=
  match sp_tls_params p with
  | Some tls_params =>
      let? acceptor := create_openssl_acceptor tls_params in
      let? _ := map_err (λ e, Init ("Failed binding the OpenSSL TLS connector: " +:+ e))
                  (bind_address address) in
      Ok (Some acceptor)
  | None =>
      let? _ := map_err (λ e, Init ("Failed binding plain HTTP: " +:+ e)) (bind_address address) in
      Ok None
  end.
Definition prepare_auth_verifier (version : string) (draws : Draws) (p : ServerParams)
    : M D AuthError Prepared :=
  let address := sp_host_name p +:+ ":" +:+ pretty (sp_host_port p) in
  let* saml_sp_signing_key := of_result (transpose (load_sp_signing_key <$> sp_saml_sp_params p)) in
  store (create_database (dr_init_salt draws) (database_params p)) ;;;
  match sp_dev_seed p with Some seed => seed_dev_realm_admin draws seed | None => ret () end ;;;
  let* collector := of_result (create_session_store_with_collector (session_store_params p)) in
  (if saml_sp_signing_key then of_result (create_saml_request_store (session_store_params p))
   else ret ()) ;;;
  let* jwt_token_config := of_result (session_jwt_config p) in
  let* jwks_data := of_result (session_jwks p) in
  let* cert_jwt_config := of_result (certificate_jwt_config p) in
  let* cert_jwks_data := of_result (certificate_jwks p) in
  let* acceptor := of_result (bind_server p address) in
  ret (mkPrepared address acceptor
    (mkAppConfig
       (mkServerConfig jwt_token_config cert_jwt_config (bool_decide (is_Some (sp_tls_params p))))
       (sp_default_username p) version (sp_roles p) jwks_data cert_jwks_data saml_sp_signing_key)
    collector).
End bootstrap.
