(* ===== verification/ToyStart.v ===== *)
(** A concrete installation for the witnesses: one key pair in two files, an OpenSSL that takes
    every setting, a SQLite file, and the configurations of a production and of a development
    server. *)
From S2P Require Import Prelude RustStd Models ClaimPolicy Jwt Passwords Totp Database DatabaseFacts Toy AdminApi AppAuth AppAuthSpec Sessions SessionToken Jwks Middleware Login ToyLogin Saml ToySaml SamlStore SamlSso ToySso Routes App ToyApp Parameters Bootstrap.
#[local] Existing Instance toy_app_libs.
#[local] Existing Instance toy_sso_libs.

(** An uncompressed point. *)
Definition toy_coordinate : string := "0123456789abcdef0123456789abcdef".
Definition toy_point : string := String "004"%char (toy_coordinate +:+ toy_coordinate).
Definition toy_surroundings : Surroundings := {|
  read_to_string path := if starts_with "/etc/" path then Ok "key." else Err "not found";
  read_file _ := Ok "pem";
  env_var name := if decide (name = "ADMIN_PASSWORD") then Some "s3cret" else None;
  encoding_key_from_ec_pem pem := Ok pem;
  decoding_key_from_ec_pem pem := Ok pem;
  Spki := string;
  certificate_from_pem _ := Err "no certificate";
  spki_from_public_key_pem _ := Ok toy_point;
  subject_public_key s := Some s;
  base64_url s := s;
  value_text _ := "{}";
  parse_sqlite_url _ := Ok ();
  redis_open _ := Err "no Redis";
  redis_ping _ := Err "no Redis";
  connect _ := Ok ();
  bind_address _ := Ok ();
|}.
Definition toy_openssl : OpenSsl := {|
  new_acceptor _ := Ok ();
  takes _ _ := Ok ();
  stack_from_pem _ := Ok [()];
  new_store := Ok ();
  add_cert _ _ := Ok ();
|}.
#[local] Existing Instance toy_surroundings.
#[local] Existing Instance toy_openssl.

Definition toy_seed : DevSeedParams :=
  mkDevSeedParams "acme" "acme-admin" None (Some "ADMIN_PASSWORD") (Some "acme-totp")
    (Some "totp-pw") (Some "JBSWY3DPEHPK3PXP").
Definition toy_draws : Draws := mkDraws "salt" "salt1" "salt2" "generated".
Definition toy_draws' : Draws := mkDraws "other" "other1" "other2" "other3".
Definition toy_tls : TlsParams := mkTlsParams "/etc/tls.key" "/etc/tls.crt" "/etc/ca.crt" None None.
Definition toy_server_params (seed : option DevSeedParams) : ServerParams :=
  mkServerParams "0.0.0.0" 8443 (Some toy_tls) None
    (Some (mkSessionJwtParams "/etc/jwt.key" "/etc/jwt.pub"))
    (Some (mkCertificateJwtParams "/etc/cert.key" "/etc/cert.pub"))
    (Some (mkSamlSpParams "/etc/saml.key" "/etc/saml.crt"))
    (Some (params_sqlite "sqlite::memory:")) None (Some 600%Z) seed ["user"].
Definition toy_start (seed : option DevSeedParams) :=
  prepare_auth_verifier "1" toy_draws (toy_server_params seed) empty_database.
Definition toy_config_of (r : Result Prepared AuthError) : option AppConfig :=
  match r with Ok pre => Some (pre_config pre) | Err _ => None end.

(** A decoder that accepts a login without a code. *)
Definition login_json : Serde LoginRequest :=
  {| to_json _ := Ok "{}"; from_json _ := Ok (mkLoginRequest None) |}.
Definition toy_login_json : RequestJson := {|
  rj_login := login_json; rj_certify := no_json; rj_upsert_session := no_json;
  rj_get_session := no_json; rj_clients := no_json; rj_delete_sessions := no_json;
  rj_realm := no_json; rj_admin := no_json; rj_userpass := no_json; rj_totp_generate := no_json;
  rj_totp_verify := no_json; rj_approle := no_json; rj_secret_id := no_json;
  rj_destroy := no_json; rj_k8s_role := no_json;
|}.
Definition toy_first_login : AppRequest :=
  mkAppRequest POST (join_path ["login"]) "realm=_" (Some "Basic admin:change_me") None None None "{}".
Definition toy_first_list (token : string) : AppRequest :=
  mkAppRequest GET (join_path ["admins"; "realms"]) "" None (Some token) None None "".
