(* ===== verification/BootstrapSpec.v ===== *)
(** Starting the server ([Bootstrap.v]): what the development seed does to the store, and what a
    start guarantees. *)
From S2P Require Import Prelude Simulation RustStd Models ClaimPolicy Jwt Passwords Totp Database DatabaseFacts DatabaseSpec Toy AdminApi AppAuth Sessions SessionToken Jwks Middleware Login ToyLogin Saml SamlStore SamlSso Routes App Parameters Bootstrap ToyStart.

(** * The development seed *)
(** Rows are added, and nothing else happens. *)
Record adds_only (d d' : Database) : Prop := {
  add_realm : db_realm d ⊆ db_realm d';
  add_userpass : db_userpass d ⊆ db_userpass d';
  add_admin : db_admin d ⊆ db_admin d';
  add_admin_realms : db_admin_realms d ⊆ db_admin_realms d';
  add_rest : (db_app_tokens d, db_approle_roles d, db_app_secret_ids d, db_k8s_roles d) =
             (db_app_tokens d', db_approle_roles d', db_app_secret_ids d', db_k8s_roles d');
}.
#[export] Instance adds_only_preorder : PreOrder adds_only.
Proof.
  split; [by split|]. intros d1 d2 d3 [] []. split; try (by etrans); congruence.
Qed.

Section seed.
Context {L : DbLibs} {LAWS : DbLaws} {TL : TokenLibs} {SU : Surroundings}.
Implicit Types (seed : DevSeedParams) (d : Database).

(** A row inserted under a fresh key. *)
Ltac adds_row := apply ensures_with_err, ensures_sql_insert; [apply _|];
  intros d _ Hfresh _; try apply bool_decide_eq_true in Hfresh; split; simpl; try done;
  try by apply insert_subseteq.
Lemma create_realm_adds realm : ensures adds_only (create_realm realm).
Proof. unfold create_realm. ensures_step. adds_row. Qed.
Lemma create_userpass_adds u : ensures adds_only (create_userpass u).
Proof. unfold create_userpass. do 2 ensures_step. adds_row. Qed.
Lemma admin_realms_add a l :
  ensures adds_only (for_each (λ r, sql (insert_admin_realm a r)) l).
Proof.
  apply ensures_for_each; [apply _|]. intros r. unfold sql, insert_admin_realm. adds_row. set_solver.
Qed.
Lemma create_admin_adds a : ensures adds_only (create_admin a).
Proof.
  unfold create_admin. ensures_step. apply ensures_bind; [apply _| |intros _].
  - adds_row.
  - apply admin_realms_add.
Qed.

(** Everything before TOTP is enabled adds rows. *)
Ltac sqlite_store := cbn [dbs_init dbs_get_realm dbs_create_realm dbs_get_userpass
  dbs_create_userpass dbs_get_admin dbs_create_admin dbs_is_totp_enabled dbs_enable_totp
  sqlite_database_store].
Ltac seed_adds := sqlite_store;
  repeat first [ apply create_realm_adds | apply create_userpass_adds | apply create_admin_adds
               | ensures_step ].
Lemma seed_realm_adds seed : ensures adds_only (seed_realm (D := Database) seed).
Proof. unfold seed_realm, store, seeding. seed_adds. Qed.
Lemma seed_admin_credential_adds salt seed :
  ensures adds_only (seed_admin_credential (D := Database) salt seed).
Proof. unfold seed_admin_credential, store, seeding. seed_adds. Qed.
Lemma seed_admin_adds seed : ensures adds_only (seed_admin (D := Database) seed).
Proof. unfold seed_admin, store, seeding. seed_adds. Qed.
Lemma seed_totp_credential_adds salt realm u p :
  ensures adds_only (seed_totp_credential (D := Database) salt realm u p).
Proof. unfold seed_totp_credential, store, seeding. seed_adds. Qed.
Lemma seed_totp_admin_adds u : ensures adds_only (seed_totp_admin (D := Database) u).
Proof. unfold seed_totp_admin, store, seeding. seed_adds. Qed.

(** ** Looking up on a well-formed store *)
Lemma get_realm_found d id :
  db_wf d → ∃ o, get_realm id d = (Ok o, d) ∧ (o = None ↔ db_realm d !! id = None).
Proof.
  intros Hwf. pose proof (get_realm_is_ok d id Hwf) as Hok.
  pose proof (get_realm_reads id d) as Hr. pose proof (get_realm_eq id d) as He.
  destruct (get_realm id d) as [[o|e] d']; simpl in Hok, Hr, He; [|done]. subst d'.
  exists o. split; [done|]. destruct (db_realm d !! id) as [row|]; cbn -[row_to_realm] in He.
  - destruct (from_json _); simpl in He; [|done]. by injection He as ->.
  - by injection He as ->.
Qed.
Lemma get_userpass_found d r u :
  db_wf d → ∃ o, get_userpass r u d = (Ok o, d) ∧ (o = None ↔ db_userpass d !! (r, u) = None).
Proof.
  intros Hwf. pose proof (get_userpass_is_ok d r u Hwf) as Hok.
  unfold get_userpass, bind, gets, ret, of_result in *.
  destruct (db_userpass d !! (r, u)) as [row|]; [|by eexists].
  destruct (deserialize_roles _ _) as [roles|]; [|done].
  destruct (deserialize_extra_claims _ _) as [c|]; [|done]. by eexists.
Qed.
Lemma get_admin_found d id :
  db_wf d → ∃ o, get_admin id d = (Ok o, d) ∧ (o = None ↔ db_admin d !! id = None).
Proof.
  intros Hwf. pose proof (get_admin_is_ok d id Hwf) as Hok.
  unfold get_admin, bind, gets, ret, of_result in *.
  destruct (db_admin d !! id) as [row|]; [|by eexists].
  destruct (row_to_admin _ _ _) as [adm|]; [|done]. by eexists.
Qed.

(** A step looks for a row and creates it when it is not there. *)
Lemma look_or_create {A} `{!∀ o : option A, Decision (o = None)} (find : DbM (option A))
    (create : M Database AuthError ()) (o : option A) d :
  find d = (Ok o, d) →
  (let* existing := with_err auth_error_of_db find in
   if decide (existing = None) then create else ret ()) d =
  match o with None => create d | Some _ => (Ok (), d) end.
Proof.
  intros Hf. unfold bind, with_err. rewrite Hf. simpl.
  by destruct o; destruct (decide _).
Qed.

(** A step that brings [P] about, and does nothing once it holds. *)
Definition settles (P : Database → Prop) (m : M Database AuthError ()) : Prop :=
  ∀ d, db_wf d →
    db_wf (m d).2 ∧ (P d → m d = (Ok (), d)) ∧ ((m d).1 = Ok () → P (m d).2).
Lemma settles_ret : settles (λ _, True) (ret ()).
Proof. done. Qed.
Lemma settles_seq (P1 P2 : Database → Prop) (m1 m2 : M Database AuthError ()) :
  settles P1 m1 → settles P2 m2 → (∀ d, P1 d → P1 (m2 d).2) →
  settles (λ d, P1 d ∧ P2 d) (m1 ;;; m2).
Proof.
  intros H1 H2 Hkeep d Hwf. destruct (H1 d Hwf) as (Hwf1 & Hskip1 & Hdo1). unfold bind.
  destruct (m1 d) as [[[]|e] d1]; simpl in *.
  - destruct (H2 d1 Hwf1) as (Hwf2 & Hskip2 & Hdo2). split_and!; [done| |].
    + intros [HP1 HP2]. specialize (Hskip1 HP1). simplify_eq. auto.
    + intros Hok. auto.
  - split_and!; [done| |done]. intros [HP1 _]. by specialize (Hskip1 HP1).
Qed.
Lemma settles_look_or_create {A} `{!∀ o : option A, Decision (o = None)} (P : Database → Prop)
    (find : DbM (option A)) (create : M Database AuthError ()) :
  (∀ d, db_wf d → ∃ o, find d = (Ok o, d) ∧ (o ≠ None ↔ P d)) →
  (∀ d, db_wf d → db_wf (create d).2) →
  (∀ d, (create d).1 = Ok () → P (create d).2) →
  settles P (let* existing := with_err auth_error_of_db find in
             if decide (existing = None) then create else ret ()).
Proof.
  intros Hfind Hwf Hdo d Hd. destruct (Hfind d Hd) as (o & Hf & Ho).
  rewrite (look_or_create find create o d Hf). destruct o as [a|].
  - split_and!; [done..|]. intros _. by apply Ho.
  - split_and!; [by apply Hwf| |apply Hdo]. intros HP. by apply Ho in HP.
Qed.

(** ** The steps *)
Definition realm_present id d : Prop := is_Some (db_realm d !! id).
Definition userpass_present r u d : Prop := is_Some (db_userpass d !! (r, u)).
Definition admin_present id d : Prop := is_Some (db_admin d !! id).

Lemma create_realm_has realm d :
  (create_realm realm d).1 = Ok () → realm_present (realm_id realm) (create_realm realm d).2.
Proof.
  unfold create_realm, bind, of_result, with_err, sql_insert, realm_present.
  destruct (serialize_auth_params realm); [|done]. simpl.
  destruct (realm_id_glob _), (bool_decide _); simpl; try done. intros _.
  by rewrite lookup_insert_eq.
Qed.
Lemma create_userpass_has u d :
  (create_userpass u d).1 = Ok () →
  userpass_present (up_realm u) (up_username u) (create_userpass u d).2.
Proof.
  destruct (serialize_userpass_ok u) as (rt & ct & Hr & Hc).
  rewrite (create_userpass_run u rt ct) by done. unfold userpass_present.
  destruct (db_userpass d !! _) as [?|] eqn:Hfresh; [done|].
  destruct (db_realm d !! _) as [?|]; [|done]. intros _. simpl. by rewrite lookup_insert_eq.
Qed.
Lemma create_admin_has a d :
  (create_admin a d).1 = Ok () → admin_present (adm_id a) (create_admin a d).2.
Proof.
  destruct (serialize_digital_credentials_ok a) as [t Ht]. rewrite (create_admin_run a t) by done.
  destruct (db_admin d !! adm_id a) as [?|]; [done|]. intros _.
  eapply lookup_weaken_is_Some; [|eapply add_admin, admin_realms_add]. simpl.
  by rewrite lookup_insert_eq.
Qed.
Lemma with_err_fst {E F A} (f : E → F) (m : M Database E A) d (a : A) :
  (with_err f m d).1 = Ok a ↔ (m d).1 = Ok a.
Proof. unfold with_err. destruct (m d) as [[x|e] d']; simpl; naive_solver. Qed.
Lemma with_err_snd {E F A} (f : E → F) (m : M Database E A) d : (with_err f m d).2 = (m d).2.
Proof. unfold with_err. by destruct (m d). Qed.

Lemma found_iff {A B} (o : option A) (x : option B) : (o = None ↔ x = None) → (o ≠ None ↔ is_Some x).
Proof. intros H. rewrite <-not_eq_None_Some. tauto. Qed.

Lemma seed_realm_settles seed : settles (realm_present (dsp_realm_id seed)) (seed_realm seed).
Proof.
  unfold seed_realm, store, seeding. sqlite_store. apply settles_look_or_create.
  - intros d Hwf. destruct (get_realm_found d (dsp_realm_id seed) Hwf) as (o & Hf & Ho).
    exists o. split; [done|]. by apply found_iff.
  - intros d Hwf. rewrite with_err_snd. by apply create_realm_wf.
  - intros d. rewrite with_err_fst, with_err_snd. apply (create_realm_has (seeded_realm _)).
Qed.

(** Hashing a password and storing the credential. *)
Lemma seed_credential_settles (f : AuthDbError → AuthError) r u (hash : Result string AuthError) c :
  (∀ h, hash = Ok h → utf8_valid h = true) →
  settles (userpass_present r u)
    (let* existing := with_err auth_error_of_db (get_userpass r u) in
     if decide (existing = None) then
       let* hashed := of_result hash in
       with_err f (create_userpass (mkUserPass r u hashed None c [] None))
     else ret ()).
Proof.
  intros Hutf. apply settles_look_or_create.
  - intros d Hwf. destruct (get_userpass_found d r u Hwf) as (o & Hf & Ho).
    exists o. split; [done|]. by apply found_iff.
  - intros d Hwf. unfold bind, of_result. destruct hash as [h|e]; [|done].
    rewrite with_err_snd. apply create_userpass_wf; [|done]. by apply Hutf.
  - intros d. unfold bind, of_result. destruct hash as [h|e]; [|done].
    rewrite with_err_fst, with_err_snd. apply (create_userpass_has (mkUserPass r u h None c [] None)).
Qed.
Lemma bind_ext {E A B} (m : M Database E A) (k k' : A → M Database E B) d :
  (∀ a d, k a d = k' a d) → bind m k d = bind m k' d.
Proof. intros Hk. unfold bind. by destruct (m d) as [[a|e] d']. Qed.
Lemma settles_ext (P : Database → Prop) (m m' : M Database AuthError ()) :
  (∀ d, m d = m' d) → settles P m → settles P m'.
Proof. intros Hm H d Hwf. rewrite <-Hm. by apply H. Qed.
Lemma seed_admin_credential_settles salt seed :
  settles (userpass_present ADMIN_REALM (dsp_admin_username seed)) (seed_admin_credential salt seed).
Proof.
  pose (hash := let? password := resolve_admin_password seed in
    seeding_r ("failed to hash password for '" +:+ dsp_admin_username seed +:+ "'")
      (hash_password_with_argon2 salt password)).
  eapply settles_ext; [|apply (seed_credential_settles
    (λ e, Init ("dev_seed: " +:+ ("failed to create credential for '" +:+ dsp_admin_username seed +:+ "'")
       +:+ ": " +:+ db_error_to_string e)) ADMIN_REALM (dsp_admin_username seed) hash true)].
  - intros d. apply bind_ext. intros o d'. destruct (decide _); [|done].
    unfold bind, of_result, hash. by destruct (resolve_admin_password seed).
  - intros h. unfold hash, seeding_r. destruct (resolve_admin_password seed); [|done]. simpl.
    intros Hh%map_err_ok. by eapply hash_password_utf8.
Qed.
Lemma seed_totp_credential_settles salt r u p :
  settles (userpass_present r u) (seed_totp_credential salt r u p).
Proof.
  apply seed_credential_settles. intros h Hh%map_err_ok. by eapply hash_password_utf8.
Qed.
Lemma seed_admin_record_settles (f : AuthDbError → AuthError) u realms :
  settles (admin_present u)
    (let* existing := with_err auth_error_of_db (get_admin u) in
     if decide (existing = None) then with_err f (create_admin (seeded_admin u realms)) else ret ()).
Proof.
  apply settles_look_or_create.
  - intros d Hwf. destruct (get_admin_found d u Hwf) as (o & Hf & Ho).
    exists o. split; [done|]. by apply found_iff.
  - intros d Hwf. rewrite with_err_snd. by apply create_admin_wf.
  - intros d. rewrite with_err_fst, with_err_snd. apply (create_admin_has (seeded_admin u realms)).
Qed.
Lemma seed_admin_settles seed : settles (admin_present (dsp_admin_username seed)) (seed_admin seed).
Proof. apply seed_admin_record_settles. Qed.
Lemma seed_totp_admin_settles u : settles (admin_present u) (seed_totp_admin u).
Proof. apply seed_admin_record_settles. Qed.

(** ** The whole seed *)
(** The rows it is about, and the steps that create them; enabling TOTP comes last. *)
Definition seeded_rows seed d : Prop :=
  realm_present (dsp_realm_id seed) d ∧
  userpass_present ADMIN_REALM (dsp_admin_username seed) d ∧
  admin_present (dsp_admin_username seed) d ∧
  match dsp_totp_username seed, dsp_totp_password seed with
  | Some u, Some _ => userpass_present (dsp_realm_id seed) u d ∧ admin_present u d
  | _, _ => True
  end.
Definition seed_rows (draws : Draws) seed : M Database AuthError () :=
  seed_realm seed ;;;
  seed_admin_credential (dr_admin_salt draws) seed ;;;
  seed_admin seed ;;;
  match dsp_totp_username seed, dsp_totp_password seed with
  | Some u, Some p =>
      seed_totp_credential (dr_totp_salt draws) (dsp_realm_id seed) u p ;;; seed_totp_admin u
  | _, _ => ret ()
  end.
Definition seed_last (draws : Draws) seed : M Database AuthError () :=
  match dsp_totp_username seed, dsp_totp_password seed with
  | Some u, Some _ => seed_totp (dr_totp_secret draws) seed u
  | _, _ => ret ()
  end.
Lemma bind_assoc {E A B C} (m : M Database E A) (k : A → M Database E B) (k' : B → M Database E C) d :
  bind (bind m k) k' d = bind m (λ a, bind (k a) k') d.
Proof. unfold bind. by destruct (m d) as [[a|e] d']. Qed.
Lemma seed_split draws seed d :
  seed_dev_realm_admin draws seed d = (seed_rows draws seed ;;; seed_last draws seed) d.
Proof.
  unfold seed_dev_realm_admin, seed_rows, seed_last.
  do 3 (rewrite bind_assoc; apply bind_ext; intros [] ?).
  destruct (dsp_totp_username seed), (dsp_totp_password seed); try done. by rewrite bind_assoc.
Qed.

Lemma has_realm_adds id (m : M Database AuthError ()) d :
  ensures adds_only m → realm_present id d → realm_present id (m d).2.
Proof. intros Hm H. eapply lookup_weaken_is_Some, add_realm, Hm. done. Qed.
Lemma has_userpass_adds r u (m : M Database AuthError ()) d :
  ensures adds_only m → userpass_present r u d → userpass_present r u (m d).2.
Proof. intros Hm H. eapply lookup_weaken_is_Some, add_userpass, Hm. done. Qed.
Lemma has_admin_adds id (m : M Database AuthError ()) d :
  ensures adds_only m → admin_present id d → admin_present id (m d).2.
Proof. intros Hm H. eapply lookup_weaken_is_Some, add_admin, Hm. done. Qed.
Lemma seed_totp_rows_adds draws seed :
  ensures adds_only (match dsp_totp_username seed, dsp_totp_password seed with
    | Some u, Some p =>
        seed_totp_credential (dr_totp_salt draws) (dsp_realm_id seed) u p ;;; seed_totp_admin u
    | _, _ => ret () end).
Proof.
  destruct (dsp_totp_username seed), (dsp_totp_password seed);
    try (apply ensures_reads; [apply _|apply reads_ret]).
  apply ensures_bind; [apply _|apply seed_totp_credential_adds|intros []; apply seed_totp_admin_adds].
Qed.
Lemma seed_rows_adds draws seed : ensures adds_only (seed_rows draws seed).
Proof.
  unfold seed_rows. apply ensures_bind; [apply _|apply seed_realm_adds|intros []].
  apply ensures_bind; [apply _|apply seed_admin_credential_adds|intros []].
  apply ensures_bind; [apply _|apply seed_admin_adds|intros []]. apply seed_totp_rows_adds.
Qed.
Lemma seed_rows_settles draws seed : settles (seeded_rows seed) (seed_rows draws seed).
Proof.
  pose proof (seed_totp_rows_adds draws seed) as Htail.
  unfold seed_rows, seeded_rows. apply settles_seq; [apply seed_realm_settles| |].
  - apply settles_seq; [apply seed_admin_credential_settles| |].
    + apply settles_seq; [apply seed_admin_settles| |].
      * destruct (dsp_totp_username seed), (dsp_totp_password seed); try apply settles_ret.
        apply settles_seq; [apply seed_totp_credential_settles|apply seed_totp_admin_settles|].
        intros d. apply has_userpass_adds, seed_totp_admin_adds.
      * intros d. by apply has_admin_adds.
    + intros d. apply has_userpass_adds.
      apply ensures_bind; [apply _|apply seed_admin_adds|by intros []].
  - intros d. apply has_realm_adds.
    apply ensures_bind; [apply _|apply seed_admin_credential_adds|intros []].
    apply ensures_bind; [apply _|apply seed_admin_adds|by intros []].
Qed.

(** ** Enabling TOTP *)
Definition totp_on u d : Prop :=
  ∃ row, db_admin d !! u = Some row ∧ totp_capable row = true ∧
    match ar_totp_enabled row with
    | Some v => v ≠ 0%Z
    | None => ∃ v, sqlite_null_i64 "totp_enabled" = Ok v ∧ v ≠ 0%Z
    end.
Lemma is_totp_enabled_on r u d :
  (is_totp_enabled r u d).1 = Ok (Some true) ↔ totp_on u d.
Proof.
  unfold is_totp_enabled, select_totp_row, bind, gets, totp_on.
  destruct (db_admin d !! u) as [row|]; [|split; [done|by intros (? & ? & _)]].
  destruct (totp_capable row) eqn:Hc; [|split; [done|intros (? & [= <-] & ? & _); congruence]].
  simpl. unfold col. destruct (ar_totp_enabled row) as [v|] eqn:Hv; simpl.
  - split.
    + intros [= Hb%bool_decide_eq_true]. eexists. rewrite Hv. done.
    + intros (? & [= <-] & _ & Hne). rewrite Hv in Hne. do 2 f_equal. by apply bool_decide_eq_true.
  - destruct (sqlite_null_i64 _) as [v|e] eqn:Hn; simpl; split; try done.
    + intros [= Hb%bool_decide_eq_true]. eexists. rewrite Hv. eauto.
    + intros (? & [= <-] & _ & Hne). rewrite Hv in Hne. destruct Hne as (v' & [= <-] & Hne).
      do 2 f_equal. by apply bool_decide_eq_true.
    + intros (? & [= <-] & _ & Hne). rewrite Hv in Hne. by destruct Hne as (v' & ? & Hne).
Qed.
Lemma seed_totp_skip draw seed u d : totp_on u d → seed_totp draw seed u d = (Ok (), d).
Proof.
  intros Hon. apply (is_totp_enabled_on (dsp_realm_id seed)) in Hon.
  pose proof (is_totp_enabled_reads (dsp_realm_id seed) u d) as Hr.
  unfold seed_totp, store, bind, with_err. sqlite_store.
  destruct (is_totp_enabled _ u d) as [r d']. simpl in *. by subst.
Qed.
Lemma seed_totp_ok draw seed u d d' :
  seed_totp draw seed u d = (Ok (), d') →
  totp_on u d ∧ d' = d ∨ ∃ secret url, d' = set_admin (alter (set_totp 1 secret url) u) d.
Proof.
  pose proof (is_totp_enabled_on (dsp_realm_id seed) u d) as Hon.
  pose proof (is_totp_enabled_reads (dsp_realm_id seed) u d) as Hr.
  unfold seed_totp, store, seeding, bind, with_err, of_result. sqlite_store.
  destruct (is_totp_enabled _ u d) as [[o|e] d0]; simpl in *; subst d0; [|done].
  destruct (default false o) eqn:Ho.
  { intros [= <-]. left. destruct o as [[]|]; try done. by rewrite <-Hon. }
  destruct (seed_totp_secret draw seed) as [secret|e]; [|done].
  unfold enable_totp, bind, of_result. destruct (totp_err _) as [t|e]; [|done].
  intros [= <-]. right. by do 2 eexists.
Qed.
(** What enabling it does, whether or not it succeeds. *)
Lemma seed_totp_does draw seed u d :
  (seed_totp draw seed u d).2 = d ∨
  ∃ secret url, seed_totp draw seed u d = (Ok (), set_admin (alter (set_totp 1 secret url) u) d).
Proof.
  pose proof (is_totp_enabled_reads (dsp_realm_id seed) u d) as Hr.
  unfold seed_totp, store, seeding, bind, with_err, of_result. sqlite_store.
  destruct (is_totp_enabled _ u d) as [[o|e] d']; simpl in Hr; subst d'; [|by left]. simpl.
  destruct (default false o); [by left|].
  destruct (seed_totp_secret draw seed) as [secret|e]; [|by left].
  unfold enable_totp, bind, of_result. destruct (totp_err _) as [t|e]; [|by left]. right. by do 2 eexists.
Qed.
Lemma set_totp_on secret url u row d :
  db_admin d !! u = Some row → totp_capable row = true →
  totp_on u (set_admin (alter (set_totp 1 secret url) u) d).
Proof.
  intros Hrow Hc. exists (set_totp 1 secret url row). simpl.
  rewrite lookup_alter_eq, Hrow. simpl. unfold set_totp. rewrite Hc. split_and!; simpl; [done|exact Hc|done].
Qed.
Lemma set_totp_off secret url u row d :
  db_admin d !! u = Some row → totp_capable row = false →
  set_admin (alter (set_totp 1 secret url) u) d = d.
Proof.
  intros Hrow Hc. destruct d; unfold set_admin; simpl in *. f_equal. apply alter_id.
  intros x Hx. rewrite Hrow in Hx. injection Hx as <-. unfold set_totp. by rewrite Hc.
Qed.

Lemma seeded_rows_set_totp seed secret url u d :
  seeded_rows seed d → seeded_rows seed (set_admin (alter (set_totp 1 secret url) u) d).
Proof.
  assert (∀ id, admin_present id d → admin_present id (set_admin (alter (set_totp 1 secret url) u) d)) as Ha.
  { intros id. unfold admin_present. simpl. by rewrite lookup_alter_is_Some. }
  intros (Hr & Hu & Hadm & Ht). split_and!; [done|done|by apply Ha|].
  destruct (dsp_totp_username seed), (dsp_totp_password seed); try done.
  destruct Ht as [Ht1 Ht2]. split; [done|by apply Ha].
Qed.
(** The TOTP user can have a second factor: its record has a password or a bearer identity. *)
Definition totp_user_capable seed d : Prop :=
  ∀ u row, dsp_totp_username seed = Some u → db_admin d !! u = Some row → totp_capable row = true.
(** A second run of the last step. *)
Lemma seed_last_again draws draws' seed d d' :
  seeded_rows seed d → seed_last draws seed d = (Ok (), d') →
  (seed_last draws' seed d').2 = d' ∧
  (totp_user_capable seed d' → seed_last draws' seed d' = (Ok (), d')).
Proof.
  intros (_ & _ & _ & Ht). unfold seed_last, totp_user_capable.
  destruct (dsp_totp_username seed) as [u|]; [|by intros [= <-]].
  destruct (dsp_totp_password seed) as [p|]; [|by intros [= <-]].
  destruct Ht as [_ [row Hrow]]. intros Hrun.
  assert (totp_on u d' ∨ d' = d ∧ totp_capable row = false) as [Hon|[-> Hc]].
  { apply seed_totp_ok in Hrun as [[Hon ->]|(secret & url & ->)]; [by left|].
    destruct (totp_capable row) eqn:Hc; [left; by eapply set_totp_on|right].
    split; [by eapply set_totp_off|done]. }
  - by rewrite !seed_totp_skip.
  - split; [|intros Hall; specialize (Hall u row eq_refl Hrow); congruence].
    destruct (seed_totp_does (dr_totp_secret draws') seed u d) as [?|(secret & url & ->)]; [done|].
    simpl. by eapply set_totp_off.
Qed.

(** What the seed did: rows were added, and then the second factor of its TOTP user set. *)
Definition seed_effect seed d d' : Prop :=
  ∃ d0, adds_only d d0 ∧
    (d' = d0 ∨ ∃ u secret url, dsp_totp_username seed = Some u ∧
                 d' = set_admin (alter (set_totp 1 secret url) u) d0).
Lemma seed_does draws seed d : seed_effect seed d (seed_dev_realm_admin draws seed d).2.
Proof.
  rewrite seed_split. pose proof (seed_rows_adds draws seed d) as Hadd. unfold bind.
  destruct (seed_rows draws seed d) as [[[]|e] d0]; simpl in Hadd; [|exists d0; by split; [|left]].
  exists d0. split; [done|]. unfold seed_last.
  destruct (dsp_totp_username seed) as [u|]; [|by left].
  destruct (dsp_totp_password seed) as [p|]; [|by left].
  destruct (seed_totp_does (dr_totp_secret draws) seed u d0) as [->|(secret & url & ->)]; [by left|].
  right. by exists u, secret, url.
Qed.
Lemma seed_again draws draws' seed d d' :
  db_wf d → seed_dev_realm_admin draws seed d = (Ok (), d') →
  db_wf d' ∧ seeded_rows seed d' ∧ (seed_dev_realm_admin draws' seed d').2 = d' ∧
  (totp_user_capable seed d' → seed_dev_realm_admin draws' seed d' = (Ok (), d')).
Proof.
  intros Hwf. rewrite !seed_split. destruct (seed_rows_settles draws seed d Hwf) as (Hwf0 & _ & Hdo).
  unfold bind at 1. destruct (seed_rows draws seed d) as [[[]|e] d0]; [|done]. simpl in *.
  specialize (Hdo eq_refl). intros Hlast.
  assert (db_wf d' ∧ seeded_rows seed d') as [Hwf' Hrows'].
  { revert Hlast. unfold seed_last. destruct (dsp_totp_username seed) as [u|]; [|by intros [= <-]].
    destruct (dsp_totp_password seed) as [p|]; [|by intros [= <-]].
    intros [[_ ->]|(secret & url & ->)]%seed_totp_ok; [done|].
    split; [by apply set_totp_wf|by apply seeded_rows_set_totp]. }
  destruct (seed_rows_settles draws' seed d' Hwf') as (_ & Hskip & _).
  destruct (seed_last_again draws draws' seed d0 d' Hdo Hlast) as [Hst Hok].
  unfold bind. rewrite (Hskip Hrows'). auto.
Qed.

(** ** The administrator it leaves *)
Lemma validate_hashed r u salt password h row d :
  hash_password_with_argon2 salt password = Ok h → ur_password row = h →
  db_userpass d !! (r, u) = Some row →
  validate_userpass r u password d = (Ok (ur_change_password row), d).
Proof.
  intros Hh <- Hrow. unfold validate_userpass, bind, gets, of_result. rewrite Hrow. simpl.
  unfold password_utf8. rewrite from_utf8_valid by by eapply hash_password_utf8. simpl.
  by rewrite (verify_hash_ok _ _ _ Hh).
Qed.
Lemma seed_admin_credential_new salt seed d d' :
  db_wf d → db_userpass d !! (ADMIN_REALM, dsp_admin_username seed) = None →
  seed_admin_credential salt seed d = (Ok (), d') →
  ∃ password h row, resolve_admin_password seed = Ok password ∧
    hash_password_with_argon2 salt password = Ok h ∧
    ur_password row = h ∧ ur_change_password row = true ∧
    d' = set_userpass <[(ADMIN_REALM, dsp_admin_username seed) := row]> d.
Proof.
  intros Hwf Hnone. destruct (get_userpass_found d ADMIN_REALM (dsp_admin_username seed) Hwf) as (o & Hf & Ho).
  apply Ho in Hnone. subst o. unfold seed_admin_credential, store, seeding. sqlite_store.
  unfold bind at 1. unfold with_err at 1. rewrite Hf. simpl.
  unfold bind, of_result. destruct (resolve_admin_password seed) as [password|] eqn:Hp; [|done].
  destruct (seeding_r _ _) as [h|] eqn:Hh; [|done]. apply map_err_ok in Hh.
  destruct (serialize_userpass_ok (mkUserPass ADMIN_REALM (dsp_admin_username seed) h None true [] None))
    as (rt & ct & Hrt & Hct).
  unfold with_err. rewrite (create_userpass_run _ rt ct) by done. simpl.
  destruct (db_userpass d !! _); [done|]. destruct (db_realm d !! _); [|done].
  intros [= <-]. exists password, h, (mkUserpassRow h true rt ct). by split_and!.
Qed.
Lemma seed_admin_new seed d d' :
  db_wf d → db_admin d !! dsp_admin_username seed = None →
  seed_admin seed d = (Ok (), d') →
  ∃ row, ar_userpass row = Some (dsp_admin_username seed) ∧ ar_digital_credentials row = None ∧
    d' = set_admin_realms (union {[ (dsp_admin_username seed, dsp_realm_id seed) ]})
           (set_admin <[dsp_admin_username seed := row]> d).
Proof.
  intros Hwf Hnone. destruct (get_admin_found d (dsp_admin_username seed) Hwf) as (o & Hf & Ho).
  pose proof Hnone as Hn. apply Ho in Hn. subst o. unfold seed_admin, store, seeding. sqlite_store.
  unfold bind at 1. unfold with_err at 1. rewrite Hf. simpl.
  unfold with_err. set (a := seeded_admin (dsp_admin_username seed) [dsp_realm_id seed]).
  rewrite (create_admin_run a None) by done. simpl. rewrite Hnone. simpl. unfold bind.
  rewrite insert_admin_realm_run by (simpl; by rewrite lookup_insert_eq).
  destruct (decide _); [done|]. simpl. destruct (db_realm d !! _); [|done]. simpl.
  intros [= <-]. by exists (admin_row a None).
Qed.
Lemma seed_totp_rows_realms draws seed :
  ensures (agree db_admin_realms) (match dsp_totp_username seed, dsp_totp_password seed with
    | Some u, Some p =>
        seed_totp_credential (dr_totp_salt draws) (dsp_realm_id seed) u p ;;; seed_totp_admin u
    | _, _ => ret () end).
Proof.
  destruct (dsp_totp_username seed), (dsp_totp_password seed);
    try (apply ensures_reads; [apply _|apply reads_ret]).
  unfold seed_totp_credential, seed_totp_admin, store, seeding. sqlite_store.
  unfold create_userpass, create_admin, seeded_admin. cbn [adm_realms for_each].
  repeat ensures_step; by apply ensures_sql_insert; [apply _|].
Qed.
Lemma seed_realm_keeps seed :
  ensures (agree (λ d, (db_userpass d, db_admin d, db_admin_realms d))) (seed_realm (D := Database) seed).
Proof.
  unfold seed_realm, store, seeding. sqlite_store. unfold create_realm.
  repeat ensures_step. by apply ensures_sql_insert; [apply _|].
Qed.
Lemma sqlite_get_admin_row id row d :
  db_admin d !! id = Some row → ar_digital_credentials row = None →
  ∃ admin, get_admin id d = (Ok (Some admin), d) ∧ adm_userpass admin = ar_userpass row ∧
    adm_realms admin = select_admin_realms id d.
Proof.
  intros Hrow Hdc. unfold get_admin, bind, gets, of_result, row_to_admin. rewrite Hrow. simpl.
  rewrite Hdc. simpl. by eexists.
Qed.
(** The administrator's row and memberships once it was created; [a] are the memberships. *)
Definition left_admin (name realm : string) d : Prop :=
  (∀ r, (name, r) ∈ db_admin_realms d ↔ r = realm) ∧
  ∃ row, db_admin d !! name = Some row ∧ ar_userpass row = Some name ∧
         ar_digital_credentials row = None.
Lemma seed_admin_left seed d d' :
  db_wf d → db_admin d !! dsp_admin_username seed = None → seed_admin seed d = (Ok (), d') →
  left_admin (dsp_admin_username seed) (dsp_realm_id seed) d'.
Proof.
  intros Hwf Hnone Hrun. destruct (seed_admin_new seed d d' Hwf Hnone Hrun) as (row & Hup & Hdc & ->).
  split; [|exists row; simpl; by rewrite lookup_insert_eq]. intros r. simpl.
  rewrite elem_of_union, elem_of_singleton. split; [|by intros ->; left].
  intros [[= ->]|Hin]; [done|]. apply (wf_admin_realms _ Hwf) in Hin as [[? Hin] _]. congruence.
Qed.
Lemma left_admin_adds name realm d d' :
  adds_only d d' → db_admin_realms d = db_admin_realms d' →
  left_admin name realm d → left_admin name realm d'.
Proof.
  intros Hadd Heq (Hr & row & Hrow & ?). split; [by rewrite <-Heq|]. exists row. split; [|done].
  eapply lookup_weaken, add_admin, Hadd. done.
Qed.
Lemma left_admin_totp name realm secret url u d :
  left_admin name realm d → left_admin name realm (set_admin (alter (set_totp 1 secret url) u) d).
Proof.
  intros (Hr & row & Hrow & Hup & Hdc). split; [done|].
  destruct (decide (u = name)) as [->|Hne].
  - exists (set_totp 1 secret url row). simpl. rewrite lookup_alter_eq, Hrow.
    simpl. unfold set_totp. by destruct (totp_capable row).
  - exists row. simpl. by rewrite lookup_alter_ne.
Qed.
Lemma left_admin_get name realm d :
  left_admin name realm d →
  ∃ admin, get_admin name d = (Ok (Some admin), d) ∧ adm_userpass admin = Some name ∧
    adm_realms admin = [realm] ∧ (is_super_admin admin = true ↔ realm = ADMIN_REALM).
Proof.
  intros (Hr & row & Hrow & Hup & Hdc). destruct (sqlite_get_admin_row name row d Hrow Hdc) as (a & Hget & Ha & Hl).
  assert (adm_realms a = [realm]) as Hrealms.
  { rewrite Hl. apply Permutation_singleton_r, select_admin_realms_perm.
    - apply NoDup_singleton.
    - intros r. by rewrite Hr, list_elem_of_singleton. }
  exists a. split_and!; [done|congruence|done|]. unfold is_super_admin.
  rewrite bool_decide_eq_true, Hrealms, list_elem_of_singleton. split; congruence.
Qed.
End seed.

(** C35: the development seed settles.  Whatever it is run on, and whether or not it succeeds, it adds
    rows and changes none, except for the second factor of its TOTP user.  A run that succeeds leaves
    the realm, the administrator and its credential, and the TOTP user if there is one; running it
    again, with other random draws, leaves the store as it is, and succeeds provided that the TOTP
    user's record has a password or a bearer identity. *)
Theorem dev_seed_settles `{L : DbLibs} `{!DbLaws} `{SU : Surroundings} (d : Database)
    (draws draws' : Draws) (seed : DevSeedParams) :
  db_wf d →
  seed_effect seed d (seed_dev_realm_admin draws seed d).2 ∧
  ∀ d', seed_dev_realm_admin draws seed d = (Ok (), d') →
    seeded_rows seed d' ∧
    (seed_dev_realm_admin draws' seed d').2 = d' ∧
    (totp_user_capable seed d' → seed_dev_realm_admin draws' seed d' = (Ok (), d')).
Proof.
  intros Hwf. split; [apply seed_does|]. intros d' Hrun.
  destruct (seed_again draws draws' seed d d' Hwf Hrun) as (_ & ? & ? & ?). auto.
Qed.
Lemma dev_seed_settles_witness :
  let r := seed_dev_realm_admin (SU := toy_surroundings) toy_draws toy_seed toy_db in
  db_wf toy_db ∧ r.1 = Ok () ∧ seeded_rows toy_seed r.2 ∧
  (seed_dev_realm_admin (SU := toy_surroundings) toy_draws' toy_seed r.2).2 = r.2.
Proof.
  assert (db_wf toy_db) as Hwf by apply reachable_db_wf, toy_db_reachable.
  intros r. assert (r.1 = Ok ()) as Hr by by vm_compute.
  destruct (dev_seed_settles (SU := toy_surroundings) toy_db toy_draws toy_draws' toy_seed Hwf) as [_ H].
  assert (seed_dev_realm_admin (SU := toy_surroundings) toy_draws toy_seed toy_db = (Ok (), r.2)) as Hrun
    by (rewrite <-Hr; apply surjective_pairing).
  destruct (H _ Hrun) as (Hrows & Hsame & _). split_and!; assumption.
Defined.

(** The administrator of the development seed.  When neither its credential nor its record was
    there, a run that succeeds leaves a credential in the administration realm that the configured
    password opens, marked for a change of password, and a record that manages the seeded realm
    and nothing else: it is a super administrator only if the administration realm itself is
    seeded. *)
Theorem seeded_admin_manages_one_realm `{L : DbLibs} `{!DbLaws} `{SU : Surroundings}
    (d d' : Database) (draws : Draws) (seed : DevSeedParams) :
  let name := dsp_admin_username seed in
  db_wf d → db_userpass d !! (ADMIN_REALM, name) = None → db_admin d !! name = None →
  seed_dev_realm_admin draws seed d = (Ok (), d') →
  ∃ password admin, resolve_admin_password seed = Ok password ∧
    validate_userpass ADMIN_REALM name password d' = (Ok true, d') ∧
    get_admin name d' = (Ok (Some admin), d') ∧
    adm_userpass admin = Some name ∧ adm_realms admin = [dsp_realm_id seed] ∧
    (is_super_admin admin = true ↔ dsp_realm_id seed = ADMIN_REALM).
Proof.
  intros name Hwf Hcred Hadm. rewrite seed_split.
  intros (? & d4 & Hrows & Hlast)%bind_Ok_inv. unfold seed_rows in Hrows.
  apply bind_Ok_inv in Hrows as ([] & d1 & H1 & ([] & d2 & H2 & ([] & d3 & H3 & H4)%bind_Ok_inv)%bind_Ok_inv).
  pose proof (seed_realm_keeps seed d) as Hkeep. destruct (seed_realm_settles seed d Hwf) as (Hwf1 & _).
  rewrite H1 in Hkeep, Hwf1. simpl in Hkeep, Hwf1. injection Hkeep as Hk1 Hk2 Hk3.
  destruct (seed_admin_credential_settles (dr_admin_salt draws) seed d1 Hwf1) as (Hwf2 & _).
  rewrite H2 in Hwf2. simpl in Hwf2. rewrite Hk1 in Hcred. rewrite Hk2 in Hadm.
  destruct (seed_admin_credential_new _ _ _ _ Hwf1 Hcred H2)
    as (password & h & row & Hpw & Hh & Hrow & Hchange & ->).
  pose proof (seed_admin_left seed _ d3 Hwf2 Hadm H3) as Hleft.
  pose proof (seed_totp_rows_adds draws seed d3) as Hadd. rewrite H4 in Hadd. simpl in Hadd.
  pose proof (seed_totp_rows_realms draws seed d3) as Hm. rewrite H4 in Hm.
  pose proof (left_admin_adds _ _ _ _ Hadd Hm Hleft) as Hleft4.
  pose proof (seed_admin_adds seed (set_userpass <[(ADMIN_REALM, dsp_admin_username seed):=row]> d1))
    as Hadd3. rewrite H3 in Hadd3. simpl in Hadd3.
  assert (db_userpass d4 !! (ADMIN_REALM, name) = Some row) as Hrow4.
  { eapply lookup_weaken; [|apply (add_userpass _ _ Hadd)].
    eapply lookup_weaken; [|apply (add_userpass _ _ Hadd3)]. simpl. by rewrite lookup_insert_eq. }
  assert (db_userpass d' = db_userpass d4 ∧ left_admin name (dsp_realm_id seed) d') as [Hu' Hleft'].
  { revert Hlast. unfold seed_last. destruct (dsp_totp_username seed) as [u|]; [|by intros [= <-]].
    destruct (dsp_totp_password seed) as [p|]; [|by intros [= <-]].
    intros [[_ ->]|(secret & url & ->)]%seed_totp_ok; [done|].
    split; [done|by apply left_admin_totp]. }
  destruct (left_admin_get _ _ _ Hleft') as (admin & ? & ? & ? & ?).
  exists password, admin. split_and!; [done| |done..].
  rewrite (validate_hashed _ _ _ _ _ row d' Hh Hrow) by congruence. by rewrite Hchange.
Qed.
Lemma seeded_admin_manages_one_realm_witness :
  let r := seed_dev_realm_admin (SU := toy_surroundings) toy_draws toy_seed toy_db in
  db_wf toy_db ∧ r.1 = Ok () ∧
  ∃ admin, get_admin "acme-admin" r.2 = (Ok (Some admin), r.2) ∧ adm_realms admin = ["acme"].
Proof.
  assert (db_wf toy_db) as Hwf by apply reachable_db_wf, toy_db_reachable.
  intros r. assert (r.1 = Ok ()) as Hr by by vm_compute.
  assert (seed_dev_realm_admin (SU := toy_surroundings) toy_draws toy_seed toy_db = (Ok (), r.2)) as Hrun
    by (rewrite <-Hr; apply surjective_pairing).
  assert (db_userpass toy_db !! (ADMIN_REALM, "acme-admin") = None) as Hu by by vm_compute.
  assert (db_admin toy_db !! "acme-admin" = None) as Ha by by vm_compute.
  split; [exact Hwf|]. split; [exact Hr|].
  destruct (seeded_admin_manages_one_realm (SU := toy_surroundings) toy_db r.2 toy_draws toy_seed
    Hwf Hu Ha Hrun) as (_ & admin & _ & _ & Hget & _ & Hrealms & _).
  exists admin. split; [exact Hget|exact Hrealms].
Defined.
