(* ===== verification/StartSpec.v ===== *)
(** What a start guarantees ([Bootstrap.v]): the keys it publishes are the keys it uses, and the
    initial administrator of a fresh installation can sign in and administer. *)
From S2P Require Import Prelude Simulation RustStd Models ClaimPolicy Jwt Passwords Totp Database DatabaseFacts DatabaseSpec Toy AdminApi AppAuth AppAuthSpec Sessions SessionSpec SessionToken Jwks Middleware Login ToyLogin LoginSpec Saml SamlStore SamlSso ToySso Routes App ToyApp AppSpec Parameters Bootstrap ToyStart BootstrapSpec.

(** * A fresh store *)
Section fresh.
Context {L : DbLibs} {LAWS : DbLaws}.
Implicit Types (d : Database).

(** The store after [init] on no rows at all. *)
Definition fresh_database (params_json hash roles_json : string) : Database :=
  mkDatabase {[ ADMIN_REALM := mkRealmRow params_json 3600 3600 (365 * 24 * 3600) ]}
    {[ (ADMIN_REALM, APP_REALM_ADMIN_USERNAME) := mkUserpassRow hash true roles_json None ]}
    {[ APP_REALM_ADMIN_USERNAME := admin_row app_admin None ]}
    {[ (APP_REALM_ADMIN_USERNAME, ADMIN_REALM) ]} ∅ ∅ ∅ ∅.
Lemma bind_if {S E A B} (b : bool) (m1 m2 : M S E A) (k : A → M S E B) s :
  bind (if b then m1 else m2) k s = if b then bind m1 k s else bind m2 k s.
Proof. by destruct b. Qed.
Lemma init_fresh salt d :
  init salt empty_database = (Ok (), d) →
  ∃ params_json hash roles_json, serialize_auth_params app_realm = Ok params_json ∧
    hash_password_with_argon2 salt APP_REALM_ADMIN_INITIAL_PASSWORD = Ok hash ∧
    serialize_roles [] = Ok roles_json ∧ d = fresh_database params_json hash roles_json.
Proof.
  destruct (serialize_auth_params_row app_realm) as (t & Ht & _).
  set (d1 := set_realm <[ADMIN_REALM := mkRealmRow t 3600 3600 (365 * 24 * 3600)]> empty_database).
  assert (create_realm app_realm empty_database = (Ok (), d1)) as Hrealm.
  { unfold create_realm, bind, of_result. by rewrite Ht. }
  unfold init. rewrite (bind_Ok _ _ _ 0 empty_database) by done. rewrite decide_True by done.
  unfold initialize_db. rewrite (bind_Ok _ _ _ None empty_database) by done.
  rewrite decide_True by done. rewrite (bind_Ok _ _ _ () d1) by done.
  rewrite (bind_Ok _ _ _ None d1) by done. rewrite decide_True by done.
  destruct (hash_password_with_argon2 _ _) as [h|e] eqn:Hh; [|done].
  rewrite (bind_Ok _ _ _ h d1) by done.
  set (u := mkUserPass _ _ _ _ _ _ _).
  destruct (serialize_userpass_ok u) as (rt & ct & Hrt & Hct).
  assert (ct = None) as -> by (unfold serialize_extra_claims in Hct; simpl in Hct; congruence).
  rewrite (bind_Ok _ _ _ () (set_userpass <[(ADMIN_REALM, APP_REALM_ADMIN_USERNAME) :=
    mkUserpassRow h true rt None]> d1)) by by rewrite (create_userpass_run u rt None).
  rewrite (create_admin_run app_admin None) by done. simpl.
  unfold bind. rewrite insert_admin_realm_run by done. simpl. intros [= <-].
  by exists t, h, rt.
Qed.

Section read.
Variables (salt params_json hash roles_json : string).
Hypothesis (Hparams : serialize_auth_params app_realm = Ok params_json).
Hypothesis (Hhash : hash_password_with_argon2 salt APP_REALM_ADMIN_INITIAL_PASSWORD = Ok hash).
Hypothesis (Hroles : serialize_roles [] = Ok roles_json).
Let f := fresh_database params_json hash roles_json.

Lemma fresh_row_to_realm :
  row_to_realm (ADMIN_REALM, mkRealmRow params_json 3600 3600 (365 * 24 * 3600)) = Ok app_realm.
Proof.
  destruct (serialize_auth_params_row app_realm) as (t & Ht & Hrow).
  rewrite Hparams in Ht. by injection Ht as <-.
Qed.
Lemma fresh_get_realm : get_realm ADMIN_REALM f = (Ok (Some app_realm), f).
Proof.
  unfold get_realm, bind, gets, of_result, f, fresh_database. cbn [db_realm].
  rewrite lookup_singleton_eq. cbn [fmap option_fmap option_map]. by rewrite fresh_row_to_realm.
Qed.
Lemma fresh_list_realms : list_realms f = (Ok [app_realm], f).
Proof.
  unfold list_realms, bind, gets, of_result, f, fresh_database. cbn [db_realm].
  rewrite map_to_list_singleton. cbn -[row_to_realm].
  rewrite fresh_row_to_realm. done.
Qed.
Lemma fresh_validate :
  validate_userpass ADMIN_REALM APP_REALM_ADMIN_USERNAME APP_REALM_ADMIN_INITIAL_PASSWORD f =
    (Ok true, f).
Proof. by rewrite (validate_hashed _ _ _ _ _ (mkUserpassRow hash true roles_json None) f Hhash). Qed.
Lemma fresh_get_userpass :
  get_userpass ADMIN_REALM APP_REALM_ADMIN_USERNAME f =
    (Ok (Some (mkUserPass ADMIN_REALM APP_REALM_ADMIN_USERNAME "" None true [] None)), f).
Proof.
  rewrite (get_userpass_without_hash _ _ (mkUserpassRow hash true roles_json None)
    (mkUserPass ADMIN_REALM APP_REALM_ADMIN_USERNAME hash None true [] None)); [done|done|].
  apply (userpass_row_roundtrip (mkUserPass ADMIN_REALM APP_REALM_ADMIN_USERNAME hash None true [] None)
    roles_json None); [by eapply hash_password_utf8|done..].
Qed.
Lemma fresh_admin :
  ∃ admin, get_admin APP_REALM_ADMIN_USERNAME f = (Ok (Some admin), f) ∧
    adm_userpass admin = Some APP_REALM_ADMIN_USERNAME ∧ adm_realms admin = [ADMIN_REALM] ∧
    is_super_admin admin = true.
Proof.
  destruct (left_admin_get APP_REALM_ADMIN_USERNAME ADMIN_REALM f) as (a & ? & ? & ? & Hs).
  - split; [|by exists (admin_row app_admin None)]. intros r. unfold f, fresh_database. simpl.
    rewrite elem_of_singleton. split; congruence.
  - exists a. split_and!; try done. by apply Hs.
Qed.
Lemma fresh_sole_admin : sole_admin APP_REALM_ADMIN_USERNAME APP_REALM_ADMIN_USERNAME f.
Proof.
  intros id row Hrow _. unfold f, fresh_database in Hrow. simpl in Hrow.
  by apply lookup_singleton_Some in Hrow as [<- _].
Qed.
Lemma fresh_totp r :
  sqlite_null_i64 "totp_enabled" = Ok 0%Z →
  is_totp_enabled r APP_REALM_ADMIN_USERNAME f = (Ok (Some false), f).
Proof. intros Hn. unfold is_totp_enabled, bind, gets, of_result. simpl. by rewrite Hn. Qed.
End read.
End fresh.

(** * A start *)
Section start.
Context {L : DbLibs} {LAWS : DbLaws} {TL : TokenLibs} {SU : Surroundings} {SS : SsoLibs} {OS : OpenSsl}.

Lemma bind_result_inv {S E A B} (r : Result A E) (k : A → M S E B) s b s' :
  bind (of_result r) k s = (Ok b, s') → ∃ a, r = Ok a ∧ k a s = (Ok b, s').
Proof. unfold bind, of_result. destruct r; [eauto|done]. Qed.

(** The configuration a start arrives at. *)
Lemma prepare_ok {D} `{DB : DatabaseStore D} version draws p (d d' : D) pre :
  prepare_auth_verifier version draws p d = (Ok pre, d') →
  ∃ saml jwt cert jwks cert_jwks,
    transpose (load_sp_signing_key <$> sp_saml_sp_params p) = Ok saml ∧
    session_jwt_config p = Ok jwt ∧ session_jwks p = Ok jwks ∧
    certificate_jwt_config p = Ok cert ∧ certificate_jwks p = Ok cert_jwks ∧
    bind_server p (pre_address pre) = Ok (pre_acceptor pre) ∧
    pre_config pre = mkAppConfig
      (mkServerConfig jwt cert (bool_decide (is_Some (sp_tls_params p))))
      (sp_default_username p) version (sp_roles p) jwks cert_jwks saml ∧
    (store (create_database (dr_init_salt draws) (database_params p)) ;;;
     match sp_dev_seed p with Some seed => seed_dev_realm_admin draws seed | None => ret () end) d
    = (Ok (), d').
Proof.
  unfold prepare_auth_verifier. intros (saml & Hsaml & H)%bind_result_inv.
  apply bind_Ok_inv in H as ([] & d1 & H1 & ([] & d2 & H2 & H)%bind_Ok_inv).
  apply bind_result_inv in H as (collector & _ & H).
  apply bind_Ok_inv in H as ([] & d3 & H3 & H).
  assert (d3 = d2) as -> by (destruct saml; unfold of_result, ret in H3; congruence).
  apply bind_result_inv in H as (jwt & Hjwt & H). apply bind_result_inv in H as (jwks & Hjwks & H).
  apply bind_result_inv in H as (cert & Hcert & H).
  apply bind_result_inv in H as (cjwks & Hcjwks & H).
  apply bind_result_inv in H as (acceptor & Hacc & H). injection H as <- <-.
  exists saml, jwt, cert, jwks, cjwks. split_and!; try done. by rewrite (bind_Ok _ _ _ () d1).
Qed.

Lemma created_fresh salt params d :
  store (create_database salt params) empty_database = (Ok (), d) → dp_auto_init_schema params = true →
  ∃ params_json hash roles_json, serialize_auth_params app_realm = Ok params_json ∧
    hash_password_with_argon2 salt APP_REALM_ADMIN_INITIAL_PASSWORD = Ok hash ∧
    serialize_roles [] = Ok roles_json ∧ d = fresh_database params_json hash roles_json.
Proof.
  unfold store. intros H%with_err_Ok_inv Hauto. unfold create_database in H. rewrite Hauto in H. apply (init_fresh salt).
  destruct (dp_backend params); try done;
    apply bind_Ok_inv in H as ([] & d1 & H1 & ([] & d2 & H2 & H)%bind_Ok_inv);
    assert (d1 = empty_database) as -> by (unfold of_result, ret in H1; simpl in H1; congruence);
    assert (d2 = empty_database) as -> by (unfold of_result in H2; congruence); done.
Qed.

(** ** The published keys *)
Lemma substring_all s : String.substring 0 (String.length s) s = s.
Proof. induction s as [|a s IH]; simpl; [done|by rewrite IH]. Qed.
Lemma substring_split n m s :
  String.length s = n + m →
  String.substring 0 n s +:+ String.substring n m s = s ∧
  String.length (String.substring 0 n s) = n ∧ String.length (String.substring n m s) = m.
Proof.
  revert s. induction n as [|n IH]; intros s Hs.
  - simpl in Hs. subst m. rewrite substring_all. by destruct s.
  - destruct s as [|a s]; [done|]. injection Hs as Hs. destruct (IH s Hs) as (He & H1 & H2).
    split_and!; [|simpl; by rewrite H1|done].
    change (String a (String.substring 0 n s +:+ String.substring n m s) = String a s).
    by rewrite He.
Qed.

(** The key set of a P-256 point. *)
Definition jwk_set (x y : string) : Value :=
  VObject [("keys", VArray [VObject [
    ("kty", VString "EC"); ("crv", VString "P-256"); ("use", VString "sig");
    ("alg", VString "ES256"); ("kid", VString (sha256_hex (x +:+ y)));
    ("x", VString (base64_url x)); ("y", VString (base64_url y))]])].
(** The PEM holds an uncompressed point of P-256, with these coordinates. *)
Definition holds_point (pem x y : string) : Prop :=
  ∃ spki, spki_from_pem pem = Ok spki ∧
    subject_public_key spki = Some (String "004"%char (x +:+ y)) ∧
    String.length x = 32 ∧ String.length y = 32.
Lemma append_inj_length x y x' y' :
  String.length x = String.length x' → x +:+ y = x' +:+ y' → x = x' ∧ y = y'.
Proof.
  revert x'. induction x as [|a x IH]; intros [|a' x'] Hl; try done.
  injection Hl as Hl. intros [= -> H]. destruct (IH x' Hl H) as [-> ->]. done.
Qed.
Lemma length_append_string (x y : string) :
  String.length (x +:+ y) = String.length x + String.length y.
Proof. induction x as [|a x IH]; simpl; [done|]. by rewrite <-IH. Qed.
Lemma build_jwks_exact pem v :
  build_jwks_from_pem pem = Ok v ↔ ∃ x y, holds_point pem x y ∧ v = jwk_set x y.
Proof.
  unfold build_jwks_from_pem, ec_p256_xy, holds_point. split.
  - destruct (spki_from_pem pem) as [spki|e] eqn:Hs; [|done]. simpl.
    destruct (subject_public_key spki) as [point|] eqn:Hp; [|done]. simpl.
    destruct (decide _) as [|Hn]; [done|]. simpl. intros [= <-].
    destruct point as [|a s]; [by destruct Hn; left|].
    assert (a = "004"%char) as -> by (destruct (decide (a = "004"%char)); [done|];
      destruct Hn; right; simpl; congruence).
    destruct (decide (String.length s = 64)) as [Hl|Hl];
      [|destruct Hn; left; simpl; congruence].
    destruct (substring_split 32 32 s Hl) as (He & H1 & H2).
    exists (String.substring 0 32 s), (String.substring 32 32 s). split; [|done].
    exists spki. by rewrite He.
  - intros (x & y & (spki & -> & Hp & Hx & Hy) & ->). simpl. rewrite Hp. simpl.
    rewrite decide_False; [|intros [Hl|Hg]; [|done]; apply Hl; simpl;
      by rewrite length_append_string, Hx, Hy].
    destruct (substring_split 32 32 (x +:+ y)) as (He & H1 & H2);
      [by rewrite length_append_string, Hx, Hy|].
    apply append_inj_length in He as [-> ->]; [done|by rewrite H1, Hx].
Qed.

(** [jwks] is the key set of the public key in the PEM file at [path], which is [key]. *)
Definition published_key (path : string) (key : DecodingKey) (jwks : string) : Prop :=
  ∃ pem x y, read_to_string path = Ok pem ∧ decoding_key_from_ec_pem pem = Ok key ∧
    holds_point pem x y ∧ jwks = value_text (jwk_set x y).
Lemma read_key_ok {K} what kind (from_pem : string → Result K string) path key :
  read_key what kind from_pem path = Ok key ↔
  ∃ pem, read_to_string path = Ok pem ∧ from_pem pem = Ok key.
Proof.
  unfold read_key. rewrite and_then_ok. setoid_rewrite map_err_ok. done.
Qed.
Lemma publish_ok what1 what2 path jwks :
  publish what1 what2 path = Ok jwks ↔
  ∃ pem x y, read_to_string path = Ok pem ∧ holds_point pem x y ∧ jwks = value_text (jwk_set x y).
Proof.
  unfold publish. rewrite and_then_ok. setoid_rewrite and_then_ok. setoid_rewrite map_err_ok.
  setoid_rewrite build_jwks_exact. split.
  - intros (pem & Hp & v & (x & y & Hh & ->) & [= <-]). eauto 10.
  - intros (pem & x & y & Hp & Hh & ->). exists pem. split; [done|]. exists (jwk_set x y). eauto.
Qed.
Lemma read_and_published what kind what1 what2 path key jwks :
  read_key what kind decoding_key_from_ec_pem path = Ok key →
  publish what1 what2 path = Ok jwks → published_key path key jwks.
Proof.
  intros (pem & Hp & Hk)%read_key_ok (pem' & x & y & Hp' & Hh & ->)%publish_ok.
  rewrite Hp in Hp'. injection Hp' as <-. by exists pem, x, y.
Qed.
Lemma session_keys_published p jwt jwks :
  session_jwt_config p = Ok jwt → session_jwks p = Ok jwks →
  ∃ path, session_public_key_path p = Some path ∧
    published_key path (jtc_decoding_key jwt) jwks.
Proof.
  unfold session_jwt_config, session_jwks, get_jwt_decoding_key.
  destruct (get_jwt_encoding_key p) as [ek|e]; [|done]. simpl.
  destruct (session_public_key_path p) as [path|]; [|done]. simpl.
  destruct (read_key _ _ _ path) as [dk|e] eqn:Hdk; [|done]. intros [= <-] Hj.
  exists path. split; [done|]. simpl. by eapply read_and_published.
Qed.
Lemma certificate_keys_published p jwt jwks :
  certificate_jwt_config p = Ok jwt → certificate_jwks p = Ok jwks →
  match sp_certificate_jwt_params p, jwt, jwks with
  | Some c, Some jwt, Some jwks =>
      published_key (cjp_cert_ec_public_key c) (jtc_decoding_key jwt) jwks
  | None, None, None => True
  | _, _, _ => False
  end.
Proof.
  unfold certificate_jwt_config, certificate_jwks, get_certificate_encoding_key,
    get_certificate_decoding_key.
  destruct (sp_certificate_jwt_params p) as [c|]; simpl; [|by intros [= <-] [= <-]].
  destruct (read_key _ _ encoding_key_from_ec_pem _) as [ek|e]; [|done]. simpl.
  destruct (read_key _ _ decoding_key_from_ec_pem _) as [dk|e] eqn:Hdk; [|done]. intros [= <-].
  destruct (publish _ _ _) as [j|e] eqn:Hj; [|done]. intros [= <-].
  by eapply read_and_published.
Qed.
(** The SAML key is RSA, long enough, and the one its certificate certifies. *)
Definition saml_key_ok (key : SamlSpSigningKey) : Prop :=
  key_is_rsa (sk_private_key key) = true ∧ (MIN_RSA_BITS ≤ key_bits (sk_private_key key))%Z ∧
  ∃ public, x509_public_key (sk_certificate key) = Ok public ∧
    public_eq public (sk_private_key key) = true.
Lemma load_sp_signing_key_ok params key : load_sp_signing_key params = Ok key → saml_key_ok key.
Proof.
  intros (key_pem & _ & (cert_pem & _ & H)%and_then_ok)%and_then_ok.
  unfold parse_sp_signing_key in H. apply and_then_ok in H as (k & _ & H).
  apply and_then_ok in H as (? & Hrsa%ensure_r_ok & H).
  apply and_then_ok in H as (? & Hbits%ensure_r_ok%negb_true_iff%bool_decide_eq_false & H).
  apply and_then_ok in H as (cert & _ & H).
  apply and_then_ok in H as (public & Hpub%map_err_ok & H).
  apply and_then_ok in H as (? & Heq%ensure_r_ok & H). injection H as <-.
  split_and!; simpl; [done|lia|eauto].
Qed.
Lemma bind_server_tls p address acceptor :
  bind_server p address = Ok acceptor → (is_Some acceptor ↔ is_Some (sp_tls_params p)).
Proof.
  unfold bind_server. destruct (sp_tls_params p) as [t|].
  - destruct (create_openssl_acceptor t); [|done]. simpl. destruct (map_err _ _); [|done]. simpl.
    intros [= <-]. split; eauto.
  - destruct (map_err _ _); [|done]. by intros [= <-].
Qed.
End start.

(** C25: a start configures the server with the keys it publishes.  When it succeeds, whatever was in
    the store and whichever backend keeps it, the key set served for session tokens is that of
    the key session tokens are verified with: both come from one PEM file that holds an
    uncompressed P-256 point, and the set has exactly its coordinates and the digest of them as
    key id.  The same holds for certificates, and the certificate endpoints are on exactly when
    they are configured.  A SAML scope has an RSA key of at least 2048 bits that its certificate
    certifies.  Cookies are marked secure exactly when the server speaks TLS. *)
Theorem start_publishes_its_keys `{L : DbLibs} `{TL : TokenLibs} `{SU : !Surroundings} `{SS : SsoLibs}
    `{OS : !OpenSsl} {D : Type} `{DB : DatabaseStore D} (version : string) (draws : Draws)
    (p : ServerParams) (d d' : D) (pre : Prepared) :
  prepare_auth_verifier version draws p d = (Ok pre, d') →
  let config := pre_config pre in
  (∃ path, session_public_key_path p = Some path ∧
     published_key path (jtc_decoding_key (cfg_jwt (ac_server config))) (ac_jwks config)) ∧
  match sp_certificate_jwt_params p, cfg_certificate (ac_server config),
        ac_certificate_jwks config with
  | Some c, Some jwt, Some jwks =>
      published_key (cjp_cert_ec_public_key c) (jtc_decoding_key jwt) jwks
  | None, None, None => True
  | _, _, _ => False
  end ∧
  match sp_saml_sp_params p, ac_saml config with
  | Some _, Some key => saml_key_ok key
  | None, None => True
  | _, _ => False
  end ∧
  (cfg_is_https (ac_server config) = true ↔ is_Some (pre_acceptor pre)).
Proof.
  intros (saml & jwt & cert & jwks & cjwks & Hs & Hj & Hk & Hc & Hck & Hb & Hcfg & _)%prepare_ok.
  intros config. subst config. rewrite Hcfg. simpl. split_and!.
  - by eapply session_keys_published.
  - by eapply certificate_keys_published.
  - destruct (sp_saml_sp_params p) as [sp|]; simpl in Hs; [|by injection Hs as <-].
    destruct (load_sp_signing_key sp) as [key|e] eqn:Hkey; [|done]. injection Hs as <-.
    by eapply load_sp_signing_key_ok.
  - rewrite bool_decide_eq_true. symmetry. by eapply bind_server_tls.
Qed.
Lemma start_publishes_its_keys_witness :
  ∃ pre d', toy_start (Some toy_seed) = (Ok pre, d') ∧
    ∃ path, session_public_key_path (toy_server_params (Some toy_seed)) = Some path ∧
      published_key (SU := toy_surroundings) path (jtc_decoding_key (cfg_jwt (ac_server (pre_config pre))))
        (ac_jwks (pre_config pre)).
Proof.
  assert (is_ok (toy_start (Some toy_seed)).1 = true) as H by by vm_compute.
  destruct (toy_start (Some toy_seed)) as [[pre|e] d'] eqn:Hs; [|discriminate H].
  exists pre, d'. split; [reflexivity|].
  destruct (start_publishes_its_keys (SU := toy_surroundings) (SS := toy_sso_libs) (OS := toy_openssl)
    "1" toy_draws (toy_server_params (Some toy_seed)) empty_database d' pre Hs) as (Hkey & _).
  exact Hkey.
Defined.

(** * Signing in for the first time *)
Section first_start.
Context {S R : Type} {ST : SessionStore S} {SL : SessionStoreLaws S} {RQ : SamlRequestStore R}.
Context {L : DbLibs} {LAWS : DbLaws} {TL : TokenLibs} {B64 : Base64} {AL : AppLibs} {SS : SsoLibs}.
Context {SC : SamlCheck} {RJ : RequestJson} {AX : Actix}.
#[local] Existing Instance app_sessions.
#[local] Instance app_session_laws : SessionStoreLaws (S * R).
Proof.
  intros now id realm client value [s r] [s' r'] t Hrange Hup Ht. simpl in Hup. unfold with_sessions in Hup.
  simpl in Hup. destruct (ss_upsert_session now id realm client value s) as [res s1] eqn:Hs.
  injection Hup as -> -> ->. destruct (upsert_then_get now id realm client value s s' t Hrange Hs Ht)
    as [s'' Hg].
  exists (s'', r'). simpl. unfold with_sessions. simpl. by rewrite Hg.
Qed.

(** The middlewares of [/login], on a basic credential the realm accepts. *)
Lemma username_password_passes {B} req (service : Service (S := S * R) B) ext s realm params change u p :
  ext_client ext = None → ext_realm ext = Some realm →
  extract_basic_auth_credentials (rq_authorization req) = Some (u, p) →
  rap_username_password_params (realm_auth_params realm) = Some params →
  validate_userpass (realm_id realm) u p (srv_db s) = (Ok change, srv_db s) →
  (change = true → upp_allow_expired_passwords params = true) →
  username_password req service ext s = service (insert_client (mkClient u UsernamePassword) ext) s.
Proof.
  intros Hc Hr Hb Hp Hv He. unfold username_password. rewrite Hc, Hb, Hr, Hp.
  rewrite on_db_reads by apply validate_userpass_reads. rewrite Hv. simpl.
  destruct change; [by rewrite He|done].
Qed.
Lemma authenticated_passes {B} clock http_get req dflt (service : Service (S := S * R) B) ext s client :
  ext_client ext = Some client →
  jwt_auth clock http_get req (ensure_auth true dflt service) ext s = service ext s.
Proof. intros Hc. unfold jwt_auth, ensure_auth. by rewrite Hc. Qed.
(** Without a second factor the handler opens a session. *)
Lemma login_without_totp now now1 now2 config ext request (s : Server (S * R)) realm client o :
  ext_realm ext = Some realm → ext_client ext = Some client →
  is_totp_enabled (realm_id realm) (acs_username client) (srv_db s) = (Ok o, srv_db s) →
  default false o = false →
  login now now1 now2 config ext request s = open_session now1 now2 config realm client s.
Proof.
  intros Hr Hc Ht Ho. unfold login. rewrite Hr, Hc.
  rewrite (bind_Ok _ _ _ realm s) by done. rewrite (bind_Ok _ _ _ client s) by done.
  rewrite (bind_Ok _ _ _ o s); [by rewrite Ho|].
  rewrite session_err_run by apply is_totp_enabled_reads. by rewrite Ht.
Qed.

(** [POST /login?realm=...] with a user name and password that the realm accepts, and no second
    factor: a session is opened. *)
Lemma serve_login config ch req (s : AppState (S := S) (R := R)) rid realm params change u p o
    (request : LoginRequest) :
  ar_method req = POST → ar_path req = join_path ["login"] → ch_allowed ch = true →
  realm_param (ar_query_string req) = Some rid →
  get_realm rid (srv_db s) = (Ok (Some realm), srv_db s) →
  extract_basic_auth_credentials (ar_authorization req) = Some (u, p) →
  rap_username_password_params (realm_auth_params realm) = Some params →
  validate_userpass (realm_id realm) u p (srv_db s) = (Ok change, srv_db s) →
  (change = true → upp_allow_expired_passwords params = true) →
  is_totp_enabled (realm_id realm) u (srv_db s) = (Ok o, srv_db s) → default false o = false →
  (Z.of_nat (String.length (ar_body req)) ≤ JSON_LIMIT)%Z → from_json (ar_body req) = Ok request →
  serve config ch req s =
    let now := clk_secs (ch_clock ch) in
    match open_session now now (ac_server config) realm (mkClient u UsernamePassword) s with
    | (Ok resp, s1) => (mkResponse (http_status resp) (LoginOf (http_body resp)), s1)
    | (Err e, s1) => (mkResponse (error_response e) (PlainText (auth_error_to_string e)), s1)
    end.
Proof.
  intros Hm Hp Hal Hq Hr Hb Hup Hv Hch Ht Ho Hlen Hj. unfold serve, request_route. rewrite Hm, Hp.
  assert (∀ saml, route saml POST (join_path ["login"]) =
    mkRoute (sc_wraps client_scope) (Some (H_login, []))) as -> by by intros [].
  unfold run_route. simpl. unfold login_rate_limit. rewrite Hal.
  unfold extract_realm. simpl. rewrite Hq.
  rewrite (bind_Ok _ _ _ realm s) by by rewrite process_realm_run, Hr.
  rewrite (username_password_passes _ _ _ s realm params change u p) by done.
  rewrite (authenticated_passes _ _ _ _ _ _ s (mkClient u UsernamePassword)) by done.
  set (ext := insert_client _ _).
  unfold run_service, run_handler. change (client_handler H_login) with true.
  cbn [run_client_handler fmap list_fmap].
  unfold json. rewrite decide_False by lia. rewrite Hj.
  rewrite (bind_Ok _ _ _ request s) by done.
  unfold answer, auth, with_err, bind. 
  rewrite (login_without_totp _ _ _ _ ext request s realm (mkClient u UsernamePassword) o) by done.
  simpl. destruct (open_session _ _ _ _ _ s) as [[resp|e] s1]; done.
Qed.
End first_start.

Section fresh_server.
Context {S R : Type} {ST : SessionStore S} {SL : SessionStoreLaws S} {RQ : SamlRequestStore R}.
Context {L : DbLibs} {LAWS : DbLaws} {TL : TokenLibs} {B64 : Base64} {AL : AppLibs} {SS : SsoLibs}.
Context {SC : SamlCheck} {RJ : RequestJson} {AX : Actix}.
#[local] Existing Instance app_sessions.
#[local] Existing Instance app_session_laws.
Variables (params_json hash roles_json salt : string).
Hypothesis (Hparams : serialize_auth_params app_realm = Ok params_json).
Hypothesis (Hhash : hash_password_with_argon2 salt APP_REALM_ADMIN_INITIAL_PASSWORD = Ok hash).
Hypothesis (Hroles : serialize_roles [] = Ok roles_json).
Let f := fresh_database params_json hash roles_json.
Let client := mkClient APP_REALM_ADMIN_USERNAME UsernamePassword.
Implicit Types s : AppState (S := S) (R := R).

Lemma fresh_claims s : srv_db s = f → login_claims ADMIN_REALM client s = (Ok ([], ∅), s).
Proof.
  intros Hs. unfold login_claims. rewrite decide_True by done.
  rewrite (bind_Ok _ _ _ (Some (mkUserPass ADMIN_REALM APP_REALM_ADMIN_USERNAME "" None true [] None)) s);
    [done|].
  rewrite on_db_reads by (unfold db; eauto with reads). rewrite Hs.
  unfold db, with_err, f. by rewrite (fresh_get_userpass salt).
Qed.
Lemma fresh_extra_claims s : srv_db s = f → extra_claims_accepted ADMIN_REALM client s.
Proof. intros Hs claims s' Hc k. rewrite fresh_claims in Hc by done. by injection Hc as <- <-. Qed.

(** The claims and the cookie of the administrator's session. *)
Definition admin_session_claims (now : Z) : ClientClaims :=
  session_claims now APP_REALM_ADMIN_USERNAME UsernamePassword ADMIN_REALM [] ∅ 3600.
Definition admin_cookie (token : string) (is_https : bool) : SessionCookie :=
  mkCookie COOKIE_NAME token is_https true true (Some "/") (Some 3600%Z).
Lemma fresh_open_session now config s token x :
  srv_db s = f →
  encode_claims (jtc_algorithm (cfg_jwt config)) (jtc_encoding_key (cfg_jwt config))
    (admin_session_claims now) = Ok token →
  ss_upsert_session now (sha256_hex token) app_realm client
    (cookie_to_string (admin_cookie token (cfg_is_https config))) (srv_sessions s) = (Ok (), x) →
  open_session now now config app_realm client s =
    (Ok (HttpOk (LoginResult (mkAuthenticationResult Authenticated (Some (sha256_hex token)))
       (Some (admin_cookie token (cfg_is_https config))))), mkServer (srv_db s) (srv_jwks s) x).
Proof.
  intros Hs Henc Hup. unfold open_session.
  rewrite (bind_Ok _ _ _ ([], ∅) s) by by apply fresh_claims.
  rewrite (bind_Ok _ _ _ token s) by
    (unfold of_result, issue_token;
     change (session_claims _ _ _ _ _ _ _) with (admin_session_claims now); by rewrite Henc).
  rewrite (bind_Ok _ _ _ (admin_cookie token (cfg_is_https config)) s) by done.
  rewrite (bind_Ok _ _ _ (sha256_hex token) s) by done.
  rewrite (bind_Ok _ _ _ () (mkServer (srv_db s) (srv_jwks s) x)); [done|].
  unfold on_sessions. by rewrite Hup.
Qed.

Lemma fresh_admin_auth {B} (service : Service (S := S * R) B) ext s claims :
  srv_db s = f → ext_claims ext = Some claims →
  apc_auth_scheme (cc_private claims) = Some UsernamePassword →
  rc_sub (cc_registered claims) = Some APP_REALM_ADMIN_USERNAME →
  ∃ admin, is_super_admin admin = true ∧
    admin_auth service ext s = service (insert_admin admin ext) s.
Proof.
  intros Hs Hc Hscheme Hsub. destruct (fresh_admin params_json hash roles_json) as
    (admin & Hget & Hup & _ & Hsuper).
  exists admin. split; [done|]. unfold admin_auth.
  rewrite (bind_Ok _ _ _ admin s); [done|]. unfold auth, with_err, find_session_admin. rewrite Hc.
  rewrite (bind_Ok _ _ _ claims s) by done. rewrite Hscheme.
  rewrite (bind_Ok _ _ _ UsernamePassword s) by done. rewrite Hsub.
  rewrite (bind_Ok _ _ _ APP_REALM_ADMIN_USERNAME s) by done.
  rewrite (bind_Ok _ _ _ [admin] s); [done|].
  unfold with_err. rewrite on_db_reads by apply find_admins_reads. rewrite Hs.
  rewrite (find_admins_sole APP_REALM_ADMIN_USERNAME APP_REALM_ADMIN_USERNAME
    (admin_row app_admin None) admin f (fresh_sole_admin _ _ _)); done.
Qed.
(** [GET /admins/realms] with the cookie of an open session of the initial administrator. *)
Lemma fresh_list config ch req s s1 now result cookie :
  TokenLaws (cfg_jwt (ac_server config)) → session_in_range now app_realm → srv_db s = f →
  opened now now (ac_server config) app_realm client s result cookie s1 →
  (now ≤ clk_secs (ch_clock ch) ≤ now + 3600)%Z →
  ar_method req = GET → ar_path req = join_path ["admins"; "realms"] →
  ar_cookie req = Some (ck_value cookie) →
  ∃ s2, serve config ch req s1 = (mkResponse 200 (RealmsOf [app_realm]), s2) ∧ srv_db s2 = f.
Proof.
  intros Hlaws Hrange Hs Ho Ht Hm Hp Hc. unfold serve, request_route. rewrite Hm, Hp.
  assert (∀ saml, route saml GET (join_path ["admins"; "realms"]) =
    mkRoute (sc_wraps realms_crud_scope) (Some (H_list_realms, []))) as -> by by intros [].
  unfold run_route. simpl. unfold inject_admin_realm.
  assert (srv_db s1 = f) as Hs1 by by destruct Ho as (? & ? & _ & _ & _ & _ & _ & ->).
  rewrite (bind_Ok _ _ _ app_realm s1) by
    (rewrite process_realm_run, Hs1; unfold f; by rewrite fresh_get_realm).
  set (service := admin_auth _).
  destruct (opened_cookie_auth now (ac_server config) app_realm client s result cookie s1
    (clk_secs (ch_clock ch)) (pipeline_request req) service (insert_realm app_realm no_extensions)
    Hlaws Ho Hrange (fresh_extra_claims s Hs) ltac:(simpl; lia) Hc) as (claims & x & _ & Hrun).
  rewrite Hrun. clear Hrun. unfold service.
  set (ext := insert_claims _ _). set (s2 := mkServer _ _ x).
  destruct (fresh_admin_auth (run_service config ch req (Some (H_list_realms, []))) ext s2 _ Hs
    eq_refl eq_refl eq_refl) as (admin & Hsuper & ->).
  exists s2. split; [|done].
  unfold run_service, run_handler. change (client_handler H_list_realms) with false.
  change (session_handler H_list_realms) with false. cbn [run_admin_handler fmap list_fmap].
  change (ext_admin (insert_admin admin ext)) with (Some admin).
  assert (api_list_realms (Some admin) f = (Ok (HttpOk [app_realm]), f)) as Hlist.
  { unfold api_list_realms. rewrite (bind_Ok _ _ _ admin f) by done.
    rewrite (bind_Ok _ _ _ [app_realm] f) by (unfold db, with_err, f; by rewrite fresh_list_realms).
    by rewrite Hsuper. }
  unfold answer, auth, with_err, bind, on_db. change (srv_db s2) with (srv_db s). rewrite Hs, Hlist.
  simpl. unfold s2. by rewrite Hs.
Qed.
End fresh_server.

(** C21: an installation whose database is empty can be administered as soon as it is up.  When a
    start on it succeeds, with the schema initialised and no development seed, a request
    [POST /login?realm=_] with the initial administrator and its initial password, let through
    by the rate limiter, opens a session: the reply is 200 with the cookie of a token for that
    name, provided the token can be signed and the session store accepts the session.  For as
    long as the session lives, [GET /admins/realms] with that cookie answers 200 with the
    administration realm, which is all there is, and the store still holds exactly what the
    start has written.  The SQLite store; an absent second factor reads
    as disabled there. *)
Theorem first_start_admin_signs_in {S R : Type} `{ST : SessionStore S} `{SL : !SessionStoreLaws S}
    `{RQ : SamlRequestStore R} `{L : DbLibs} `{LAWS : !DbLaws} `{TL : TokenLibs} `{SU : !Surroundings}
    `{B64 : Base64} `{AL : AppLibs} `{SS : SsoLibs} `{OS : !OpenSsl} `{SC : SamlCheck}
    `{RJ : RequestJson} `{AX : Actix} (version : string) (draws : Draws) (p : ServerParams)
    (d : Database) (pre : Prepared) (s : AppState (S := S) (R := R)) (ch : Chance)
    (req : AppRequest) (request : LoginRequest) (token : string) (x : S * R) :
  let config := pre_config pre in
  let now := clk_secs (ch_clock ch) in
  let cookie := admin_cookie token (cfg_is_https (ac_server config)) in
  prepare_auth_verifier version draws p empty_database = (Ok pre, d) →
  dp_auto_init_schema (database_params p) = true → sp_dev_seed p = None →
  sqlite_null_i64 "totp_enabled" = Ok 0%Z →
  srv_db s = d →
  ar_method req = POST → ar_path req = join_path ["login"] → ch_allowed ch = true →
  realm_param (ar_query_string req) = Some ADMIN_REALM →
  extract_basic_auth_credentials (ar_authorization req) =
    Some (APP_REALM_ADMIN_USERNAME, APP_REALM_ADMIN_INITIAL_PASSWORD) →
  (Z.of_nat (String.length (ar_body req)) ≤ JSON_LIMIT)%Z → from_json (ar_body req) = Ok request →
  TokenLaws (cfg_jwt (ac_server config)) → session_in_range now app_realm →
  encode_claims (jtc_algorithm (cfg_jwt (ac_server config)))
    (jtc_encoding_key (cfg_jwt (ac_server config))) (admin_session_claims now) = Ok token →
  with_sessions (ss_upsert_session now (sha256_hex token) app_realm
    (mkClient APP_REALM_ADMIN_USERNAME UsernamePassword) (cookie_to_string cookie))
    (srv_sessions s) = (Ok (), x) →
  let s1 := mkServer d (srv_jwks s) x in
  serve config ch req s =
    (mkResponse 200 (LoginOf (LoginResult
      (mkAuthenticationResult Authenticated (Some (sha256_hex token))) (Some cookie))), s1) ∧
  ∀ ch' req', (now ≤ clk_secs (ch_clock ch') ≤ now + 3600)%Z →
    ar_method req' = GET → ar_path req' = join_path ["admins"; "realms"] →
    ar_cookie req' = Some token →
    ∃ s2, serve config ch' req' s1 = (mkResponse 200 (RealmsOf [app_realm]), s2) ∧ srv_db s2 = d.
Proof.
  intros config now cookie Hpre Hauto Hseed Hnull Hs Hm Hp Hal Hq Hb Hlen Hj Hlaws Hrange Henc Hup s1.
  apply prepare_ok in Hpre as (_ & _ & _ & _ & _ & _ & _ & _ & _ & _ & _ & _ & Hstore).
  rewrite Hseed in Hstore. apply bind_Ok_inv in Hstore as ([] & d1 & H & [= <-]).
  apply created_fresh in H as (t & h & r & Ht & Hh & Hr & ->); [|done].
  assert (open_session (ST := app_sessions) now now (ac_server config) app_realm
    (mkClient APP_REALM_ADMIN_USERNAME UsernamePassword) s = (Ok (HttpOk (LoginResult
      (mkAuthenticationResult Authenticated (Some (sha256_hex token))) (Some cookie))), s1)) as Ho.
  { rewrite (fresh_open_session t h r (dr_init_salt draws) Hh Hr _ _ _ token x); try done.
    by rewrite Hs. }
  split.
  - rewrite (serve_login config ch req s ADMIN_REALM app_realm (mkUsernamePasswordParams true) true
      APP_REALM_ADMIN_USERNAME APP_REALM_ADMIN_INITIAL_PASSWORD (Some false) request); try done.
    + cbn zeta. fold now. by rewrite Ho.
    + rewrite Hs. by apply fresh_get_realm.
    + rewrite Hs. by eapply fresh_validate.
    + rewrite Hs. by apply fresh_totp.
  - intros ch' req' Hrange' Hm' Hp' Hc'.
    apply open_session_run in Ho as (result & cookie' & Heq & Ho). injection Heq as <- <-.
    by eapply fresh_list.
Qed.
#[local] Existing Instance toy_app_libs.
#[local] Existing Instance toy_sso_libs.
#[local] Existing Instance toy_surroundings.
#[local] Existing Instance toy_openssl.
#[local] Existing Instance toy_login_json.
#[local] Existing Instance toy_actix.
#[local] Existing Instance saml_disabled.
Lemma first_start_admin_signs_in_witness :
  ∃ pre d (s1 : AppState (S := SessionTable) (R := SamlTables)) token cookie,
    toy_start None = (Ok pre, d) ∧
    serve (pre_config pre) toy_chance toy_first_login (mkServer d ∅ (∅, empty_saml_tables)) =
      (mkResponse 200 (LoginOf (LoginResult
        (mkAuthenticationResult Authenticated (Some (sha256_hex token))) (Some cookie))), s1) ∧
    ∃ s2, serve (pre_config pre) toy_chance (toy_first_list token) s1 =
      (mkResponse 200 (RealmsOf [app_realm]), s2).
Proof.
  assert ((λ config, let jwt := cfg_jwt (ac_server config) in
      (bool_decide (jtc_algorithm jwt = ES256), jtc_encoding_key jwt, jtc_decoding_key jwt))
    <$> toy_config_of (toy_start None).1 = Some (true, "key.", "key.")) as H by by vm_compute.
  destruct (toy_start None) as [[pre|e] d] eqn:Hs; [|discriminate H].
  assert (cfg_jwt (ac_server (pre_config pre)) = toy_token_config) as Hjwt.
  { simpl in H. destruct (cfg_jwt (ac_server (pre_config pre))) as [alg enc dec]. simpl in H.
    injection H as Halg Henc Hdec. apply bool_decide_eq_true in Halg. by rewrite Halg, Henc, Hdec. }
  set (s := mkServer d ∅ (∅ : SessionTable, empty_saml_tables) : AppState (S := SessionTable) (R := SamlTables)).
  set (token := toy_encode "key." (admin_session_claims 100)).
  set (cookie := admin_cookie token (cfg_is_https (ac_server (pre_config pre)))).
  assert (∃ x, with_sessions (ss_upsert_session 100 (sha256_hex token) app_realm
    (mkClient APP_REALM_ADMIN_USERNAME UsernamePassword) (cookie_to_string cookie))
    (∅ : SessionTable, empty_saml_tables) = (Ok (), x)) as [x Hup].
  { unfold with_sessions. simpl. unfold upsert_session. rewrite lookup_empty. simpl. eexists. reflexivity. }
  assert (TokenLaws (cfg_jwt (ac_server (pre_config pre)))) as Hlaws
    by (rewrite Hjwt; exact toy_token_laws).
  assert (session_in_range 100 app_realm) as Hrange by (unfold session_in_range; by vm_compute).
  assert (encode_claims (jtc_algorithm (cfg_jwt (ac_server (pre_config pre))))
    (jtc_encoding_key (cfg_jwt (ac_server (pre_config pre)))) (admin_session_claims 100) = Ok token)
    as Henc by (rewrite Hjwt; reflexivity).
  exists pre, d, (mkServer d ∅ x), token, cookie. split; [reflexivity|].
  destruct (first_start_admin_signs_in "1" toy_draws (toy_server_params None) d pre s toy_chance
    toy_first_login (mkLoginRequest None) token x Hs eq_refl eq_refl eq_refl eq_refl eq_refl eq_refl
    eq_refl ltac:(by vm_compute) ltac:(by vm_compute) ltac:(by vm_compute) eq_refl Hlaws Hrange Henc Hup)
    as [Hserve Hlist].
  split; [exact Hserve|].
  destruct (Hlist toy_chance (toy_first_list token) ltac:(simpl; lia) eq_refl eq_refl eq_refl)
    as (s2 & Hs2 & _).
  exists s2. exact Hs2.
Defined.
