(* ===== verification/MySqlStartSpec.v ===== *)
(** Starting a server on MySQL ([Bootstrap.v] over [MyDatabase.v]): what stops it. *)
From S2P Require Import Prelude Simulation RustStd Models ClaimPolicy Jwt Passwords Totp Database Toy SqlServers MyDatabase AdminApi AppAuth AppAuthSpec Sessions SessionToken Jwks Middleware Login ToyLogin Saml SamlStore SamlSso ToySso Routes App ToyApp Parameters Bootstrap ToyStart BootstrapSpec StartSpec.

Section reads.
Context {L : DbLibs} {MY : MySql} {SV : MyServer}.

(** A driver that does not decode unsigned columns reads no realm. *)
Lemma unsigned_realm_row r :
  (∀ c z, is_ok (my_unsigned_i64 c z) = false) → is_ok (my_row_to_realm r) = false.
Proof.
  intros Hdriver. destruct r as [id row]. unfold my_row_to_realm.
  destruct (col (my_json_string _ _)); [|done]. simpl. destruct (map_err _ _); [|done]. simpl.
  specialize (Hdriver "cookie_max_age_seconds" (rr_cookie_max_age_seconds row)).
  by destruct (my_unsigned_i64 _ _).
Qed.
Lemma unsigned_get_realm id d row :
  (∀ c z, is_ok (my_unsigned_i64 c z) = false) → my_realm d !! collation_key id = Some row →
  is_ok (my_get_realm id d).1 = false.
Proof.
  intros Hdriver Hrow. unfold my_get_realm. rewrite gets_bind, Hrow. unfold of_result. simpl.
  pose proof (unsigned_realm_row row Hdriver) as Hr. by destruct (my_row_to_realm row).
Qed.
(** A server that refuses the schema is never initialised. *)
Lemma my_init_refused salt d : my_text_default = false → is_ok (my_init salt d).1 = false.
Proof.
  intros Hd. unfold my_init. rewrite gets_bind. unfold bind. rewrite Hd.
  by destruct ((if decide _ then my_initialize_db salt else ret ()) d) as [[[]|e] d'].
Qed.
End reads.

(** C32: a server on MySQL does not start.  Its schema gives a TEXT column a literal default, which
    MySQL refuses in its default mode: whatever the configuration and the database, a start that
    sets up the schema fails, and fails again.  A schema that is there already does not help a
    development server: with a driver that decodes unsigned columns to unsigned integers only, as
    the documentation of [sqlx] has it, looking up the realm of the seed fails once the realm
    exists. *)
Theorem mysql_start_refused `{L : DbLibs} `{TL : TokenLibs} `{SU : !Surroundings} `{SS : SsoLibs}
    `{OS : !OpenSsl} `{MY : MySql} `{SV : MyServer} (version : string) (draws : Draws)
    (p : ServerParams) (d : MyDatabase) :
  dp_backend (database_params p) = MySQL →
  (dp_auto_init_schema (database_params p) = true → my_text_default = false →
   is_ok (prepare_auth_verifier version draws p d).1 = false) ∧
  ∀ seed row, dp_auto_init_schema (database_params p) = false →
    (∀ c z, is_ok (my_unsigned_i64 c z) = false) →
    sp_dev_seed p = Some seed → my_realm d !! collation_key (dsp_realm_id seed) = Some row →
    is_ok (prepare_auth_verifier version draws p d).1 = false.
Proof.
  intros Hmysql. split.
  - intros Hinit Hdefault.
    destruct (prepare_auth_verifier version draws p d) as [[pre|e] d'] eqn:Hstart; [exfalso|done].
    apply prepare_ok in Hstart as (? & ? & ? & ? & ? & _ & _ & _ & _ & _ & _ & _ & Hrun).
    apply bind_Ok_inv in Hrun as ([] & d1 & Hdb & _). unfold store in Hdb.
    apply with_err_Ok_inv in Hdb. unfold create_database in Hdb. rewrite Hmysql, Hinit in Hdb.
    rewrite decide_False in Hdb by done. apply bind_Ok_inv in Hdb as ([] & d2 & _ & Hdb).
    apply bind_Ok_inv in Hdb as ([] & d3 & _ & Hdb).
    pose proof (my_init_refused (dr_init_salt draws) d3 Hdefault) as Hr.
    change (dbs_init (dr_init_salt draws) d3) with (my_init (dr_init_salt draws) d3) in Hdb.
    by rewrite Hdb in Hr.
  - intros seed row Hinit Hdriver Hseed Hrow.
    destruct (prepare_auth_verifier version draws p d) as [[pre|e] d'] eqn:Hstart; [exfalso|done].
    apply prepare_ok in Hstart as (? & ? & ? & ? & ? & _ & _ & _ & _ & _ & _ & _ & Hrun).
    apply bind_Ok_inv in Hrun as ([] & d1 & Hdb & Hrun). rewrite Hseed in Hrun.
    assert (d1 = d) as ->.
    { unfold store in Hdb. apply with_err_Ok_inv in Hdb. unfold create_database in Hdb.
      rewrite Hmysql, Hinit in Hdb. rewrite decide_False in Hdb by done.
      unfold bind, ret, of_result in Hdb. by destruct (map_err DbInit (connect _)); simplify_eq. }
    unfold seed_dev_realm_admin in Hrun. apply bind_Ok_inv in Hrun as (unit2 & d2 & Hrealm & _).
    unfold seed_realm, store in Hrealm. apply bind_Ok_inv in Hrealm as (o & d3 & Hget & _).
    apply with_err_Ok_inv in Hget. pose proof (unsigned_get_realm _ d row Hdriver Hrow) as Hr.
    change (dbs_get_realm (dsp_realm_id seed) d) with (my_get_realm (dsp_realm_id seed) d) in Hget.
    by rewrite Hget in Hr.
Qed.

(** * Witness *)

(** MySQL in its default mode, with the driver as documented. *)
Definition toy_mysql_strict : MySql := {|
  my_strict := true;
  collation_key s := s;
  from_utf8_error _ := "invalid utf-8 sequence";
|}.
Definition toy_mysql_server : MyServer := {|
  my_json_valid _ := true;
  my_json_text t := t;
  my_regexp _ id := bool_decide (id ≠ "");
  my_text_default := false;
  my_json_string c _ := Err (ColumnDecode c);
  my_unsigned_i64 c _ := Err (ColumnDecode c);
  my_found_rows := true;
|}.
Definition toy_mysql_params (init : bool) : ServerParams :=
  mkServerParams "0.0.0.0" 8443 None None
    (Some (mkSessionJwtParams "/etc/jwt.key" "/etc/jwt.pub")) None None
    (Some (with_auto_init_schema (params_mysql "mysql://localhost/auth") init)) None None
    (Some toy_seed) ["user"].
#[local] Existing Instance toy_app_libs.
#[local] Existing Instance toy_sso_libs.
#[local] Existing Instance toy_surroundings.
#[local] Existing Instance toy_openssl.
#[local] Existing Instance toy_mysql_strict.
#[local] Existing Instance toy_mysql_server.
Lemma mysql_start_refused_witness :
  dp_backend (database_params (toy_mysql_params true)) = MySQL ∧
  is_ok (prepare_auth_verifier "1" toy_draws (toy_mysql_params true) my_schema).1 = false ∧
  let d := set_my_realm <["acme" := ("acme", mkRealmRow "{}" 3600 3600 3600)]> my_schema in
  is_ok (prepare_auth_verifier "1" toy_draws (toy_mysql_params false) d).1 = false.
Proof.
  split; [reflexivity|]. split.
  - destruct (mysql_start_refused "1" toy_draws (toy_mysql_params true) my_schema eq_refl)
      as [H _]. exact (H eq_refl eq_refl).
  - intros d.
    destruct (mysql_start_refused "1" toy_draws (toy_mysql_params false) d eq_refl) as [_ H].
    refine (H toy_seed ("acme", mkRealmRow "{}" 3600 3600 3600) eq_refl (λ _ _, eq_refl) eq_refl _).
    exact (lookup_insert_eq _ _ _).
Defined.
