(* ===== verification/Process.v ===== *)
(** The process around the server: its entry ([server/src/main.rs], [start_auth_verifier]), the TLS
    library of the [rustls] build ([server/src/tls/rustls_config.rs]), and the certificate of a
    client that each of the two TLS builds keeps with a connection ([tls/mod.rs]).

    PEM files, [rustls] and what a running server does are parameters.  A log line has no
    counterpart. *)
From S2P Require Import Prelude Simulation RustStd Models ClaimPolicy Jwt Passwords Totp Database AdminApi AppAuth Sessions SessionToken Jwks Middleware Login Saml SamlStore SamlSso Routes App Parameters Bootstrap.

(** * Errors ([server/src/error/mod.rs]) *)
Inductive ServerError :=
  | ServerAuthentication (m : string)
  | ServerConfiguration (m : string)
  | ServerTls (m : string).
Definition server_error_to_string (e : ServerError) : string :=
  match e with
  | ServerAuthentication m => "Authentication error: " +:+ m
  | ServerConfiguration m => "Configuration error: " +:+ m
  | ServerTls m => "TLS error: " +:+ m
  end.
Definition auth_error_of_server_error (e : ServerError) : AuthError :=
  Generic (server_error_to_string e).

(** * The [rustls] build *)

(** [rustls] and its reader of PEM files: the certificates of a file one by one, the first
    certificate and the key of a file, and what [RootCertStore::add], the builder of the client
    verifier and [with_single_cert] take. *)
Class RustlsLib := {
  pem_file_iter : string → Result (list (Result string string)) string;
  certificate_from_pem_file : string → Result string string;
  private_key_from_pem_file : string → Result string string;
  root_store_add : list string → string → Result () string;
  client_verifier : list string → Result () string;
  single_cert : list string → string → Result () string;
}.
(** What [ServerConfig::builder] was given: client certificates are required and must lead to a
    root of the store; a revocation status may be unknown. *)
Record RustlsServerConfig := mkRustlsServerConfig {
  rsc_client_roots : list string;
  rsc_cert_chain : list string;
  rsc_private_key : string;
}.

Section rustls.
Context {RL : RustlsLib}.

(** [.flatten()] over results: the entries that do not parse are left out. *)
Definition flatten_results {A E} (l : list (Result A E)) : list A :=
  omap (λ r, match r with Ok a => Some a | Err _ => None end) l.
Fixpoint add_roots (ders : list string) (cert_store : list string)
    : Result (list string) ServerError :=
  match ders with
  | [] => Ok cert_store
  | der :: ders =>
      let? _ := map_err ServerTls (root_store_add cert_store der) in
      add_roots ders (cert_store ++ [der])
  end.
(** The state is whether the process has a default crypto provider; [install_default] takes the
    first one only. *)
Definition rustls_server_config (tls_config : TlsParams) : M bool ServerError RustlsServerConfig :=
  let* installed := gets id in
  (if installed : bool then
     throw (ServerConfiguration "Failed to install AWS-LC-Rust as the default crypto provider")
   else modify (λ _, true)) ;;;
  of_result (
    let? ders := map_err (λ e, ServerConfiguration
      ("Failed to read client CA certificate chain from PEM: " +:+ e))
      (pem_file_iter (default (tls_server_ca_chain tls_config) (tls_client_ca_cert_chain tls_config))) in
    let? cert_store := add_roots (flatten_results ders) [] in
    let? _ := map_err (λ e, ServerConfiguration ("Failed to create WebPkiClientVerifier: " +:+ e))
                (client_verifier cert_store) in
    let? key_der := map_err (λ e, ServerConfiguration
      ("Failed to read server private key from PEM: " +:+ e))
      (private_key_from_pem_file (tls_server_private_key tls_config)) in
    let? chain := map_err (λ e, ServerConfiguration
      ("Failed to read server certificate chain from PEM: " +:+ e))
      (pem_file_iter (tls_server_ca_chain tls_config)) in
    let? server_cert := map_err (λ e, ServerConfiguration
      ("Failed to read server certificate from PEM: " +:+ e))
      (certificate_from_pem_file (tls_server_certificate tls_config)) in
    let cert_chain := server_cert :: flatten_results chain in
    let? _ := map_err ServerTls (single_cert cert_chain key_der) in
    Ok (mkRustlsServerConfig cert_store cert_chain key_der)).

(** Binding the server in this build ([prepare_auth_verifier]). *)
Definition bind_rustls `{TL : TokenLibs} `{SU : !Surroundings} (p : ServerParams) (address : string)
    : M bool AuthError (option RustlsServerConfig) :=
  match sp_tls_params p with
  | Some tls_params =>
      let* config := with_err auth_error_of_server_error (rustls_server_config tls_params) in
      of_result (map_err (λ e, Init ("Failed binding the Rustls TLS connector: " +:+ e))
        (bind_address address)) ;;;
      ret (Some config)
  | None =>
      of_result (map_err (λ e, Init ("Failed binding plain HTTP: " +:+ e)) (bind_address address)) ;;;
      ret None
  end.
End rustls.

(** * The certificate of a client *)

(** Bytes of the DER encoding. *)
Record PeerCertificate := mkPeerCertificate { cert_der : string }.
(** The connections a server accepts; [C] is what the TLS library knows of the client. *)
Inductive Connection C := TlsStream (peer : C) | TcpStream | OtherConnection.
Arguments TlsStream {C} peer.
Arguments TcpStream {C}.
Arguments OtherConnection {C}.
(** The entry of type [PeerCertificate] in the extensions of a connection. *)
Abbreviation Extensions := (option PeerCertificate).

(** [rustls] knows the chain that was presented, the certificate of the client first. *)
Definition extract_rustls_peer_certificate (cnx : Connection (option (list string)))
    (extensions : Extensions) : Extensions :=
  match cnx with
  | TlsStream (Some certs) =>
      match last certs with
      | Some cert => Some (mkPeerCertificate cert)
      | None => extensions
      end
  | _ => extensions
  end.
(** OpenSSL knows the certificate of the client; [to_der] encodes it. *)
Definition extract_openssl_peer_certificate {X509} (to_der : X509 → Result string string)
    (cnx : Connection (option X509)) (extensions : Extensions) : Extensions :=
  match cnx with
  | TlsStream (Some cert) =>
      match to_der cert with
      | Ok cert_der => Some (mkPeerCertificate cert_der)
      | Err _ => extensions
      end
  | _ => extensions
  end.

(** * Entry *)
Section entry.
Context {TL : TokenLibs} {SU : Surroundings} {SS : SsoLibs} {OS : OpenSsl}.
Context `{L : !DbLibs} {D : Type} {DB : DatabaseStore D}.
(** The reader of the configuration, and a server that runs until it is stopped. *)
Variables (toml_from_str : string → Result ServerParams string)
  (run_server : Prepared → M D string ()).

Definition config_path (args : list string) : string := default "auth_verifier.toml" (args !! 1).
Definition load_server_params (args : list string) : Result ServerParams string :=
  let path := config_path args in
  let? config_content := map_err
    (λ e, "Failed to read configuration file '" +:+ path +:+ "': " +:+ e) (read_to_string path) in
  map_err (λ e, "Failed to parse configuration file '" +:+ path +:+ "': " +:+ e)
    (toml_from_str config_content).
Definition start_auth_verifier (version : string) (draws : Draws) (p : ServerParams)
    : M D AuthError () :=
  let* server := prepare_auth_verifier version draws p in
  with_err Unexpected (run_server server).
Definition main (version : string) (draws : Draws) (args : list string) : M D string () :=
  let* server_params := of_result (load_server_params args) in
  with_err (λ e, "Authentication server error: " +:+ auth_error_to_string e)
    (start_auth_verifier version draws server_params).
End entry.

(** * Facts *)
Section rustls_facts.
Context {RL : RustlsLib}.

Lemma add_roots_all ders store store' :
  add_roots ders store = Ok store' → store' = store ++ ders.
Proof.
  revert store. induction ders as [|der ders IH]; intros store; simpl.
  - intros [= <-]. by rewrite app_nil_r.
  - destruct (root_store_add store der); [|done]. simpl. intros ->%IH. by rewrite <-app_assoc.
Qed.

(** What a configuration trusts and presents: every certificate of the client file (the chain of
    the server when there is none) that parses, in order, and no other; the certificate of the
    server before the parsed certificates of its chain; the key of the server. *)
Theorem rustls_config_of_files (tls : TlsParams) installed c s :
  rustls_server_config tls installed = (Ok c, s) →
  installed = false ∧ s = true ∧
  ∃ ders chain server_cert,
    pem_file_iter (default (tls_server_ca_chain tls) (tls_client_ca_cert_chain tls)) = Ok ders ∧
    pem_file_iter (tls_server_ca_chain tls) = Ok chain ∧
    certificate_from_pem_file (tls_server_certificate tls) = Ok server_cert ∧
    private_key_from_pem_file (tls_server_private_key tls) = Ok (rsc_private_key c) ∧
    rsc_client_roots c = flatten_results ders ∧
    rsc_cert_chain c = server_cert :: flatten_results chain.
Proof.
  unfold rustls_server_config, bind, gets, of_result. simpl. destruct installed; [done|]. simpl.
  destruct (pem_file_iter (default _ _)) as [ders|]; [|done]. simpl.
  destruct (add_roots _ []) as [store|] eqn:Hroots; [|done]. simpl.
  destruct (client_verifier store); [|done]. simpl.
  destruct (private_key_from_pem_file _) as [key|]; [|done]. simpl.
  destruct (pem_file_iter (tls_server_ca_chain tls)) as [chain|]; [|done]. simpl.
  destruct (certificate_from_pem_file _) as [cert|]; [|done]. simpl.
  destruct (single_cert _ _); [|done]. simpl. intros [= <- <-].
  apply add_roots_all in Hroots as ->. split_and!; [done..|]. by exists ders, chain, cert.
Qed.
(** A process makes one such configuration: whatever the first call does, the next one fails. *)
Theorem rustls_config_once (tls tls' : TlsParams) installed :
  is_ok (rustls_server_config tls' (rustls_server_config tls installed).2).1 = false.
Proof. by destruct installed. Qed.
End rustls_facts.

(** The certificate kept for a client that presents its own and then those of its issuers: OpenSSL
    keeps its own; [rustls] keeps the last one presented, that of an issuer if there is any. *)
Theorem peer_certificate_of_builds {X509} (to_der : X509 → Result string string) x leaf issuers ext :
  to_der x = Ok leaf →
  extract_openssl_peer_certificate to_der (TlsStream (Some x)) ext = Some (mkPeerCertificate leaf) ∧
  extract_rustls_peer_certificate (TlsStream (Some (leaf :: issuers))) ext =
    Some (mkPeerCertificate (default leaf (last issuers))).
Proof.
  intros Hx. simpl. rewrite Hx. split; [done|]. rewrite last_cons. by destruct (last issuers).
Qed.
(** Two clients with the same issuer are one client to the [rustls] build. *)
Corollary rustls_clients_confused leaf1 leaf2 issuer ext :
  extract_rustls_peer_certificate (TlsStream (Some [leaf1; issuer])) ext =
  extract_rustls_peer_certificate (TlsStream (Some [leaf2; issuer])) ext.
Proof. done. Qed.

Section entry_facts.
Context {TL : TokenLibs} {SU : Surroundings} {SS : SsoLibs} {OS : OpenSsl}.
Context `{L : !DbLibs} {D : Type} {DB : DatabaseStore D}.

(** A process that cannot read its configuration touches no store; one that ends well read it,
    prepared the server it describes, and ran that one. *)
Theorem main_outcome parse (run : Prepared → M D string ()) version draws args d :
  (∀ e, load_server_params parse args = Err e → main parse run version draws args d = (Err e, d)) ∧
  (∀ d', main parse run version draws args d = (Ok (), d') →
   ∃ p pre d1, load_server_params parse args = Ok p ∧
     prepare_auth_verifier version draws p d = (Ok pre, d1) ∧ run pre d1 = (Ok (), d')).
Proof.
  unfold main, bind, of_result. split; [by intros e ->|]. intros d'.
  destruct (load_server_params parse args) as [p|]; [|done]. simpl.
  intros Hstart%with_err_Ok_inv. unfold start_auth_verifier in Hstart.
  apply bind_Ok_inv in Hstart as (pre & d1 & Hpre & Hrun). apply with_err_Ok_inv in Hrun.
  by exists p, pre, d1.
Qed.
End entry_facts.
