(* ===== verification/StoresSpec.v ===== *)
(** The interchangeable stores: every backend of the SAML request store keeps the promises sign-on
    is proved against, and the PostgreSQL session store those of login and of the endpoints. *)
From S2P Require Import Prelude RustStd Models Passwords Totp Database Toy AdminApi SqlServers Sessions SessionSpec SamlStore SamlStoreSpec Postgres PostgresSpec MySqlStores MySqlStoresSpec Redis RedisSpec LoginSpec AppSpec.

(** C16: the SAML request stores are interchangeable.  SQLite, PostgreSQL, MySQL and Redis all keep
    the promises of the interface (a request is handed out once and only while it lives, an
    assertion id is remembered until it expires), each for the names it can hold: any text in
    SQLite, texts without NUL bytes in PostgreSQL, names that fit their column and do not end in
    spaces in MySQL, request ids without a colon in Redis. *)
Theorem saml_stores_keep_promises `{SX : Sqlx, MY : MySql, SHA : Sha256, RL : RedisLib}
    `{SerdeLaws PendingSamlRequest} :
  @SamlStoreLaws SamlTables sqlite_saml_store sqlite_saml_views ∧
  @SamlStoreLaws SamlTables pg_saml_store pg_saml_views ∧
  @SamlStoreLaws MySamlTables mysql_saml_store mysql_saml_views ∧
  @SamlStoreLaws RedisDb redis_saml_store redis_saml_views.
Proof.
  split_and!; [apply sqlite_saml_laws|apply pg_saml_laws|apply mysql_saml_laws|apply redis_saml_laws].
Qed.

Lemma saml_stores_keep_promises_witness :
  @SerdeLaws PendingSamlRequest toy_pending_serde ∧
  @SamlStoreLaws SamlTables (pg_saml_store (SX := toy_sqlx)) pg_saml_views.
Proof.
  split; [exact toy_pending_serde_laws|].
  destruct (@saml_stores_keep_promises toy_sqlx toy_mysql (λ s, s) toy_redis toy_pending_serde
    toy_pending_serde_laws) as (_ & Hpg & _).
  exact Hpg.
Defined.

(** * The session store on PostgreSQL *)
Section sessions.
Context {SX : Sqlx}.

Lemma pg_upsert_ok now id realm client value s s' :
  pg_upsert_session now id realm client value s = (Ok (), s') →
  no_nul id = true ∧ upsert_session now id realm client value s = (Ok (), s').
Proof.
  destruct (pg_text_cases [id; realm_id realm; acs_username client;
    auth_scheme_json (acs_auth_scheme client); value]) as [[Ht Hp]|[_ Hp]];
    unfold pg_upsert_session, bind, of_result, gets, throw, modify; rewrite Hp; [|done].
  simpl in Ht. apply andb_true_iff in Ht as [Hid _]. simpl.
  intros Hup. split; [done|]. rewrite <-Hup. unfold upsert_session. by destruct (s !! id).
Qed.
Lemma pg_get_ok t id d s s' :
  pg_get_session t id s = (Ok (Some d), s') →
  no_nul id = true ∧ Sessions.get_session t id s = (Ok (Some d), s').
Proof.
  unfold pg_get_session, bind at 1, of_result.
  destruct (pg_text_cases [id]) as [[Ht Hp]|[_ Hp]]; rewrite Hp; [|done].
  simpl in Ht. rewrite andb_true_r in Ht. simpl. by split.
Qed.
Lemma pg_get_run t id s : no_nul id = true → pg_get_session t id s = Sessions.get_session t id s.
Proof.
  intros Hid. unfold pg_get_session, bind at 1, of_result.
  by rewrite (proj2 (pg_text_ok [id])) by (simpl; by rewrite Hid).
Qed.
Definition pg_session_laws : @SessionStoreLaws SessionTable pg_session_store.
Proof.
  intros now id realm client value s s' t Hr [Hid Hup]%pg_upsert_ok Ht.
  cbn [ss_get_session pg_session_store]. rewrite pg_get_run by done.
  exact (upsert_then_get now id realm client value s s' t Hr Hup Ht).
Qed.
Definition pg_session_read_laws : @SessionReadLaws SessionTable pg_session_store.
Proof.
  split; cbn [ss_get_session pg_session_store].
  - intros t id id' d d' s s1 s2 Hne [_ H1]%pg_get_ok [Hid' H2]%pg_get_ok. rewrite pg_get_run by done.
    exact (read_other t id id' d d' s s1 s2 Hne H1 H2).
  - intros t id d s s1 Ht Hst Hmax [Hid H1]%pg_get_ok. rewrite pg_get_run by done.
    exact (read_again t id d s s1 Ht Hst Hmax H1).
Qed.
End sessions.
