(* ===== verification/Client.v ===== *)
(** The HTTP client of the server ([client/src/client/auth_client.rs] and [cookie_store.rs]):
    every operation sends one request and reads its response.

    [reqwest] is a parameter: what sends a request ([Transport], over the state of the network
    and of the servers behind it, with the cookie jar the client shares with it), and the texts
    of its errors ([Reqwest]). *)
From S2P Require Import Prelude RustStd Models AppAuth AdminApi Sessions Login Routes App.

(** * Requests and responses *)
Record HttpRequest := mkHttpRequest {
  hr_method : Method;
  hr_url : string;
  hr_headers : list (string * string);
  hr_body : option string;
}.
(** The body, or the error of reading it. *)
Record HttpReply := mkHttpReply { hp_status : Z; hp_body : Result string string }.
Definition is_success (r : HttpReply) : bool := bool_decide (200 ≤ hp_status r < 300)%Z.

(** * The cookie jar *)
Inductive CookieDomain := HostOnly (host : string) | Suffix (domain : string) | NotPresent | EmptyDomain.
#[export] Instance CookieDomain_eq_dec : EqDecision CookieDomain.
Proof. solve_decision. Defined.
Record JarCookie := mkJarCookie {
  jar_domain : CookieDomain;
  jar_name : string;
  jar_value : string;
}.
(** [cookie_store] *)
Class CookieJar := {
  Jar : Type;
  RawCookie : Type;
  jar_new : Jar;
  raw_cookie_parse : string → Result RawCookie string;
  store_response_cookies : list RawCookie → string → Jar → Jar;
  get_request_values : string → Jar → list (string * string);
  iter_any : Jar → list JarCookie;
}.
Section jar.
Context {CJ : CookieJar}.
(** [AuthClientCookieStore::set_cookies] *)
Definition parse_set_cookie (header : string) : option RawCookie :=
  if utf8_valid header then
    match raw_cookie_parse header with Ok c => Some c | Err _ => None end
  else None.
Definition set_cookies (cookie_headers : list string) (url : string) (store : Jar) : Jar :=
  store_response_cookies (omap parse_set_cookie cookie_headers) url store.
(** [AuthClientCookieStore::cookies]; a value is sent as it is. *)
Definition join_with (sep : string) (l : list string) : string :=
  match l with
  | [] => ""
  | x :: l => x +:+ foldr (λ y rest, sep +:+ y +:+ rest) "" l
  end.
Definition cookies (header_value : string → option string) (url : string) (store : Jar)
    : option string :=
  let s := join_with "; " ((λ nv, nv.1 +:+ "=" +:+ nv.2) <$> get_request_values url store) in
  if decide (s = "") then None else header_value s.
End jar.

(** * [reqwest] *)
Class Transport (S : Type) := {
  send : HttpRequest → M S string HttpReply;
  jar_cookies : S → list JarCookie;
}.
Class Reqwest := {
  (** [StatusCode], [Error] of a body that cannot be encoded or decoded, and of
      [error_for_status] *)
  status_text : Z → string;
  encode_error : string → string;
  decode_error : string → string;
  status_error : Z → string → string;
  (** [Url::parse] and [host_str] *)
  url_host : string → Result (option string) string;
  header_value_from_str : string → Result string string;
  certificate_from_pem : string → Result () string;
  identity_from_pkcs12_der : string → string → Result () string;
  build : Result () string;
  base64_encode : string → string;
}.

Inductive AuthClientScheme :=
  | NoAuth
  | JwtScheme (token : string)
  | ClientCertificateScheme (pkcs12_der password : string)
  | UsernamePasswordScheme (username password : string).
Record AuthClient := mkAuthClient {
  cl_default_headers : list (string * string);
  cl_base_url : string;
  cl_auth : AuthClientScheme;
}.

(** * Bodies of the responses ([client/src/dto]) *)
Record Version := mkVersion { ver_version : string }.
Record GetSessionsForClientsResponse := mkGetSessionsForClientsResponse {
  gcs_session_ids : list string;
}.
Record TotpGenerateResponse := mkTotpGenerateResponse {
  tgs_secret_base32 : string;
  tgs_otpauth_url : string;
}.
Record AppRoleRoleIdData := mkAppRoleRoleIdData { ari_role_id : string }.
Record AppRoleListData := mkAppRoleListData { arl_keys : list string }.
Record K8sListData := mkK8sListData { krl_keys : list string }.
(** The responses with a single field [data] (or [auth]) of type [A]. *)
Record Enveloped (A : Type) := mkEnveloped { env_data : A }.
Arguments mkEnveloped {A}.
Arguments env_data {A}.
Definition AppRoleRoleIdResponse : Type := Enveloped AppRoleRoleIdData.
Definition AppRoleSecretIdResponse : Type := Enveloped AppRoleSecretIdData.
Definition AppRoleListRolesResponse : Type := Enveloped AppRoleListData.
Definition AppRoleRoleConfigResponse : Type := Enveloped AppRoleRoleConfigData.
Definition K8sListRolesResponse : Type := Enveloped K8sListData.
Definition K8sRoleConfigResponse : Type := Enveloped K8sRoleConfigData.
Definition AppAuthResponse : Type := Enveloped AppAuthData.
Definition AppTokenLookupResponse : Type := Enveloped AppTokenData.

(** [serde_json] for them, and for the bodies that only the client writes *)
Class ResponseJson := {
  #[global] sj_authentication :: Serde AuthenticationResult;
  #[global] sj_claims :: Serde ClientClaims;
  #[global] sj_version :: Serde Version;
  #[global] sj_strings :: Serde (list string);
  #[global] sj_realms :: Serde (list Realm);
  #[global] sj_admins :: Serde (list Admin);
  #[global] sj_userpasses :: Serde (list UserPass);
  #[global] sj_session :: Serde (option SessionData);
  #[global] sj_session_ids :: Serde GetSessionsForClientsResponse;
  #[global] sj_totp :: Serde TotpGenerateResponse;
  #[global] sj_role_id :: Serde AppRoleRoleIdResponse;
  #[global] sj_role_config :: Serde AppRoleRoleConfigResponse;
  #[global] sj_secret_id :: Serde AppRoleSecretIdResponse;
  #[global] sj_role_list :: Serde AppRoleListRolesResponse;
  #[global] sj_k8s_list :: Serde K8sListRolesResponse;
  #[global] sj_k8s_config :: Serde K8sRoleConfigResponse;
  #[global] sj_auth :: Serde AppAuthResponse;
  #[global] sj_token :: Serde AppTokenLookupResponse;
  #[global] sj_value :: Serde Value;
}.

Section client.
Context {S : Type} {T : Transport S} {RW : Reqwest}.
Context {RJ : RequestJson} {AL : AppLibs} {SJ : ResponseJson}.
Definition ClientM (A : Type) : Type := M S AuthError A.

(** * Construction *)
Definition AUTHORIZATION : string := "authorization".
Definition authorization_header (scheme value : string)
    : Result (list (string * string)) AuthError :=
  let? v := map_err (λ e, Config ("Failed to create " +:+ scheme +:+ " auth header: " +:+ e))
              (header_value_from_str value) in
  Ok [(AUTHORIZATION, v)].
Definition build_client (server_ca_cert_pem : string) (auth : AuthClientScheme)
    : Result (list (string * string)) AuthError :=
  let? _ := map_err (λ e, Config ("Failed to parse CA certificate: " +:+ e))
              (certificate_from_pem server_ca_cert_pem) in
  let? headers :=
    match auth with
    | NoAuth => Ok []
    | JwtScheme token => authorization_header "Bearer" ("Bearer " +:+ token)
    | ClientCertificateScheme pkcs12_der password =>
        let? _ := map_err (λ e, Config ("Failed to parse client identity: " +:+ e))
                    (identity_from_pkcs12_der pkcs12_der password) in
        Ok []
    | UsernamePasswordScheme username password =>
        authorization_header "Basic" ("Basic " +:+ base64_encode (username +:+ ":" +:+ password))
    end in
  let? _ := map_err (λ e, Config ("Failed to build HTTP client: " +:+ e)) build in
  Ok headers.
Definition client_new (base_url server_ca_cert_pem : string) (auth : AuthClientScheme)
    : Result AuthClient AuthError :=
  let? headers := build_client server_ca_cert_pem auth in
  Ok (mkAuthClient headers (trim_end_matches "/" base_url) auth).

(** * Requests *)

(** [header]: a value that no header can carry is an error of the request. *)
Fixpoint header_values (headers : list (string * string)) : Result (list (string * string)) string :=
  match headers with
  | [] => Ok []
  | (name, value) :: headers' =>
      let? v := header_value_from_str value in
      let? rest := header_values headers' in
      Ok ((name, v) :: rest)
  end.
(** [request.send()], with the default headers; what could not be encoded is an error of it. *)
Definition send_request (c : AuthClient) (method : Method) (url : string)
    (headers : list (string * string)) (body : Result (option string) string)
    : M S string HttpReply :=
  let* b := of_result (map_err encode_error body) in
  let* hs := of_result (map_err encode_error (header_values headers)) in
  send (mkHttpRequest method url (cl_default_headers c ++ hs) b).
Definition no_body : Result (option string) string := Ok None.
Definition json_body {B} `{Serde B} (body : B) : Result (option string) string :=
  let? text := to_json body in Ok (Some text).
(** [response.json()] *)
Definition response_json {A} `{Serde A} (response : HttpReply) : Result A string :=
  let? text := hp_body response in map_err decode_error (from_json text).

Definition failed_status (response : HttpReply) (text : string) : AuthError :=
  FailedHttpStatus ("Request failed with status " +:+ status_text (hp_status response) +:+ ": "
    +:+ text).
Definition text_or (default_text : string) (response : HttpReply) : string :=
  match hp_body response with Ok text => text | Err _ => default_text end.
(** The check of the operations without a response body. *)
Definition check_no_content (response : HttpReply) : ClientM () :=
  if is_success response then ret ()
  else throw (failed_status response (text_or "Unknown error" response)).
Definition handle_response {A} `{Serde A} (response : HttpReply) : ClientM A :=
  if is_success response then
    of_result (map_err (λ e, Config ("Failed to deserialize response: " +:+ e))
      (response_json response))
  else throw (failed_status response (text_or "Unknown error" response)).
(** [error_for_status] *)
Definition error_for_status (url : string) (response : HttpReply) : Result () string :=
  if decide (400 ≤ hp_status response < 600)%Z then Err (status_error (hp_status response) url)
  else Ok ().

Definition client_get {A} `{Serde A} (c : AuthClient) (path : string) : ClientM A :=
  let url := cl_base_url c +:+ path in
  let* response := with_err (λ e, Generic ("GET request failed: " +:+ e))
    (send_request c GET url [] no_body) in
  handle_response response.
Definition get_raw (c : AuthClient) (path : string) : ClientM HttpReply :=
  with_err (λ e, Config ("GET request failed: " +:+ e))
    (send_request c GET (cl_base_url c +:+ path) [] no_body).
Definition get_raw_with_header (c : AuthClient) (path name value : string) : ClientM HttpReply :=
  with_err (λ e, Config ("GET request failed: " +:+ e))
    (send_request c GET (cl_base_url c +:+ path) [(name, value)] no_body).
Definition post_raw_with_header {B} `{Serde B} (c : AuthClient) (path : string) (body : B)
    (name value : string) : ClientM HttpReply :=
  with_err (λ e, Config ("POST request failed: " +:+ e))
    (send_request c POST (cl_base_url c +:+ path) [(name, value)] (json_body body)).
Definition client_post {B A} `{Serde B, Serde A} (c : AuthClient) (path : string) (body : B)
    : ClientM A :=
  let* response := with_err (λ e, Config ("POST request failed: " +:+ e))
    (send_request c POST (cl_base_url c +:+ path) [] (json_body body)) in
  handle_response response.
Definition client_put {B A} `{Serde B, Serde A} (c : AuthClient) (path : string) (body : B)
    : ClientM A :=
  let* response := with_err (λ e, Generic ("PUT request failed: " +:+ e))
    (send_request c PUT (cl_base_url c +:+ path) [] (json_body body)) in
  handle_response response.
Definition post_raw {B} `{Serde B} (c : AuthClient) (path : string) (body : B) : ClientM HttpReply :=
  with_err (λ e, Generic ("POST request failed: " +:+ e))
    (send_request c POST (cl_base_url c +:+ path) [] (json_body body)).
(** The operations that delete and read no response body. *)
Definition delete_checked (c : AuthClient) (path : string) : ClientM () :=
  let* response := with_err (λ e, Generic ("DELETE request failed: " +:+ e))
    (send_request c DELETE (cl_base_url c +:+ path) [] no_body) in
  check_no_content response.
Definition delete_for_status (c : AuthClient) (path : string) : ClientM () :=
  let url := cl_base_url c +:+ path in
  let* response := with_err (λ e, Generic ("DELETE request failed: " +:+ e))
    (send_request c DELETE url [] no_body) in
  of_result (map_err (λ e, FailedHttpStatus ("Request failed: " +:+ e))
    (error_for_status url response)).
(** The operations that post and read no response body. *)
Definition post_checked {B} `{Serde B} (c : AuthClient) (path : string) (body : B) : ClientM () :=
  let* response := post_raw c path body in check_no_content response.

Definition get_cookie (c : AuthClient) (url : string) : ClientM (option JarCookie) :=
  let* host := of_result (map_err (λ e, Config ("Failed to parse URL " +:+ url +:+ ": " +:+ e))
    (url_host url)) in
  let* host_string := of_result (ok_or (Config ("URL " +:+ url +:+ " has no host")) host) in
  let* found := gets (λ s, list_find (λ k, jar_domain k = HostOnly host_string) (jar_cookies s)) in
  ret (snd <$> found).
End client.

Section operations.
Context {S : Type} {T : Transport S} {RW : Reqwest}.
Context {RJ : RequestJson} {AL : AppLibs} {SJ : ResponseJson}.
Implicit Types c : AuthClient.
Abbreviation CM A := (ClientM (S := S) A).

(** * User API *)
Definition client_login c (realm : string) (totp_code : option string)
    : CM (AuthenticationResult * option JarCookie) :=
  let* user := client_post c ("/login?realm=" +:+ realm) (mkLoginRequest totp_code) in
  let* cookie := get_cookie c (cl_base_url c) in
  ret (user, cookie).
Definition client_whoami c (realm : string) : CM ClientClaims :=
  client_get c ("/whoami?realm=" +:+ realm).
Definition client_get_version c : CM string :=
  let* v := client_get c "/public/version" in ret (ver_version v).
Definition client_get_saml_metadata c (realm_id : string) : CM string :=
  let url := cl_base_url c +:+ "/saml/" +:+ realm_id +:+ "/metadata" in
  let* response := with_err (λ e, Generic ("GET request failed: " +:+ e))
    (send_request c GET url [] no_body) in
  let* body := of_result (map_err (λ e, Generic ("failed to read the response body: " +:+ e))
    (hp_body response)) in
  if is_success response then ret body else throw (failed_status response body).

(** * Realm management API *)
Definition client_create_realm c (realm : Realm) : CM () :=
  let* _ := client_post (A := Realm) c "/admins/realms" realm in ret ().
Definition client_delete_realm c (realm_name : string) : CM () :=
  delete_checked c ("/admins/realms/" +:+ realm_name).
Definition client_list_realms c : CM (list string) := client_get c "/admins/realms".

(** * Sessions management API *)
Definition client_get_session c (session_id : string) : CM (option SessionData) :=
  client_get c ("/sessions/" +:+ session_id).
Definition client_get_session_with_action c (session_id : string)
    (authenticated_clients : list AuthenticatedClientScheme) (sessions_action : SessionsAction)
    : CM (option SessionData) := λ s,
  match client_post (A := option SessionData) c ("/sessions/" +:+ session_id)
          (mkGetSessionRequest authenticated_clients (Some sessions_action)) s with
  | (Err (FailedHttpStatus msg), s') =>
      (if str_contains "404" msg then Ok None else Err (FailedHttpStatus msg), s')
  | r => r
  end.
Definition client_get_sessions_for_clients c (realm_id : string)
    (authenticated_clients : list AuthenticatedClientScheme) : CM (list string) :=
  let* response := client_post c ("/sessions/realms/" +:+ realm_id +:+ "/clients")
    (mkGetSessionsForClientsRequest authenticated_clients) in
  ret (gcs_session_ids response).
Definition client_delete_sessions c (session_ids : list string) : CM () :=
  let* response := with_err (λ e, Generic ("DELETE request failed: " +:+ e))
    (send_request c DELETE (cl_base_url c +:+ "/sessions") []
      (json_body (mkDeleteSessionsRequest session_ids))) in
  check_no_content response.
Definition client_delete_expired_sessions c : CM () := delete_for_status c "/sessions/expired".
Definition client_delete_sessions_for_realm c (realm_id : string) : CM () :=
  delete_for_status c ("/sessions/realms/" +:+ realm_id).

(** * Super admin API *)
Definition create_realm_as_super_admin c (realm : Realm) : CM () :=
  let* _ := client_post (A := Realm) c "/admins/realms" realm in ret ().
Definition get_realm_as_super_admin c (realm_id : string) : CM Realm :=
  client_get c ("/admins/realms/" +:+ realm_id).
Definition delete_realm_as_super_admin c (realm_id : string) : CM () :=
  delete_checked c ("/admins/realms/" +:+ realm_id).
Definition update_realm_as_super_admin c (realm_id : string) (realm : Realm) : CM Realm :=
  client_put c ("/admins/realms/" +:+ realm_id) realm.
Definition list_realms_as_super_admin c : CM (list Realm) := client_get c "/admins/realms".

(** * Admin management API *)
Definition create_admin_as_super_admin c (admin : Admin) : CM Admin :=
  client_post c "/admins" admin.
Definition get_admin_as_super_admin c (admin_id : string) : CM Admin :=
  client_get c ("/admins/" +:+ admin_id).
Definition update_admin_as_super_admin c (admin_id : string) (admin : Admin) : CM Admin :=
  client_put c ("/admins/" +:+ admin_id) admin.
Definition delete_admin_as_super_admin c (admin_id : string) : CM () :=
  delete_checked c ("/admins/" +:+ admin_id).
Definition list_admins_as_super_admin c : CM (list Admin) := client_get c "/admins".
Definition client_add_admin_to_realm c (admin_id realm_id : string) : CM Admin :=
  client_put c ("/admins/" +:+ admin_id +:+ "/realms/" +:+ realm_id) VNull.
Definition client_remove_admin_from_realm c (admin_id realm_id : string) : CM Admin :=
  let* response := with_err (λ e, Generic ("DELETE request failed: " +:+ e))
    (send_request c DELETE (cl_base_url c +:+ "/admins/" +:+ admin_id +:+ "/realms/" +:+ realm_id)
      [] no_body) in
  handle_response response.
Definition create_admin_credentials_in_realm c (realm_id : string) (userpass : UserPass) : CM () :=
  let* _ := client_post (A := Value) c ("/realms/" +:+ realm_id +:+ "/userpass") userpass in
  ret ().
Definition get_admin_credentials_in_realm c (realm_id username : string) : CM UserPass :=
  client_get c ("/realms/" +:+ realm_id +:+ "/userpass/" +:+ username).
Definition update_admin_credentials_in_realm c (realm_id username : string) (userpass : UserPass)
    : CM UserPass :=
  client_put c ("/realms/" +:+ realm_id +:+ "/userpass/" +:+ username) userpass.
Definition delete_admin_credentials_in_realm c (realm_id username : string) : CM () :=
  delete_checked c ("/realms/" +:+ realm_id +:+ "/userpass/" +:+ username).
Definition list_admin_credentials_in_realm c (realm_id : string) : CM (list UserPass) :=
  client_get c ("/realms/" +:+ realm_id +:+ "/userpass").
Definition list_all_userpass_as_super_admin c : CM (list UserPass) :=
  client_get c "/admins/userpass".

(** * TOTP management API *)
Definition client_generate_totp c (realm_id username : string) (issuer : option string)
    : CM TotpGenerateResponse :=
  client_post c ("/realms/" +:+ realm_id +:+ "/totp/generate")
    (mkTotpGenerateRequest username issuer).
Definition client_verify_and_enable_totp c (realm_id username secret token : string)
    (issuer : option string) : CM () :=
  let* _ := client_post (A := Value) c ("/realms/" +:+ realm_id +:+ "/totp/verify")
    (mkTotpVerifyRequest username token secret issuer) in
  ret ().
Definition client_disable_totp c (realm_id username : string) : CM () :=
  delete_checked c ("/realms/" +:+ realm_id +:+ "/totp/" +:+ username).

(** * AppRole auth API *)
Definition client_approle_create_role c (name : string) (req : AppRoleRoleRequest) : CM () :=
  post_checked c ("/auth/approle/role/" +:+ name) req.
Definition client_approle_get_role_id c (name : string) : CM AppRoleRoleIdResponse :=
  client_get c ("/auth/approle/role/" +:+ name +:+ "/role-id").
Definition client_approle_get_role c (name : string) : CM AppRoleRoleConfigResponse :=
  client_get c ("/auth/approle/role/" +:+ name).
Definition client_approle_generate_secret_id c (name : string) (req : AppRoleSecretIdRequest)
    : CM AppRoleSecretIdResponse :=
  client_post c ("/auth/approle/role/" +:+ name +:+ "/secret-id") req.
Definition client_approle_destroy_secret_id c (name accessor : string) : CM () :=
  post_checked c ("/auth/approle/role/" +:+ name +:+ "/secret-id/destroy")
    (mkDestroyRequest accessor).
Definition client_approle_delete_role c (name : string) : CM () :=
  delete_checked c ("/auth/approle/role/" +:+ name).
Definition client_approle_list_roles c : CM AppRoleListRolesResponse :=
  client_get c "/auth/approle/role?list=true".
Definition client_approle_login c (role_id : string) (secret_id : option string)
    : CM AppAuthResponse :=
  client_post c "/auth/approle/login" (mkAppRoleLoginRequest role_id secret_id).

(** * Kubernetes auth API *)
Definition client_k8s_create_role c (name : string) (req : K8sRoleRequest) : CM () :=
  post_checked c ("/auth/kubernetes/role/" +:+ name) req.
Definition client_k8s_delete_role c (name : string) : CM () :=
  delete_checked c ("/auth/kubernetes/role/" +:+ name).
Definition client_k8s_list_roles c : CM K8sListRolesResponse :=
  client_get c "/auth/kubernetes/role?list=true".
Definition client_k8s_get_role c (name : string) : CM K8sRoleConfigResponse :=
  client_get c ("/auth/kubernetes/role/" +:+ name).
Definition client_k8s_login c (role jwt : string) : CM AppAuthResponse :=
  client_post c "/auth/kubernetes/login" (mkK8sLoginRequest role jwt).

(** * Token self-service API *)
Definition APP_TOKEN_HEADER : string := "X-Vault-Token".

(** The response of [what] as a value of its type. *)
Definition self_response {A} `{Serde A} (what : string) (response : HttpReply) : CM A :=
  if is_success response then
    of_result (map_err (λ e, Generic ("failed to parse " +:+ what +:+ " response: " +:+ e))
      (response_json response))
  else throw (FailedHttpStatus (what +:+ " returned " +:+ status_text (hp_status response)
    +:+ ": " +:+ text_or "" response)).
Definition token_lookup_self c (token : string) : CM AppTokenLookupResponse :=
  let* response := with_err (λ e, Generic ("lookup-self GET failed: " +:+ auth_error_to_string e))
    (get_raw_with_header c "/auth/token/lookup-self" APP_TOKEN_HEADER token) in
  self_response "lookup-self" response.
Definition token_renew_self c (token : string) : CM AppAuthResponse :=
  let* response := with_err (λ e, Generic ("renew-self POST failed: " +:+ auth_error_to_string e))
    (post_raw_with_header c "/auth/token/renew-self" (VObject []) APP_TOKEN_HEADER token) in
  self_response "renew-self" response.
Definition token_revoke_self c (token : string) : CM () :=
  let* response := with_err (λ e, Generic ("revoke-self POST failed: " +:+ e))
    (send_request c POST (cl_base_url c +:+ "/auth/token/revoke-self")
      [(APP_TOKEN_HEADER, token)] no_body) in
  check_no_content response.
Definition token_lookup_self_status c (token : string) : CM Z :=
  let* response := with_err (λ e, Generic ("lookup-self GET failed: " +:+ e))
    (send_request c GET (cl_base_url c +:+ "/auth/token/lookup-self")
      [(APP_TOKEN_HEADER, token)] no_body) in
  ret (hp_status response).
End operations.
