(* ===== verification/ClientSpec.v ===== *)
(** Properties of the client against the routes of the server: each operation sends one request,
    and the server hands it to the handler the operation is for. *)
From S2P Require Import Prelude RustStd Models AppAuth AdminApi Sessions Login Routes App Client.

(** * From the client to the server *)

(** The path and the query a URL asks a server for ([url] and [reqwest]). *)
Class UrlTarget := url_target : string → option (string * string).

(** Characters of a path segment or a query that a URL carries as they are. *)
Definition plain_byte (a : ascii) : bool :=
  let n := nat_of_ascii a in
  (48 <=? n) && (n <=? 57) || (65 <=? n) && (n <=? 90) || (97 <=? n) && (n <=? 122) ||
  bool_decide (a ∈ ["-"; "_"; "."; "~"; "@"; ":"]%char).
Fixpoint all_bytes (f : ascii → bool) (s : string) : bool :=
  match s with EmptyString => true | String a s' => f a && all_bytes f s' end.
(** A name that is a segment of its own: not empty and not a dot segment. *)
Definition plain (s : string) : bool :=
  all_bytes plain_byte s && negb (bool_decide (s ∈ [""; "."; ".."])).
Definition plain_query (s : string) : bool := all_bytes (λ a, plain_byte a || bool_decide (a = "="%char)) s.

Class UrlTargetLaws `{UrlTarget} (base : string) : Prop := {
  target_path : ∀ l, l ≠ [] → forallb plain l = true →
    url_target (base +:+ join_path l) = Some (join_path l, "");
  target_query : ∀ l q, l ≠ [] → forallb plain l = true → plain_query q = true →
    url_target (base +:+ join_path l +:+ "?" +:+ q) = Some (join_path l, q);
}.

Definition header (name : string) (headers : list (string * string)) : option string :=
  snd ∘ snd <$> list_find (λ kv, kv.1 = name) headers.
(** The request as the server sees it, with the cookies of the jar. *)
Definition deliver `{UrlTarget} (session saml : option string) (req : HttpRequest)
    : option AppRequest :=
  match url_target (hr_url req) with
  | Some (path, query) =>
      Some (mkAppRequest (hr_method req) path query (header AUTHORIZATION (hr_headers req))
        session saml (header APP_TOKEN_HEADER (hr_headers req)) (default "" (hr_body req)))
  | None => None
  end.

Lemma plain_no_slash s : plain s = true → has_byte "/" s = false.
Proof.
  unfold plain. intros [Hs _]%andb_true_iff. induction s as [|a s IH]; [done|]. simpl in *.
  apply andb_true_iff in Hs as [Ha Hs]. rewrite (IH Hs), orb_false_r.
  apply bool_decide_eq_false. by intros ->.
Qed.
Lemma plain_not_empty s : plain s = true → s ≠ "".
Proof. by intros H ->. Qed.
Lemma segments_join l : forallb plain l = true → segments (join_path l) = l.
Proof.
  intros Hl. unfold segments. rewrite split_join_path; [done|].
  rewrite forallb_forall in Hl. apply Forall_forall. intros x Hx.
  apply plain_no_slash, Hl. by apply list_elem_of_In.
Qed.

(** The bodies of the client are written. *)
Class Encodes (A : Type) `{Serde A} : Prop := encodes : ∀ a : A, ∃ t, to_json a = Ok t.
Class BodiesEncode {RJ : RequestJson} {AL : AppLibs} {SJ : ResponseJson} : Prop := {
  #[global] enc_login :: Encodes LoginRequest;
  #[global] enc_realm :: Encodes Realm;
  #[global] enc_admin :: Encodes Admin;
  #[global] enc_userpass :: Encodes UserPass;
  #[global] enc_get_session :: Encodes GetSessionRequest;
  #[global] enc_clients :: Encodes GetSessionsForClientsRequest;
  #[global] enc_delete_sessions :: Encodes DeleteSessionsRequest;
  #[global] enc_totp_generate :: Encodes TotpGenerateRequest;
  #[global] enc_totp_verify :: Encodes TotpVerifyRequest;
  #[global] enc_role :: Encodes AppRoleRoleRequest;
  #[global] enc_secret_id :: Encodes AppRoleSecretIdRequest;
  #[global] enc_destroy :: Encodes AppRoleDestroySecretIdRequest;
  #[global] enc_approle_login :: Encodes AppRoleLoginRequest;
  #[global] enc_k8s_role :: Encodes K8sRoleRequest;
  #[global] enc_k8s_login :: Encodes K8sLoginRequest;
  #[global] enc_value :: Encodes Value;
}.

Create HintDb client.

Section reach.
Context {S : Type} {T : Transport S} {RW : Reqwest}.
Context {RJ : RequestJson} {AL : AppLibs} {SJ : ResponseJson} {ENC : BodiesEncode}.
Context {UT : UrlTarget}.
Implicit Types c : AuthClient.

(** What an operation leaves of the state of the network. *)
Definition leaves {E A} (m : M S E A) : S → S := λ s, (m s).2.
(** The operation sends exactly the request [req], whatever is answered. *)
Definition sends (f : S → S) (req : HttpRequest) : Prop := ∀ s, f s = (send req s).2.
Definition reaches (saml : bool) (f : S → S) (service : option (Handler * list string)) : Prop :=
  ∃ req path query, sends f req ∧ url_target (hr_url req) = Some (path, query) ∧
    rt_service (route saml (hr_method req) path) = service.

(** ** One request per operation *)
Lemma sends_with_err {A E F} (f : E → F) (m : M S E A) req :
  sends (leaves m) req → sends (leaves (with_err f m)) req.
Proof.
  intros Hm s. specialize (Hm s). unfold leaves, with_err in *. by destruct (m s).
Qed.
Lemma sends_bind {A B E} (m : M S E A) (k : A → M S E B) req :
  sends (leaves m) req → (∀ a, reads (k a)) → sends (leaves (bind m k)) req.
Proof.
  intros Hm Hk s. rewrite <-(Hm s). unfold leaves, bind.
  destruct (m s) as [[a|e] s']; [apply Hk|done].
Qed.
Lemma sends_request c method url headers body hs t :
  body = Ok t → header_values headers = Ok hs →
  sends (leaves (send_request c method url headers body))
    (mkHttpRequest method url (cl_default_headers c ++ hs) t).
Proof. intros -> Hh s. unfold leaves, send_request, bind, of_result. simpl. by rewrite Hh. Qed.
Lemma header_values_one name value v :
  header_value_from_str value = Ok v → header_values [(name, value)] = Ok [(name, v)].
Proof. simpl. by intros ->. Qed.
Lemma json_body_ok {B} `{Serde B} (b : B) t : to_json b = Ok t → json_body b = Ok (Some t).
Proof. unfold json_body. by intros ->. Qed.
Lemma check_no_content_reads r : reads (check_no_content (S := S) r).
Proof. unfold check_no_content. by destruct (is_success r). Qed.
Lemma handle_response_reads {A} `{Serde A} r : reads (handle_response (S := S) (A := A) r).
Proof. unfold handle_response. by destruct (is_success r). Qed.
Lemma self_response_reads {A} `{Serde A} what r : reads (self_response (S := S) (A := A) what r).
Proof. unfold self_response. by destruct (is_success r). Qed.
Lemma reaches_intro (base path : string) l saml (f : S → S) c method headers body service :
  UrlTargetLaws base → cl_base_url c = base →
  sends f (mkHttpRequest method (base +:+ path) headers body) →
  path = join_path l → l ≠ [] → forallb plain l = true →
  rt_service (route_in method l (build_app saml)) = service →
  reaches saml f service.
Proof.
  intros LAWS Hb Hs -> Hne Hp Hr. eexists _, _, _. split; [exact Hs|]. split.
  - by apply target_path.
  - unfold route. simpl. by rewrite segments_join.
Qed.
Lemma reaches_query (base path q : string) l saml (f : S → S) c method headers body service :
  UrlTargetLaws base → cl_base_url c = base →
  sends f (mkHttpRequest method (base +:+ path) headers body) →
  path = join_path l +:+ "?" +:+ q → l ≠ [] → forallb plain l = true → plain_query q = true →
  rt_service (route_in method l (build_app saml)) = service →
  reaches saml f service.
Proof.
  intros LAWS Hb Hs -> Hne Hp Hq Hr. eexists _, _, _. split; [exact Hs|]. split.
  - by apply target_query.
  - unfold route. simpl. by rewrite segments_join.
Qed.

Definition user_calls c (realm : string) (code : option string)
    : list ((S → S) * (Handler * list string)) :=
  [(leaves (client_login c realm code), (H_login, []));
   (leaves (client_whoami c realm), (H_whoami, []));
   (leaves (client_get_version c), (H_version_endpoint, []));
   (leaves (client_get_saml_metadata c realm), (H_saml_metadata, [realm]))].
Definition session_calls c (realm id : string) clients action ids
    : list ((S → S) * (Handler * list string)) :=
  [(leaves (client_get_session c id), (H_get_session_by_id, [id]));
   (leaves (client_get_session_with_action c id clients action), (H_get_session, [id]));
   (leaves (client_get_sessions_for_clients c realm clients), (H_get_sessions_for_clients, [realm]));
   (leaves (client_delete_sessions c ids), (H_delete_sessions, []));
   (leaves (client_delete_expired_sessions c), (H_delete_expired_sessions, []));
   (leaves (client_delete_sessions_for_realm c realm), (H_delete_sessions_for_realm, [realm]))].
Definition realm_calls c (realm : string) (cred : Realm)
    : list ((S → S) * (Handler * list string)) :=
  [(leaves (client_create_realm c cred), (H_create_realm, []));
   (leaves (client_delete_realm c realm), (H_delete_realm, [realm]));
   (leaves (client_list_realms c), (H_list_realms, []));
   (leaves (create_realm_as_super_admin c cred), (H_create_realm, []));
   (leaves (get_realm_as_super_admin c realm), (H_get_realm, [realm]));
   (leaves (delete_realm_as_super_admin c realm), (H_delete_realm, [realm]));
   (leaves (update_realm_as_super_admin c realm cred), (H_update_realm, [realm]));
   (leaves (list_realms_as_super_admin c), (H_list_realms, []))].
Definition admin_calls c (realm id : string) (adm : Admin)
    : list ((S → S) * (Handler * list string)) :=
  [(leaves (create_admin_as_super_admin c adm), (H_create_admin, []));
   (leaves (get_admin_as_super_admin c id), (H_get_admin, [id]));
   (leaves (update_admin_as_super_admin c id adm), (H_update_admin, [id]));
   (leaves (delete_admin_as_super_admin c id), (H_delete_admin, [id]));
   (leaves (list_admins_as_super_admin c), (H_list_admins, []));
   (leaves (client_add_admin_to_realm c id realm), (H_add_admin_to_realm, [id; realm]));
   (leaves (client_remove_admin_from_realm c id realm), (H_remove_admin_from_realm, [id; realm]));
   (leaves (list_all_userpass_as_super_admin c), (H_list_all_userpass, []))].
Definition credential_calls c (realm user : string) (up : UserPass) issuer secret token
    : list ((S → S) * (Handler * list string)) :=
  [(leaves (create_admin_credentials_in_realm c realm up), (H_create_userpass, [realm]));
   (leaves (get_admin_credentials_in_realm c realm user), (H_get_userpass, [realm; user]));
   (leaves (update_admin_credentials_in_realm c realm user up), (H_update_userpass, [realm; user]));
   (leaves (delete_admin_credentials_in_realm c realm user), (H_delete_userpass, [realm; user]));
   (leaves (list_admin_credentials_in_realm c realm), (H_list_userpass_by_realm, [realm]));
   (leaves (client_generate_totp c realm user issuer), (H_totp_generate, [realm]));
   (leaves (client_verify_and_enable_totp c realm user secret token issuer), (H_totp_verify, [realm]));
   (leaves (client_disable_totp c realm user), (H_totp_disable, [realm; user]))].
Definition app_role_calls c (name : string) role_req secret_req k8s_req accessor
    : list ((S → S) * (Handler * list string)) :=
  [(leaves (client_approle_create_role c name role_req), (H_approle_create_role, [name]));
   (leaves (client_approle_get_role_id c name), (H_approle_get_role_id, [name]));
   (leaves (client_approle_get_role c name), (H_approle_get_role, [name]));
   (leaves (client_approle_generate_secret_id c name secret_req), (H_approle_generate_secret_id, [name]));
   (leaves (client_approle_destroy_secret_id c name accessor), (H_approle_destroy_secret_id, [name]));
   (leaves (client_approle_delete_role c name), (H_approle_delete_role, [name]));
   (leaves (client_approle_list_roles c), (H_approle_list_roles, []));
   (leaves (client_k8s_create_role c name k8s_req), (H_k8s_create_role, [name]));
   (leaves (client_k8s_delete_role c name), (H_k8s_delete_role, [name]));
   (leaves (client_k8s_list_roles c), (H_k8s_list_roles, []));
   (leaves (client_k8s_get_role c name), (H_k8s_get_role, [name]))].
Definition app_token_calls c (role_id : string) secret_id role jwt token
    : list ((S → S) * (Handler * list string)) :=
  [(leaves (client_approle_login c role_id secret_id), (H_approle_login, []));
   (leaves (client_k8s_login c role jwt), (H_k8s_login, []));
   (leaves (token_lookup_self c token), (H_auth_token_lookup_self, []));
   (leaves (token_renew_self c token), (H_auth_token_renew_self, []));
   (leaves (token_revoke_self c token), (H_auth_token_revoke_self, []));
   (leaves (token_lookup_self_status c token), (H_auth_token_lookup_self, []))].

Lemma all_bytes_impl (f g : ascii → bool) s :
  (∀ a, f a = true → g a = true) → all_bytes f s = true → all_bytes g s = true.
Proof.
  intros Hfg. induction s as [|a s IH]; [done|]. simpl.
  intros [Ha Hs]%andb_true_iff. by rewrite (Hfg a Ha), IH.
Qed.
Lemma plain_query_realm realm : plain realm = true → plain_query ("realm=" +:+ realm) = true.
Proof.
  intros [Hs _]%andb_true_iff. change (plain_query ("realm=" +:+ realm)) with (plain_query realm).
  unfold plain_query. eapply all_bytes_impl, Hs. by intros a ->.
Qed.
Lemma get_session_with_action_sends c id clients action req :
  sends (leaves (client_post (A := option SessionData) c ("/sessions/" +:+ id)
    (mkGetSessionRequest clients (Some action)))) req →
  sends (leaves (client_get_session_with_action c id clients action)) req.
Proof.
  intros Hm s. rewrite <-(Hm s). unfold leaves, client_get_session_with_action.
  destruct (client_post _ _ _ s) as [[d|[]] s']; done.
Qed.

Lemma get_cookie_reads c url : reads (get_cookie c url).
Proof. unfold get_cookie. solve_reads. Qed.
Hint Resolve check_no_content_reads handle_response_reads self_response_reads get_cookie_reads : reads.
#[local] Hint Unfold client_login client_whoami client_get_version client_get_saml_metadata
  client_create_realm client_delete_realm client_list_realms client_get_session
  client_get_sessions_for_clients client_delete_sessions client_delete_expired_sessions
  client_delete_sessions_for_realm create_realm_as_super_admin get_realm_as_super_admin
  delete_realm_as_super_admin update_realm_as_super_admin list_realms_as_super_admin
  create_admin_as_super_admin get_admin_as_super_admin update_admin_as_super_admin
  delete_admin_as_super_admin list_admins_as_super_admin client_add_admin_to_realm
  client_remove_admin_from_realm create_admin_credentials_in_realm
  get_admin_credentials_in_realm update_admin_credentials_in_realm
  delete_admin_credentials_in_realm list_admin_credentials_in_realm
  list_all_userpass_as_super_admin client_generate_totp client_verify_and_enable_totp
  client_disable_totp client_approle_create_role client_approle_get_role_id
  client_approle_get_role client_approle_generate_secret_id client_approle_destroy_secret_id
  client_approle_delete_role client_approle_list_roles client_approle_login
  client_k8s_create_role client_k8s_delete_role client_k8s_list_roles client_k8s_get_role
  client_k8s_login token_lookup_self token_renew_self token_revoke_self token_lookup_self_status
  client_get client_post client_put post_raw post_raw_with_header get_raw_with_header
  delete_checked delete_for_status post_checked : client.
Ltac encode_body :=
  autounfold with client;
  try match goal with
  | |- context [client_get_session_with_action _ _ ?clients ?action] =>
      destruct (encodes (mkGetSessionRequest clients (Some action))) as [t Ht]
  | |- context [json_body ?b] => destruct (encodes b) as [t Ht]
  end.
Ltac solve_sends :=
  autounfold with client;
  repeat match goal with
  | |- sends (leaves (with_err _ _)) _ => apply sends_with_err
  | |- sends (leaves (bind _ _)) _ => apply sends_bind; [|intros ?; solve_reads]
  | |- sends (leaves (client_get_session_with_action _ _ _ _)) _ =>
      apply get_session_with_action_sends
  | |- sends (leaves (send_request _ _ _ _ _)) _ =>
      eapply sends_request;
        [first [reflexivity | apply json_body_ok; eassumption]
        |first [reflexivity | apply header_values_one; eassumption]]
  | |- _ => progress autounfold with client
  end.
Ltac use_plain :=
  repeat match goal with H : plain _ = true |- _ => rewrite H end.
Ltac solve_route :=
  simpl; repeat match goal with
  | H : plain ?x = true |- context [decide (?x = "")] =>
      rewrite (decide_False (P := x = "")) by by apply plain_not_empty
  | H : ?x ≠ ?y |- context [decide (?y = ?x)] => rewrite (decide_False (P := y = x)) by done; simpl
  | |- context [decide (?y = ?x)] => is_var x; destruct (decide (y = x)); simpl
  end; done.
(** [l]: the segments of the path. *)
Ltac reach_path l :=
  encode_body; eapply (reaches_intro _ _ l); [eassumption|reflexivity|solve_sends|..];
    [simpl; by rewrite ?string_app_nil_r|done|simpl; by use_plain|solve_route].
Ltac reach_query l q :=
  encode_body; eapply (reaches_query _ _ q l); [eassumption|reflexivity|solve_sends|..];
    [reflexivity|done|simpl; by use_plain
    |first [reflexivity | by apply plain_query_realm]|solve_route].
Lemma user_calls_reach c realm code :
  UrlTargetLaws (cl_base_url c) → plain realm = true →
  Forall (λ call, reaches true call.1 (Some call.2)) (user_calls c realm code).
Proof.
  intros LAWS **. repeat constructor; simpl.
  - reach_query ["login"] ("realm=" +:+ realm).
  - reach_query ["whoami"] ("realm=" +:+ realm).
  - reach_path ["public"; "version"].
  - reach_path ["saml"; realm; "metadata"].
Qed.
Lemma session_calls_reach c realm id clients action ids :
  UrlTargetLaws (cl_base_url c) → plain realm = true → plain id = true →
  Forall (λ call, reaches true call.1 (Some call.2)) (session_calls c realm id clients action ids).
Proof.
  intros LAWS **. repeat constructor; simpl.
  - reach_path ["sessions"; id].
  - reach_path ["sessions"; id].
  - reach_path ["sessions"; "realms"; realm; "clients"].
  - reach_path ["sessions"].
  - reach_path ["sessions"; "expired"].
  - reach_path ["sessions"; "realms"; realm].
Qed.
Lemma realm_calls_reach c realm cred :
  UrlTargetLaws (cl_base_url c) → plain realm = true →
  Forall (λ call, reaches true call.1 (Some call.2)) (realm_calls c realm cred).
Proof.
  intros LAWS **. repeat constructor; simpl.
  - reach_path ["admins"; "realms"].
  - reach_path ["admins"; "realms"; realm].
  - reach_path ["admins"; "realms"].
  - reach_path ["admins"; "realms"].
  - reach_path ["admins"; "realms"; realm].
  - reach_path ["admins"; "realms"; realm].
  - reach_path ["admins"; "realms"; realm].
  - reach_path ["admins"; "realms"].
Qed.
Lemma admin_calls_reach c realm id adm :
  UrlTargetLaws (cl_base_url c) → plain realm = true → plain id = true → id ≠ "realms" → id ≠ "userpass" →
  Forall (λ call, reaches true call.1 (Some call.2)) (admin_calls c realm id adm).
Proof.
  intros LAWS **. repeat constructor; simpl.
  - reach_path ["admins"].
  - reach_path ["admins"; id].
  - reach_path ["admins"; id].
  - reach_path ["admins"; id].
  - reach_path ["admins"].
  - reach_path ["admins"; id; "realms"; realm].
  - reach_path ["admins"; id; "realms"; realm].
  - reach_path ["admins"; "userpass"].
Qed.
Lemma credential_calls_reach c realm user up issuer secret token :
  UrlTargetLaws (cl_base_url c) → plain realm = true → plain user = true →
  Forall (λ call, reaches true call.1 (Some call.2))
    (credential_calls c realm user up issuer secret token).
Proof.
  intros LAWS **. repeat constructor; simpl.
  - reach_path ["realms"; realm; "userpass"].
  - reach_path ["realms"; realm; "userpass"; user].
  - reach_path ["realms"; realm; "userpass"; user].
  - reach_path ["realms"; realm; "userpass"; user].
  - reach_path ["realms"; realm; "userpass"].
  - reach_path ["realms"; realm; "totp"; "generate"].
  - reach_path ["realms"; realm; "totp"; "verify"].
  - reach_path ["realms"; realm; "totp"; user].
Qed.
Lemma app_role_calls_reach c name role_req secret_req k8s_req accessor :
  UrlTargetLaws (cl_base_url c) → plain name = true →
  Forall (λ call, reaches true call.1 (Some call.2))
    (app_role_calls c name role_req secret_req k8s_req accessor).
Proof.
  intros LAWS **. repeat constructor; simpl.
  - reach_path ["auth"; "approle"; "role"; name].
  - reach_path ["auth"; "approle"; "role"; name; "role-id"].
  - reach_path ["auth"; "approle"; "role"; name].
  - reach_path ["auth"; "approle"; "role"; name; "secret-id"].
  - reach_path ["auth"; "approle"; "role"; name; "secret-id"; "destroy"].
  - reach_path ["auth"; "approle"; "role"; name].
  - reach_query ["auth"; "approle"; "role"] "list=true".
  - reach_path ["auth"; "kubernetes"; "role"; name].
  - reach_path ["auth"; "kubernetes"; "role"; name].
  - reach_query ["auth"; "kubernetes"; "role"] "list=true".
  - reach_path ["auth"; "kubernetes"; "role"; name].
Qed.
Lemma app_token_calls_reach c role_id secret_id role jwt token v :
  UrlTargetLaws (cl_base_url c) → header_value_from_str token = Ok v →
  Forall (λ call, reaches true call.1 (Some call.2))
    (app_token_calls c role_id secret_id role jwt token).
Proof.
  intros LAWS **. repeat constructor; simpl.
  - reach_path ["auth"; "approle"; "login"].
  - reach_path ["auth"; "kubernetes"; "login"].
  - reach_path ["auth"; "token"; "lookup-self"].
  - reach_path ["auth"; "token"; "renew-self"].
  - reach_path ["auth"; "token"; "revoke-self"].
  - reach_path ["auth"; "token"; "lookup-self"].
Qed.

(** An administrator of the name of another route is out of reach of these operations. *)
Lemma shadowed_admins c adm :
  UrlTargetLaws (cl_base_url c) →
  reaches true (leaves (get_admin_as_super_admin c "userpass")) (Some (H_list_all_userpass, [])) ∧
  reaches true (leaves (get_admin_as_super_admin c "realms")) (Some (H_list_realms, [])) ∧
  reaches true (leaves (update_admin_as_super_admin c "realms" adm)) None ∧
  reaches true (leaves (delete_admin_as_super_admin c "realms")) None.
Proof.
  intros LAWS. split_and!.
  - reach_path ["admins"; "userpass"].
  - reach_path ["admins"; "realms"].
  - reach_path ["admins"; "realms"].
  - reach_path ["admins"; "realms"].
Qed.
End reach.

(** C23: the client and the server agree on the routes.  Every operation of the client sends exactly
    one request, whatever the network does, and the server hands it to the handler the operation
    is for, with the names the caller gave as its parameters.  The names are plain text, the
    bodies can be written, and an administrator is not called [realms] or [userpass]. *)
Theorem client_calls_reach_handlers {S : Type} {T : Transport S} {RW : Reqwest} {RJ : RequestJson}
    {AL : AppLibs} {SJ : ResponseJson} {ENC : BodiesEncode} {UT : UrlTarget} (c : AuthClient)
    (realm user id name role role_id jwt token secret accessor : string)
    (code secret_id issuer : option string) (clients : list AuthenticatedClientScheme)
    (action : SessionsAction) (ids : list string) (cred : Realm) (adm : Admin) (up : UserPass)
    (role_req : AppRoleRoleRequest) (secret_req : AppRoleSecretIdRequest) (k8s_req : K8sRoleRequest)
    (v : string) :
  UrlTargetLaws (cl_base_url c) → header_value_from_str token = Ok v →
  forallb plain [realm; user; id; name] = true → id ≠ "realms" → id ≠ "userpass" →
  Forall (λ call, reaches true call.1 (Some call.2))
    (user_calls c realm code ++ session_calls c realm id clients action ids ++
     realm_calls c realm cred ++ admin_calls c realm id adm ++
     credential_calls c realm user up issuer secret token ++
     app_role_calls c name role_req secret_req k8s_req accessor ++
     app_token_calls c role_id secret_id role jwt token).
Proof.
  intros LAWS Hv Hp Hre Hup. simpl in Hp. rewrite !andb_true_iff in Hp.
  destruct Hp as (Hr & Hu & Hi & Hn & _). rewrite !Forall_app.
  split_and!; [by apply user_calls_reach|by apply session_calls_reach|by apply realm_calls_reach
    |by apply admin_calls_reach|by apply credential_calls_reach|by apply app_role_calls_reach
    |by eapply app_token_calls_reach].
Qed.
