(* ===== verification/ClientServerSpec.v ===== *)
(** The client against the server itself: an application logs in with AppRole, asks about its
    token and revokes it, every call going through the router, the middlewares, the handlers and
    the store of the assembled server. *)
From S2P Require Import Prelude RustStd Models ClaimPolicy Jwt Passwords Totp Database DatabaseFacts Toy AdminApi AdminApiFacts AppAuth AppAuthSpec TokenSpec Sessions SessionToken Jwks Middleware Login Saml SamlStore SamlSso Routes App Client ClientSpec.

(** The bodies of the responses, as JSON *)
Class Render := render : AppBody → string.
(** What the client reads of a body is what the server wrote, and the server reads the login the
    client wrote. *)
Class WireLaws `{SJ : ResponseJson} `{RD : Render} `{AL : AppLibs} : Prop := {
  wire_token : ∀ d, from_json (render (TokenOf d)) = Ok (mkEnveloped d);
  wire_auth : ∀ d, from_json (render (AppAuthOf d)) = Ok (mkEnveloped d);
  wire_login : SerdeLaws AppRoleLoginRequest;
}.

(** An AppRole login that succeeds ends in the issue of a token for the role. *)
Lemma approle_login_issues `{L : DbLibs} `{AL : AppLibs} `{!DbLaws} n1 n2 raw body d resp d' :
  approle_login n1 n2 raw body d = (Ok resp, d') →
  ∃ payload name row tok d1, from_json body = Ok payload ∧ db_approle_roles d !! name = Some row ∧
    or_role_id row = alr_role_id payload ∧
    let policies := from_json_or_default (or_token_policies row) in
    let lease := or_token_ttl_secs row in
    issue_app_token raw n2 name policies lease true d1 = (Ok tok, d') ∧
    resp = mkResponse 200 (mkAppAuthData tok true lease policies [("role_name", name)]).
Proof.
  intros Hrun. pattern resp, d'. eapply wp_ok; [exact Hrun|]. clear Hrun d' resp.
  unfold approle_login. rewrite wp_bind, wp_of_result.
  destruct (from_json body) as [payload|e] eqn:Hbody; [|done]. simpl.
  rewrite wp_bind. apply wp_db. apply wp_get_approle_by_role_id; [done|].
  intros name row Hrow Hid. simpl. rewrite wp_bind, wp_of_result. simpl.
  rewrite wp_bind. eapply (wp_mono _ (λ _ _, True)); [by unfold wp; destruct (_ d)|].
  intros [[]|e] d1 _; [|done]. rewrite wp_bind. unfold wp at 1.
  destruct (issue_app_token _ _ _ _ _ _ d1) as [[tok|e] d'] eqn:Hissue; [|done]. unfold wp, ret.
  exists payload, name, row, tok, d1. by split_and!.
Qed.

Section network.
Context {S R : Type} {ST : SessionStore S} {RQ : SamlRequestStore R}.
Context {L : DbLibs} {TL : TokenLibs} {B64 : Base64} {AL : AppLibs} {SS : SsoLibs} {SC : SamlCheck}.
Context {RJ : RequestJson} {AX : Actix} {RW : Reqwest} {SJ : ResponseJson} {UT : UrlTarget}.
Context {RD : Render}.

(** The server on the other side of the wire; the client has no cookies. *)
Definition network (config : AppConfig) (ch : Chance) : Transport (AppState (S := S) (R := R)) := {|
  send req := λ s,
    match deliver None None req with
    | None => (Err "builder error", s)
    | Some req =>
        let '(resp, s') := serve config ch req s in
        (Ok (mkHttpReply (http_status resp) (Ok (render (http_body resp)))), s')
    end;
  jar_cookies _ := [];
|}.
Definition token_client (c : AuthClient) : Prop :=
  UrlTargetLaws (cl_base_url c) ∧ header APP_TOKEN_HEADER (cl_default_headers c) = None.

Lemma header_app name l1 l2 : header name l1 = None → header name (l1 ++ l2) = header name l2.
Proof.
  unfold header. induction l1 as [|[n v] l1 IH]; [done|]. simpl.
  destruct (decide (n = name)); [done|].
  destruct (list_find _ l1) as [[]|]; [done|]. intros _. rewrite <-IH by done.
  by destruct (list_find _ (l1 ++ l2)) as [[]|].
Qed.
(** A request with the header of a token, and one without headers, as the server sees them. *)
Lemma deliver_token c method l token body :
  token_client c → l ≠ [] → forallb plain l = true →
  deliver None None (mkHttpRequest method (cl_base_url c +:+ join_path l)
    (cl_default_headers c ++ [(APP_TOKEN_HEADER, token)]) body) =
  Some (mkAppRequest method (join_path l) ""
    (header AUTHORIZATION (cl_default_headers c ++ [(APP_TOKEN_HEADER, token)])) None None
    (Some token) (default "" body)).
Proof.
  intros [LAWS Hh] Hne Hp. unfold deliver. simpl. rewrite target_path by done.
  by rewrite (header_app APP_TOKEN_HEADER) by done.
Qed.
Lemma deliver_body c method l body :
  token_client c → l ≠ [] → forallb plain l = true →
  deliver None None (mkHttpRequest method (cl_base_url c +:+ join_path l)
    (cl_default_headers c ++ []) body) =
  Some (mkAppRequest method (join_path l) "" (header AUTHORIZATION (cl_default_headers c)) None None
    None (default "" body)).
Proof.
  intros [LAWS Hh] Hne Hp. unfold deliver. simpl. rewrite target_path by done.
  by rewrite app_nil_r, Hh.
Qed.

(** ** The token routes of the server *)
Lemma serve_token_route config ch req l s h :
  ar_path req = join_path l → forallb plain l = true →
  route_in (ar_method req) l (build_app (saml_configured config)) =
    mkRoute [W_AppTokenExtract; W_Cors] (Some (h, [])) →
  run_route config ch req (request_route config req) s =
  app_token_auth (clk_secs (ch_clock ch)) (ar_vault_token req)
    (run_handler (S := S) (R := R) config ch req h []) no_extensions s.
Proof.
  intros Hp Hl Hr. unfold request_route, route. rewrite Hp, segments_join, Hr by done. done.
Qed.
Lemma app_token_auth_live now raw row s :
  db_app_tokens (srv_db s) !! sha256 raw = Some row →
  (tr_expiry row = 0 ∨ now < tr_expiry row)%Z → in_i64 (tr_expiry row) →
  ∃ claims, atc_token_hash claims = sha256 raw ∧
    ∀ (service : Service (S := S * R) AppBody) ext,
      app_token_auth now (Some raw) service ext s = service (insert_app_token claims ext) s.
Proof.
  intros Hrow Ht Hin. eexists. split; [|intros service ext; unfold app_token_auth, bind at 1, auth, with_err, on_db;
    rewrite (app_token_extract_live now now raw row) by done; simpl; by destruct s].
  done.
Qed.
Lemma app_token_auth_dead now raw (service : Service (S := S * R) AppBody) ext s :
  revoked_or_expired now (sha256 raw) (srv_db s) →
  app_token_auth now (Some raw) service ext s =
    (Ok (mkResponse 403 (Answer (Errors ["permission denied"]))), s).
Proof.
  intros Hd. unfold app_token_auth, bind at 1, auth, with_err, on_db.
  rewrite app_token_extract_dead by done. simpl. by destruct s.
Qed.

(** ** The handlers *)
Lemma lookup_self_live t1 t2 raw row claims (d : Database) :
  db_app_tokens d !! sha256 raw = Some row → (tr_expiry row = 0 ∨ t1 < tr_expiry row)%Z →
  in_i64 (tr_expiry row) → atc_token_hash claims = sha256 raw →
  auth_token_lookup_self t1 t2 (Some raw) (Some claims) d =
    (Ok (HttpOk (mkAppTokenData raw (tr_entity row) (from_json_or_default (tr_policies row))
       (bool_decide (tr_renewable row ≠ 0%Z))
       (remaining_ttl t2 (mkAppToken (sha256 raw) (tr_entity row)
          (from_json_or_default (tr_policies row)) (tr_expiry row)
          (bool_decide (tr_renewable row ≠ 0%Z)) (tr_lease_duration_secs row) (tr_created_at row)))
       (tr_created_at row))), d).
Proof.
  intros Hrow Ht Hin Hh. unfold auth_token_lookup_self, token_claims, db, bind, with_err, of_result.
  simpl. by rewrite Hh, (lookup_live t1 _ _ row), row_to_app_token_run by done.
Qed.
Lemma revoke_self_run claims (d : Database) :
  auth_token_revoke_self (Some claims) d =
    (Ok NoContent, set_app_tokens (delete (atc_token_hash claims)) d).
Proof. done. Qed.
Lemma error_response_fails e : is_success (mkHttpReply (error_response e) (Ok (render NoBody))) = false.
Proof. by destruct e. Qed.

#[local] Arguments run_handler : simpl never.
Lemma serve_approle_login config ch req s :
  ar_method req = POST → ar_path req = join_path ["auth"; "approle"; "login"] →
  serve (S := S) (R := R) config ch req s =
  if decide (Z.of_nat (String.length (ar_body req)) > JSON_LIMIT)%Z then
    (mkResponse 413 (PlainText overflow_text), s)
  else let now := clk_secs (ch_clock ch) in
  let '(r, d) := approle_login now now (ch_token_bytes ch) (ar_body req) (srv_db s) in
  (match r with
   | Ok resp => mkResponse (http_status resp) (AppAuthOf (http_body resp))
   | Err e => mkResponse (error_response e) (PlainText (auth_error_to_string e))
   end, mkServer d (srv_jwks s) (srv_sessions s)).
Proof.
  intros Hm Hp. unfold serve, request_route, route. rewrite Hp, segments_join, Hm by done.
  change (route_in POST ["auth"; "approle"; "login"] (build_app (saml_configured config)))
    with (mkRoute [W_Cors] (Some (H_approle_login, []))).
  unfold run_route. simpl. unfold run_handler. simpl.
  unfold run_client_handler, bytes. case_decide; [done|].
  unfold answer, auth, with_err, on_db, bind, ret. simpl.
  by destruct (approle_login _ _ _ _ (srv_db s)) as [[resp|e] d].
Qed.
Lemma serve_token_self config ch req raw s h l :
  ar_vault_token req = Some raw → ar_path req = join_path l → forallb plain l = true →
  route_in (ar_method req) l (build_app (saml_configured config)) =
    mkRoute [W_AppTokenExtract; W_Cors] (Some (h, [])) →
  serve (S := S) (R := R) config ch req s =
  match app_token_auth (clk_secs (ch_clock ch)) (Some raw) (run_handler config ch req h [])
          no_extensions s with
  | (Ok resp, s') =>
      (mkResponse (http_status resp)
         (match http_body resp with Answer body => body | Text text => PlainText text end), s')
  | (Err (AuthErr e), s') => (mkResponse (error_response e) (PlainText (auth_error_to_string e)), s')
  | (Err (StatusErr status text), s') => (mkResponse status (PlainText text), s')
  end.
Proof.
  intros Hv Hp Hl Hr. unfold serve.
  by rewrite (serve_token_route config ch req l s h), Hv by done.
Qed.

(** ** The operations of the client over the network *)
Context {LAWS : DbLaws} {WIRE : WireLaws}.

Lemma approle_login_over config ch c role_id secret_id s auth s1 :
  token_client c →
  client_approle_login (T := network config ch) c role_id secret_id s = (Ok auth, s1) →
  let now := clk_secs (ch_clock ch) in
  ∃ name policies lease tok d1,
    issue_app_token (ch_token_bytes ch) now name policies lease true d1 = (Ok tok, srv_db s1) ∧
    auth = mkEnveloped (mkAppAuthData tok true lease policies [("role_name", name)]).
Proof.
  intros Hc. destruct (wire_login (mkAppRoleLoginRequest role_id secret_id)) as (t & He & _).
  unfold client_approle_login, client_post, send_request, json_body. rewrite He.
  unfold bind, with_err, of_result. simpl.
  rewrite (deliver_body c POST ["auth"; "approle"; "login"]) by done.
  rewrite serve_approle_login by done. cbn [ar_body default]. case_decide; [done|]. simpl.
  destruct (approle_login _ _ _ t (srv_db s)) as [[resp|e] d'] eqn:Hrun; simpl.
  - apply approle_login_issues in Hrun as (payload & name & row & tok & d1 & _ & _ & _ & Hi & ->).
    unfold handle_response, is_success, response_json, of_result. simpl. rewrite wire_auth. simpl.
    intros [= <- <-]. simpl. by eexists _, _, _, _, _.
  - unfold handle_response. by destruct e.
Qed.
Lemma lookup_self_over config ch c tok s row :
  token_client c → header_value_from_str tok = Ok tok →
  db_app_tokens (srv_db s) !! sha256 tok = Some row →
  (tr_expiry row = 0 ∨ clk_secs (ch_clock ch) < tr_expiry row)%Z → in_i64 (tr_expiry row) →
  ∃ ttl, token_lookup_self (T := network config ch) c tok s =
    (Ok (mkEnveloped (mkAppTokenData tok (tr_entity row) (from_json_or_default (tr_policies row))
       (bool_decide (tr_renewable row ≠ 0%Z)) ttl (tr_created_at row))), s) ∧
    ttl = remaining_ttl (clk_secs (ch_clock ch)) (mkAppToken (sha256 tok) (tr_entity row)
          (from_json_or_default (tr_policies row)) (tr_expiry row)
          (bool_decide (tr_renewable row ≠ 0%Z)) (tr_lease_duration_secs row) (tr_created_at row)).
Proof.
  intros Hc Hv Hrow Ht Hin. eexists. split; [|done].
  unfold token_lookup_self, get_raw_with_header, send_request, bind, with_err, of_result. simpl.
  rewrite Hv. simpl. rewrite (deliver_token c GET ["auth"; "token"; "lookup-self"]) by done.
  rewrite (serve_token_self _ _ _ tok _ H_auth_token_lookup_self
    ["auth"; "token"; "lookup-self"]) by done. simpl.
  destruct (app_token_auth_live (clk_secs (ch_clock ch)) tok row s Hrow Ht Hin)
    as (claims & Hh & Hlive). rewrite Hlive.
  unfold run_handler. simpl. unfold run_client_handler. simpl.
  unfold answer, auth, with_err, on_db, bind, ret.
  rewrite (lookup_self_live _ _ tok row) by done. simpl.
  unfold self_response, is_success, response_json, of_result. simpl. rewrite wire_token. simpl.
  by destruct s.
Qed.
Lemma lookup_self_over_dead config ch c tok s :
  token_client c → header_value_from_str tok = Ok tok →
  revoked_or_expired (clk_secs (ch_clock ch)) (sha256 tok) (srv_db s) →
  token_lookup_self (T := network config ch) c tok s =
    (Err (FailedHttpStatus ("lookup-self returned " +:+ status_text 403 +:+ ": "
       +:+ render (Errors ["permission denied"]))), s).
Proof.
  intros Hc Hv Hd.
  unfold token_lookup_self, get_raw_with_header, send_request, bind, with_err, of_result. simpl.
  rewrite Hv. simpl. rewrite (deliver_token c GET ["auth"; "token"; "lookup-self"]) by done.
  rewrite (serve_token_self _ _ _ tok _ H_auth_token_lookup_self
    ["auth"; "token"; "lookup-self"]) by done.
  by rewrite app_token_auth_dead by done.
Qed.
Lemma revoke_self_over config ch c tok s row :
  token_client c → header_value_from_str tok = Ok tok →
  db_app_tokens (srv_db s) !! sha256 tok = Some row →
  (tr_expiry row = 0 ∨ clk_secs (ch_clock ch) < tr_expiry row)%Z → in_i64 (tr_expiry row) →
  token_revoke_self (T := network config ch) c tok s =
    (Ok (), mkServer (set_app_tokens (delete (sha256 tok)) (srv_db s)) (srv_jwks s) (srv_sessions s)).
Proof.
  intros Hc Hv Hrow Ht Hin.
  unfold token_revoke_self, send_request, bind, with_err, of_result. simpl.
  rewrite Hv. simpl. rewrite (deliver_token c POST ["auth"; "token"; "revoke-self"]) by done.
  rewrite (serve_token_self _ _ _ tok _ H_auth_token_revoke_self
    ["auth"; "token"; "revoke-self"]) by done. simpl.
  destruct (app_token_auth_live (clk_secs (ch_clock ch)) tok row s Hrow Ht Hin)
    as (claims & Hh & Hlive). rewrite Hlive.
  unfold run_handler. simpl. unfold run_client_handler. simpl.
  unfold answer, auth, with_err, on_db, bind, ret. simpl. by rewrite Hh.
Qed.
End network.

(** C22: the life of an application token, end to end.  An application that logs in through the
    client is given a token of its role.  As long as the token lives, looking it up through the
    client answers the application's role, policies and exactly the time that is left, and
    changes nothing; once it has expired, and once it has been revoked through the client, every
    lookup fails and changes nothing. *)
Theorem app_token_lifecycle {S R : Type} {ST : SessionStore S} {RQ : SamlRequestStore R}
    {L : DbLibs} {TL : TokenLibs} {B64 : Base64} {AL : AppLibs} {SS : SsoLibs} {SC : SamlCheck}
    {RJ : RequestJson} {AX : Actix} {RW : Reqwest} {SJ : ResponseJson} {UT : UrlTarget}
    {RD : Render} {LAWS : DbLaws} {WIRE : WireLaws} (config : AppConfig) (ch ch' : Chance)
    (c : AuthClient) (role_id : string) (secret_id : option string) (auth : AppAuthResponse)
    (s s' : AppState (S := S) (R := R)) :
  let now := clk_secs (ch_clock ch) in
  let now' := clk_secs (ch_clock ch') in
  let data := env_data auth in
  let tok := aa_client_token data in
  let expiry := (now + aa_lease_duration data)%Z in
  let lookup ch := token_lookup_self (T := network config ch) c tok in
  token_client c → header_value_from_str tok = Ok tok →
  client_approle_login (T := network config ch) c role_id secret_id s = (Ok auth, s') →
  (0 < aa_lease_duration data)%Z → (0 ≤ now ≤ now')%Z → (expiry ≤ i64_max)%Z → in_i64 now' →
  ∃ role, aa_metadata data = [("role_name", role)] ∧
    if decide (now' < expiry)%Z then
      lookup ch' s' = (Ok (mkEnveloped
        (mkAppTokenData tok role (aa_policies data) true (expiry - now') now)), s') ∧
      ∃ s'', token_revoke_self (T := network config ch') c tok s' = (Ok (), s'') ∧
        ∀ ch'', ∃ e, lookup ch'' s'' = (Err (FailedHttpStatus e), s'')
    else ∃ e, lookup ch' s' = (Err (FailedHttpStatus e), s').
Proof.
  intros now now' data tok expiry lookup Hc Hv Hlogin. subst now now' data expiry lookup.
  apply approle_login_over in Hlogin as (name & policies & lease & tk & d1 & Hissue & ->); [|done].
  subst tok. simpl in *. intros Hl Hn Hmax Hi. exists name. split; [done|].
  apply issued_row in Hissue as Hrow.
  assert (in_i64 (clk_secs (ch_clock ch) + lease)) as Hin by
    (unfold in_i64, i64_min, i64_max in *; lia).
  rewrite decide_True, i64_add_id in Hrow by (done || lia).
  set (row := mkAppTokenRow _ _ _ _ _ _) in Hrow. case_decide as Ht.
  - destruct (lookup_self_over config ch' c tk s' row) as (ttl & -> & ->);
      [done|done|done|by right|done|].
    split; [|eexists; split; [by apply (revoke_self_over _ _ _ _ _ row); try done; right|]].
    + simpl. rewrite remaining_ttl_run, policies_roundtrip by
        (simpl; done || lia || (unfold in_i64, i64_min, i64_max in *; lia)).
      simpl. by rewrite Z.max_l by lia.
    + intros ch''. eexists. apply lookup_self_over_dead; [done|done|]. intros row'. simpl.
      by rewrite lookup_delete_eq.
  - eexists. apply lookup_self_over_dead; [done|done|]. intros row'. rewrite Hrow.
    intros [= <-]. simpl. lia.
Qed.
