(* ===== verification/ToyClient.v ===== *)
(** A concrete network for the client, and the witnesses of its theorems: a URL is a fixed host and what follows it, the
    bodies an application reads are written with the bits of their code, and an AppRole role with
    a token of sixty seconds is configured. *)
From S2P Require Import Prelude RustStd Models ClaimPolicy Jwt Passwords Totp Database DatabaseFacts Toy AdminApi AppAuth AppAuthSpec Sessions SessionToken Jwks Middleware Login ToyLogin Saml ToySaml SamlStore SamlSso ToySso Routes App ToyApp Client ClientSpec ClientServerSpec.
#[local] Existing Instance toy_app_libs.
#[local] Existing Instance toy_request_json.

Definition toy_base : string := "https://h".
Definition toy_target : UrlTarget := λ url,
  match strip_prefix toy_base url with
  | Some rest =>
      match split_once "?" rest with
      | Some (path, query) => Some (path, query)
      | None => Some (rest, "")
      end
  | None => None
  end.
Lemma plain_no_query s : plain s = true → has_byte "?" s = false.
Proof.
  unfold plain. intros [Hs _]%andb_true_iff. induction s as [|a s IH]; [done|]. simpl in *.
  apply andb_true_iff in Hs as [Ha Hs]. rewrite (IH Hs), orb_false_r.
  apply bool_decide_eq_false. by intros ->.
Qed.
Lemma join_path_no_query l : forallb plain l = true → has_byte "?" (join_path l) = false.
Proof.
  induction l as [|x l IH]; [done|]. intros [Hx Hl]%andb_true_iff.
  change (join_path (x :: l)) with (String "/" (x +:+ join_path l)). simpl.
  by rewrite has_byte_app, plain_no_query, IH.
Qed.
Lemma toy_target_laws : @UrlTargetLaws toy_target toy_base.
Proof.
  split; intros l; [intros _ Hp|intros q _ Hp _];
    unfold url_target, toy_target; rewrite (proj2 (strip_prefix_Some _ _ _) eq_refl).
  - by rewrite split_once_None by by apply join_path_no_query.
  - rewrite (proj2 (split_once_spec "?" (join_path l +:+ "?" +:+ q) (join_path l) q)); [done|].
    split; [done|by apply join_path_no_query].
Qed.

#[export] Instance AppAuthData_eq_dec : EqDecision AppAuthData.
Proof. solve_decision. Defined.
#[export] Program Instance AppAuthData_countable : Countable AppAuthData :=
  inj_countable' (λ d, (aa_client_token d, aa_renewable d, aa_lease_duration d, aa_policies d,
    aa_metadata d)) (λ '(a, b, c, d, e), mkAppAuthData a b c d e) _.
Next Obligation. by intros []. Qed.
#[export] Instance AppTokenData_eq_dec : EqDecision AppTokenData.
Proof. solve_decision. Defined.
#[export] Program Instance AppTokenData_countable : Countable AppTokenData :=
  inj_countable' (λ d, (atd_id d, atd_entity_id d, atd_policies d, atd_renewable d, atd_ttl d,
    atd_creation_time d)) (λ '(a, b, c, d, e, f), mkAppTokenData a b c d e f) _.
Next Obligation. by intros []. Qed.

Definition enveloped {A} (s : Serde A) : Serde (Enveloped A) := {|
  to_json x := to_json (env_data x);
  from_json t := map_ok mkEnveloped (from_json t);
|}.
Definition toy_response_json : ResponseJson := {|
  sj_authentication := no_json; sj_claims := no_json; sj_version := no_json; sj_strings := no_json;
  sj_realms := no_json; sj_admins := no_json; sj_userpasses := no_json; sj_session := no_json;
  sj_session_ids := no_json; sj_totp := no_json; sj_role_id := no_json; sj_role_config := no_json;
  sj_secret_id := no_json; sj_role_list := no_json; sj_k8s_list := no_json;
  sj_k8s_config := no_json; sj_auth := enveloped countable_serde;
  sj_token := enveloped countable_serde; sj_value := no_json;
|}.
Definition text_of {A} (r : Result string A) : string :=
  match r with Ok t => t | Err _ => "" end.
Definition toy_render : Render := λ body,
  match body with
  | AppAuthOf d => text_of (@to_json _ countable_serde d)
  | TokenOf d => text_of (@to_json _ countable_serde d)
  | _ => ""
  end.
Definition toy_reqwest : Reqwest := {|
  status_text _ := "status";
  encode_error e := e;
  decode_error e := e;
  status_error _ _ := "status";
  url_host _ := Ok (Some "h");
  header_value_from_str v := Ok v;
  certificate_from_pem _ := Ok ();
  identity_from_pkcs12_der _ _ := Ok ();
  build := Ok ();
  base64_encode s := s;
|}.
Lemma toy_wire_laws : @WireLaws toy_response_json toy_render toy_app_libs.
Proof.
  split.
  - intros d. destruct (countable_serde_laws d) as (t & Ht & Hf).
    unfold render, toy_render. rewrite Ht. exact (f_equal (map_ok mkEnveloped) Hf).
  - intros d. destruct (countable_serde_laws d) as (t & Ht & Hf).
    unfold render, toy_render. rewrite Ht. exact (f_equal (map_ok mkEnveloped) Hf).
  - apply countable_serde_laws.
Qed.
Lemma toy_bodies_encode : @BodiesEncode toy_request_json toy_app_libs toy_response_json.
Proof. split; intros b; by eexists. Qed.

Definition toy_client : AuthClient := mkAuthClient [] toy_base NoAuth.
Lemma toy_token_client : @token_client toy_target toy_client.
Proof. split; [apply toy_target_laws|done]. Qed.
Definition toy_role_state : AppState (S := SessionTable) (R := SamlTables) :=
  mkServer (create_approle (mkAppRole "app" "id" 0 60 false ["p"]) toy_db).2 ∅ (∅, empty_saml_tables).
Definition toy_chance_at (t : Z) : Chance :=
  mkChance (mkClock t t) toy_no_http (λ _, Err "no network") true "salt" "secret" "bytes" "u1" "u2".
(** A network that records the requests and answers none. *)
Definition toy_recorder : Transport (list HttpRequest) := {|
  send req := λ l, (Err "no network", (l ++ [req])%list);
  jar_cookies _ := [];
|}.
Definition client_data (r : Result AppAuthResponse AuthError) : option (string * Z) :=
  match r with
  | Ok auth => Some (aa_client_token (env_data auth), aa_lease_duration (env_data auth))
  | Err _ => None
  end.

Lemma client_calls_reach_handlers_witness :
  let _ := toy_app_libs in let _ := toy_request_json in let _ := toy_response_json in
  let _ := toy_reqwest in let _ := toy_target in let _ := toy_recorder in
  Forall (λ call, reaches true call.1 (Some call.2))
    (user_calls toy_client "r" None ++
     session_calls toy_client "r" "alice" [] LogoutAllSessions [] ++
     realm_calls toy_client "r" toy_login_realm ++ admin_calls toy_client "r" "alice" toy_alice ++
     credential_calls toy_client "r" "bob" (mkUserPass "r" "bob" "" None false [] None) None "" "" ++
     app_role_calls toy_client "app" (mkAppRoleRoleRequest 0 60 [] true)
       (mkAppRoleSecretIdRequest 0 0) (mkK8sRoleRequest "" [] [] 0 None []) "" ++
     app_token_calls toy_client "id" None "app" "jwt" "hvs.abc").
Proof.
  intros AL RJ SJ RW UT T. pose proof toy_bodies_encode as ENC.
  assert (forallb plain ["r"; "bob"; "alice"; "app"] = true) as Hp by by vm_compute.
  exact (client_calls_reach_handlers (S := list HttpRequest) toy_client "r" "bob" "alice" "app" "app" "id"
    "jwt" "hvs.abc" "" "" None None None [] LogoutAllSessions [] toy_login_realm toy_alice
    (mkUserPass "r" "bob" "" None false [] None) (mkAppRoleRoleRequest 0 60 [] true)
    (mkAppRoleSecretIdRequest 0 0) (mkK8sRoleRequest "" [] [] 0 None []) "hvs.abc"
    toy_target_laws eq_refl Hp ltac:(discriminate) ltac:(discriminate)).
Defined.
Lemma app_token_lifecycle_witness :
  let _ := toy_app_libs in let _ := toy_sso_libs in let _ := saml_disabled in
  let _ := toy_request_json in let _ := toy_actix in let _ := toy_reqwest in
  let _ := toy_response_json in let _ := toy_target in let _ := toy_render in
  ∃ auth s', client_approle_login (T := network toy_app_config (toy_chance_at 100)) toy_client
      "id" None toy_role_state = (Ok auth, s') ∧
    ∃ role, aa_metadata (env_data auth) = [("role_name", role)] ∧
    token_lookup_self (T := network toy_app_config (toy_chance_at 110)) toy_client
      (aa_client_token (env_data auth)) s' =
    (Ok (mkEnveloped (mkAppTokenData (aa_client_token (env_data auth)) role
       (aa_policies (env_data auth)) true 50 100)), s').
Proof.
  intros AL SL SC RJ AX RW SJ UT RD. pose proof toy_wire_laws as WIRE.
  assert (0 < 60)%Z as Hl by lia. assert (0 ≤ 100 ≤ 110)%Z as Ht by lia.
  assert (100 + 60 ≤ i64_max)%Z as He by by vm_compute. assert (in_i64 110) as Hi by by vm_compute.
  destruct (client_approle_login (T := network toy_app_config (toy_chance_at 100)) toy_client
    "id" None toy_role_state) as [r s'] eqn:Hrun.
  assert (client_data r = Some ("hvs.bytes", 60%Z)) as Hd.
  { change r with (r, s').1. rewrite <-Hrun. by vm_compute. }
  destruct r as [auth|]; [|discriminate Hd]. injection Hd as Htok Hlease.
  exists auth, s'. split; [done|].
  destruct (app_token_lifecycle toy_app_config (toy_chance_at 100) (toy_chance_at 110) toy_client
    "id" None auth toy_role_state s') as (role & Hm & H).
  - exact toy_token_client.
  - reflexivity.
  - exact Hrun.
  - rewrite Hlease. exact Hl.
  - exact Ht.
  - rewrite Hlease. exact He.
  - exact Hi.
  - exists role. split; [exact Hm|]. rewrite Hlease in H. exact (proj1 H).
Defined.
